(* ===== verification/_CoqProject ===== *)
-Q . S2P
Prelude.v
Prog.v
Json.v
Model.v
Store.v
StoreFacts.v
Decimal.v
Calendar.v
Firestore.v
Externals.v
Es256.v
WebAuthn.v
Sys.v
X509.v
Attestation.v
Tpm.v
Mds.v
TpmFacts.v
MdsFacts.v
AttestationFacts.v
FidoStore.v
DocStore.v
DocTable.v
CasFacts.v
Nonce.v
Ciba.v
CibaFacts.v
Dcr.v
Claims.v
Accounts.v
AdminStore.v
AdminFacts.v
AccountFacts.v
DcrStore.v
Cli.v
FirestoreStore.v
Refinement.v
SharedUse.v
Provider.v
ProviderFacts.v
AuthChecks.v
Dpop.v
ClientAuth.v
RequestObject.v
Grants.v
GrantsFacts.v
GrantSafety.v
Http.v
Fido.v
FidoFacts.v
FidoWitnesses.v
I18n.v
FsClient.v
Keys.v
Fcm.v
Templates.v
Passkey.v
CibaEndpoints.v
Login.v
AdminWeb.v
PasskeyFacts.v
AdminWebFacts.v
VettingFacts.v
PasskeyWitnesses.v
FakeFirestore.v
FakeFacts.v
Authorize.v
Endpoints.v
Registration.v
WebFacts.v
EndpointFacts.v
Interleavings.v
WebWitnesses.v
JwsFacts.v
App.v
AppFacts.v
Records.v
Provenance.v
Deployment.v
ConsoleFacts.v
