(* ===== verification/Prelude.v ===== *)
(** * rust-op: a verification library of the OpenID Provider

    rust-op is an OpenID Provider: OAuth 2.0 and OpenID Connect with DPoP, PKCE, pushed
    and signed authorization requests, back-channel authentication (CIBA), passkeys
    (WebAuthn) as the only credential, dynamic client registration under initial access
    tokens, an administration console, and a FIDO2 conformance server.  It runs as several
    processes over one Firestore database, or as one process over in-memory stores.

    ** How the program is modelled

    A handler is an [async fn]; between two awaits it computes, and an await on a store, the
    database, the clock or a service is one atomic operation.  A handler is therefore a
    program [prog E A] (Prog.v): a finite tree of operations of an effect signature [E].
    [run] executes it alone, [steps] interleaves a pool of programs with steps of the
    environment (time, the background sweep, other processes), and [thread_path] follows one
    program through every answer it may get: theorems about [thread_path] hold for every
    state of the services, failures included.  The layers of signatures follow the code:
      - [fsE] (Firestore.v) the document operations, [sysE] (Sys.v) those and the process's
        clock and randomness;
      - [storeE] (Store.v), [cibaE] (Ciba.v), [fidoStoreE] (FidoStore.v) the traits;
      - [provE] (Provider.v) what a web handler awaits, [fidoE] (Fido.v) what the conformance
        server awaits, [appE] (App.v) both;
      - [httpE] (FsClient.v, Keys.v) and [resolverE] (Keys.v) outgoing requests, [netE]
        (X509.v) those of the metadata service.
    Machine integers are [Z] with their wrap-around written out ([wrap_i64], [wrap_u64]; the
    program is built in release mode, where arithmetic wraps), texts and bytes are [string]s
    of bytes, [HashMap]s are [gmap]s, [Result] is [result].  The shared state of a request
    is the world [world] (Provider.v): clock, stores, nonce tables, rate limiters, database.

    ** Files and the sources they model

    Foundations: Prelude (results, integers, text operations, tactics), Prog (programs, runs,
    interleavings, one-shot resources, and the proof rules [needs], [returns], [always],
    [guarded], [preceded], [avoids]), Json, Decimal, Calendar (the RFC 3339 part of
    firestore.rs), Externals (the crates' operations), Sys.
      - Data: Model (model.rs, error.rs, context.rs).
      - Stores: Store, StoreFacts (store.rs); Firestore, FsClient (firestore.rs), FakeFirestore,
        FakeFacts (its test server); FirestoreStore (firestore_store.rs); Nonce (nonce.rs);
        Ciba, CibaFacts (ciba.rs); DcrStore (dcr_store.rs, par.rs).
      - The database as an interface: DocStore (the contract), DocTable (a reference service),
        CasFacts (single use by compare-and-set, an invariant of one document),
        Refinement and SharedUse (the stores as clients of the contract).
      - Protocol: Dpop (dpop.rs), ClientAuth (client_auth.rs), RequestObject
        (request_object.rs), AuthChecks (auth_checks.rs, interaction_policy.rs), Grants,
        GrantsFacts, GrantSafety (grants.rs), Claims (claims.rs), Dcr (dcr.rs), Provider,
        ProviderFacts (provider.rs).
      - Keys: Es256 (es256.rs), Keys (jws.rs, kms.rs, jwks_resolver.rs, the start-up in
        main.rs), JwsFacts.
      - Accounts: Accounts (registration.rs), WebAuthn (webauthn.rs and the part of
        fido/verify.rs and sig.rs it uses), AdminStore, AdminFacts (admin_store.rs,
        audit_log.rs, account_admin.rs), AccountFacts (freezing, the one-time challenges).
      - Endpoints: Http (shared parts of web/mod.rs, response_mode.rs, step_up.rs), Authorize,
        Endpoints, Registration (web/oidc.rs), Passkey, Login (web/login.rs, web/register.rs
        and pages), CibaEndpoints (web/ciba.rs), AdminWeb (web/admin.rs), I18n
        (web/i18n.rs), Fcm (fcm.rs, mailer.rs), Templates (the texts of the pages,
        web/pages.rs); their theorems in WebFacts, EndpointFacts, Interleavings, PasskeyFacts,
        AdminWebFacts, VettingFacts.
      - The whole: App, AppFacts (router and request_trace of web/mod.rs), Cli (the
        administrator's commands of main.rs); Records, Provenance, Deployment, ConsoleFacts
        (the server with its stores on the database, as main.rs puts it together).
      - Conformance server: X509, Attestation, AttestationFacts (fido/verify.rs), Tpm, TpmFacts
        (fido/tpm.rs), Mds, MdsFacts (fido/mds.rs), FidoStore (fido/store.rs), Fido, FidoFacts
        (fido/mod.rs).
      - Concrete inputs: PasskeyWitnesses, WebWitnesses, FidoWitnesses.

    ** What the theorems show

      - Single use: codes, refresh tokens, interactions, mandates, approved requests and
        nonces are won at most once, by whatever requests interleave in one process
        ([OneShot] of Prog) and by whatever processes share the database ([CasFacts],
        [SharedUse]; for the replay tables [replay_env] of ProviderFacts, in memory and on
        Firestore; for initial access tokens [deleted_once] of Interleavings).
      - Authenticity: what stands before the operation that decides.  A session, an approval, a
        credential, a registration, an administrator's action, a metadata entry happens only
        after the reads and checks that justify it ([preceded]), and a client is created
        after its initial access token was spent.
      - Soundness of grants: what an issued token is bound to, what rotation keeps, what reuse
        and replay revoke, what a refusal leaves unchanged, and that an honest client is served.
      - The whole server: which route may change which records and documents ([matrix] of
        AppFacts), and that the conformance routes exist only when switched on.
      - The deployed server: any requests at the same time, the stores replaced by their
        programs on the database ([app_op]), so that requests interleave at the operations
        of the database.  Every operation of every handler is related to what its thread has
        read or verified before (Records, Provenance), and the threads are put together by
        the contract of the database (Deployment): an account in a session, a code or a token
        is one whose passkey has signed, and what only the console changes, changes for a
        listed administrator who has signed in (ConsoleFacts).
      - Refinement: the stores on Firestore implement the in-memory ones: the CIBA store in its
        six operations on requests, and [FirestoreStore], on records that have not expired,
        for every client that calls and waits ([client_refines]; [fits] says what is left
        out, where the two differ); the HTTP client against the test server implements the document
        contract; the limiter and the sweep agree with their references; chain validation
        agrees with an inductive definition.
      - Round trips: documents, timestamps, TPM structures, issued tokens.
      - Invariants: the in-memory store stays well formed, the registry of administrators never
        empties.
      - Start-up and commands: in production the process signs with keys that outlive it or
        exits; the migration of the static clients succeeds only when every client is stored.
      - Time: how long minted tokens live, how old a client's fetched keys can be.

    ** Bounds and fuel

    [list_pages] (FsClient) asks for at most [fuel] pages, and the code's loop is the limit for
    growing fuel; [list_collection_terminates] shows that it returns exactly when the service
    comes to a last page within the fuel, and that against the service of the tests as many
    pages as the listing has are enough.  [FAMILY_GUARD] is the code's own bound of 64 steps along a series of
    refresh tokens.  [localize] (I18n) replaces one mark of the text per unit of fuel and
    gets the length of the text plus one.  [dec_go] (Decimal) prints at most twenty digits,
    which every u64 fits.  Everything else is structural.

    ** What the crates do

    Hashes, base64, signatures, JSON, forms, CBOR, certificates, identifiers and randomness are
    the operations of the classes [Externals], [X509], [SigningKeys], [IatCodec],
    [AdminCodec], [MdsCodec] and [PercentDecoding]; matching a path, decoding the arguments
    of a handler and the automatic answers of a route are those of [Axum]; the database is
    [FsBackend].  A theorem that relies on what a crate promises names it as a hypothesis
    ([FreshIds], [DocDb], [JoseLaws]; for the deployed server [Behind], [clock_fits] and
    [drawn_once]; for the refinement of the store [served], a database that answers, and
    [fits]; for a replay table on Firestore [replay_db] and [nonce_env], a database that
    keeps its contract and whose nonces are only read, created and, once over, deleted; for
    registrations at once [contract_env]), and its witness runs on a concrete instance.

    ** Not modelled

    Log lines and tracing; the listening sockets and the TLS transport; the loop that calls the
    sweep (the sweep itself is a step of the environment); drawing the ephemeral key of a
    local process; the tests, fuzz and Kani harnesses.  Cancellation of a request between two
    awaits is a run that stops: theorems about [thread_path] and [steps] include it. *)

From Stdlib Require Export ZArith Lia.
From Stdlib Require Strings.Ascii.
From stdpp Require Export base numbers strings gmap fin_maps list.
Export Stdlib.Strings.Ascii (ascii(..), ascii_of_nat, nat_of_ascii, nat_ascii_embedding, ascii_nat_embedding).
Export (notations) Stdlib.Strings.Ascii.

#[local] Open Scope Z_scope.

(** The constants and results of this development are written in stdpp's
    scope; every file opens the arithmetic scope it needs. *)

(** ** Fallible computations: [Result<A, E>] *)

Inductive result (E A : Type) : Type :=
| Ok (a : A)
| Err (e : E).
Arguments Ok {_ _} _.
Arguments Err {_ _} _.

#[export] Instance result_eq_dec {E A} `{EqDecision E, EqDecision A} : EqDecision (result E A).
Proof. solve_decision. Defined.
#[export] Instance result_ret {E} : MRet (result E) := fun A a => Ok a.
#[export] Instance result_bind {E} : MBind (result E) :=
  fun A B f r => match r with Ok a => f a | Err e => Err e end.
#[export] Instance result_fmap {E} : FMap (result E) :=
  fun A B f r => match r with Ok a => Ok (f a) | Err e => Err e end.

(** [Option::ok_or] and [Result::map_err], [Result::ok]. *)
Definition ok_or {E A} (e : E) (o : option A) : result E A :=
  match o with Some a => Ok a | None => Err e end.
Definition map_err {E F A} (f : E -> F) (r : result E A) : result F A :=
  match r with Ok a => Ok a | Err e => Err (f e) end.
Definition result_ok {E A} (r : result E A) : option A :=
  match r with Ok a => Some a | Err _ => None end.
Definition is_ok {E A} (r : result E A) : bool :=
  match r with Ok _ => true | Err _ => false end.

Lemma ok_or_Ok {E A} (e : E) (o : option A) a : ok_or e o = Ok a <-> o = Some a.
Proof. destruct o; simpl; split; congruence. Qed.

Lemma map_err_Ok {E F A} (f : E -> F) (r : result E A) a : map_err f r = Ok a <-> r = Ok a.
Proof. destruct r; simpl; split; congruence. Qed.

Lemma bind_Ok {E A B} (f : A -> result E B) (r : result E A) b :
  (r ≫= f) = Ok b <-> exists a, r = Ok a /\ f a = Ok b.
Proof. destruct r; simpl; split; [eauto | | congruence |]; intros (? & ? & ?); congruence. Qed.

(** ** Machine integers

    [u64] values are the [Z] in [0, 2^64); [i64] those in [-2^63, 2^63).  The
    release build (no [overflow-checks] in Cargo.toml) wraps. *)

Definition u64_max : Z := 2 ^ 64 - 1.
Definition i64_min : Z := - 2 ^ 63.
Definition i64_max : Z := 2 ^ 63 - 1.

Definition wrap_i64 (z : Z) : Z := (z + 2 ^ 63) mod 2 ^ 64 - 2 ^ 63.
Definition wrap_u64 (z : Z) : Z := z mod 2 ^ 64.
Definition in_i64 (z : Z) : Prop := i64_min <= z <= i64_max.
Definition in_u64 (z : Z) : Prop := 0 <= z <= u64_max.

Definition i64_saturating_add (a b : Z) : Z := Z.max i64_min (Z.min i64_max (a + b)).
Definition u64_saturating_sub (a b : Z) : Z := Z.max 0 (a - b).
(** [i64::abs] in a release build: [abs (i64::MIN) = i64::MIN]. *)
Definition i64_abs (z : Z) : Z := wrap_i64 (Z.abs z).

Lemma wrap_i64_id z : in_i64 z -> wrap_i64 z = z.
Proof.
  unfold in_i64, wrap_i64, i64_min, i64_max. intros H.
  rewrite Z.mod_small; lia.
Qed.

Lemma wrap_i64_range z : in_i64 (wrap_i64 z).
Proof.
  unfold in_i64, wrap_i64, i64_min, i64_max.
  pose proof (Z.mod_pos_bound (z + 2 ^ 63) (2 ^ 64) ltac:(lia)). lia.
Qed.

(** ** Rust strings

    A Rust [String]/[&str] is its UTF-8 bytes: a [string] here is that byte
    sequence, so [as_bytes] is the identity.  The byte-level definitions below
    agree with the [char]-level ones of Rust on every well-formed UTF-8 text:
    an ASCII pattern never occurs inside a multi-byte sequence, and the
    multi-byte white space is matched as whole sequences. *)

Fixpoint str_contains (c : ascii) (s : string) : bool :=
  match s with
  | EmptyString => false
  | String a s' => if decide (a = c) then true else str_contains c s'
  end.

Definition str_is_empty (s : string) : bool :=
  match s with EmptyString => true | _ => false end.

(** [str::split(c)] with an ASCII pattern: always at least one piece. *)
Fixpoint str_split (c : ascii) (s : string) : list string :=
  match s with
  | EmptyString => [""]
  | String a s' =>
      if decide (a = c) then "" :: str_split c s'
      else match str_split c s' with
           | p :: ps => String a p :: ps
           | [] => [String a ""]
           end
  end.

(** [str::split_once(c)]. *)
Fixpoint str_split_once (c : ascii) (s : string) : option (string * string) :=
  match s with
  | EmptyString => None
  | String a s' =>
      if decide (a = c) then Some ("", s')
      else match str_split_once c s' with
           | Some (l, r) => Some (String a l, r)
           | None => None
           end
  end.

(** [str::strip_prefix] and [str::starts_with]. *)
Fixpoint strip_prefix (p s : string) : option string :=
  match p, s with
  | EmptyString, _ => Some s
  | String a p', String b s' => if decide (a = b) then strip_prefix p' s' else None
  | String _ _, EmptyString => None
  end.
Definition starts_with (p s : string) : bool :=
  match strip_prefix p s with Some _ => true | None => false end.

(** [str::contains] with a [&str] pattern. *)
Fixpoint str_contains_str (p s : string) : bool :=
  starts_with p s ||
  match s with EmptyString => false | String _ s' => str_contains_str p s' end.

(** [str::split_once] with a [&str] pattern. *)
Fixpoint str_split_once_str (p s : string) : option (string * string) :=
  match strip_prefix p s with
  | Some r => Some ("", r)
  | None =>
      match s with
      | EmptyString => None
      | String a s' =>
          match str_split_once_str p s' with
          | Some (l, r) => Some (String a l, r)
          | None => None
          end
      end
  end.

(** Number of bytes of the white-space character a text starts with, 0 if it
    does not start with one (Unicode [White_Space], as [char::is_whitespace]). *)
Definition byte (n : nat) : ascii := ascii_of_nat n.
Definition ws_prefix (s : string) : nat :=
  match s with
  | EmptyString => 0%nat
  | String a s1 =>
      let n := nat_of_ascii a in
      if ((9 <=? n) && (n <=? 13) || (n =? 32))%nat then 1%nat
      else match s1 with
      | EmptyString => 0%nat
      | String b s2 =>
          let m := nat_of_ascii b in
          if ((n =? 194) && ((m =? 133) || (m =? 160)))%nat then 2%nat
          else match s2 with
          | EmptyString => 0%nat
          | String c _ =>
              let k := nat_of_ascii c in
              if ((n =? 225) && (m =? 154) && (k =? 128)
                  || (n =? 226) && (m =? 128) && ((128 <=? k) && (k <=? 138))
                  || (n =? 226) && (m =? 128) && ((k =? 168) || (k =? 169) || (k =? 175))
                  || (n =? 226) && (m =? 129) && (k =? 159)
                  || (n =? 227) && (m =? 128) && (k =? 128))%nat
              then 3%nat else 0%nat
          end
      end
  end.

(** [str::split_whitespace]: the maximal runs between white space, no empty
    piece.  [skip] counts the bytes of a white-space character still to drop,
    [cur] is the word being read. *)
Fixpoint split_ws_go (cur : string) (skip : nat) (s : string) : list string :=
  match s with
  | EmptyString => if str_is_empty cur then [] else [cur]
  | String a s' =>
      match skip with
      | S k => split_ws_go cur k s'
      | O =>
          match ws_prefix s with
          | O => split_ws_go (cur +:+ String a "") 0 s'
          | S k => if str_is_empty cur then split_ws_go "" k s'
                   else cur :: split_ws_go "" k s'
          end
      end
  end.
Definition split_whitespace (s : string) : list string := split_ws_go "" 0 s.

Definition ascii_lower (a : ascii) : ascii :=
  let n := nat_of_ascii a in
  if ((65 <=? n) && (n <=? 90))%nat then ascii_of_nat (n + 32) else a.
Fixpoint to_ascii_lower (s : string) : string :=
  match s with EmptyString => "" | String a s' => String (ascii_lower a) (to_ascii_lower s') end.
Definition eq_ignore_ascii_case (a b : string) : bool :=
  bool_decide (to_ascii_lower a = to_ascii_lower b).

Lemma str_app_assoc (a b c : string) : (a +:+ b) +:+ c = a +:+ (b +:+ c).
Proof. induction a as [|x a IH]; [done|]. cbv [String.app] in *. congruence. Qed.

(** ** Lists *)

(** [Iterator::find] and [any]. *)
Definition list_any {A} (f : A -> bool) (l : list A) : bool := existsb f l.
Fixpoint list_find_first {A} (f : A -> bool) (l : list A) : option A :=
  match l with
  | [] => None
  | x :: l' => if f x then Some x else list_find_first f l'
  end.

(** A stable sort ([sort_by]) for a comparison. *)
Fixpoint insert_by {A} (cmp : A -> A -> comparison) (x : A) (l : list A) : list A :=
  match l with
  | [] => [x]
  | y :: l' => match cmp x y with Gt => y :: insert_by cmp x l' | _ => x :: l end
  end.
Definition sort_by {A} (cmp : A -> A -> comparison) (l : list A) : list A := foldr (insert_by cmp) [] l.
(** [str::cmp]: by bytes. *)
Definition str_cmp : string -> string -> comparison := Stdlib.Strings.String.compare.

Lemma insert_by_Permutation {A} (cmp : A -> A -> comparison) x l : insert_by cmp x l ≡ₚ x :: l.
Proof.
  induction l as [|y l IH]; simpl; [done|]. destruct (cmp x y); [done|done|].
  rewrite IH. apply Permutation_swap.
Qed.
Lemma sort_by_Permutation {A} (cmp : A -> A -> comparison) l : sort_by cmp l ≡ₚ l.
Proof. induction l as [|x l IH]; simpl; [done|]. by rewrite insert_by_Permutation, IH. Qed.

Lemma strip_prefix_Some p s r : strip_prefix p s = Some r <-> s = p +:+ r.
Proof.
  revert s. induction p as [|a p IH]; intros s; cbn [strip_prefix].
  - change ("" +:+ r) with r. split; congruence.
  - change (String a p +:+ r) with (String a (p +:+ r)).
    destruct s as [|b s]; [done|]. destruct (decide (a = b)) as [->|Hne].
    + rewrite IH. split; congruence.
    + split; congruence.
Qed.

Lemma str_app_nil_r (a : string) : a +:+ "" = a.
Proof. induction a as [|c a IH]; [done|]. change (String c a +:+ "") with (String c (a +:+ "")). by rewrite IH. Qed.
Lemma split_once_str_Some p s l r : str_split_once_str p s = Some (l, r) -> s = l +:+ p +:+ r.
Proof.
  revert l r. induction s as [|a s IH]; intros l r; cbn [str_split_once_str];
    (destruct (strip_prefix p _) as [r'|] eqn:Hp; [intros [= <- <-]; by apply strip_prefix_Some in Hp|]); [done|].
  destruct (str_split_once_str p s) as [[l' r']|]; [|done]. intros [= <- <-].
  change (String a l' +:+ p +:+ r') with (String a (l' +:+ p +:+ r')). by rewrite <- (IH l' r').
Qed.
Lemma starts_with_Some p s : starts_with p s = true <-> exists r, s = p +:+ r.
Proof.
  unfold starts_with. setoid_rewrite <- strip_prefix_Some. destruct (strip_prefix p s); naive_solver.
Qed.

Lemma list_any_true {A} (f : A -> bool) (l : list A) :
  list_any f l = true <-> exists x, x ∈ l /\ f x = true.
Proof.
  unfold list_any. rewrite existsb_exists.
  setoid_rewrite list_elem_of_In. done.
Qed.

Lemma list_find_first_None {A} (f : A -> bool) (l : list A) x : list_find_first f l = None -> x ∈ l -> f x = false.
Proof.
  induction l as [|y l IH]; simpl; [by intros _ ?%elem_of_nil|]. destruct (f y) eqn:Hy; [done|].
  intros Hn [->|Hx]%elem_of_cons; auto.
Qed.
Lemma list_find_first_Some {A} (f : A -> bool) (l : list A) x :
  list_find_first f l = Some x -> x ∈ l /\ f x = true.
Proof.
  induction l as [|y l IH]; simpl; [done|].
  intros Hf. destruct (f y) eqn:Hy; simplify_eq.
  - split; [left | done].
  - destruct (IH Hf). split; [by right | done].
Qed.

(** ** Automation

    [oidc] collects the lemmas that close the common side conditions. *)

Create HintDb oidc discriminated.
Create Rewrite HintDb oidc.
#[export] Hint Resolve wrap_i64_range : oidc.
#[export] Hint Rewrite @ok_or_Ok @bind_Ok : oidc.

(** Case analysis on the matches of a hypothesis that holds a result. *)
Ltac destruct_matches_in H :=
  repeat match type of H with
  | context [match ?x with _ => _ end] => destruct x eqn:?; simplify_eq/=
  end.
Ltac destruct_matches :=
  repeat (case_match; simplify_eq/=).
