(* ===== verification/Prog.v ===== *)
(** * Effectful programs, their sequential runs and their interleavings

    The handlers of the server are [async fn]s: between two awaits they
    compute, and every await on a store is one atomic operation.  A handler is
    therefore a finite tree of operations of an effect signature [E]
    ([E X] is the type of the operations answered by an [X]); [run] executes it
    alone, and [steps] interleaves a pool of such programs in any order, with
    steps of the environment (the clock advancing) in between. *)

From S2P Require Import Prelude.

(** ** Programs *)

Inductive prog (E : Type -> Type) (A : Type) : Type :=
| Ret (a : A)
| Vis {X : Type} (e : E X) (k : X -> prog E A).
Arguments Ret {_ _} _.
Arguments Vis {_ _ _} _ _.

Fixpoint prog_bind_go {E A B} (f : A -> prog E B) (p : prog E A) : prog E B :=
  match p with
  | Ret a => f a
  | Vis e k => Vis e (fun x => prog_bind_go f (k x))
  end.

#[export] Instance prog_ret {E} : MRet (prog E) := fun A a => Ret a.
#[export] Instance prog_bind {E} : MBind (prog E) := fun A B f p => prog_bind_go f p.

Definition trigger {E X} (e : E X) : prog E X := Vis e Ret.

(** The [?] operator: an [Err] ends the handler. *)
Definition try_bind {E Er A B} (p : prog E (result Er A)) (f : A -> prog E (result Er B)) :
    prog E (result Er B) :=
  p ≫= fun r => match r with Ok a => f a | Err e => Ret (Err e) end.
Notation "x ←? p ; k" := (try_bind p (fun x => k))
  (at level 100, p at next level, k at level 200, right associativity) : stdpp_scope.

Lemma try_ok {E Er A B} (a : A) (f : A -> prog E (result Er B)) : try_bind (mret (Ok a)) f = f a.
Proof. done. Qed.
Lemma try_err {E Er A B} (e : Er) (f : A -> prog E (result Er B)) : try_bind (mret (Err e)) f = mret (Err e).
Proof. done. Qed.

(** Embedding a signature in another one. *)
Fixpoint translate {E F A} (f : forall X, E X -> F X) (p : prog E A) : prog F A :=
  match p with
  | Ret a => Ret a
  | Vis e k => Vis (f _ e) (fun x => translate f (k x))
  end.

(** Implementing the operations of a signature by programs of another one. *)
Fixpoint interp {E F A} (f : forall X, E X -> prog F X) (p : prog E A) : prog F A :=
  match p with
  | Ret a => Ret a
  | Vis e k => f _ e ≫= fun x => interp f (k x)
  end.

(** ** Sequential runs *)

Definition handler (E : Type -> Type) (S : Type) := forall X, E X -> S -> X * S.

Fixpoint run {E S A} (h : handler E S) (p : prog E A) (s : S) : A * S :=
  match p with
  | Ret a => (a, s)
  | Vis e k => let '(x, s') := h _ e s in run h (k x) s'
  end.

Lemma run_bind {E S A B} (h : handler E S) (p : prog E A) (f : A -> prog E B) s :
  run h (p ≫= f) s = let '(a, s') := run h p s in run h (f a) s'.
Proof.
  revert s. induction p as [a | X e k IH]; intros s; simpl; [done|].
  destruct (h X e s) as [x s']. apply IH.
Qed.

Lemma run_trigger {E S X} (h : handler E S) (e : E X) s :
  run h (trigger e) s = h X e s.
Proof. simpl. by destruct (h X e s). Qed.

Lemma run_try_bind {E S Er A B} (h : handler E S) (p : prog E (result Er A))
    (f : A -> prog E (result Er B)) s :
  run h (try_bind p f) s =
    match run h p s with
    | (Ok a, s') => run h (f a) s'
    | (Err e, s') => (Err e, s')
    end.
Proof.
  unfold try_bind. rewrite run_bind. destruct (run h p s) as [[a|e] s']; done.
Qed.

Lemma run_result {E S A} (h : handler E S) (p : prog E A) s a : (run h p s).1 = a -> run h p s = (a, (run h p s).2).
Proof. intros <-. by destruct (run h p s). Qed.

(** ** Interleavings *)

Section pool.
Context {E : Type -> Type} {S A : Type}.
Context (h : handler E S) (env : S -> S -> Prop).

  (** What is observed: operation [e] of thread [i] answered by [x], or a step
      of the environment. *)
Inductive event : Type :=
  | Ev (i : nat) {X : Type} (e : E X) (x : X)
  | EvEnv.

Definition cfg : Type := (list (prog E A) * S)%type.

Inductive step : cfg -> event -> cfg -> Prop :=
  | step_op i X (e : E X) k ps s x s' :
      ps !! i = Some (Vis e k) ->
      h X e s = (x, s') ->
      step (ps, s) (Ev i e x) (<[i := k x]> ps, s')
  | step_env ps s s' :
      env s s' -> step (ps, s) EvEnv (ps, s').

Inductive steps : cfg -> list event -> cfg -> Prop :=
  | steps_nil c : steps c [] c
  | steps_cons c ev c' tr c'' : step c ev c' -> steps c' tr c'' -> steps c (ev :: tr) c''.

  (** The world alone along a trace. *)
Inductive wexec : S -> list event -> S -> Prop :=
  | wexec_nil s : wexec s [] s
  | wexec_op s i X (e : E X) x s' tr s'' :
      h X e s = (x, s') -> wexec s' tr s'' -> wexec s (Ev i e x :: tr) s''
  | wexec_env s s' tr s'' :
      env s s' -> wexec s' tr s'' -> wexec s (EvEnv :: tr) s''.

(** One thread alone along its own events. *)
Fixpoint thread_path (p : prog E A) (tr : list event) (p' : prog E A) : Prop :=
  match p with
  | Ret a => tr = [] /\ p' = Ret a
  | Vis e k =>
      (tr = [] /\ p' = Vis e k) \/
      exists i x tr', tr = Ev i e x :: tr' /\ thread_path (k x) tr' p'
  end.

Lemma thread_path_nil p : thread_path p [] p.
Proof. destruct p; simpl; auto. Qed.
Lemma thread_path_op i X (e : E X) k x tr p' : thread_path (k x) tr p' -> thread_path (Vis e k) (Ev i e x :: tr) p'.
Proof. simpl. eauto 6. Qed.

Definition of_thread (i : nat) (ev : event) : Prop :=
    match ev with Ev j _ _ => j = i | EvEnv => False end.
#[global] Instance of_thread_dec i ev : Decision (of_thread i ev).
  Proof. destruct ev; simpl; apply _. Defined.

Lemma steps_wexec c tr c' : steps c tr c' -> wexec c.2 tr c'.2.
  Proof.
    induction 1 as [c | c ev c' tr c'' Hstep _ IH]; [constructor|].
    destruct Hstep; simpl in *; econstructor; eauto.
  Qed.

Lemma steps_thread_path c tr c' i p :
    steps c tr c' -> c.1 !! i = Some p ->
    exists p', c'.1 !! i = Some p' /\ thread_path p (filter (of_thread i) tr) p'.
  Proof.
    intros Hsteps. revert p.
    induction Hsteps as [c | c ev c' tr c'' Hstep _ IH]; intros p Hp.
    { exists p. split; [done | apply thread_path_nil]. }
    destruct Hstep as [j X e k ps s x s' Hj Hh | ps s s' Henv]; simpl in *.
    - destruct (decide (j = i)) as [->|Hne].
      + simplify_eq. destruct (IH (k x)) as (p' & Hp' & Hpath).
        { apply list_lookup_insert_eq. by eapply lookup_lt_Some. }
        exists p'. split; [done|]. rewrite filter_cons_True; [|done]. by apply thread_path_op.
      + destruct (IH p) as (p' & Hp' & Hpath).
        { by rewrite list_lookup_insert_ne. }
        exists p'. split; [done|]. by rewrite filter_cons_False.
    - destruct (IH p Hp) as (p' & Hp' & Hpath). exists p'. split; [done|].
      rewrite filter_cons_False; [done | by intros []].
  Qed.

Lemma wexec_app s tr1 tr2 s' :
    wexec s (tr1 ++ tr2) s' <-> exists sm, wexec s tr1 sm /\ wexec sm tr2 s'.
  Proof.
    split.
    - revert s. induction tr1 as [|ev tr1 IH]; simpl; intros s Hw.
      { exists s. split; [constructor | done]. }
      inversion Hw; subst; destruct (IH _ ltac:(eassumption)) as (sm & ? & ?);
        exists sm; (split; [econstructor; eauto | done]).
    - intros (sm & Hw1 & Hw2). induction Hw1; simpl; [done|..]; econstructor; eauto.
  Qed.

  (** A sequential run is one of the interleavings; its trace. *)
Fixpoint run_trace (i : nat) (p : prog E A) (s : S) : list event :=
  match p with
  | Ret _ => []
  | Vis e k => let '(x, s') := h _ e s in Ev i e x :: run_trace i (k x) s'
  end.

Lemma steps_run_trace (p : prog E A) ps i s :
    ps !! i = Some p ->
    steps (ps, s) (run_trace i p s) (<[i := Ret (run h p s).1]> ps, (run h p s).2).
  Proof.
    revert ps s. induction p as [a | X e k IH]; intros ps s Hi; simpl.
    - rewrite list_insert_id; [constructor | done].
    - destruct (h X e s) as [x s'] eqn:Hh. simpl.
      pose proof (IH x (<[i := k x]> ps) s') as Htr.
      rewrite list_insert_insert_eq in Htr.
      econstructor; [by econstructor | apply Htr].
      apply list_lookup_insert_eq. by eapply lookup_lt_Some.
  Qed.

Lemma run_steps (p : prog E A) ps i s :
    ps !! i = Some p ->
    exists tr, steps (ps, s) tr (<[i := Ret (run h p s).1]> ps, (run h p s).2).
  Proof. intros Hi. exists (run_trace i p s). by apply steps_run_trace. Qed.

Lemma steps_app c tr1 c' tr2 c'' : steps c tr1 c' -> steps c' tr2 c'' -> steps c (tr1 ++ tr2) c''.
  Proof. induction 1; simpl; [done|]. intros ?. econstructor; eauto. Qed.
End pool.
Arguments event : clear implicits.
Arguments cfg : clear implicits.

Lemma run_trace_path {E S A} (h : handler E S) i (p : prog E A) s :
  thread_path p (run_trace h i p s) (Ret (run h p s).1).
Proof.
  revert s. induction p as [a | X e k IH]; intros s; simpl; [done|].
  destruct (h X e s) as [x s']. right. exists i, x, (run_trace h i (k x) s'). split; [done | apply IH].
Qed.

(** The events of a run before the [n]-th, and the [n]-th. *)
Lemma split_at {E} (l : list (event E)) n : (n < List.length l)%nat -> l = take n l ++ nth n l EvEnv :: drop (S n) l.
Proof. intros Hn. symmetry. apply take_drop_middle. destruct (lookup_lt_is_Some_2 l n Hn) as [e He]. by rewrite (nth_lookup_Some l n EvEnv e He). Qed.

(** ** One-shot operations

    The interface of every single-use resource of the server (authorization
    codes, refresh tokens, mandates, interactions, approved back-channel
    requests, nonces): some answers are [wins]; a win spends the resource, it
    stays spent under every operation that does not [resets] it, and a spent
    resource gives no further win. *)

Class OneShot {E S} (h : handler E S) (env : S -> S -> Prop)
    (wins resets : forall X, E X -> X -> bool) := {
  spent : S -> Prop;
  win_spends X (e : E X) s x s' :
    h X e s = (x, s') -> wins X e x = true -> spent s';
  spent_stays X (e : E X) s x s' :
    h X e s = (x, s') -> spent s -> resets X e x = false -> spent s';
  spent_no_win X (e : E X) s x s' :
    h X e s = (x, s') -> spent s -> wins X e x = false;
  spent_env s s' : env s s' -> spent s -> spent s'
}.

Section one_shot.
Context {E S} (h : handler E S) (env : S -> S -> Prop).
Context (wins resets : forall X, E X -> X -> bool).
Context `{!OneShot h env wins resets}.

Definition ev_wins (ev : event E) : Prop :=
    match ev with Ev _ e x => wins _ e x = true | EvEnv => False end.
Definition ev_resets (ev : event E) : Prop :=
    match ev with Ev _ e x => resets _ e x = true | EvEnv => False end.

Definition resets_event (ev : event E) : bool :=
    match ev with Ev _ e x => resets _ e x | EvEnv => false end.
Lemma no_resets tr :
    forallb (fun ev => negb (resets_event ev)) tr = true -> Forall (fun ev => ~ ev_resets ev) tr.
  Proof.
    intros Hf. apply Forall_forall. intros ev Hin. apply list_elem_of_In in Hin.
    pose proof (proj1 (forallb_forall _ _) Hf ev Hin) as Hn. destruct ev; simpl in *; [|by intros []].
    by apply negb_true_iff, not_true_iff_false in Hn.
  Qed.

Lemma spent_wexec s tr s' :
    wexec h env s tr s' -> spent s -> Forall (fun ev => ~ ev_resets ev) tr ->
    spent s' /\ Forall (fun ev => ~ ev_wins ev) tr.
  Proof.
    intros Hw. induction Hw as [s | s i X e x s' tr s'' Hh Hw IH | s s' tr s'' Henv Hw IH];
      intros Hs Hr; [done|..]; apply Forall_cons in Hr as [Hr Htr].
    - simpl in Hr. apply not_true_is_false in Hr.
      destruct IH as [? ?]; [exact (spent_stays X e s x s' Hh Hs Hr)|done|]. split; [done|].
      constructor; [|done]. simpl. by rewrite (spent_no_win X e s x s' Hh Hs).
    - destruct IH as [? ?]; [by eapply spent_env|done|]. split; [done|].
      by constructor; simpl.
  Qed.

  (** Two different positions of a trace without reset cannot both win. *)
Lemma one_win s tr s' i j evi evj :
    wexec h env s tr s' -> Forall (fun ev => ~ ev_resets ev) tr ->
    tr !! i = Some evi -> tr !! j = Some evj -> ev_wins evi -> ev_wins evj -> i = j.
  Proof.
    assert (Hlt : forall s tr s' i j evi evj,
      wexec h env s tr s' -> Forall (fun ev => ~ ev_resets ev) tr ->
      tr !! i = Some evi -> tr !! j = Some evj -> ev_wins evi -> ev_wins evj ->
      (i < j)%nat -> False).
    { clear -OneShot0. intros s tr s' i j evi evj Hw Hr Hi Hj Hwi Hwj Hij.
      apply list_elem_of_split_length in Hi as (l1 & l2 & -> & ->).
      rewrite lookup_app_r in Hj by lia. rewrite lookup_cons_ne_0 in Hj by lia.
      apply wexec_app in Hw as (sm & _ & Hw).
      apply Forall_app in Hr as [_ Hr]. apply Forall_cons in Hr as [_ Hr].
      inversion Hw; subst; [|done]. simpl in Hwi.
      edestruct spent_wexec as [_ Hno]; [eassumption | by eapply win_spends | done |].
      rewrite Forall_forall in Hno. eapply Hno; [|done].
      by eapply list_elem_of_lookup_2. }
    intros. destruct (lt_eq_lt_dec i j) as [[?|?]|?]; [exfalso; eauto | done | exfalso; eauto].
  Qed.

  (** Threads: if the outcome [done] of a program is only reached through a
      win, two different threads of a pool never both have that outcome. *)
Lemma at_most_one_thread {A} (good : prog E A -> Prop) (ps : list (prog E A)) s tr ps' s' i j pi pj :
    steps h env (ps, s) tr (ps', s') ->
    Forall (fun ev => ~ ev_resets ev) tr ->
    (forall t p p', ps !! t = Some p -> (t = i \/ t = j) -> good p' -> forall evs, thread_path p evs p' -> Exists ev_wins evs) ->
    is_Some (ps !! i) -> is_Some (ps !! j) ->
    ps' !! i = Some pi -> ps' !! j = Some pj -> good pi -> good pj -> i = j.
  Proof.
    intros Hsteps Hr Hwin [qi Hqi] [qj Hqj] Hpi Hpj Hgi Hgj.
    pose proof (steps_wexec _ _ _ _ _ Hsteps) as Hw. simpl in Hw.
    destruct (steps_thread_path _ _ _ _ _ i qi Hsteps Hqi) as (pi' & Hi' & Hpathi).
    destruct (steps_thread_path _ _ _ _ _ j qj Hsteps Hqj) as (pj' & Hj' & Hpathj).
    simpl in *. simplify_eq.
    specialize (Hwin _ _ _ Hqi (or_introl eq_refl) Hgi _ Hpathi) as Hei.
    assert (Hej : Exists ev_wins (filter (of_thread j) tr)) by eauto.
    apply Exists_exists in Hei as (evi & Hini & Hwi).
    apply Exists_exists in Hej as (evj & Hinj & Hwj).
    apply list_elem_of_filter in Hini as [Hti Hini].
    apply list_elem_of_filter in Hinj as [Htj Hinj].
    apply list_elem_of_lookup in Hini as [a Ha].
    apply list_elem_of_lookup in Hinj as [b Hb].
    assert (a = b) as -> by eauto using one_win.
    assert (evi = evj) as -> by congruence.
    destruct evj; simpl in *; [congruence | done].
  Qed.
End one_shot.

(** ** Obligations of a program

    [needs W p]: no run of [p], whatever the answers, ends in [Ok] without an event of
    [W].  It is proved along the program's structure. *)

Lemma thread_path_bind {E A B} (f : A -> prog E B) (p : prog E A) tr (b : B) :
  thread_path (p ≫= f) tr (Ret b) ->
  exists a tr1 tr2, tr = tr1 ++ tr2 /\ thread_path p tr1 (Ret a) /\ thread_path (f a) tr2 (Ret b).
Proof.
  revert tr. induction p as [a | X e k IH]; intros tr; simpl.
  - intros Hp. by exists a, [], tr.
  - intros [[_ ?]|(i & x & tr' & -> & Hp)]; [done|].
    apply IH in Hp as (a & tr1 & tr2 & -> & Hp1 & Hp2).
    exists a, (Ev i e x :: tr1), tr2. split; [done|]. split; [|done]. right. eauto.
Qed.

Section needs.
Context {E : Type -> Type} (W : event E -> Prop).

(** [good] says which results carry the obligation. *)
Definition needs_for {A} (good : A -> Prop) (p : prog E A) : Prop :=
  forall tr a, thread_path p tr (Ret a) -> good a -> Exists W tr.
Definition needs {Er A} (p : prog E (result Er A)) : Prop :=
  needs_for (fun r => is_ok r = true) p.

Lemma needs_ret {A} (good : A -> Prop) a : ~ good a -> needs_for good (Ret a).
Proof. intros Hn tr a' [-> [= ->]] Hg. done. Qed.

Lemma needs_bind {A B} (good : B -> Prop) (p : prog E A) (f : A -> prog E B) :
  (forall a, needs_for good (f a)) -> needs_for good (p ≫= f).
Proof.
  intros Hf tr b Hp Hg. apply thread_path_bind in Hp as (a & tr1 & tr2 & -> & _ & Hp).
  apply Exists_app. right. by eapply Hf.
Qed.

Lemma needs_try {Er A B} (good : result Er B -> Prop) (p : prog E (result Er A)) (f : A -> prog E (result Er B)) :
  (forall e, ~ good (Err e)) -> (forall a, needs_for good (f a)) -> needs_for good (try_bind p f).
Proof.
  intros He Hf. apply needs_bind. intros [a|e]; [apply Hf | by apply needs_ret].
Qed.

Lemma needs_vis {A X} (good : A -> Prop) (e : E X) (k : X -> prog E A) :
  (forall x, (forall i, W (Ev i e x)) \/ needs_for good (k x)) -> needs_for good (Vis e k).
Proof.
  intros Hk tr a [[_ ?]|(i & x & tr' & -> & Hp)] Hg; [done|].
  destruct (Hk x) as [Hw|Hn]; [left; apply Hw | right; by eapply Hn].
Qed.
End needs.

(** Two threads whose good outcomes both need the same one-shot resource: when one has
    ended well the other one has not. *)
Lemma one_success {E S} (h : handler E S) env wins resets `{!OneShot h env wins resets} {A}
    (good : A -> bool) (ps : list (prog E A)) s tr ps' s' i j pi pj a b :
  steps h env (ps, s) tr (ps', s') -> Forall (fun ev => ~ ev_resets resets ev) tr ->
  ps !! i = Some pi -> ps !! j = Some pj ->
  needs_for (ev_wins wins) (fun r => good r = true) pi -> needs_for (ev_wins wins) (fun r => good r = true) pj ->
  ps' !! i = Some (Ret a) -> ps' !! j = Some (Ret b) -> i <> j -> good a = true -> good b = false.
Proof.
  intros Hst Hr Hi Hj Hni Hnj Ha Hb Hne Hga. apply not_true_is_false. intros Hgb. apply Hne.
  eapply (at_most_one_thread h env wins resets (fun p => exists r, p = Ret r /\ good r = true));
    [exact Hst | exact Hr | | eauto | eauto | exact Ha | exact Hb | eauto | eauto].
  intros t p p' Ht Hij (r & -> & Hg) evs Hp. destruct Hij as [->| ->]; simplify_eq.
  - by eapply Hni.
  - by eapply Hnj.
Qed.

(** Two programs one after the other, as a run of the pool. *)
Lemma steps_twice {E S A} (h : handler E S) env (p q : prog E A) s :
  steps h env ([p; q], s) (run_trace h 0 p s ++ run_trace h 1 q (run h p s).2)
    ([Ret (run h p s).1; Ret (run h q (run h p s).2).1], (run h q (run h p s).2).2).
Proof.
  eapply steps_app; [by apply (steps_run_trace h env p [p; q] 0)|].
  by apply (steps_run_trace h env q [Ret (run h p s).1; q] 1).
Qed.

(** Any number of programs, one after the other. *)
Fixpoint turns_trace {E S A} (h : handler E S) (i : nat) (qs : list (prog E A)) (s : S) : list (event E) :=
  match qs with
  | [] => []
  | q :: qs => run_trace h i q s ++ turns_trace h (Datatypes.S i) qs (run h q s).2
  end.
Definition turns_end {E S A} (h : handler E S) (qs : list (prog E A)) (s : S) : S := foldl (fun s q => (run h q s).2) s qs.
Lemma steps_turns {E S A} (h : handler E S) env (ds qs : list (prog E A)) s :
  exists ps, steps h env (ds ++ qs, s) (turns_trace h (length ds) qs s) (ps, turns_end h qs s).
Proof.
  revert ds s. induction qs as [|q qs IH]; intros ds s; [exists ds; rewrite app_nil_r; constructor|].
  destruct (IH (ds ++ [Ret (run h q s).1]) (run h q s).2) as [ps Hps]. exists ps. eapply steps_app.
  - by apply (steps_run_trace h env q (ds ++ q :: qs) (length ds)), list_lookup_middle.
  - rewrite insert_app_r_alt, Nat.sub_diag by done. rewrite length_app, Nat.add_comm, <- app_assoc in Hps. exact Hps.
Qed.

(** ** Every answer of the environment

    [returns P p]: whatever the operations answer, [p] can only end in a result with
    [P].  [always P p] also looks at the operations on the way. *)

Fixpoint returns {E A} (P : A -> Prop) (p : prog E A) : Prop :=
  match p with Ret a => P a | Vis e k => forall x, returns P (k x) end.

Lemma returns_path {E A} (P : A -> Prop) (p : prog E A) tr a : returns P p -> thread_path p tr (Ret a) -> P a.
Proof.
  revert tr. induction p as [b | X e k IH]; intros tr Hr; simpl.
  - intros [_ [= ->]]. exact Hr.
  - intros [[_ ?]|(i & x & tr' & _ & Hp)]; [done|]. by eapply IH.
Qed.
Lemma returns_bind {E A B} (Q : A -> Prop) (P : B -> Prop) (p : prog E A) (f : A -> prog E B) :
  returns Q p -> (forall a, Q a -> returns P (f a)) -> returns P (p ≫= f).
Proof. intros Hp Hf. induction p as [a | X e k IH]; simpl; [by apply Hf|]. intros x. apply IH, Hp. Qed.
Lemma returns_any {E A} (p : prog E A) : returns (fun _ => True) p.
Proof. induction p; simpl; auto. Qed.
Lemma returns_run {E S A} (h : handler E S) (P : A -> Prop) (p : prog E A) s : returns P p -> P (run h p s).1.
Proof.
  revert s. induction p as [a | X e k IH]; intros s Hr; simpl; [done|].
  destruct (h X e s) as [x s']. apply IH, Hr.
Qed.

Section always.
Context {E : Type -> Type}.

Definition always {A} (P : list (event E) -> A -> Prop) (p : prog E A) : Prop :=
  forall tr a, thread_path p tr (Ret a) -> P tr a.
(** Predicates that more events keep true. *)
Definition keeps {A} (P : list (event E) -> A -> Prop) : Prop :=
  forall tr tr' a, P tr a -> (forall ev, ev ∈ tr -> ev ∈ tr') -> P tr' a.

Lemma always_ret {A} (P : list (event E) -> A -> Prop) a : P [] a -> always P (Ret a).
Proof. intros Hp tr b [-> [= ->]]. done. Qed.
Lemma always_vis {A X} (P : list (event E) -> A -> Prop) (e : E X) k :
  (forall i x, always (fun tr => P (Ev i e x :: tr)) (k x)) -> always P (Vis e k).
Proof. intros Hk tr a [[_ ?]|(i & x & tr' & -> & Hp)]; [done|]. by apply Hk. Qed.
Lemma always_bind {A B} Q (P : list (event E) -> B -> Prop) (p : prog E A) (f : A -> prog E B) :
  always Q p -> (forall tr1 a, Q tr1 a -> always (fun tr2 => P (tr1 ++ tr2)) (f a)) -> always P (p ≫= f).
Proof.
  intros Hp Hf tr b Ht. apply thread_path_bind in Ht as (a & tr1 & tr2 & -> & H1 & H2).
  eapply Hf; [by apply Hp | done].
Qed.
Lemma always_skip {A B} (P : list (event E) -> B -> Prop) (p : prog E A) (f : A -> prog E B) :
  keeps P -> (forall a, always P (f a)) -> always P (p ≫= f).
Proof.
  intros Hk Hf. eapply (always_bind (fun _ _ => True)); [done|]. intros tr1 a _ tr b Ht.
  eapply Hk; [by eapply Hf|]. intros ev Hev. apply elem_of_app. by right.
Qed.
Lemma always_try {Er A B} Q (P : list (event E) -> result Er B -> Prop)
    (p : prog E (result Er A)) (f : A -> prog E (result Er B)) :
  keeps P -> always Q p -> (forall tr e, Q tr (Err e) -> P tr (Err e)) ->
  (forall tr1 a, Q tr1 (Ok a) -> always (fun tr2 => P (tr1 ++ tr2)) (f a)) -> always P (try_bind p f).
Proof.
  intros Hk Hp He Hf. eapply always_bind; [done|]. intros tr1 [a|e] Hq; [by apply Hf|].
  apply always_ret. rewrite app_nil_r. by apply He.
Qed.
(** A pure check, whose failure is an early return. *)
Lemma always_check {Er A B} (P : list (event E) -> result Er B -> Prop) (r : result Er A) (f : A -> prog E (result Er B)) :
  (forall e, r = Err e -> P [] (Err e)) -> (forall a, r = Ok a -> always P (f a)) -> always P (try_bind (mret r) f).
Proof.
  intros He Hf. destruct r as [a|e]; [rewrite try_ok; by apply Hf|]. rewrite try_err. apply always_ret. by apply He.
Qed.
Lemma always_mono {A} (P Q : list (event E) -> A -> Prop) (p : prog E A) :
  (forall tr a, P tr a -> Q tr a) -> always P p -> always Q p.
Proof. intros Hi Hp tr a Ht. by apply Hi, Hp. Qed.
Lemma keeps_app {A} (P : list (event E) -> A -> Prop) tr1 : keeps P -> keeps (fun tr => P (tr1 ++ tr)).
Proof.
  intros Hk tr tr' a Hp Hs. eapply Hk; [exact Hp|]. intros ev. rewrite !elem_of_app. intros [?|?]; auto.
Qed.
Lemma keeps_cons {A} (P : list (event E) -> A -> Prop) ev : keeps P -> keeps (fun tr => P (ev :: tr)).
Proof. intros Hk. exact (keeps_app P [ev] Hk). Qed.
End always.

(** ** Guarded operations

    [guarded W D p]: in every run of [p] an operation of [D] comes after one of [W]. *)

Section guarded.
Context {E : Type -> Type} (W D : event E -> Prop).

Fixpoint guarded {A} (p : prog E A) : Prop :=
  match p with
  | Ret _ => True
  | Vis e k => forall i x, W (Ev i e x) \/ (~ D (Ev i e x) /\ guarded (k x))
  end.

Lemma guarded_bind {A B} (p : prog E A) (f : A -> prog E B) :
  guarded p -> (forall a, guarded (f a)) -> guarded (p ≫= f).
Proof.
  intros Hp Hf. induction p as [a | X e k IH]; simpl in *; [by apply Hf|].
  intros i x. destruct (Hp i x) as [?|[? ?]]; [by left | right]. split; [done|]. by apply IH.
Qed.
Lemma guarded_try {Er A B} (p : prog E (result Er A)) (f : A -> prog E (result Er B)) :
  guarded p -> (forall a, guarded (f a)) -> guarded (try_bind p f).
Proof. intros Hp Hf. apply guarded_bind; [done|]. intros [a|e]; [apply Hf | done]. Qed.

Lemma guarded_path {A} (p : prog E A) tr p' :
  guarded p -> thread_path p tr p' -> Exists D tr -> Exists W tr.
Proof.
  revert tr. induction p as [a | X e k IH]; intros tr Hg; simpl.
  { intros [-> _] Hd. by apply Exists_nil in Hd. }
  intros [[-> _]|(i & x & tr' & -> & Hp)] Hd; [by apply Exists_nil in Hd|].
  destruct (Hg i x) as [Hw|[Hn Hk]]; [by left | right]. apply Exists_cons in Hd as [Hd|Hd]; [done|].
  by eapply IH.
Qed.
End guarded.

(** ** What stands before an operation

    [preceded D Good pre p]: whatever the operations answer, an operation of [D] in [p]
    is reached only when [Good] holds of the events before it, those of [pre] included. *)

Section preceded.
Context {E : Type -> Type} (D : event E -> Prop).

Fixpoint preceded {A} (Good : list (event E) -> event E -> Prop) (pre : list (event E)) (p : prog E A) : Prop :=
  match p with
  | Ret _ => True
  | Vis e k => forall i x, (D (Ev i e x) -> Good pre (Ev i e x)) /\ preceded Good (pre ++ [Ev i e x]) (k x)
  end.
(** No operation of [D] at all. *)
Fixpoint avoids {A} (p : prog E A) : Prop :=
  match p with Ret _ => True | Vis e k => forall i x, ~ D (Ev i e x) /\ avoids (k x) end.

Lemma avoids_preceded {A} Good pre (p : prog E A) : avoids p -> preceded Good pre p.
Proof.
  revert pre. induction p as [a|X e k IH]; simpl; [done|]. intros pre Hp i x. destruct (Hp i x). split; [done | by apply IH].
Qed.
Lemma avoids_bind {A B} (p : prog E A) (f : A -> prog E B) : avoids p -> (forall a, avoids (f a)) -> avoids (p ≫= f).
Proof.
  intros Hp Hf. induction p as [a|X e k IH]; simpl in *; [by apply Hf|]. intros i x. destruct (Hp i x). split; [done | by apply IH].
Qed.
Lemma preceded_bind {A B} Good pre Q (p : prog E A) (f : A -> prog E B) :
  preceded Good pre p -> always Q p -> (forall tr a, Q tr a -> preceded Good (pre ++ tr) (f a)) -> preceded Good pre (p ≫= f).
Proof.
  revert pre Q. induction p as [a|X e k IH]; simpl; intros pre Q Hp Hq Hf.
  - rewrite <- (app_nil_r pre). apply Hf, Hq. by split.
  - intros i x. destruct (Hp i x) as [Hg Hk]. split; [done|].
    eapply (IH x _ (fun tr a => Q (Ev i e x :: tr) a)); [done | |].
    + intros tr a Ht. apply Hq. by apply thread_path_op.
    + intros tr a Ha. rewrite <- app_assoc. by apply Hf.
Qed.
Lemma preceded_try {Er A B} Good pre Q (p : prog E (result Er A)) (f : A -> prog E (result Er B)) :
  preceded Good pre p -> always Q p -> (forall tr a, Q tr (Ok a) -> preceded Good (pre ++ tr) (f a)) -> preceded Good pre (try_bind p f).
Proof. intros Hp Hq Hf. eapply preceded_bind; [done..|]. intros tr [a|e] Ha; [by apply Hf | done]. Qed.
(** Through a program without an operation of [D]. *)
Lemma preceded_skip {A B} Good pre Q (p : prog E A) (f : A -> prog E B) :
  avoids p -> always Q p -> (forall tr a, Q tr a -> preceded Good (pre ++ tr) (f a)) -> preceded Good pre (p ≫= f).
Proof. intros Hp. by apply preceded_bind, avoids_preceded. Qed.
Lemma preceded_skip_try {Er A B} Good pre Q (p : prog E (result Er A)) (f : A -> prog E (result Er B)) :
  avoids p -> always Q p -> (forall tr a, Q tr (Ok a) -> preceded Good (pre ++ tr) (f a)) -> preceded Good pre (try_bind p f).
Proof. intros Hp. by apply preceded_try, avoids_preceded. Qed.
Lemma preceded_check {Er A B} Good pre (r : result Er A) (f : A -> prog E (result Er B)) :
  (forall a, r = Ok a -> preceded Good pre (f a)) -> preceded Good pre (try_bind (mret r) f).
Proof. intros Hf. destruct r as [a|e]; [rewrite try_ok; by apply Hf | by rewrite try_err]. Qed.

Lemma preceded_path {A} Good pre (p : prog E A) tr p' tr1 ev tr2 :
  preceded Good pre p -> thread_path p tr p' -> tr = tr1 ++ ev :: tr2 -> D ev -> Good (pre ++ tr1) ev.
Proof.
  revert pre tr tr1. induction p as [a|X e k IH]; simpl; intros pre tr tr1 Hb.
  - intros [-> _] Heq. by destruct tr1.
  - intros [[-> _]|(i & x & tr' & -> & Hp)] Heq Hd; [by destruct tr1|]. destruct (Hb i x) as [Hg Hk].
    destruct tr1 as [|ev' tr1]; simpl in Heq; injection Heq as <- ->.
    + rewrite app_nil_r. by apply Hg.
    + specialize (IH x (pre ++ [Ev i e x]) _ tr1 Hk Hp eq_refl Hd).
      by rewrite <- app_assoc in IH.
Qed.
End preceded.
Lemma avoids_mono {E A} (D D' : event E -> Prop) (q : prog E A) : (forall ev, D ev -> D' ev) -> avoids D' q -> avoids D q.
Proof. intros Hd. induction q as [a|X e k IH]; simpl; [done|]. intros Hq i x. destruct (Hq i x) as [? ?]. split; auto. Qed.

(** Two different threads never both have a winning event of a one-shot resource. *)
Lemma one_winner {E S} (h : handler E S) env wins resets `{!OneShot h env wins resets} {A}
    (ps : list (prog E A)) s tr ps' s' i j :
  steps h env (ps, s) tr (ps', s') -> Forall (fun ev => ~ ev_resets resets ev) tr -> i <> j ->
  Exists (ev_wins wins) (filter (of_thread i) tr) -> ~ Exists (ev_wins wins) (filter (of_thread j) tr).
Proof.
  intros Hst Hr Hne Hi Hj. apply steps_wexec in Hst. simpl in Hst.
  apply Exists_exists in Hi as (evi & Hini & Hwi). apply Exists_exists in Hj as (evj & Hinj & Hwj).
  apply list_elem_of_filter in Hini as [Hti Hini]. apply list_elem_of_filter in Hinj as [Htj Hinj].
  apply list_elem_of_lookup in Hini as [a Ha]. apply list_elem_of_lookup in Hinj as [b Hb].
  assert (a = b) as -> by (eapply (one_win h env wins resets); eauto).
  assert (evi = evj) as -> by congruence. destruct evj; simpl in *; [congruence | done].
Qed.

(** A component inside a larger system: [g] recognises its operations among
    those of the system and [π] is its part of the state.  Its one-shot
    resources are one-shot resources of the system. *)
Class Embeds {E F : Type -> Type} {S T} (h : handler E S) (env : S -> S -> Prop)
    (h' : handler F T) (env' : T -> T -> Prop)
    (g : forall X, F X -> option (E X)) (π : T -> S) := {
  emb_op X (e : F X) t x t' :
    h' X e t = (x, t') ->
    match g X e with
    | Some e0 => h X e0 (π t) = (x, π t')
    | None => env (π t) (π t')
    end;
  emb_env t t' : env' t t' -> env (π t) (π t')
}.

Definition lift_wins {E F : Type -> Type} (g : forall X, F X -> option (E X))
    (wins : forall X, E X -> X -> bool) X (e : F X) (x : X) : bool :=
  match g X e with Some e0 => wins X e0 x | None => false end.
#[export] Instance one_shot_embed {E F : Type -> Type} {S T} (h : handler E S) env (h' : handler F T) env' g π
    wins resets :
  Embeds h env h' env' g π -> OneShot h env wins resets ->
  OneShot h' env' (lift_wins g wins) (lift_wins g resets) | 10.
Proof.
  intros Hemb Hos.
  refine {| spent t := spent (π t) |}.
  - intros X e t x t' He. pose proof (emb_op X e t x t' He) as Hop.
    unfold lift_wins. destruct (g X e) as [e0|]; [|done]. by apply (win_spends X e0 (π t)).
  - intros X e t x t' He Hs. pose proof (emb_op X e t x t' He) as Hop.
    unfold lift_wins. destruct (g X e) as [e0|].
    + by apply (spent_stays X e0 (π t) x).
    + intros _. by apply (spent_env (π t)).
  - intros X e t x t' He Hs. pose proof (emb_op X e t x t' He) as Hop.
    unfold lift_wins. destruct (g X e) as [e0|]; [|done].
    by apply (spent_no_win X e0 (π t) x (π t')).
  - intros t t' He. apply spent_env. by apply emb_env.
Defined.
