(* ===== verification/Json.v ===== *)
(** * JSON values

    [serde_json::Value] as the source inspects it: the data type and the
    accessors [get], [as_str], [as_i64], ...  Parsing and printing belong to the
    serde_json crate and are operations of the [Externals] interface. *)

From S2P Require Import Prelude.

#[local] Open Scope Z_scope.

(** [serde_json::Number]: an integer of the ranges of [u64] and [i64], or a
    float kept as its text (the source never reads a float). *)
Inductive number : Type :=
| NInt (z : Z)
| NFloat (text : string).

Inductive Value : Type :=
| Null
| Bool (b : bool)
| Number (n : number)
| Str (s : string)
| Array (l : list Value)
| Object (m : list (string * Value)).

(** The members of an object, the first one for a name. *)
Fixpoint assoc {A} (k : string) (m : list (string * A)) : option A :=
  match m with
  | [] => None
  | (k', v) :: m' => if decide (k' = k) then Some v else assoc k m'
  end.
(** [Map::insert]: in place for a known name. *)
Fixpoint assoc_insert {A} (k : string) (v : A) (m : list (string * A)) : list (string * A) :=
  match m with
  | [] => [(k, v)]
  | (k', v') :: m' => if decide (k' = k) then (k, v) :: m' else (k', v') :: assoc_insert k v m'
  end.

Definition get (v : Value) (k : string) : option Value :=
  match v with Object m => assoc k m | _ => None end.
Definition as_str (v : Value) : option string :=
  match v with Str s => Some s | _ => None end.
Definition as_bool (v : Value) : option bool :=
  match v with Bool b => Some b | _ => None end.
Definition as_array (v : Value) : option (list Value) :=
  match v with Array l => Some l | _ => None end.
Definition as_object (v : Value) : option (list (string * Value)) :=
  match v with Object m => Some m | _ => None end.
(** [None] out of the range of [i64]. *)
Definition as_i64 (v : Value) : option Z :=
  match v with
  | Number (NInt z) => if (i64_min <=? z) && (z <=? i64_max) then Some z else None
  | _ => None
  end.
Definition as_u64 (v : Value) : option Z :=
  match v with
  | Number (NInt z) => if (0 <=? z) && (z <=? u64_max) then Some z else None
  | _ => None
  end.

(** [v.get(k).and_then(Value::as_str)] and the like. *)
Definition get_str (v : Value) (k : string) : option string := get v k ≫= as_str.
Definition get_i64 (v : Value) (k : string) : option Z := get v k ≫= as_i64.

(** [v[k] = x]: an object is extended, [Null] becomes an object (any other value
    panics; the source only indexes objects and [Null]). *)
Definition set_field (v : Value) (k : string) (x : Value) : Value :=
  match v with
  | Object m => Object (assoc_insert k x m)
  | Null => Object [(k, x)]
  | _ => v
  end.

Definition is_object (f : Value) : Prop := exists m, f = Object m.

Lemma assoc_insert_eq {A} k (v : A) m : assoc k (assoc_insert k v m) = Some v.
Proof.
  induction m as [|[k' v'] m IH]; simpl; [by rewrite decide_True|].
  case_decide; simpl; [by rewrite decide_True | by rewrite decide_False].
Qed.

Lemma assoc_insert_ne {A} k k' (v : A) m :
  k <> k' -> assoc k' (assoc_insert k v m) = assoc k' m.
Proof.
  intros Hne. induction m as [|[k0 v0] m IH]; simpl; [by rewrite decide_False|].
  destruct (decide (k0 = k)) as [->|Hk0]; simpl.
  - by rewrite !(decide_False (P := k = k')).
  - case_decide; [done | apply IH].
Qed.

Lemma get_set_field_eq v k x :
  (v = Null \/ exists m, v = Object m) -> get (set_field v k x) k = Some x.
Proof.
  intros [->|[m ->]]; simpl; [by rewrite decide_True | apply assoc_insert_eq].
Qed.

Lemma get_set_field_ne v k k' x :
  k <> k' -> get (set_field v k x) k' = get v k'.
Proof.
  intros Hne. destruct v; simpl; try done.
  - by rewrite decide_False.
  - by apply assoc_insert_ne.
Qed.

#[export] Hint Rewrite @assoc_insert_eq : oidc.
