(* ===== verification/Model.v ===== *)
(** * Data of the OpenID Provider

    The structures of [src/src/model.rs], the error type of [src/src/error.rs]
    and the two phases of an authorization request of [src/src/context.rs].
    Field names carry a prefix for their structure. *)

From S2P Require Import Prelude Json.

#[local] Open Scope Z_scope.

(** ** model.rs *)

Record JwkPub := mkJwkPub { jwk_kid : string; jwk_x : string; jwk_y : string }.

Record Client := mkClient {
  cl_client_id : string;
  cl_redirect_uris : list string;
  (** ["none"], ["client_secret_basic"] or ["private_key_jwt"] *)
  cl_token_endpoint_auth_method : string;
  cl_client_secret : option string;
  cl_grant_types : list string;
  cl_post_logout_redirect_uris : list string;
  cl_dpop_bound : bool;
  cl_jwks : list JwkPub;
  cl_jwks_uri : option string;
  cl_require_par : bool;
  cl_require_pkce : bool;
  cl_id_token_signed_response_alg : option string
}.

Definition is_public (c : Client) : bool :=
  bool_decide (cl_token_endpoint_auth_method c = "none").
Definition allows_grant (c : Client) (gt : string) : bool :=
  list_any (fun g => bool_decide (g = gt)) (cl_grant_types c).

Record AuthParams := mkAuthParams {
  ap_client_id : option string;
  ap_redirect_uri : option string;
  ap_response_type : option string;
  ap_scope : option string;
  ap_state : option string;
  ap_nonce : option string;
  ap_prompt : option string;
  ap_max_age : option string;
  ap_acr_values : option string;
  ap_response_mode : option string;
  ap_code_challenge : option string;
  ap_code_challenge_method : option string;
  ap_dpop_jkt : option string;
  ap_resource : option string
}.

Record Interaction := mkInteraction {
  in_uid : string;
  in_raw_query : string;
  in_account_id : option string;
  in_auth_time : option Z;
  in_request_uri : option string
}.

Record Session := mkSession {
  se_sid : string;
  se_account_id : string;
  se_auth_time : Z
}.

Record AuthorizationCode := mkAuthorizationCode {
  ac_code : string;
  ac_client_id : string;
  ac_account_id : string;
  ac_redirect_uri : string;
  ac_scope : string;
  ac_nonce : option string;
  ac_code_challenge : option string;
  ac_code_challenge_method : option string;
  ac_auth_time : Z;
  ac_acr : option string;
  ac_dpop_jkt : option string;
  ac_resource : option string;
  ac_expires_at : Z
}.

Record AccessToken := mkAccessToken {
  at_token : string;
  at_client_id : string;
  at_account_id : string;
  at_scope : string;
  at_jkt : option string;
  at_aud : option string;
  at_acr : option string;
  at_auth_time : option Z;
  at_authorization_details : option string;
  at_mandate_consumed : bool
}.

Record RefreshToken := mkRefreshToken {
  rt_token : string;
  rt_client_id : string;
  rt_account_id : string;
  rt_scope : string;
  rt_resource : option string;
  rt_jkt : option string;
  rt_acr : option string;
  rt_auth_time : option Z;
  rt_family_id : string;
  rt_used : bool;
  rt_replaced_by : option string
}.

Record Account := mkAccount {
  acct_sub : string;
  acct_claims : gmap string Value
}.

Record TokenResponse := mkTokenResponse {
  tr_access_token : string;
  tr_token_type : string;
  tr_expires_in : Z;
  tr_scope : string;
  tr_id_token : option string;
  tr_refresh_token : option string;
  tr_authorization_details : option Value
}.

#[export] Instance JwkPub_eq_dec : EqDecision JwkPub.
Proof. solve_decision. Defined.
#[export] Instance Client_eq_dec : EqDecision Client.
Proof. solve_decision. Defined.
#[export] Instance AuthParams_eq_dec : EqDecision AuthParams.
Proof. solve_decision. Defined.
#[export] Instance Interaction_eq_dec : EqDecision Interaction.
Proof. solve_decision. Defined.
#[export] Instance AuthorizationCode_eq_dec : EqDecision AuthorizationCode.
Proof. solve_decision. Defined.
#[export] Instance AccessToken_eq_dec : EqDecision AccessToken.
Proof. solve_decision. Defined.
#[export] Instance RefreshToken_eq_dec : EqDecision RefreshToken.
Proof. solve_decision. Defined.

(** Field updates of the records the stores change in place. *)
Definition at_set_mandate_consumed (b : bool) (t : AccessToken) : AccessToken :=
  mkAccessToken (at_token t) (at_client_id t) (at_account_id t) (at_scope t) (at_jkt t)
    (at_aud t) (at_acr t) (at_auth_time t) (at_authorization_details t) b.
Definition rt_mark_used (replaced_by : option string) (t : RefreshToken) : RefreshToken :=
  mkRefreshToken (rt_token t) (rt_client_id t) (rt_account_id t) (rt_scope t) (rt_resource t)
    (rt_jkt t) (rt_acr t) (rt_auth_time t) (rt_family_id t) true replaced_by.

(** ** error.rs *)

Inductive OAuthError : Type :=
| InvalidRequest (s : string)
| InvalidClient (s : string)
| UnauthorizedClient (s : string)
| InvalidGrant (s : string)
| UnsupportedGrantType (s : string)
| UnsupportedResponseType (s : string)
| InvalidScope (s : string)
| InvalidTarget (s : string)
| AccessDenied (s : string)
| LoginRequired (s : string)
| RequestUriNotSupported (s : string)
| InvalidDpopProof (s : string)
| AuthorizationPending (s : string)
| ExpiredToken (s : string)
| ServerError (s : string).

#[export] Instance OAuthError_eq_dec : EqDecision OAuthError.
Proof. solve_decision. Defined.

Definition error_code (e : OAuthError) : string :=
  match e with
  | InvalidRequest _ => "invalid_request"
  | InvalidClient _ => "invalid_client"
  | UnauthorizedClient _ => "unauthorized_client"
  | InvalidGrant _ => "invalid_grant"
  | UnsupportedGrantType _ => "unsupported_grant_type"
  | UnsupportedResponseType _ => "unsupported_response_type"
  | InvalidScope _ => "invalid_scope"
  | InvalidTarget _ => "invalid_target"
  | AccessDenied _ => "access_denied"
  | LoginRequired _ => "login_required"
  | RequestUriNotSupported _ => "request_uri_not_supported"
  | InvalidDpopProof _ => "invalid_dpop_proof"
  | AuthorizationPending _ => "authorization_pending"
  | ExpiredToken _ => "expired_token"
  | ServerError _ => "server_error"
  end.

Definition error_description (e : OAuthError) : string :=
  match e with
  | InvalidRequest s | InvalidClient s | UnauthorizedClient s | InvalidGrant s
  | UnsupportedGrantType s | UnsupportedResponseType s | InvalidScope s | InvalidTarget s
  | AccessDenied s | LoginRequired s | RequestUriNotSupported s | InvalidDpopProof s
  | AuthorizationPending s | ExpiredToken s | ServerError s => s
  end.

Definition error_status (e : OAuthError) : Z :=
  match e with
  | InvalidClient _ => 401
  | ServerError _ => 500
  | _ => 400
  end.

(** ** context.rs: the two phases of an authorization request *)

Record RawAuthRequest := mkRawAuthRequest {
  raw_params : AuthParams;
  raw_request_uri : option string
}.

Record AddressedRequest := mkAddressedRequest {
  ar_params : AuthParams;
  ar_client : Client;
  ar_redirect_uri : string;
  ar_request_uri : option string
}.
