(* ===== verification/Store.v ===== *)
(** * The Store trait and its in-memory implementation

    [src/src/store.rs]: [storeE] is the trait [Store] (one operation per
    method), [MemoryStore] its in-memory state and [mem_op] the implementation
    of every method at a clock value [now] (UNIX seconds).  The clock is an
    [i64] of seconds in [SystemTime], so adding a retention period never
    overflows [u64]: the additions below are exact. *)

From S2P Require Import Prelude Prog Json Model.

#[local] Open Scope Z_scope.

Definition INTERACTION_TTL_SECS : Z := 3600.
Definition SESSION_TTL_SECS : Z := 7 * 24 * 3600.
Definition ACCESS_TTL_SECS : Z := 900.
Definition REFRESH_TTL_SECS : Z := 14 * 24 * 3600.

(** ** The trait *)

Inductive storeE : Type -> Type :=
| SaveInteraction (i : Interaction) : storeE unit
| GetInteraction (uid : string) : storeE (option Interaction)
| ConsumeInteraction (uid : string) : storeE bool
| SaveSession (s : Session) : storeE unit
| GetSession (sid : string) : storeE (option Session)
| DeleteSession (sid : string) : storeE unit
| SaveCode (c : AuthorizationCode) : storeE unit
| TakeCode (code : string) : storeE (option AuthorizationCode)
| LinkIssuedTokens (code access_token : string) (refresh_token : option string) : storeE unit
| SaveAccessToken (t : AccessToken) : storeE unit
| GetAccessToken (token : string) : storeE (option AccessToken)
| RevokeAccessToken (token : string) : storeE unit
| ConsumeMandateIfUnused (token : string) : storeE (result string bool)
| SaveRefreshToken (t : RefreshToken) : storeE unit
| GetRefreshToken (token : string) : storeE (option RefreshToken)
| RevokeRefreshToken (token : string) : storeE unit
| MarkRefreshUsed (token : string) (replaced_by : option string) : storeE bool
| RevokeRefreshFamily (start_token : string) : storeE unit
| FindAccount (sub : string) : storeE Account.

(** ** Entries with an expiry *)

Record Expiring (T : Type) := mkExpiring { ex_value : T; ex_expires_at : Z }.
Arguments mkExpiring {_} _ _.
Arguments ex_value {_} _.
Arguments ex_expires_at {_} _.

Definition alive {T} (now : Z) (e : Expiring T) : bool := now <? ex_expires_at e.

Definition retain_alive {T} (now : Z) (m : gmap string (Expiring T)) : gmap string (Expiring T) :=
  filter (fun kv => alive now kv.2 = true) m.

(** The lookup of the [get_*] methods: an expired entry is removed. *)
Definition get_live {T} (now : Z) (k : string) (m : gmap string (Expiring T)) :
    option T * gmap string (Expiring T) :=
  match m !! k with
  | Some e => if alive now e then (Some (ex_value e), m) else (None, delete k m)
  | None => (None, m)
  end.

(** ** The in-memory state *)

Record CodeRecord := mkCodeRecord {
  cr_code : AuthorizationCode;
  cr_used : bool;
  cr_issued_access : option string;
  cr_issued_refresh : option string
}.

Record MemoryStore := mkMemoryStore {
  ms_interactions : gmap string (Expiring Interaction);
  ms_sessions : gmap string (Expiring Session);
  ms_codes : gmap string (Expiring CodeRecord);
  ms_access_tokens : gmap string (Expiring AccessToken);
  ms_refresh_tokens : gmap string (Expiring RefreshToken)
}.

Definition MemoryStore_default : MemoryStore := mkMemoryStore ∅ ∅ ∅ ∅ ∅.

Definition with_interactions m (s : MemoryStore) : MemoryStore :=
  mkMemoryStore m (ms_sessions s) (ms_codes s) (ms_access_tokens s) (ms_refresh_tokens s).
Definition with_sessions m (s : MemoryStore) : MemoryStore :=
  mkMemoryStore (ms_interactions s) m (ms_codes s) (ms_access_tokens s) (ms_refresh_tokens s).
Definition with_codes m (s : MemoryStore) : MemoryStore :=
  mkMemoryStore (ms_interactions s) (ms_sessions s) m (ms_access_tokens s) (ms_refresh_tokens s).
Definition with_access_tokens m (s : MemoryStore) : MemoryStore :=
  mkMemoryStore (ms_interactions s) (ms_sessions s) (ms_codes s) m (ms_refresh_tokens s).
Definition with_refresh_tokens m (s : MemoryStore) : MemoryStore :=
  mkMemoryStore (ms_interactions s) (ms_sessions s) (ms_codes s) (ms_access_tokens s) m.

(** ** The methods *)

Definition save_interaction (now : Z) (i : Interaction) (s : MemoryStore) : MemoryStore :=
  with_interactions
    (<[in_uid i := mkExpiring i (now + INTERACTION_TTL_SECS)]> (ms_interactions s)) s.

Definition get_interaction (now : Z) (uid : string) (s : MemoryStore) :
    option Interaction * MemoryStore :=
  let '(r, m) := get_live now uid (ms_interactions s) in (r, with_interactions m s).

Definition consume_interaction (now : Z) (uid : string) (s : MemoryStore) : bool * MemoryStore :=
  (match ms_interactions s !! uid with Some e => alive now e | None => false end,
   with_interactions (delete uid (ms_interactions s)) s).

Definition save_session (now : Z) (se : Session) (s : MemoryStore) : MemoryStore :=
  with_sessions (<[se_sid se := mkExpiring se (now + SESSION_TTL_SECS)]> (ms_sessions s)) s.

Definition get_session (now : Z) (sid : string) (s : MemoryStore) : option Session * MemoryStore :=
  let '(r, m) := get_live now sid (ms_sessions s) in (r, with_sessions m s).

Definition delete_session (sid : string) (s : MemoryStore) : MemoryStore :=
  with_sessions (delete sid (ms_sessions s)) s.

(** The code's own [expires_at] is the retention limit of its record. *)
Definition save_code (c : AuthorizationCode) (s : MemoryStore) : MemoryStore :=
  with_codes
    (<[ac_code c := mkExpiring (mkCodeRecord c false None None) (ac_expires_at c)]> (ms_codes s)) s.

Definition remove_opt {V} (k : option string) (m : gmap string V) : gmap string V :=
  match k with Some k => delete k m | None => m end.

Definition take_code (now : Z) (code : string) (s : MemoryStore) :
    option AuthorizationCode * MemoryStore :=
  match ms_codes s !! code with
  | None => (None, s)
  | Some entry =>
      if negb (alive now entry) then (None, with_codes (delete code (ms_codes s)) s)
      else
        let rec := ex_value entry in
        if cr_used rec then
          (* replay: the recorded tokens are taken out of the record and revoked *)
          let rec' := mkCodeRecord (cr_code rec) true None None in
          (None,
           mkMemoryStore (ms_interactions s) (ms_sessions s)
             (<[code := mkExpiring rec' (ex_expires_at entry)]> (ms_codes s))
             (remove_opt (cr_issued_access rec) (ms_access_tokens s))
             (remove_opt (cr_issued_refresh rec) (ms_refresh_tokens s)))
        else
          let rec' := mkCodeRecord (cr_code rec) true (cr_issued_access rec) (cr_issued_refresh rec) in
          (Some (cr_code rec),
           with_codes (<[code := mkExpiring rec' (ex_expires_at entry)]> (ms_codes s)) s)
  end.

Definition link_issued_tokens (code access_token : string) (refresh_token : option string)
    (s : MemoryStore) : MemoryStore :=
  match ms_codes s !! code with
  | Some entry =>
      let rec := ex_value entry in
      let rec' := mkCodeRecord (cr_code rec) (cr_used rec) (Some access_token) refresh_token in
      with_codes (<[code := mkExpiring rec' (ex_expires_at entry)]> (ms_codes s)) s
  | None => s
  end.

Definition save_access_token (now : Z) (t : AccessToken) (s : MemoryStore) : MemoryStore :=
  with_access_tokens
    (<[at_token t := mkExpiring t (now + ACCESS_TTL_SECS)]> (ms_access_tokens s)) s.

Definition get_access_token (now : Z) (token : string) (s : MemoryStore) :
    option AccessToken * MemoryStore :=
  let '(r, m) := get_live now token (ms_access_tokens s) in (r, with_access_tokens m s).

Definition revoke_access_token (token : string) (s : MemoryStore) : MemoryStore :=
  with_access_tokens (delete token (ms_access_tokens s)) s.

Definition consume_mandate_if_unused (now : Z) (token : string) (s : MemoryStore) :
    result string bool * MemoryStore :=
  match ms_access_tokens s !! token with
  | Some e =>
      if alive now e && negb (at_mandate_consumed (ex_value e)) then
        (Ok true,
         with_access_tokens
           (<[token := mkExpiring (at_set_mandate_consumed true (ex_value e)) (ex_expires_at e)]>
              (ms_access_tokens s)) s)
      else (Ok false, s)
  | None => (Ok false, s)
  end.

Definition save_refresh_token (now : Z) (t : RefreshToken) (s : MemoryStore) : MemoryStore :=
  with_refresh_tokens
    (<[rt_token t := mkExpiring t (now + REFRESH_TTL_SECS)]> (ms_refresh_tokens s)) s.

Definition get_refresh_token (now : Z) (token : string) (s : MemoryStore) :
    option RefreshToken * MemoryStore :=
  let '(r, m) := get_live now token (ms_refresh_tokens s) in (r, with_refresh_tokens m s).

Definition revoke_refresh_token (token : string) (s : MemoryStore) : MemoryStore :=
  with_refresh_tokens (delete token (ms_refresh_tokens s)) s.

Definition mark_refresh_used (now : Z) (token : string) (replaced_by : option string)
    (s : MemoryStore) : bool * MemoryStore :=
  match ms_refresh_tokens s !! token with
  | Some e =>
      if alive now e && negb (rt_used (ex_value e)) then
        (true,
         with_refresh_tokens
           (<[token := mkExpiring (rt_mark_used replaced_by (ex_value e)) (ex_expires_at e)]>
              (ms_refresh_tokens s)) s)
      else (false, s)
  | None => (false, s)
  end.

(** The loop of [revoke_refresh_family]: [guard] is the number of iterations
    still allowed (64 at the start). *)
Fixpoint revoke_family_loop (guard : nat) (cur : option string)
    (m : gmap string (Expiring RefreshToken)) : gmap string (Expiring RefreshToken) :=
  match guard, cur with
  | S guard', Some t =>
      revoke_family_loop guard' (m !! t ≫= fun e => rt_replaced_by (ex_value e)) (delete t m)
  | _, _ => m
  end.
Definition FAMILY_GUARD : nat := 64.
Arguments revoke_family_loop : simpl never.
Definition revoke_refresh_family (start_token : string) (s : MemoryStore) : MemoryStore :=
  with_refresh_tokens
    (revoke_family_loop FAMILY_GUARD (Some start_token) (ms_refresh_tokens s)) s.

(** [account_for]: the fixed claims of an in-memory account. *)
Definition account_for (now : Z) (sub : string) : Account :=
  let email := if str_contains "@"%char sub then sub else sub +:+ "@example.com" in
  mkAccount sub (list_to_map [
    ("sub", Str sub); ("name", Str sub); ("given_name", Str sub); ("family_name", Str "User");
    ("middle_name", Str "Test"); ("nickname", Str sub); ("preferred_username", Str sub);
    ("profile", Str ("https://example.com/u/" +:+ sub));
    ("picture", Str "https://example.com/avatar.png"); ("website", Str "https://example.com");
    ("gender", Str "other"); ("birthdate", Str "2000-01-01"); ("zoneinfo", Str "Asia/Tokyo");
    ("locale", Str "ja-JP"); ("updated_at", Number (NInt now)); ("email", Str email);
    ("email_verified", Bool true);
    ("address", Object [("formatted", Str "Tokyo, Japan"); ("country", Str "JP");
                        ("locality", Str "Tokyo"); ("postal_code", Str "100-0001")]);
    ("phone_number", Str "+81-3-0000-0000"); ("phone_number_verified", Bool false)]).

Definition sweep_expired (now : Z) (s : MemoryStore) : MemoryStore :=
  mkMemoryStore (retain_alive now (ms_interactions s)) (retain_alive now (ms_sessions s))
    (retain_alive now (ms_codes s)) (retain_alive now (ms_access_tokens s))
    (retain_alive now (ms_refresh_tokens s)).

(** [impl Store for MemoryStore]. *)
Definition mem_op (now : Z) {X} (o : storeE X) (s : MemoryStore) : X * MemoryStore :=
  match o in storeE X return X * MemoryStore with
  | SaveInteraction i => (tt, save_interaction now i s)
  | GetInteraction uid => get_interaction now uid s
  | ConsumeInteraction uid => consume_interaction now uid s
  | SaveSession se => (tt, save_session now se s)
  | GetSession sid => get_session now sid s
  | DeleteSession sid => (tt, delete_session sid s)
  | SaveCode c => (tt, save_code c s)
  | TakeCode c => take_code now c s
  | LinkIssuedTokens c a r => (tt, link_issued_tokens c a r s)
  | SaveAccessToken t => (tt, save_access_token now t s)
  | GetAccessToken t => get_access_token now t s
  | RevokeAccessToken t => (tt, revoke_access_token t s)
  | ConsumeMandateIfUnused t => consume_mandate_if_unused now t s
  | SaveRefreshToken t => (tt, save_refresh_token now t s)
  | GetRefreshToken t => get_refresh_token now t s
  | RevokeRefreshToken t => (tt, revoke_refresh_token t s)
  | MarkRefreshUsed t r => mark_refresh_used now t r s
  | RevokeRefreshFamily t => (tt, revoke_refresh_family t s)
  | FindAccount sub => (account_for now sub, s)
  end.
