(* ===== verification/StoreFacts.v ===== *)
(** * Properties of the in-memory store

    Single use of every one-shot record, lifetimes, the sweep, and the
    revocation of a refresh-token family. *)

From S2P Require Import Prelude Prog Json Model Store.

#[local] Open Scope Z_scope.

(** ** Live entries *)

Definition live_at {T} (now : Z) (m : gmap string (Expiring T)) (k : string) : option (Expiring T) :=
  m !! k ≫= fun e => if alive now e then Some e else None.

(** Two maps, two stores with the same live entries. *)
Definition mlive_eq {T} (now : Z) (m1 m2 : gmap string (Expiring T)) : Prop :=
  forall k, live_at now m1 k = live_at now m2 k.
Definition live_eq (now : Z) (s1 s2 : MemoryStore) : Prop :=
  mlive_eq now (ms_interactions s1) (ms_interactions s2) /\
  mlive_eq now (ms_sessions s1) (ms_sessions s2) /\
  mlive_eq now (ms_codes s1) (ms_codes s2) /\
  mlive_eq now (ms_access_tokens s1) (ms_access_tokens s2) /\
  mlive_eq now (ms_refresh_tokens s1) (ms_refresh_tokens s2).

#[export] Instance mlive_eq_equiv {T} now : Equivalence (@mlive_eq T now).
Proof.
  split.
  - intros m k. done.
  - intros m1 m2 H k. by rewrite H.
  - intros m1 m2 m3 H1 H2 k. by rewrite H1, H2.
Qed.
#[export] Instance live_eq_equiv now : Equivalence (live_eq now).
Proof.
  split.
  - intros s. by repeat split.
  - intros s1 s2 (?&?&?&?&?). repeat split; by symmetry.
  - intros s1 s2 s3 (?&?&?&?&?) (?&?&?&?&?). repeat split; by etransitivity.
Qed.

Lemma alive_mono {T} now now' (e : Expiring T) :
  now <= now' -> alive now' e = true -> alive now e = true.
Proof. unfold alive. rewrite !Z.ltb_lt. lia. Qed.

Lemma live_at_Some {T} now (m : gmap string (Expiring T)) k e :
  live_at now m k = Some e <-> m !! k = Some e /\ alive now e = true.
Proof.
  unfold live_at. destruct (m !! k) as [e'|]; simpl; [|by split; [|intros []]].
  destruct (alive now e') eqn:He; split; intros H; simplify_eq; [done|by destruct H|].
  destruct H; congruence.
Qed.

Lemma live_at_mono {T} now now' (m : gmap string (Expiring T)) k :
  now <= now' ->
  live_at now' m k = live_at now m k ≫= fun e => if alive now' e then Some e else None.
Proof.
  intros Hle. unfold live_at. destruct (m !! k) as [e|]; simpl; [|done].
  destruct (alive now' e) eqn:He.
  - rewrite (alive_mono now now' e Hle He). simpl. by rewrite He.
  - destruct (alive now e); simpl; [by rewrite He | done].
Qed.

Lemma retain_alive_lookup {T} now (m : gmap string (Expiring T)) k :
  retain_alive now m !! k = live_at now m k.
Proof.
  apply option_eq. intros e. unfold retain_alive.
  rewrite map_lookup_filter_Some. by rewrite live_at_Some.
Qed.

Lemma live_at_insert {T} now (m : gmap string (Expiring T)) k e k' :
  live_at now (<[k := e]> m) k' =
    if decide (k = k') then (if alive now e then Some e else None) else live_at now m k'.
Proof.
  unfold live_at. rewrite lookup_insert. case_decide; done.
Qed.

Lemma live_at_delete {T} now (m : gmap string (Expiring T)) k k' :
  live_at now (delete k m) k' = if decide (k = k') then None else live_at now m k'.
Proof. unfold live_at. rewrite lookup_delete. case_decide; done. Qed.

Lemma mlive_insert {T} now (m1 m2 : gmap string (Expiring T)) k e :
  mlive_eq now m1 m2 -> mlive_eq now (<[k := e]> m1) (<[k := e]> m2).
Proof. intros H k'. rewrite !live_at_insert. by rewrite H. Qed.

Lemma mlive_delete {T} now (m1 m2 : gmap string (Expiring T)) k :
  mlive_eq now m1 m2 -> mlive_eq now (delete k m1) (delete k m2).
Proof. intros H k'. rewrite !live_at_delete. by rewrite H. Qed.

Lemma mlive_remove_opt {T} now (m1 m2 : gmap string (Expiring T)) k :
  mlive_eq now m1 m2 -> mlive_eq now (remove_opt k m1) (remove_opt k m2).
Proof. destruct k; simpl; [apply mlive_delete | done]. Qed.

(** A dead entry, or the update of a dead entry, is not seen. *)
Lemma mlive_dead {T} now (m : gmap string (Expiring T)) k :
  live_at now m k = None -> mlive_eq now (delete k m) m.
Proof. intros H k'. rewrite live_at_delete. case_decide; by subst. Qed.
Lemma mlive_dead_insert {T} now (m : gmap string (Expiring T)) k e :
  live_at now m k = None -> alive now e = false -> mlive_eq now (<[k := e]> m) m.
Proof. intros H He k'. rewrite live_at_insert, He. case_decide; by subst. Qed.

Lemma mlive_mono {T} now now' (m1 m2 : gmap string (Expiring T)) :
  now <= now' -> mlive_eq now m1 m2 -> mlive_eq now' m1 m2.
Proof. intros Hle H k. rewrite !(live_at_mono now now') by done. by rewrite H. Qed.

Lemma mlive_retain {T} now (m : gmap string (Expiring T)) : mlive_eq now (retain_alive now m) m.
Proof.
  intros k. unfold live_at at 1. rewrite retain_alive_lookup.
  destruct (live_at now m k) as [e|] eqn:He; simpl; [|done].
  apply live_at_Some in He as [_ He]. by rewrite He.
Qed.

(** Where the map has no entry, or a live one, or a dead one. *)
Lemma live_at_cases {T} now (m : gmap string (Expiring T)) k :
  (exists e, m !! k = Some e /\ alive now e = true /\ live_at now m k = Some e) \/
  (exists e, m !! k = Some e /\ alive now e = false /\ live_at now m k = None) \/
  (m !! k = None /\ live_at now m k = None).
Proof.
  unfold live_at. destruct (m !! k) as [e|]; simpl; [|by right; right].
  destruct (alive now e) eqn:He; [left | right; left]; eauto.
Qed.

Lemma get_live_spec {T} now k (m : gmap string (Expiring T)) :
  (get_live now k m).1 = ex_value <$> live_at now m k /\ mlive_eq now (get_live now k m).2 m.
Proof.
  unfold get_live.
  destruct (live_at_cases now m k) as [(e & -> & He & ->)|[(e & -> & He & Hl)|[-> ->]]];
    rewrite ?He; simpl; [done | | done].
  rewrite Hl. split; [done|]. by apply mlive_dead.
Qed.

Lemma mlive_get {T} now k (m1 m2 : gmap string (Expiring T)) :
  mlive_eq now m1 m2 ->
  (get_live now k m1).1 = (get_live now k m2).1 /\
  mlive_eq now (get_live now k m1).2 (get_live now k m2).2.
Proof.
  intros H. destruct (get_live_spec now k m1) as [-> H1], (get_live_spec now k m2) as [-> H2].
  rewrite H. split; [done|]. by rewrite H1, H2.
Qed.

(** ** The sweep is unobservable *)

Lemma live_eq_mono now now' s1 s2 : now <= now' -> live_eq now s1 s2 -> live_eq now' s1 s2.
Proof. intros Hle (?&?&?&?&?). repeat split; by eapply mlive_mono. Qed.

Lemma live_eq_sweep now s : live_eq now (sweep_expired now s) s.
Proof. repeat split; apply mlive_retain. Qed.

#[export] Hint Resolve mlive_insert mlive_delete mlive_remove_opt mlive_mono live_eq_mono : oidc.

(** A key of two equivalent maps: the same live entry, or a live entry in neither. *)
Lemma mlive_cases {T} now (m1 m2 : gmap string (Expiring T)) k :
  mlive_eq now m1 m2 ->
  (exists e, m1 !! k = Some e /\ m2 !! k = Some e /\ alive now e = true) \/
  (live_at now m1 k = None /\ live_at now m2 k = None).
Proof.
  intros H. destruct (live_at now m1 k) as [e|] eqn:H1; rewrite (H k) in H1; [left | right].
  - exists e. pose proof H1 as H2. rewrite <- (H k) in H2.
    apply live_at_Some in H1 as [? ?], H2 as [? ?]. done.
  - done.
Qed.

(** An operation on a key without a live entry answers as for an absent key. *)
Lemma take_code_dead now c s :
  live_at now (ms_codes s) c = None ->
  (take_code now c s).1 = None /\ live_eq now (take_code now c s).2 s.
Proof.
  intros Hd. unfold take_code.
  destruct (live_at_cases now (ms_codes s) c) as [(e & -> & -> & He)|[(e & -> & -> & He)|[-> He]]];
    simpl; [congruence | | done].
  split; [done|]. repeat split; simpl; try done. by apply mlive_dead.
Qed.

Lemma link_issued_tokens_dead now c a r s :
  live_at now (ms_codes s) c = None -> live_eq now (link_issued_tokens c a r s) s.
Proof.
  intros Hd. unfold link_issued_tokens.
  destruct (live_at_cases now (ms_codes s) c) as [(e & -> & Ha & He)|[(e & -> & Ha & He)|[-> He]]];
    simpl; [congruence | | done].
  repeat split; simpl; try done. by apply mlive_dead_insert.
Qed.

Lemma take_code_live now c s1 s2 :
  live_eq now s1 s2 ->
  (take_code now c s1).1 = (take_code now c s2).1 /\
  live_eq now (take_code now c s1).2 (take_code now c s2).2.
Proof.
  intros Heq. pose proof Heq as (Hi & Hs & Hc & Ha & Hr).
  destruct (mlive_cases now _ _ c Hc) as [(e & H1 & H2 & He)|[H1 H2]].
  - unfold take_code. rewrite H1, H2, He; simpl.
    destruct (cr_used (ex_value e)); (split; [done|]); repeat split; simpl; eauto with oidc.
  - destruct (take_code_dead now c s1 H1) as [-> ->], (take_code_dead now c s2 H2) as [-> ->].
    done.
Qed.

Lemma link_issued_tokens_live now c a r s1 s2 :
  live_eq now s1 s2 -> live_eq now (link_issued_tokens c a r s1) (link_issued_tokens c a r s2).
Proof.
  intros Heq. pose proof Heq as (Hi & Hs & Hc & Ha & Hr).
  destruct (mlive_cases now _ _ c Hc) as [(e & H1 & H2 & He)|[H1 H2]].
  - unfold link_issued_tokens. rewrite H1, H2. repeat split; simpl; eauto with oidc.
  - by rewrite !link_issued_tokens_dead.
Qed.

(** The two conditional updates of the token maps have the same form. *)
Definition update_if {T R} (now : Z) (k : string) (test : T -> bool) (f : T -> T) (yes no : R)
    (m : gmap string (Expiring T)) : R * gmap string (Expiring T) :=
  match m !! k with
  | Some e =>
      if alive now e && test (ex_value e)
      then (yes, <[k := mkExpiring (f (ex_value e)) (ex_expires_at e)]> m) else (no, m)
  | None => (no, m)
  end.

Lemma update_if_live {T R} now k (test : T -> bool) (f : T -> T) (yes no : R) m1 m2 :
  mlive_eq now m1 m2 ->
  (update_if now k test f yes no m1).1 = (update_if now k test f yes no m2).1 /\
  mlive_eq now (update_if now k test f yes no m1).2 (update_if now k test f yes no m2).2.
Proof.
  intros Hm. unfold update_if.
  destruct (mlive_cases now _ _ k Hm) as [(e & -> & -> & ->)|[H1 H2]]; simpl.
  { destruct (test (ex_value e)); simpl; eauto with oidc. }
  destruct (live_at_cases now m1 k) as [(?&?&?&?)|[(?&->&->&?)|[-> ?]]]; [congruence| |];
    (destruct (live_at_cases now m2 k) as [(?&?&?&?)|[(?&->&->&?)|[-> ?]]]; [congruence|done|done]).
Qed.

Lemma update_if_state {T R A} now k (test : T -> bool) (f : T -> T) (yes no : R) m
    (g : gmap string (Expiring T) -> A) :
  (let '(b, m') := update_if now k test f yes no m in (b, g m')).2 =
    g (update_if now k test f yes no m).2.
Proof. by destruct (update_if _ _ _ _ _ _ _). Qed.

Lemma consume_mandate_update now t s :
  consume_mandate_if_unused now t s =
    let '(r, m) := update_if now t (fun a => negb (at_mandate_consumed a))
                     (at_set_mandate_consumed true) (Ok true) (Ok false) (ms_access_tokens s) in
    (r, with_access_tokens m s).
Proof.
  destruct s as [i se c a r]. unfold consume_mandate_if_unused, update_if; simpl.
  destruct (a !! t); [|done]. by case_match.
Qed.

Lemma mark_refresh_used_update now t r s :
  mark_refresh_used now t r s =
    let '(b, m) := update_if now t (fun a => negb (rt_used a)) (rt_mark_used r) true false
                     (ms_refresh_tokens s) in
    (b, with_refresh_tokens m s).
Proof.
  destruct s as [i se c a rt]. unfold mark_refresh_used, update_if; simpl.
  destruct (rt !! t); [|done]. by case_match.
Qed.

Definition is_family_revocation {X} (o : storeE X) : bool :=
  match o with RevokeRefreshFamily _ => true | _ => false end.

Lemma mem_op_live now {X} (o : storeE X) s1 s2 :
  is_family_revocation o = false -> live_eq now s1 s2 ->
  (mem_op now o s1).1 = (mem_op now o s2).1 /\
  live_eq now (mem_op now o s1).2 (mem_op now o s2).2.
Proof.
  intros Ho Heq. pose proof Heq as (Hi & Hs & Hc & Ha & Hr).
  destruct o; simpl in *; try discriminate Ho;
    try (split; [done|]; repeat split; simpl; by eauto with oidc).
  - destruct (mlive_get now uid _ _ Hi) as [H1 H2]. unfold get_interaction.
    destruct (get_live now uid (ms_interactions s1)), (get_live now uid (ms_interactions s2)).
    by repeat split.
  - unfold consume_interaction; simpl. split; [|repeat split; simpl; eauto with oidc].
    specialize (Hi uid). unfold live_at in Hi.
    destruct (ms_interactions s1 !! uid) as [e1|], (ms_interactions s2 !! uid) as [e2|];
      simpl in *; repeat case_match; simplify_eq; try done; congruence.
  - destruct (mlive_get now sid _ _ Hs) as [H1 H2]. unfold get_session.
    destruct (get_live now sid (ms_sessions s1)), (get_live now sid (ms_sessions s2)).
    by repeat split.
  - by apply take_code_live.
  - split; [done|]. by apply link_issued_tokens_live.
  - destruct (mlive_get now token _ _ Ha) as [H1 H2]. unfold get_access_token.
    destruct (get_live now token (ms_access_tokens s1)), (get_live now token (ms_access_tokens s2)).
    by repeat split.
  - rewrite !consume_mandate_update.
    pose proof (update_if_live now token (fun a => negb (at_mandate_consumed a))
      (at_set_mandate_consumed true) (Ok (E := string) true) (Ok false) _ _ Ha) as [H1 H2].
    revert H1 H2. do 2 destruct (update_if _ _ _ _ _ _ _); simpl. by repeat split.
  - destruct (mlive_get now token _ _ Hr) as [H1 H2]. unfold get_refresh_token.
    destruct (get_live now token (ms_refresh_tokens s1)), (get_live now token (ms_refresh_tokens s2)).
    by repeat split.
  - rewrite !mark_refresh_used_update.
    pose proof (update_if_live now token (fun a => negb (rt_used a))
      (rt_mark_used replaced_by) true false _ _ Hr) as [H1 H2].
    revert H1 H2. do 2 destruct (update_if _ _ _ _ _ _ _); simpl. by repeat split.
Qed.

(** ** Single use

    The store with its clock: the environment lets time pass and runs the
    background sweep. *)

Definition mem_world : Type := (Z * MemoryStore)%type.
Definition mem_handler : handler storeE mem_world :=
  fun X o w => let '(x, s') := mem_op w.1 o w.2 in (x, (w.1, s')).
Inductive mem_env : mem_world -> mem_world -> Prop :=
| mem_tick t t' s : t <= t' -> mem_env (t, s) (t', s)
| mem_sweep t s : mem_env (t, s) (t, sweep_expired t s).

(** What wins and what resets a given record. *)
Definition code_wins (c : string) X (o : storeE X) : X -> bool :=
  match o in storeE X return X -> bool with
  | TakeCode c' => fun r => bool_decide (c' = c /\ is_Some r)
  | _ => fun _ => false
  end.
Definition code_resets (c : string) X (o : storeE X) : X -> bool :=
  match o in storeE X return X -> bool with
  | SaveCode a => fun _ => bool_decide (ac_code a = c)
  | _ => fun _ => false
  end.

Definition refresh_wins (t : string) X (o : storeE X) : X -> bool :=
  match o in storeE X return X -> bool with
  | MarkRefreshUsed t' _ => fun r => bool_decide (t' = t /\ r = true)
  | _ => fun _ => false
  end.
Definition refresh_resets (t : string) X (o : storeE X) : X -> bool :=
  match o in storeE X return X -> bool with
  | SaveRefreshToken a => fun _ => bool_decide (rt_token a = t)
  | _ => fun _ => false
  end.

Definition mandate_wins (t : string) X (o : storeE X) : X -> bool :=
  match o in storeE X return X -> bool with
  | ConsumeMandateIfUnused t' => fun r => bool_decide (t' = t /\ r = Ok true)
  | _ => fun _ => false
  end.
Definition mandate_resets (t : string) X (o : storeE X) : X -> bool :=
  match o in storeE X return X -> bool with
  | SaveAccessToken a => fun _ => bool_decide (at_token a = t)
  | _ => fun _ => false
  end.

Definition interaction_wins (u : string) X (o : storeE X) : X -> bool :=
  match o in storeE X return X -> bool with
  | ConsumeInteraction u' => fun r => bool_decide (u' = u /\ r = true)
  | _ => fun _ => false
  end.
Definition interaction_resets (u : string) X (o : storeE X) : X -> bool :=
  match o in storeE X return X -> bool with
  | SaveInteraction i => fun _ => bool_decide (in_uid i = u)
  | _ => fun _ => false
  end.

(** A record that is absent or satisfies [P]. *)
Definition absent_or {T} (P : T -> Prop) (m : gmap string (Expiring T)) (k : string) : Prop :=
  forall e, m !! k = Some e -> P (ex_value e).

Section absent_or.
Context {T} (P : T -> Prop).
  Implicit Type m : gmap string (Expiring T).

Lemma absent_or_insert m k k' e :
    (k' = k -> P (ex_value e)) -> absent_or P m k -> absent_or P (<[k' := e]> m) k.
  Proof.
    intros He Hm e'. rewrite lookup_insert. case_decide; intros; simplify_eq; auto.
  Qed.
Lemma absent_or_delete m k k' : absent_or P m k -> absent_or P (delete k' m) k.
  Proof. intros Hm e'. rewrite lookup_delete. case_decide; [done | apply Hm]. Qed.
Lemma absent_or_remove_opt m k o : absent_or P m k -> absent_or P (remove_opt o m) k.
  Proof. destruct o; [apply absent_or_delete | done]. Qed.
Lemma absent_or_retain m k now : absent_or P m k -> absent_or P (retain_alive now m) k.
  Proof. intros Hm e. rewrite retain_alive_lookup, live_at_Some. intros [? _]. by apply Hm. Qed.
Lemma absent_or_get_live m k k' now :
    absent_or P m k -> absent_or P (get_live now k' m).2 k.
  Proof.
    intros Hm. unfold get_live. repeat case_match; simpl; try done. by apply absent_or_delete.
  Qed.
Lemma absent_or_update_if {R} m k now k' test f (yes no : R) :
    (forall a, P a -> P (f a)) ->
    absent_or P m k -> absent_or P (update_if now k' test f yes no m).2 k.
  Proof.
    intros Hf Hm. unfold update_if.
    destruct (m !! k') as [e|] eqn:He; [|done]. case_match; [|done]. simpl.
    apply absent_or_insert; [|done]. intros ->. simpl. eauto.
  Qed.
End absent_or.

Lemma absent_or_family (P : RefreshToken -> Prop) g c m k :
  absent_or P m k -> absent_or P (revoke_family_loop g c m) k.
Proof.
  revert c m. induction g as [|g IH]; intros [t|] m Hm; simpl; try done.
  by apply IH, absent_or_delete.
Qed.

#[export] Hint Resolve absent_or_insert absent_or_delete absent_or_remove_opt absent_or_retain
  absent_or_get_live absent_or_update_if absent_or_family : oidc.

Lemma get_interaction_state now u s :
  (get_interaction now u s).2 = with_interactions (get_live now u (ms_interactions s)).2 s.
Proof. unfold get_interaction. by destruct (get_live _ _ _). Qed.
Lemma get_session_state now u s :
  (get_session now u s).2 = with_sessions (get_live now u (ms_sessions s)).2 s.
Proof. unfold get_session. by destruct (get_live _ _ _). Qed.
Lemma get_access_token_state now t s :
  (get_access_token now t s).2 = with_access_tokens (get_live now t (ms_access_tokens s)).2 s.
Proof. unfold get_access_token. by destruct (get_live _ _ _). Qed.
Lemma get_refresh_token_state now t s :
  (get_refresh_token now t s).2 = with_refresh_tokens (get_live now t (ms_refresh_tokens s)).2 s.
Proof. unfold get_refresh_token. by destruct (get_live _ _ _). Qed.

(** A predicate of one of the maps that every operation keeps, resets apart. *)
Ltac state_cases :=
  simpl; rewrite ?get_interaction_state, ?get_session_state, ?get_access_token_state,
    ?get_refresh_token_state, ?consume_mandate_update, ?mark_refresh_used_update;
  simpl; eauto with oidc.

Definition code_spent (c : string) (s : MemoryStore) : Prop :=
  absent_or (fun r => cr_used r = true) (ms_codes s) c.

Lemma code_spent_stays c now X (o : storeE X) s :
  code_resets c X o (mem_op now o s).1 = false -> code_spent c s -> code_spent c (mem_op now o s).2.
Proof.
  unfold code_spent. intros Hr Hs. destruct o; state_cases.
  - (* SaveCode *) apply bool_decide_eq_false in Hr. apply absent_or_insert; [done | done].
  - unfold take_code. destruct (ms_codes s !! code) as [e|] eqn:He; [|done].
    destruct (alive now e); simpl; [|by apply absent_or_delete].
    destruct (cr_used (ex_value e)); simpl; by apply absent_or_insert.
  - unfold link_issued_tokens. destruct (ms_codes s !! code) as [e|] eqn:He; [|done].
    simpl. apply absent_or_insert; [|done]. intros ->. exact (Hs e He).
  - by rewrite update_if_state.
  - by rewrite update_if_state.
Qed.

Lemma code_win_spends c now X (o : storeE X) s :
  code_wins c X o (mem_op now o s).1 = true -> code_spent c (mem_op now o s).2.
Proof.
  destruct o; simpl; try done. intros Hw. apply bool_decide_eq_true in Hw as [-> Hw].
  unfold take_code in *. destruct (ms_codes s !! c) as [e|] eqn:He; [|by destruct Hw].
  destruct (alive now e); simpl in *; [|by destruct Hw].
  destruct (cr_used (ex_value e)); simpl in *; [by destruct Hw|].
  intros e'. simpl. rewrite lookup_insert_eq. by intros [= <-].
Qed.

Lemma code_spent_no_win c now X (o : storeE X) s :
  code_spent c s -> code_wins c X o (mem_op now o s).1 = false.
Proof.
  intros Hs. destruct o; simpl; try done. apply bool_decide_eq_false. intros [-> Hw].
  unfold take_code in *. destruct (ms_codes s !! c) as [e|] eqn:He; [|by destruct Hw].
  destruct (alive now e); simpl in *; [|by destruct Hw].
  rewrite (Hs _ He) in Hw. by destruct Hw.
Qed.

(** The conditional updates: a win is the [yes] answer and leaves [f] of the
    entry, which no longer passes the test. *)
Lemma update_if_cases {T R} now k (test : T -> bool) (f : T -> T) (yes no : R) m :
  (exists e, m !! k = Some e /\ alive now e = true /\ test (ex_value e) = true /\
     update_if now k test f yes no m =
       (yes, <[k := mkExpiring (f (ex_value e)) (ex_expires_at e)]> m)) \/
  (update_if now k test f yes no m = (no, m) /\
     forall e, m !! k = Some e -> alive now e && test (ex_value e) = false).
Proof.
  unfold update_if. destruct (m !! k) as [e|] eqn:He; [|by right].
  destruct (alive now e && test (ex_value e)) eqn:Ht.
  - left. apply andb_true_iff in Ht as [? ?]. eauto 6.
  - right. split; [done|]. by intros e' [= <-].
Qed.

Definition refresh_spent (t : string) (s : MemoryStore) : Prop :=
  absent_or (fun r => rt_used r = true) (ms_refresh_tokens s) t.
Definition mandate_spent (t : string) (s : MemoryStore) : Prop :=
  absent_or (fun a => at_mandate_consumed a = true) (ms_access_tokens s) t.
Definition interaction_spent (u : string) (s : MemoryStore) : Prop :=
  ms_interactions s !! u = None.

(** Most operations leave a given map alone, or only remove from it. *)
Lemma take_code_access now c s :
  exists o, ms_access_tokens (take_code now c s).2 = remove_opt o (ms_access_tokens s).
Proof.
  unfold take_code. repeat (case_match; simpl); try (by exists None). by eexists.
Qed.
Lemma take_code_refresh now c s :
  exists o, ms_refresh_tokens (take_code now c s).2 = remove_opt o (ms_refresh_tokens s).
Proof.
  unfold take_code. repeat (case_match; simpl); try (by exists None). by eexists.
Qed.
Lemma take_code_interactions now c s :
  ms_interactions (take_code now c s).2 = ms_interactions s.
Proof. unfold take_code. by repeat (case_match; simpl). Qed.
Lemma link_issued_tokens_other c a r s :
  ms_interactions (link_issued_tokens c a r s) = ms_interactions s /\
  ms_access_tokens (link_issued_tokens c a r s) = ms_access_tokens s /\
  ms_refresh_tokens (link_issued_tokens c a r s) = ms_refresh_tokens s.
Proof. unfold link_issued_tokens. by repeat (case_match; simpl). Qed.

Lemma refresh_spent_stays t now X (o : storeE X) s :
  refresh_resets t X o (mem_op now o s).1 = false -> refresh_spent t s -> refresh_spent t (mem_op now o s).2.
Proof.
  unfold refresh_spent. intros Hr Hs. destruct o; state_cases.
  - destruct (take_code_refresh now code s) as [o ->]. by apply absent_or_remove_opt.
  - by destruct (link_issued_tokens_other code access_token refresh_token s) as (_ & _ & ->).
  - by rewrite update_if_state.
  - apply bool_decide_eq_false in Hr. by apply absent_or_insert.
  - rewrite update_if_state. simpl.
    apply (absent_or_update_if (fun r => rt_used r = true)); [done | done].
Qed.

Lemma mandate_spent_stays t now X (o : storeE X) s :
  mandate_resets t X o (mem_op now o s).1 = false -> mandate_spent t s -> mandate_spent t (mem_op now o s).2.
Proof.
  unfold mandate_spent. intros Hr Hs. destruct o; state_cases.
  - destruct (take_code_access now code s) as [o ->]. by apply absent_or_remove_opt.
  - by destruct (link_issued_tokens_other code access_token refresh_token s) as (_ & -> & _).
  - apply bool_decide_eq_false in Hr. by apply absent_or_insert.
  - rewrite update_if_state. simpl.
    apply (absent_or_update_if (fun r => at_mandate_consumed r = true)); [done | done].
  - by rewrite update_if_state.
Qed.

Lemma interaction_spent_stays u now X (o : storeE X) s :
  interaction_resets u X o (mem_op now o s).1 = false -> interaction_spent u s ->
  interaction_spent u (mem_op now o s).2.
Proof.
  unfold interaction_spent. intros Hr Hs. destruct o; state_cases.
  - apply bool_decide_eq_false in Hr. by rewrite lookup_insert_ne.
  - unfold get_live. repeat (case_match; simpl); try done. apply lookup_delete_None. by right.
  - apply lookup_delete_None. by right.
  - by rewrite take_code_interactions.
  - by destruct (link_issued_tokens_other code access_token refresh_token s) as (-> & _ & _).
  - by rewrite update_if_state.
  - by rewrite update_if_state.
Qed.

Lemma mem_env_spent (P : MemoryStore -> Prop) w w' :
  (forall t s, P s -> P (sweep_expired t s)) -> mem_env w w' -> P w.2 -> P w'.2.
Proof. intros Hsweep [? ? ? _ | ? ?]; simpl; auto. Qed.

Ltac one_shot_unfold :=
  unfold mem_handler in *;
  repeat match goal with
  | H : (let '(_, _) := ?p in _) = _ |- _ =>
      let Hp := fresh "Hop" in destruct p as [? ?] eqn:Hp; injection H as <- <-; simpl in *
  end.

#[export] Instance code_one_shot c : OneShot mem_handler mem_env (code_wins c) (code_resets c).
Proof.
  refine {| spent w := code_spent c w.2 |}.
  - intros X o [now s] x w' He Hw. one_shot_unfold.
    pose proof (code_win_spends c now X o s) as H. rewrite Hop in H. by apply H.
  - intros X o [now s] x w' He Hs Hr. one_shot_unfold.
    pose proof (code_spent_stays c now X o s) as H. rewrite Hop in H. by apply H.
  - intros X o [now s] x w' He Hs. one_shot_unfold.
    pose proof (code_spent_no_win c now X o s Hs) as H. by rewrite Hop in H.
  - intros w w' He. apply mem_env_spent; [|done]. intros t s. apply absent_or_retain.
Defined.

#[export] Instance refresh_one_shot t :
  OneShot mem_handler mem_env (refresh_wins t) (refresh_resets t).
Proof.
  refine {| spent w := refresh_spent t w.2 |}.
  - intros X o [now s] x w' He Hw. one_shot_unfold.
    destruct o; simpl in *; try done. apply bool_decide_eq_true in Hw as [-> ->].
    rewrite mark_refresh_used_update in Hop.
    destruct (update_if_cases now t (fun a => negb (rt_used a)) (rt_mark_used replaced_by) true false
                (ms_refresh_tokens s)) as [(e & _ & _ & _ & Hu)|[Hu _]];
      rewrite Hu in Hop; simplify_eq/=.
    intros e'. simpl. rewrite lookup_insert_eq. by intros [= <-].
  - intros X o [now s] x w' He Hs Hr. one_shot_unfold.
    pose proof (refresh_spent_stays t now X o s) as H. rewrite Hop in H. by apply H.
  - intros X o [now s] x w' He Hs. one_shot_unfold.
    destruct o; simpl in *; try done. apply bool_decide_eq_false. intros [-> ->].
    rewrite mark_refresh_used_update in Hop.
    destruct (update_if_cases now t (fun a => negb (rt_used a)) (rt_mark_used replaced_by) true false
                (ms_refresh_tokens s)) as [(e & He & _ & Ht & Hu)|[Hu _]];
      rewrite Hu in Hop; simplify_eq/=. by rewrite (Hs e He) in Ht.
  - intros w w' He. apply mem_env_spent; [|done]. intros ? s. apply absent_or_retain.
Defined.

#[export] Instance mandate_one_shot t :
  OneShot mem_handler mem_env (mandate_wins t) (mandate_resets t).
Proof.
  refine {| spent w := mandate_spent t w.2 |}.
  - intros X o [now s] x w' He Hw. one_shot_unfold.
    destruct o; simpl in *; try done. apply bool_decide_eq_true in Hw as [-> ->].
    rewrite consume_mandate_update in Hop.
    destruct (update_if_cases now t (fun a => negb (at_mandate_consumed a))
                (at_set_mandate_consumed true) (Ok (E := string) true) (Ok false)
                (ms_access_tokens s)) as [(e & _ & _ & _ & Hu)|[Hu _]];
      rewrite Hu in Hop; simplify_eq/=.
    intros e'. simpl. rewrite lookup_insert_eq. by intros [= <-].
  - intros X o [now s] x w' He Hs Hr. one_shot_unfold.
    pose proof (mandate_spent_stays t now X o s) as H. rewrite Hop in H. by apply H.
  - intros X o [now s] x w' He Hs. one_shot_unfold.
    destruct o; simpl in *; try done. apply bool_decide_eq_false. intros [-> ->].
    rewrite consume_mandate_update in Hop.
    destruct (update_if_cases now t (fun a => negb (at_mandate_consumed a))
                (at_set_mandate_consumed true) (Ok (E := string) true) (Ok false)
                (ms_access_tokens s)) as [(e & He & _ & Ht & Hu)|[Hu _]];
      rewrite Hu in Hop; simplify_eq/=. by rewrite (Hs e He) in Ht.
  - intros w w' He. apply mem_env_spent; [|done]. intros ? s. apply absent_or_retain.
Defined.

#[export] Instance interaction_one_shot u :
  OneShot mem_handler mem_env (interaction_wins u) (interaction_resets u).
Proof.
  refine {| spent w := interaction_spent u w.2 |}.
  - intros X o [now s] x w' He Hw. one_shot_unfold.
    destruct o; simpl in *; try done. apply bool_decide_eq_true in Hw as [-> ->].
    unfold consume_interaction in Hop. simplify_eq/=. apply lookup_delete_eq.
  - intros X o [now s] x w' He Hs Hr. one_shot_unfold.
    pose proof (interaction_spent_stays u now X o s) as H. rewrite Hop in H. by apply H.
  - intros X o [now s] x w' He Hs. one_shot_unfold.
    destruct o; simpl in *; try done. apply bool_decide_eq_false. intros [-> ->].
    unfold consume_interaction, interaction_spent in *. rewrite Hs in Hop. simplify_eq.
  - intros w w' He. apply mem_env_spent; [|done]. unfold interaction_spent. intros ? s Hs.
    simpl. rewrite retain_alive_lookup. unfold live_at. by rewrite Hs.
Defined.

(** ** Families of refresh tokens *)

(** The tokens of a rotation series, oldest first: each one was replaced by the
    next, the last one was not replaced. *)
Inductive linked (m : gmap string (Expiring RefreshToken)) : list string -> Prop :=
| linked_last t :
    (forall e, m !! t = Some e -> rt_replaced_by (ex_value e) = None) -> linked m [t]
| linked_cons t t' l e :
    m !! t = Some e -> rt_replaced_by (ex_value e) = Some t' ->
    linked m (t' :: l) -> linked m (t :: t' :: l).

Lemma linked_delete m t l : t ∉ l -> linked m l -> linked (delete t m) l.
Proof.
  intros Hni Hl. induction Hl as [t1 Hlast | t1 t2 l e He Hr Hl IH].
  - apply linked_last. intros e. rewrite lookup_delete_Some. intros [_ ?]. by apply Hlast.
  - apply (linked_cons _ _ _ _ e); [|done|].
    + rewrite lookup_delete_ne; [done|]. intros ->. apply Hni. left.
    + apply IH. intros Hin. apply Hni. by right.
Qed.

Lemma revoke_family_loop_S g t m :
  revoke_family_loop (S g) (Some t) m =
    revoke_family_loop g (m !! t ≫= fun e => rt_replaced_by (ex_value e)) (delete t m).
Proof. done. Qed.

Lemma revoke_family_loop_None g m : revoke_family_loop g None m = m.
Proof. by destruct g. Qed.

Lemma revoke_family_loop_linked g t l m k :
  linked m (t :: l) -> NoDup (t :: l) ->
  revoke_family_loop g (Some t) m !! k = if decide (k ∈ take g (t :: l)) then None else m !! k.
Proof.
  revert t l m. induction g as [|g IH]; intros t l m Hl Hnd.
  { rewrite decide_False; [done | by apply not_elem_of_nil]. }
  rewrite revoke_family_loop_S. apply NoDup_cons in Hnd as [Hni Hnd].
  inversion Hl as [t1 Hlast | t1 t2 l' e He Hr Hl']; subst.
  - assert (Hnone : (m !! t ≫= fun e => rt_replaced_by (ex_value e)) = None).
    { destruct (m !! t) as [e|] eqn:He; simpl; [by apply Hlast | done]. }
    rewrite Hnone, revoke_family_loop_None, lookup_delete. rewrite firstn_cons, take_nil.
    destruct (decide (t = k)) as [->|Hne].
    + rewrite decide_True; [done | by left].
    + rewrite decide_False; [done | set_solver].
  - rewrite He. simpl. rewrite Hr.
    rewrite (IH t2 l' (delete t m)); [|by apply linked_delete|done].
    rewrite lookup_delete.
    destruct (decide (t = k)) as [->|Hne].
    + rewrite (decide_True (P := k ∈ k :: _)) by left. by case_decide.
    + do 2 case_decide; try done; set_solver.
Qed.

(** ** The properties *)

(** Revoking a family from its oldest token removes exactly the first 64
    tokens of the rotation series and no other refresh token: the whole series
    when it has at most 64 tokens. *)
Theorem revoke_family_exact s t l k :
  linked (ms_refresh_tokens s) (t :: l) -> NoDup (t :: l) ->
  ms_refresh_tokens (revoke_refresh_family t s) !! k =
    if decide (k ∈ take FAMILY_GUARD (t :: l)) then None else ms_refresh_tokens s !! k.
Proof. intros Hl Hnd. exact (revoke_family_loop_linked FAMILY_GUARD t l _ k Hl Hnd). Qed.

(** With the same live entries, a series of live entries is the same. *)
Fixpoint series_alive (now : Z) (m1 m2 : gmap string (Expiring RefreshToken)) (guard : nat) (cur : option string) : Prop :=
  match guard, cur with
  | S guard', Some t =>
      match m1 !! t with
      | Some e => alive now e = true /\ series_alive now m1 m2 guard' (rt_replaced_by (ex_value e))
      | None => m2 !! t = None
      end
  | _, _ => True
  end.
Lemma series_alive_delete now m1 m2 t guard cur :
  series_alive now m1 m2 guard cur -> series_alive now (delete t m1) (delete t m2) guard cur.
Proof.
  revert cur. induction guard as [|guard IH]; intros [u|]; try done. cbn [series_alive].
  rewrite !lookup_delete. case_decide; [done|]. destruct (m1 !! u) as [e|]; [|done].
  intros [Ha Hn]. split; [done | by apply IH].
Qed.
Lemma revoke_family_live now m1 m2 guard cur :
  mlive_eq now m1 m2 -> series_alive now m1 m2 guard cur ->
  mlive_eq now (revoke_family_loop guard cur m1) (revoke_family_loop guard cur m2).
Proof.
  revert cur m1 m2. induction guard as [|guard IH]; intros [t|] m1 m2 Hm Ha; try done.
  rewrite !revoke_family_loop_S. cbn [series_alive] in Ha. destruct (m1 !! t) as [e|] eqn:He.
  - destruct Ha as [Hal Hn]. assert (H2 : live_at now m2 t = Some e) by (rewrite <- Hm; by apply live_at_Some).
    apply live_at_Some in H2 as [-> _]. apply IH; [by apply mlive_delete | by apply series_alive_delete].
  - rewrite Ha. cbn [mbind option_bind]. rewrite !revoke_family_loop_None. by apply mlive_delete.
Qed.

(** The tokens of a series that an operation revokes are live, or in neither store. *)
Definition revokes_live {X} (now : Z) (o : storeE X) (s1 s2 : MemoryStore) : Prop :=
  match o with
  | RevokeRefreshFamily t => series_alive now (ms_refresh_tokens s1) (ms_refresh_tokens s2) FAMILY_GUARD (Some t)
  | _ => True
  end.

(** C38: the background sweep is unobservable: a swept store has the same live
    entries, stores with the same live entries keep them as time passes, and every
    operation then answers the same and leads to stores with the same live entries.  For
    the revocation of a family the tokens of the series, as far as it is followed, are
    live or in neither store: it follows a record that has expired only while the sweep
    has not removed it. *)
Theorem sweep_unobservable now now' X (o : storeE X) s1 s2 :
  live_eq now (sweep_expired now s1) s1 /\
  (now <= now' -> live_eq now s1 s2 -> revokes_live now' o s1 s2 ->
     (mem_op now' o s1).1 = (mem_op now' o s2).1 /\
     live_eq now' (mem_op now' o s1).2 (mem_op now' o s2).2).
Proof.
  split; [apply live_eq_sweep|]. intros Hle Heq Ho. pose proof (live_eq_mono _ _ _ _ Hle Heq) as Heq'.
  destruct (is_family_revocation o) eqn:Hf; [|by apply mem_op_live]. destruct o; try done. simpl in *.
  split; [done|]. destruct Heq' as (? & ? & ? & ? & Hr). repeat split; try done. by apply revoke_family_live.
Qed.

(** A record saved at [now] is found again, unchanged, exactly until its
    retention limit: one hour for interactions, seven days for sessions, fifteen
    minutes for access tokens, fourteen days for refresh tokens, and the code's own
    [expires_at] for authorization codes. *)
Theorem record_lifetimes now now' i se t r c s :
  (get_interaction now' (in_uid i) (save_interaction now i s)).1 =
    (if now' <? now + 3600 then Some i else None) /\
  (get_session now' (se_sid se) (save_session now se s)).1 =
    (if now' <? now + 604800 then Some se else None) /\
  (get_access_token now' (at_token t) (save_access_token now t s)).1 =
    (if now' <? now + 900 then Some t else None) /\
  (get_refresh_token now' (rt_token r) (save_refresh_token now r s)).1 =
    (if now' <? now + 1209600 then Some r else None) /\
  (take_code now' (ac_code c) (save_code c s)).1 =
    (if now' <? ac_expires_at c then Some c else None).
Proof.
  unfold get_interaction, get_session, get_access_token, get_refresh_token, take_code, get_live.
  simpl. rewrite !lookup_insert_eq. unfold alive, INTERACTION_TTL_SECS, SESSION_TTL_SECS,
    ACCESS_TTL_SECS, REFRESH_TTL_SECS. simpl.
  repeat split; by destruct (now' <? _).
Qed.

(** The operations that concern the record of code [c]. *)
Definition touches_code (c : string) {X} (o : storeE X) : bool :=
  match o with
  | SaveCode a => bool_decide (ac_code a = c)
  | TakeCode c' | LinkIssuedTokens c' _ _ => bool_decide (c' = c)
  | _ => false
  end.
Definition spares_code (c : string) (ev : event storeE) : bool :=
  match ev with Ev _ o _ => negb (touches_code c o) | EvEnv => true end.

Lemma mem_op_spares_code c now X (o : storeE X) s :
  touches_code c o = false -> ms_codes (mem_op now o s).2 !! c = ms_codes s !! c.
Proof.
  destruct o; simpl; intros Ht; try (apply bool_decide_eq_false in Ht); try done.
  - unfold get_interaction. by destruct (get_live _ _ _).
  - unfold get_session. by destruct (get_live _ _ _).
  - by rewrite lookup_insert_ne.
  - unfold take_code. destruct (ms_codes s !! _) as [e|]; [|done].
    destruct (alive now e); [|simpl; by rewrite lookup_delete_ne].
    destruct (cr_used (ex_value e)); simpl; by rewrite lookup_insert_ne.
  - unfold link_issued_tokens. destruct (ms_codes s !! _) as [e|]; [|done]. simpl. by rewrite lookup_insert_ne.
  - unfold get_access_token. by destruct (get_live _ _ _).
  - rewrite consume_mandate_update. by destruct (update_if _ _ _ _ _ _ _).
  - unfold get_refresh_token. by destruct (get_live _ _ _).
  - rewrite mark_refresh_used_update. by destruct (update_if _ _ _ _ _ _ _).
Qed.
Lemma mem_exec_clock w tr w' : wexec mem_handler mem_env w tr w' -> w.1 <= w'.1.
Proof.
  induction 1 as [w | w i X o x w1 tr w2 Hh _ IH | w w1 tr w2 Henv _ IH]; [lia|..].
  - unfold mem_handler in Hh. destruct (mem_op w.1 o w.2). by injection Hh as _ <-.
  - destruct Henv; simpl in *; lia.
Qed.
(** The record of a code that is not touched stays until it expires. *)
Lemma code_stays c e t s tr t' s' :
  wexec mem_handler mem_env (t, s) tr (t', s') -> Forall (fun ev => spares_code c ev = true) tr ->
  ms_codes s !! c = Some e -> t' < ex_expires_at e -> t <= t' /\ ms_codes s' !! c = Some e.
Proof.
  remember (t, s) as w eqn:Hw. remember (t', s') as w' eqn:Hw'. intros Hex. revert Hw Hw'. revert t s.
  induction Hex as [w | w i X o x w1 tr w2 Hh Hex IH | w w1 tr w2 Henv Hex IH]; intros t s Hw Hw' Hs He Hlt; [|subst..].
  - rewrite Hw in Hw'. injection Hw' as <- <-. by split; [lia|].
  - apply Forall_cons in Hs as [Hs Hss]. unfold mem_handler in Hh. simpl in Hh. apply negb_true_iff in Hs.
    pose proof (mem_op_spares_code c t X o s Hs) as Hc. destruct (mem_op t o s) as [y s1]. injection Hh as _ <-.
    apply (IH t s1 eq_refl eq_refl Hss); [by rewrite <- He | done].
  - apply Forall_cons in Hs as [_ Hss]. inversion Henv as [t1 t2 s0 Hle | t1 s0]; subst.
    + destruct (IH t2 s eq_refl eq_refl Hss He Hlt). split; [lia | done].
    + pose proof (mem_exec_clock _ _ _ Hex) as Hle. simpl in Hle.
      apply (IH t _ eq_refl eq_refl Hss); [|done]. simpl. rewrite retain_alive_lookup. unfold live_at. rewrite He. simpl.
      unfold alive. by rewrite (proj2 (Z.ltb_lt _ _)) by lia.
Qed.

(** C32: replaying a redeemed authorization code.  A code is taken and, after other
    operations, the tokens issued for it are linked to it.  Whatever then happens to the
    rest of the store, however long it takes and however often the sweep runs, the first
    replay before the expiry of the code is refused, and removes exactly the access token
    and the refresh token of the code from the store as it then is. *)
Theorem code_replay_revokes t0 c a r s ac s1 tr1 t1 s2 tr2 t2 s3 :
  take_code t0 c s = (Some ac, s1) ->
  (forall e, ms_codes s !! c = Some e -> ex_expires_at e = ac_expires_at (cr_code (ex_value e))) ->
  wexec mem_handler mem_env (t0, s1) tr1 (t1, s2) -> Forall (fun ev => spares_code c ev = true) tr1 ->
  wexec mem_handler mem_env (t1, link_issued_tokens c a r s2) tr2 (t2, s3) -> Forall (fun ev => spares_code c ev = true) tr2 ->
  t1 <= t2 < ac_expires_at ac ->
  let '(o, s4) := take_code t2 c s3 in
  o = None /\
  ms_access_tokens s4 = delete a (ms_access_tokens s3) /\
  ms_refresh_tokens s4 = remove_opt r (ms_refresh_tokens s3) /\
  ms_interactions s4 = ms_interactions s3 /\ ms_sessions s4 = ms_sessions s3.
Proof.
  intros Htake Hexp Hw1 Hs1 Hw2 Hs2 [Ht Hlt]. unfold take_code in Htake.
  destruct (ms_codes s !! c) as [e|] eqn:He; [|done]. specialize (Hexp e eq_refl).
  destruct (alive t0 e) eqn:Hal; [|done]. simpl in Htake.
  destruct (cr_used (ex_value e)) eqn:Hu; [done|]. injection Htake as <- <-.
  destruct (code_stays c (mkExpiring (mkCodeRecord (cr_code (ex_value e)) true (cr_issued_access (ex_value e))
    (cr_issued_refresh (ex_value e))) (ex_expires_at e)) _ _ _ _ _ Hw1 Hs1) as [_ Hc1];
    [simpl; apply lookup_insert_eq | simpl; lia|].
  destruct (code_stays c (mkExpiring (mkCodeRecord (cr_code (ex_value e)) true (Some a) r) (ex_expires_at e)) _ _ _ _ _ Hw2 Hs2) as [_ Hc2];
    [unfold link_issued_tokens; rewrite Hc1; simpl; apply lookup_insert_eq | simpl; lia|].
  unfold take_code. rewrite Hc2. unfold alive; simpl. rewrite (proj2 (Z.ltb_lt _ _)) by lia. done.
Qed.

(** ** Witnesses *)

Definition sample_refresh (t : string) (next : option string) : Expiring RefreshToken :=
  mkExpiring (mkRefreshToken t "client" "alice" "openid" None None None None "family"
                (bool_decide (is_Some next)) next) 2000.
Definition sample_code : AuthorizationCode :=
  mkAuthorizationCode "code" "client" "alice" "https://rp.example/cb" "openid" None None None
    1000 None None None 1060.
Definition sample_access : AccessToken :=
  mkAccessToken "at" "client" "alice" "openid" None None None (Some 1000) None false.
Definition sample_family : MemoryStore :=
  with_refresh_tokens
    (<["r1" := sample_refresh "r1" (Some "r2")]>
       (<["r2" := sample_refresh "r2" None]> (<["other" := sample_refresh "other" None]> ∅)))
    MemoryStore_default.

Lemma revoke_family_exact_witness :
  ms_refresh_tokens (revoke_refresh_family "r1" sample_family) !! "r2" = None.
Proof.
  rewrite (revoke_family_exact sample_family "r1" ["r2"] "r2").
  - vm_compute. reflexivity.
  - apply (linked_cons _ _ _ _ (sample_refresh "r1" (Some "r2"))); [reflexivity | reflexivity |].
    apply linked_last. intros e He.
    assert (e = sample_refresh "r2" None) as -> by (vm_compute in He; vm_compute; congruence). reflexivity.
  - apply NoDup_cons. split; [set_solver|]. apply NoDup_singleton.
Defined.

Lemma sweep_unobservable_witness :
  let s := with_refresh_tokens (<["old" := sample_refresh "old" None]> ∅) MemoryStore_default in
  (mem_op 3001 (TakeCode "code") (sweep_expired 3000 s)).1 = (mem_op 3001 (TakeCode "code") s).1.
Proof.
  intros s.
  destruct (sweep_unobservable 3000 3001 _ (TakeCode "code") (sweep_expired 3000 s) s) as [_ H].
  apply H; [lia | | exact I].
  apply (proj1 (sweep_unobservable 3000 3001 _ (TakeCode "code") s s)).
Defined.

Definition sample_redeemed : MemoryStore :=
  (take_code 1010 "code" (save_code sample_code (save_access_token 1010 sample_access
     MemoryStore_default))).2.
(** The code is redeemed and its token linked; a session is saved, time passes, the sweep runs. *)
Definition later_session : Session := mkSession "sid" "alice" 1015.
Definition sample_replayed : MemoryStore :=
  sweep_expired 1020 (save_session 1010 later_session (link_issued_tokens "code" "at" None sample_redeemed)).
Lemma code_replay_revokes_witness :
  let '(o, s2) := take_code 1020 "code" sample_replayed in
  o = None /\
  ms_access_tokens s2 = delete "at" (ms_access_tokens sample_replayed) /\
  ms_refresh_tokens s2 = ms_refresh_tokens sample_replayed /\
  ms_interactions s2 = ms_interactions sample_replayed /\
  ms_sessions s2 = ms_sessions sample_replayed.
Proof.
  apply (code_replay_revokes 1010 "code" "at" None
    (save_code sample_code (save_access_token 1010 sample_access MemoryStore_default))
    sample_code sample_redeemed [] 1010 sample_redeemed
    [Ev 0 (SaveSession later_session) (); EvEnv; EvEnv] 1020 sample_replayed); [reflexivity | | | | | | by vm_compute].
  - intros e He. assert (e = mkExpiring (mkCodeRecord sample_code false None None) 1060) as ->
      by (vm_compute in He; vm_compute; congruence). reflexivity.
  - constructor.
  - constructor.
  - eapply wexec_op; [reflexivity|]. eapply wexec_env; [by apply (mem_tick 1010 1020)|].
    eapply wexec_env; [apply mem_sweep|]. constructor.
  - repeat constructor.
Defined.

(** * Well-formed stores *)

(** Every entry under its own identifier, with a bound on its expiry and a property of its record. *)
Definition filed {T} (id : T -> string) (good : T -> Prop) (limit : T -> Z) (m : gmap string (Expiring T)) : Prop :=
  map_Forall (fun k e => id (ex_value e) = k /\ good (ex_value e) /\ ex_expires_at e <= limit (ex_value e)) m.

Definition refresh_typed (t : RefreshToken) : Prop := forall nt, rt_replaced_by t = Some nt -> rt_used t = true.
Definition store_typed (now : Z) (s : MemoryStore) : Prop :=
  filed in_uid (fun _ => True) (fun _ => now + INTERACTION_TTL_SECS) (ms_interactions s) /\
  filed se_sid (fun _ => True) (fun _ => now + SESSION_TTL_SECS) (ms_sessions s) /\
  filed (fun c => ac_code (cr_code c)) (fun _ => True) (fun c => ac_expires_at (cr_code c)) (ms_codes s) /\
  filed at_token (fun _ => True) (fun _ => now + ACCESS_TTL_SECS) (ms_access_tokens s) /\
  filed rt_token refresh_typed (fun _ => now + REFRESH_TTL_SECS) (ms_refresh_tokens s).

(** A refresh token is saved without a successor, or as a used one. *)
Definition saves_typed {X} (o : storeE X) : Prop :=
  match o with SaveRefreshToken t => refresh_typed t | _ => True end.

Inductive reachable : Z -> MemoryStore -> Prop :=
| reach_start t : reachable t MemoryStore_default
| reach_wait t t' s : reachable t s -> t <= t' -> reachable t' s
| reach_sweep t s : reachable t s -> reachable t (sweep_expired t s)
| reach_op t {X} (o : storeE X) s : reachable t s -> saves_typed o -> reachable t (mem_op t o s).2.

(** ** Maps of entries *)

Section filed.
Context {T : Type} (id : T -> string) (good : T -> Prop) (limit : T -> Z).
Notation filed := (filed id good limit).

Lemma filed_insert k e m : id (ex_value e) = k -> good (ex_value e) -> ex_expires_at e <= limit (ex_value e) -> filed m -> filed (<[k := e]> m).
Proof. intros. by apply map_Forall_insert_2. Qed.
Lemma filed_delete k m : filed m -> filed (delete k m).
Proof. apply map_Forall_delete. Qed.
Lemma filed_remove k m : filed m -> filed (remove_opt k m).
Proof. destruct k; [apply filed_delete | done]. Qed.
Lemma filed_live now k m : filed m -> filed (get_live now k m).2.
Proof. unfold get_live. destruct (m !! k) as [e|]; [|done]. destruct (alive now e); [done | apply filed_delete]. Qed.
Lemma filed_retain now m : filed m -> filed (retain_alive now m).
Proof. intros Hm k e He. apply map_lookup_filter_Some in He as [He _]. exact (Hm k e He). Qed.
(** Replacing the record of an entry, whose expiry stays. *)
Lemma filed_update k e v m :
  m !! k = Some e -> id v = id (ex_value e) -> limit v = limit (ex_value e) -> good v -> filed m ->
  filed (<[k := mkExpiring v (ex_expires_at e)]> m).
Proof. intros He Hid Hl Hg Hm. destruct (Hm k e He) as (Hk & _ & Hx). apply filed_insert; simpl; [congruence | done | by rewrite Hl | done]. Qed.
End filed.

Lemma filed_later {T} id good (limit limit' : T -> Z) m :
  (forall x, limit x <= limit' x) -> filed id good limit m -> filed id good limit' m.
Proof. intros Hl Hm k e He. destruct (Hm k e He) as (? & ? & ?). specialize (Hl (ex_value e)). split; [done|]. split; [done | lia]. Qed.

Lemma filed_family limit guard cur m :
  filed rt_token refresh_typed limit m -> filed rt_token refresh_typed limit (revoke_family_loop guard cur m).
Proof.
  revert cur m. induction guard as [|guard IH]; intros [t|] m Hm; try exact Hm. apply IH, filed_delete, Hm.
Qed.

Create HintDb filed.
#[export] Hint Resolve filed_insert filed_delete filed_remove filed_live filed_retain filed_family : filed.

Ltac typed := split; [|split; [|split; [|split]]]; simpl; auto with filed.
Ltac typed_get :=
  match goal with |- context [get_live ?t ?k ?m] =>
    let Hg := fresh in destruct (get_live t k m) as [r m'] eqn:Hg; replace m' with (get_live t k m).2 by (by rewrite Hg); typed
  end.

Lemma wait_typed t t' s : t <= t' -> store_typed t s -> store_typed t' s.
Proof.
  intros Ht (Hi & Hs & Hc & Ha & Hr). split; [|split; [|split; [done|split]]].
  all: eapply filed_later; [|eassumption]; intros ?; cbv beta; lia.
Qed.
Lemma sweep_typed t s : store_typed t s -> store_typed t (sweep_expired t s).
Proof. intros (Hi & Hs & Hc & Ha & Hr). typed. Qed.

Lemma take_code_typed t c s : store_typed t s -> store_typed t (take_code t c s).2.
Proof.
  intros (Hi & Hs & Hc & Ha & Hr). unfold take_code. destruct (ms_codes s !! c) as [e|] eqn:He; [|done].
  destruct (alive t e); cbn [negb]; [|typed].
  destruct (cr_used (ex_value e)); typed; by apply (filed_update _ _ _ _ e).
Qed.
Lemma mem_op_typed t {X} (o : storeE X) s : saves_typed o -> store_typed t s -> store_typed t (mem_op t o s).2.
Proof.
  intros Ho Hall. pose proof Hall as (Hi & Hs & Hc & Ha & Hr). destruct o; simpl; try done.
  - typed. apply filed_insert; simpl; auto; lia.
  - unfold get_interaction. typed_get.
  - typed.
  - typed. apply filed_insert; simpl; auto; lia.
  - unfold get_session. typed_get.
  - typed.
  - typed. apply filed_insert; simpl; auto; lia.
  - by apply take_code_typed.
  - unfold link_issued_tokens. destruct (ms_codes s !! code) as [e|] eqn:He; [|done].
    typed. by apply (filed_update _ _ _ _ e).
  - typed. apply filed_insert; simpl; auto; lia.
  - unfold get_access_token. typed_get.
  - typed.
  - unfold consume_mandate_if_unused. destruct (ms_access_tokens s !! token) as [e|] eqn:He; [|done].
    destruct (alive t e && _); [|done]. typed. by apply (filed_update _ _ _ _ e).
  - typed. apply filed_insert; simpl; auto; lia.
  - unfold get_refresh_token. typed_get.
  - typed.
  - unfold mark_refresh_used. destruct (ms_refresh_tokens s !! token) as [e|] eqn:He; [|done].
    destruct (alive t e && _); [|done]. typed. by apply (filed_update _ _ _ _ e).
  - typed.
Qed.

(** C31: In every store that operations, sweeps and the passage of time can lead to, each
    record is filed under its own identifier, none is kept longer than its kind allows, a
    code record exactly as long as the code, and a refresh token that has a successor is marked as used. *)
Theorem store_well_formed t s : reachable t s -> store_typed t s.
Proof.
  induction 1 as [t | t t' s Hr IH Ht | t s Hr IH | t X o s Hr IH Ho].
  - typed; apply map_Forall_empty.
  - by eapply wait_typed.
  - by apply sweep_typed.
  - by apply mem_op_typed.
Qed.

Definition kept_token : RefreshToken := mkRefreshToken "r1" "rp" "alice" "openid" None None None None "family" false None.
Definition used_store : MemoryStore :=
  (mem_op 1100 (MarkRefreshUsed "r1" (Some "r2")) (mem_op 1000 (SaveRefreshToken kept_token) MemoryStore_default).2).2.
Lemma store_well_formed_witness : store_typed 1100 used_store.
Proof.
  apply store_well_formed. apply reach_op; [|exact I]. apply (reach_wait 1000); [|lia].
  apply reach_op; [apply reach_start | by intros nt].
Defined.
