(* ===== verification/Decimal.v ===== *)
(** * Decimal text

    [u64::to_string], the zero-padded [{:04}] of [format!] and
    [str::parse] of the integer types, as the code that stores integers and
    timestamps uses them. *)

From S2P Require Import Prelude.

#[local] Open Scope Z_scope.

Definition digit_char (d : Z) : ascii := ascii_of_nat (48 + Z.to_nat d).
Definition digit_value (a : ascii) : option Z :=
  let n := nat_of_ascii a in
  if ((48 <=? n) && (n <=? 57))%nat then Some (Z.of_nat n - 48) else None.

#[global] Arguments digit_char : simpl never.
#[global] Arguments digit_value : simpl never.

(** Decimal digits, most significant first; [fuel] bounds the digit count. *)
Fixpoint dec_go (fuel : nat) (z : Z) (acc : string) : string :=
  match fuel with
  | O => acc
  | S fuel' =>
      let acc' := String (digit_char (z mod 10)) acc in
      if z / 10 =? 0 then acc' else dec_go fuel' (z / 10) acc'
  end.
#[global] Arguments dec_go : simpl never.
(** [u64::to_string]: twenty digits are enough for 2^64 - 1. *)
Definition u64_to_string (z : Z) : string := dec_go 20 z "".

(** [{z:0w$}] for a non-negative integer. *)
Fixpoint zeros (n : nat) : string :=
  match n with O => "" | S n' => String "0"%char (zeros n') end.
Definition pad0 (w : nat) (z : Z) : string :=
  let t := u64_to_string z in zeros (w - String.length t) +:+ t.

(** The value of a run of digits. *)
Fixpoint digits_value (acc : Z) (s : string) : option Z :=
  match s with
  | EmptyString => Some acc
  | String a s' =>
      match digit_value a with
      | Some d => digits_value (acc * 10 + d) s'
      | None => None
      end
  end.

Definition unsigned_value (s : string) : option Z :=
  match s with EmptyString => None | _ => digits_value 0 s end.

(** [str::parse::<u64>()]: an optional [+], at least one digit, in range. *)
Definition parse_u64 (s : string) : option Z :=
  let digits := match s with String "+"%char s' => s' | _ => s end in
  match unsigned_value digits with
  | Some z => if z <=? u64_max then Some z else None
  | None => None
  end.
(** [str::parse::<i64>()]: an optional sign. *)
Definition parse_i64 (s : string) : option Z :=
  let v := match s with
           | String "-"%char s' => Z.opp <$> unsigned_value s'
           | String "+"%char s' => unsigned_value s'
           | _ => unsigned_value s
           end in
  match v with
  | Some z => if (i64_min <=? z) && (z <=? i64_max) then Some z else None
  | None => None
  end.

(** The bytes [a..b] of a text (a slice at character boundaries). *)
Definition slice (a b : nat) (s : string) : string := String.substring a (b - a) s.

Lemma digit_value_char d : 0 <= d <= 9 -> digit_value (digit_char d) = Some d.
Proof.
  intros Hd. unfold digit_value, digit_char. rewrite nat_ascii_embedding by lia.
  replace (48 <=? 48 + Z.to_nat d)%nat with true by (symmetry; apply Nat.leb_le; lia).
  replace (48 + Z.to_nat d <=? 57)%nat with true by (symmetry; apply Nat.leb_le; lia).
  cbn [andb]. f_equal. lia.
Qed.

Lemma digits_value_cons a d s :
  0 <= d <= 9 -> digits_value a (String (digit_char d) s) = digits_value (a * 10 + d) s.
Proof. intros Hd. cbn [digits_value]. by rewrite digit_value_char. Qed.

Lemma dec_go_S fuel z acc :
  dec_go (S fuel) z acc =
    if z / 10 =? 0 then String (digit_char (z mod 10)) acc
    else dec_go fuel (z / 10) (String (digit_char (z mod 10)) acc).
Proof. reflexivity. Qed.

(** Printing with enough fuel, then reading, multiplies in the digits. *)
Lemma digits_value_dec_go fuel z acc a :
  0 <= z < 10 ^ Z.of_nat fuel -> 0 < z \/ (0 < fuel)%nat ->
  exists n, digits_value a (dec_go fuel z acc) = digits_value (a * 10 ^ n + z) acc /\ 0 <= n.
Proof.
  revert z acc a. induction fuel as [|fuel IH]; intros z acc a Hz Hpos.
  { simpl in Hz. lia. }
  rewrite dec_go_S. destruct (z / 10 =? 0) eqn:Hq.
  - apply Z.eqb_eq in Hq. exists 1. split; [|lia].
    pose proof (Z.div_mod z 10 ltac:(lia)). pose proof (Z.mod_pos_bound z 10 ltac:(lia)).
    rewrite Z.mod_small, digits_value_cons by lia. f_equal; lia.
  - apply Z.eqb_neq in Hq.
    assert (Hdm := Z.div_mod z 10 ltac:(lia)).
    assert (Hm := Z.mod_pos_bound z 10 ltac:(lia)).
    rewrite Nat2Z.inj_succ, Z.pow_succ_r in Hz by lia.
    destruct (IH (z / 10) (String (digit_char (z mod 10)) acc) a) as (n & -> & Hn).
    { split; [apply Z.div_pos; lia | apply Z.div_lt_upper_bound; lia]. }
    { left. pose proof (Z.div_pos z 10). lia. }
    exists (n + 1). split; [|lia]. rewrite digits_value_cons by lia.
    f_equal. rewrite Z.pow_add_r by lia. lia.
Qed.

Lemma dec_go_app fuel z acc acc' : dec_go fuel z acc +:+ acc' = dec_go fuel z (acc +:+ acc').
Proof.
  revert z acc. induction fuel as [|fuel IH]; intros z acc; [done|].
  rewrite !dec_go_S. case_match; [done|]. by rewrite IH.
Qed.

Lemma digits_value_u64 z : in_u64 z -> digits_value 0 (u64_to_string z) = Some z.
Proof.
  intros [H1 H2]. unfold u64_max in H2.
  destruct (digits_value_dec_go 20 z "" 0) as (n & Hv & _); [|right; lia|].
  { split; [done|]. change (10 ^ Z.of_nat 20) with 100000000000000000000. lia. }
  unfold u64_to_string. rewrite Hv. cbn [digits_value]. by rewrite Z.mul_0_l.
Qed.

(** The first character printed is a digit. *)
Lemma dec_go_head fuel z acc :
  0 <= z -> exists d s, dec_go (S fuel) z acc = String (digit_char d) s /\ 0 <= d <= 9.
Proof.
  revert z acc. induction fuel as [|fuel IH]; intros z acc Hz.
  - exists (z mod 10), acc. pose proof (Z.mod_pos_bound z 10). split; [|lia].
    rewrite dec_go_S. by case_match.
  - pose proof (Z.mod_pos_bound z 10). rewrite dec_go_S.
    case_match; [eexists _, _; split; [done | lia] |]. apply IH. apply Z.div_pos; lia.
Qed.

Lemma digit_char_not_sign d : 0 <= d <= 9 -> digit_char d <> "+"%char /\ digit_char d <> "-"%char.
Proof.
  intros Hd. assert (Hv := digit_value_char d Hd).
  split; intros He; rewrite He in Hv; vm_compute in Hv; discriminate.
Qed.

Lemma parse_u64_digits d s :
  0 <= d <= 9 -> parse_u64 (String (digit_char d) s) =
    match digits_value 0 (String (digit_char d) s) with
    | Some z => if z <=? u64_max then Some z else None
    | None => None
    end.
Proof.
  intros Hd. destruct (digit_char_not_sign d Hd) as [Hp _]. unfold parse_u64.
  destruct (digit_char d) as [[] [] [] [] [] [] [] []]; try done; by destruct Hp.
Qed.

(** The round trip of the integer fields. *)
Lemma parse_u64_to_string z : in_u64 z -> parse_u64 (u64_to_string z) = Some z.
Proof.
  intros Hz. pose proof (digits_value_u64 z Hz) as Hv. destruct Hz as [Hz1 Hz2].
  unfold u64_to_string in *. destruct (dec_go_head 19 z "" Hz1) as (d & s & Hd & Hr).
  rewrite Hd in Hv |- *. rewrite parse_u64_digits by done. rewrite Hv.
  by rewrite (proj2 (Z.leb_le z u64_max) Hz2).
Qed.

#[export] Hint Rewrite parse_u64_to_string using done : oidc.

Lemma digit_value_range a d : digit_value a = Some d -> 0 <= d.
Proof.
  unfold digit_value. destruct ((48 <=? _) && _)%nat eqn:E; [|done].
  intros H. apply (inj Some) in H. apply andb_true_iff in E as [E _]. apply Nat.leb_le in E. lia.
Qed.
Lemma digits_value_nonneg acc s z : 0 <= acc -> digits_value acc s = Some z -> 0 <= z.
Proof.
  revert acc. induction s as [|a s IH]; intros acc Hacc; cbn [digits_value]; [by intros [= <-]|].
  destruct (digit_value a) as [d|] eqn:Hd; [|done]. apply digit_value_range in Hd. apply IH. lia.
Qed.
Lemma parse_u64_range s z : parse_u64 s = Some z -> in_u64 z.
Proof.
  unfold parse_u64, unsigned_value. intros Hp.
  match type of Hp with match match ?x with _ => _ end with _ => _ end = _ => destruct x as [|a t] end; [done|].
  destruct (digits_value 0 (String a t)) as [v|] eqn:Hv; [|done].
  destruct (Z.leb_spec v u64_max); [|done]. injection Hp as <-.
  apply digits_value_nonneg in Hv; [|lia]. by split.
Qed.
