(* ===== verification/Calendar.v ===== *)
(** * Calendar: RFC 3339 timestamps

    [rfc3339] and [parse_rfc3339_secs] of [src/src/firestore.rs], which convert
    between UNIX seconds and the timestamp texts of the stored documents without a
    date library, and the proof that reading undoes writing. *)

From S2P Require Import Prelude Decimal.

#[local] Open Scope Z_scope.

(** ** Calendar (Howard Hinnant's algorithms), Rust [/] truncates *)

Definition wrap_u32 (z : Z) : Z := z mod 2 ^ 32.

(** The steps inside an era of 400 years. *)
Definition year_of_era (doe : Z) : Z :=
  Z.quot (doe - Z.quot doe 1460 + Z.quot doe 36524 - Z.quot doe 146096) 365.
Definition day_of_year (doe yoe : Z) : Z := doe - (365 * yoe + Z.quot yoe 4 - Z.quot yoe 100).
Definition shifted_month (doy : Z) : Z := Z.quot (5 * doy + 2) 153.
Definition day_of_month (doy mp : Z) : Z := doy - Z.quot (153 * mp + 2) 5 + 1.

Definition civil_from_days (z : Z) : Z * Z * Z :=
  let z := z + 719468 in
  let era := Z.quot (if 0 <=? z then z else z - 146096) 146097 in
  let doe := z - era * 146097 in
  let yoe := year_of_era doe in
  let y := yoe + era * 400 in
  let doy := day_of_year doe yoe in
  let mp := shifted_month doy in
  let d := wrap_u32 (day_of_month doy mp) in
  let m := wrap_u32 (if mp <? 10 then mp + 3 else mp - 9) in
  ((if m <=? 2 then y + 1 else y), m, d).

Definition days_from_civil (y m d : Z) : Z :=
  let y := if m <=? 2 then y - 1 else y in
  let era := Z.quot (if 0 <=? y then y else y - 399) 400 in
  let yoe := y - era * 400 in
  let mp := if 2 <? m then m - 3 else m + 9 in
  let doy := Z.quot (153 * mp + 2) 5 + d - 1 in
  let doe := yoe * 365 + Z.quot yoe 4 - Z.quot yoe 100 + doy in
  era * 146097 + doe - 719468.

Definition rfc3339 (epoch_secs : Z) : string :=
  let days := epoch_secs / 86400 in
  let rem := epoch_secs mod 86400 in
  let '(h, mi, sec) := (rem / 3600, (rem mod 3600) / 60, rem mod 60) in
  let '(y, mo, d) := civil_from_days days in
  pad0 4 y +:+ "-" +:+ pad0 2 mo +:+ "-" +:+ pad0 2 d +:+ "T" +:+
  pad0 2 h +:+ ":" +:+ pad0 2 mi +:+ ":" +:+ pad0 2 sec +:+ "Z".

(** [as u64] and the [u64] sum wrap modulo 2^64. *)
Definition parse_rfc3339_secs (s : string) : Z :=
  if (String.length s <? 19)%nat then 0
  else
    let num a b := default 0 (parse_i64 (slice a b s)) in
    let '(y, mo, d) := (num 0%nat 4%nat, num 5%nat 7%nat, num 8%nat 10%nat) in
    let '(h, mi, sec) := (num 11%nat 13%nat, num 14%nat 16%nat, num 17%nat 19%nat) in
    wrap_u64 (wrap_u64 (days_from_civil y (wrap_u32 mo) (wrap_u32 d)) * 86400
              + wrap_u64 h * 3600 + wrap_u64 mi * 60 + wrap_u64 sec).

(** * Properties *)

(** ** Exhaustive checks of a range *)

Fixpoint all_below (n : nat) (z : Z) (f : Z -> bool) : bool :=
  match n with O => true | S n' => f z && all_below n' (z + 1) f end.

Lemma all_below_spec n z f x :
  all_below n z f = true -> z <= x < z + Z.of_nat n -> f x = true.
Proof.
  revert z. induction n as [|n IH]; intros z H Hx; [lia|].
  cbn [all_below] in H. apply andb_true_iff in H as [Hz H].
  destruct (decide (x = z)) as [->|]; [done|]. apply (IH (z + 1)); [done | lia].
Qed.

(** ** The calendar round trip *)

(** The first day of a year of the era, and the days of an era before the
    division by 365: a monotone function, so that it is enough to look at the first
    and the last day of every year. *)
Definition year_start (y : Z) : Z := 365 * y + Z.quot y 4 - Z.quot y 100.
Definition era_days (doe : Z) : Z :=
  doe - Z.quot doe 1460 + Z.quot doe 36524 - Z.quot doe 146096.

Lemma era_days_mono a b : 0 <= a <= b -> era_days a <= era_days b.
Proof.
  intros H. unfold era_days.
  change 146096 with (36524 * 4). rewrite <- !Z.quot_quot by lia.
  rewrite !(Z.quot_div_nonneg _ 36524), !(Z.quot_div_nonneg _ 1460) by lia.
  assert (Ha := Z.div_pos a 36524 ltac:(lia) ltac:(lia)).
  assert (Hab := Z.div_le_mono a b 36524 ltac:(lia) ltac:(lia)).
  generalize dependent (a / 36524). generalize dependent (b / 36524). intros u v Hv Huv.
  rewrite !Z.quot_div_nonneg by lia.
  assert (b / 1460 - a / 1460 <= b - a) by (Z.to_euclidean_division_equations; lia).
  Z.to_euclidean_division_equations; lia.
Qed.

Definition year_ok (y : Z) : bool :=
  (365 * y <=? era_days (year_start y)) &&
  (era_days (Z.min 146096 (year_start (y + 1) - 1)) <? 365 * (y + 1)) &&
  (year_start y <? year_start (y + 1)) && (year_start (y + 1) <=? year_start y + 366) &&
  (0 <=? year_start y).

Lemma year_of_day n doe :
  0 <= doe < year_start (Z.of_nat n) ->
  exists y, 0 <= y < Z.of_nat n /\ year_start y <= doe < year_start (y + 1).
Proof.
  induction n as [|n IH]; intros H.
  { change (year_start (Z.of_nat 0)) with 0 in H. lia. }
  destruct (Z.lt_ge_cases doe (year_start (Z.of_nat n))) as [Hlt|Hge].
  - destruct (IH ltac:(lia)) as (y & Hy & Hd). exists y. lia.
  - exists (Z.of_nat n). replace (Z.of_nat n + 1) with (Z.of_nat (S n)) by lia. lia.
Qed.

Lemma year_of_era_spec doe :
  0 <= doe < 146097 ->
  0 <= year_of_era doe < 400 /\
  year_start (year_of_era doe) <= doe < year_start (year_of_era doe) + 366.
Proof.
  intros H.
  assert (Hy : exists y, 0 <= y < 400 /\ year_start y <= doe /\
             (doe < year_start (y + 1) \/ y = 399 /\ doe = 146096)).
  { destruct (decide (doe = 146096)) as [->|Hne]; [exists 399; vm_compute; intuition congruence|].
    destruct (year_of_day 400 doe) as (y & Hy & Hd); [change (year_start (Z.of_nat 400)) with 146096; lia|]. exists y. lia. }
  destruct Hy as (y & Hy & Hlo & Hhi).
  assert (Hok : year_ok y = true).
  { apply (all_below_spec 400 0); [by vm_compute | lia]. }
  unfold year_ok in Hok. rewrite !andb_true_iff, !Z.leb_le, !Z.ltb_lt in Hok.
  destruct Hok as ((((H1 & H2) & H3) & H4) & H5).
  assert (Hdoe : doe < year_start y + 366).
  { destruct Hhi as [?|[-> ->]]; [lia | by vm_compute]. }
  assert (Heq : year_of_era doe = y).
  { change (year_of_era doe) with (Z.quot (era_days doe) 365).
    pose proof (era_days_mono (year_start y) doe ltac:(lia)) as Hm1.
    assert (Hm2 : era_days doe < 365 * (y + 1)).
    { destruct Hhi as [?|[-> ->]]; [|by vm_compute].
      pose proof (era_days_mono doe (Z.min 146096 (year_start (y + 1) - 1)) ltac:(lia)). lia. }
    rewrite Z.quot_div_nonneg by lia. symmetry. apply (Z.div_unique_pos _ _ _ (era_days doe - 365 * y)); lia. }
  rewrite Heq. lia.
Qed.

Lemma doe_bounds doe :
  0 <= doe < 146097 ->
  0 <= year_of_era doe < 400 /\ 0 <= day_of_year doe (year_of_era doe) <= 365.
Proof.
  intros H. destruct (year_of_era_spec doe H) as [Hy Hd].
  change (day_of_year doe (year_of_era doe)) with (doe - year_start (year_of_era doe)). lia.
Qed.

Definition doy_ok (doy : Z) : bool :=
  let mp := shifted_month doy in
  let d := day_of_month doy mp in
  (0 <=? mp) && (mp <=? 11) && (1 <=? d) && (d <=? 31).

Lemma doy_bounds doy :
  0 <= doy <= 365 ->
  0 <= shifted_month doy <= 11 /\ 1 <= day_of_month doy (shifted_month doy) <= 31.
Proof.
  intros H. assert (Hok : doy_ok doy = true).
  { apply (all_below_spec (Z.to_nat 366) 0); [by vm_compute|]. rewrite Z2Nat.id; lia. }
  unfold doy_ok in Hok. rewrite !andb_true_iff, !Z.leb_le in Hok. lia.
Qed.

(** [days_from_civil] undoes the month shift. *)
Lemma days_from_shifted era yoe mp d :
  0 <= era -> 0 <= yoe < 400 -> 0 <= mp <= 11 ->
  let m := if mp <? 10 then mp + 3 else mp - 9 in
  days_from_civil (if m <=? 2 then yoe + era * 400 + 1 else yoe + era * 400) m d =
  era * 146097 + (yoe * 365 + Z.quot yoe 4 - Z.quot yoe 100 + (Z.quot (153 * mp + 2) 5 + d - 1)) - 719468.
Proof.
  intros Hera Hyoe Hmp m. unfold days_from_civil.
  assert (Hm : (m <=? 2) = (10 <=? mp) /\ (2 <? m) = (mp <? 10) /\
               (if 2 <? m then m - 3 else m + 9) = mp).
  { unfold m. destruct (mp <? 10) eqn:?; repeat split; repeat case_match; lia. }
  destruct Hm as (Hm1 & _ & ->). rewrite Hm1.
  assert (Hy : (if 10 <=? mp then (if 10 <=? mp then yoe + era * 400 + 1 else yoe + era * 400) - 1
                else if 10 <=? mp then yoe + era * 400 + 1 else yoe + era * 400)
               = yoe + era * 400) by (destruct (10 <=? mp); lia).
  rewrite Hy, (proj2 (Z.leb_le 0 (yoe + era * 400))) by lia.
  assert (Hq : Z.quot (yoe + era * 400) 400 = era).
  { rewrite Z.quot_div_nonneg by lia. rewrite Z.div_add by lia. rewrite Z.div_small; lia. }
  rewrite Hq. replace (yoe + era * 400 - era * 400) with yoe by lia. done.
Qed.

Lemma civil_round_trip z y m d :
  -719468 <= z -> civil_from_days z = (y, m, d) ->
  days_from_civil y m d = z /\ 1 <= m <= 12 /\ 1 <= d <= 31.
Proof.
  intros Hz. unfold civil_from_days.
  rewrite (proj2 (Z.leb_le 0 (z + 719468))), Z.quot_div_nonneg by lia.
  set (era := (z + 719468) / 146097). set (doe := z + 719468 - era * 146097).
  assert (Hdoe : 0 <= doe < 146097).
  { unfold doe, era. pose proof (Z.div_mod (z + 719468) 146097).
    pose proof (Z.mod_pos_bound (z + 719468) 146097). lia. }
  assert (Hera : 0 <= era) by (apply Z.div_pos; lia).
  destruct (doe_bounds doe Hdoe) as [Hyoe Hdoy].
  destruct (doy_bounds _ Hdoy) as [Hmp Hd].
  set (mp := shifted_month _) in *.
  assert (Hm : 1 <= (if mp <? 10 then mp + 3 else mp - 9) <= 12)
    by (destruct (mp <? 10) eqn:Hlt; lia).
  unfold wrap_u32. rewrite (Z.mod_small (day_of_month _ _)), (Z.mod_small (if mp <? 10 then _ else _)) by lia.
  intros [= <- <- <-]. split; [|lia].
  rewrite days_from_shifted by done. unfold day_of_month, day_of_year, doe. lia.
Qed.

(** ** The timestamp round trip *)

Definition two_digits (z : Z) : bool :=
  match pad0 2 z with
  | String a (String b EmptyString) => bool_decide (parse_i64 (String a (String b "")) = Some z)
  | _ => false
  end.
Definition four_digits (z : Z) : bool :=
  match pad0 4 z with
  | String a (String b (String c (String d EmptyString))) =>
      bool_decide (parse_i64 (String a (String b (String c (String d "")))) = Some z)
  | _ => false
  end.

Lemma pad0_2 z :
  0 <= z < 100 ->
  exists a b, pad0 2 z = String a (String b "") /\ parse_i64 (String a (String b "")) = Some z.
Proof.
  intros H. assert (Hok : two_digits z = true).
  { apply (all_below_spec (Z.to_nat 100) 0); [by vm_compute|]. rewrite Z2Nat.id; lia. }
  unfold two_digits in Hok. destruct (pad0 2 z) as [|a [|b [|]]]; try done.
  apply bool_decide_eq_true in Hok. eauto.
Qed.
Lemma pad0_4 z :
  0 <= z < 10000 ->
  exists a b c d, pad0 4 z = String a (String b (String c (String d ""))) /\
    parse_i64 (String a (String b (String c (String d "")))) = Some z.
Proof.
  intros H. assert (Hok : four_digits z = true).
  { apply (all_below_spec (Z.to_nat 10000) 0); [by vm_compute|]. rewrite Z2Nat.id; lia. }
  unfold four_digits in Hok. destruct (pad0 4 z) as [|a [|b [|c [|d [|]]]]]; try done.
  apply bool_decide_eq_true in Hok. eauto 6.
Qed.

Definition last_era_ok (doe : Z) : bool :=
  let yoe := year_of_era doe in
  let mp := shifted_month (day_of_year doe yoe) in
  (if mp <? 10 then yoe else yoe + 1) <=? 399.

Lemma last_era doe : 0 <= doe < 146037 -> last_era_ok doe = true.
Proof.
  intros H. unfold last_era_ok. apply Z.leb_le.
  destruct (doe_bounds doe ltac:(lia)) as [Hy Hd].
  destruct (decide (year_of_era doe = 399)) as [Hl|]; [|case_match; lia].
  rewrite Hl in *. change (day_of_year doe 399) with (doe - 145731) in *.
  assert (Hm : shifted_month (doe - 145731) < 10); [|by rewrite (proj2 (Z.ltb_lt _ _) Hm)].
  unfold shifted_month. rewrite Z.quot_div_nonneg by lia. apply Z.div_lt_upper_bound; lia.
Qed.

(** Up to 9999-12-31 the year has four digits. *)
Lemma civil_year_bound z y m d :
  0 <= z <= 2932896 -> civil_from_days z = (y, m, d) -> 0 <= y <= 9999.
Proof.
  intros Hz. unfold civil_from_days.
  rewrite (proj2 (Z.leb_le 0 (z + 719468))), Z.quot_div_nonneg by lia.
  set (era := (z + 719468) / 146097). set (doe := z + 719468 - era * 146097).
  assert (Hdm := Z.div_mod (z + 719468) 146097 ltac:(lia)). fold era in Hdm.
  assert (Hmod := Z.mod_pos_bound (z + 719468) 146097 ltac:(lia)).
  assert (Hdoe : 0 <= doe < 146097) by (unfold doe; lia).
  assert (Hera : 0 <= era <= 24) by lia.
  destruct (doe_bounds doe Hdoe) as [Hyoe Hdoy].
  destruct (doy_bounds _ Hdoy) as [Hmp _].
  intros [= <- _ _]. fold (year_of_era doe).
  assert (Hlast : era = 24 -> last_era_ok doe = true).
  { intros He. apply last_era. unfold doe in *. rewrite He in *. lia. }
  unfold last_era_ok in Hlast. rewrite Z.leb_le in Hlast.
  set (mp := shifted_month _) in *. unfold wrap_u32.
  rewrite Z.mod_small by (destruct (mp <? 10) eqn:Hlt; lia).
  destruct (mp <? 10) eqn:Hlt; case_match; lia.
Qed.

Lemma rfc3339_reads_back t :
  0 <= t < 253402300800 -> parse_rfc3339_secs (rfc3339 t) = t.
Proof.
  intros Ht. unfold rfc3339.
  assert (Hdm := Z.div_mod t 86400 ltac:(lia)). assert (Hrem := Z.mod_pos_bound t 86400 ltac:(lia)).
  generalize dependent (t / 86400). generalize dependent (t mod 86400).
  intros rem Hrem days Hdm.
  destruct (civil_from_days days) as [[y mo] d] eqn:Hc.
  destruct (civil_round_trip days y mo d) as (Hdays & Hmo & Hd); [lia | done |].
  pose proof (civil_year_bound days y mo d ltac:(lia) Hc) as Hy.
  assert (Hh : 0 <= rem / 3600 < 24 /\ 0 <= (rem mod 3600) / 60 < 60 /\ 0 <= rem mod 60 < 60).
  { repeat split; try (apply Z.div_pos || apply Z.div_lt_upper_bound || apply Z.mod_pos_bound);
      pose proof (Z.mod_pos_bound rem 3600); lia. }
  destruct Hh as (Hh & Hmi & Hs).
  destruct (pad0_4 y ltac:(lia)) as (y1 & y2 & y3 & y4 & -> & Py).
  destruct (pad0_2 mo ltac:(lia)) as (o1 & o2 & -> & Po).
  destruct (pad0_2 d ltac:(lia)) as (d1 & d2 & -> & Pd).
  destruct (pad0_2 (rem / 3600) ltac:(lia)) as (h1 & h2 & -> & Ph).
  destruct (pad0_2 ((rem mod 3600) / 60) ltac:(lia)) as (m1 & m2 & -> & Pm).
  destruct (pad0_2 (rem mod 60) ltac:(lia)) as (s1 & s2 & -> & Ps).
  unfold parse_rfc3339_secs.
  cbv [String.app slice String.substring String.length Nat.sub Nat.ltb Nat.leb].
  rewrite Py, Po, Pd, Ph, Pm, Ps. simpl default.
  unfold wrap_u32. rewrite (Z.mod_small mo), (Z.mod_small d), Hdays by lia.
  unfold wrap_u64. rewrite (Z.mod_small days), (Z.mod_small (rem / 3600)),
    (Z.mod_small ((rem mod 3600) / 60)), (Z.mod_small (rem mod 60)) by lia.
  assert (Hrest : rem / 3600 * 3600 + (rem mod 3600) / 60 * 60 + rem mod 60 = rem).
  { pose proof (Z.div_mod rem 3600). pose proof (Z.div_mod (rem mod 3600) 60).
    assert ((rem mod 3600) mod 60 = rem mod 60) as Hmm.
    { apply Z.mod_mod_divide. by exists 60. }
    lia. }
  rewrite Z.mod_small; lia.
Qed.

(** For every second before the year 10000, reading back a timestamp that the
    code wrote gives the same second. *)
Theorem rfc3339_round_trip t :
  0 <= t < 253402300800 -> parse_rfc3339_secs (rfc3339 t) = t.
Proof. apply rfc3339_reads_back. Qed.

Lemma rfc3339_round_trip_witness : parse_rfc3339_secs (rfc3339 951782399) = 951782399.
Proof. apply rfc3339_round_trip. lia. Defined.
