(* ===== verification/Firestore.v ===== *)
(** * Firestore: field values, document names, operations

    The other pure helpers of [src/src/firestore.rs] and the operations of the
    Firestore client as an effect signature [fsE].  The database service answers
    these operations; it is a parameter of every definition that uses it. *)

From S2P Require Import Prelude Prog Json Decimal Calendar.

#[local] Open Scope Z_scope.

(** ** Typed field values *)

Definition fs_s (v : string) : Value := Object [("stringValue", Str v)].
Definition fs_ts (v : string) : Value := Object [("timestampValue", Str v)].
Definition fs_b (v : bool) : Value := Object [("booleanValue", Bool v)].
Definition fs_int (v : Z) : Value := Object [("integerValue", Str (u64_to_string v))].

Definition field_str (fields : Value) (name : string) : option string :=
  v ← get fields name; v ← get v "stringValue"; as_str v.
Definition field_u64 (fields : Value) (name : string) : option Z :=
  v ← get fields name; v ← get v "integerValue"; t ← as_str v; parse_u64 t.
Definition field_bool (fields : Value) (name : string) : option bool :=
  v ← get fields name; v ← get v "booleanValue"; as_bool v.

(** ** Timestamps *)

Definition field_ts_secs (fields : Value) (name : string) : option Z :=
  v ← get fields name; v ← get v "timestampValue"; t ← as_str v; Some (parse_rfc3339_secs t).

(** ** Document names *)

Definition hex_upper (n : nat) : ascii :=
  if (n <? 10)%nat then ascii_of_nat (48 + n) else ascii_of_nat (55 + n).
Definition is_unreserved (a : ascii) : bool :=
  let n := nat_of_ascii a in
  ((65 <=? n) && (n <=? 90) || (97 <=? n) && (n <=? 122) || (48 <=? n) && (n <=? 57)
   || (n =? 45) || (n =? 95) || (n =? 46) || (n =? 126))%nat.
Definition enc_char (a : ascii) : string :=
  if is_unreserved a then String a ""
  else let n := nat_of_ascii a in
       String "%"%char (String (hex_upper (n / 16)) (String (hex_upper (n mod 16)) "")).
Fixpoint enc (id : string) : string :=
  match id with EmptyString => "" | String a id' => enc_char a +:+ enc id' end.

(** The last segment of a resource name ([rsplit('/').next()]). *)
Definition last_segment (name : string) : string := default "" (last (str_split "/"%char name)).

(** [runQuery] answers: rows without a document (or without a name) are skipped. *)
Definition parse_run_query_response (arr : Value) : list (string * Value) :=
  match as_array arr with
  | Some rows =>
      omap (fun row =>
        doc ← get row "document";
        name ← get doc "name" ≫= as_str;
        Some (last_segment name, default (Object []) (get doc "fields"))) rows
  | None => []
  end.

(** [resolve_database]: an empty setting counts as unset. *)
Definition resolve_database (raw : option string) : string :=
  match raw with
  | Some v => if str_is_empty v then "(default)" else v
  | None => "(default)"
  end.

(** ** The client's operations

    [update_time] is the opaque version of a document; the conditional
    operations succeed ([Ok true]) only when the condition held, answer
    [Ok false] when another write came first and [Err] on any other failure. *)
Inductive fsE : Type -> Type :=
| SetDoc (col id : string) (fields : Value) : fsE (result string unit)
| UpdateField (col id field : string) (v : Value) : fsE (result string unit)
| GetDoc (col id : string) : fsE (result string (option Value))
| GetDocWithUpdateTime (col id : string) : fsE (result string (option (Value * string)))
| SetDocIfUnchanged (col id : string) (fields : Value) (update_time : string) : fsE (result string bool)
| CreateIfAbsent (col id : string) (fields : Value) : fsE (result string bool)
| DeleteDocIfUnchanged (col id update_time : string) : fsE (result string bool)
| QueryEq (col field value : string) : fsE (result string (list (string * Value)))
| ListRecentOrdered (col order_field : string) (limit : Z) : fsE (result string (list (string * Value)))
| ListCollection (col : string) : fsE (result string (list (string * Value * string)))
| DeleteDoc (col id : string) : fsE (result string unit)
| MergeDoc (col id : string) (fields : Value) : fsE (result string unit)
| AccessSecret (name : string) : fsE (result string (option string))
(** The push service shares the client's project and token ([src/src/fcm.rs]). *)
| FcmSend (message : Value) : fsE (result string unit).

(** * Properties *)

Lemma hex_upper_value n :
  (n < 16)%nat -> nat_of_ascii (hex_upper n) = (if (n <? 10)%nat then 48 + n else 55 + n)%nat.
Proof. intros H. unfold hex_upper. case_match; apply nat_ascii_embedding; lia. Qed.

Lemma hex_upper_inj n m : (n < 16)%nat -> (m < 16)%nat -> hex_upper n = hex_upper m -> n = m.
Proof.
  intros Hn Hm He. apply (f_equal nat_of_ascii) in He. rewrite !hex_upper_value in He by done.
  destruct (Nat.ltb_spec n 10), (Nat.ltb_spec m 10); lia.
Qed.

Lemma nibbles a :
  (nat_of_ascii a / 16 < 16 /\ nat_of_ascii a mod 16 < 16 /\
   nat_of_ascii a = 16 * (nat_of_ascii a / 16) + nat_of_ascii a mod 16)%nat.
Proof.
  pose proof (Stdlib.Strings.Ascii.nat_ascii_bounded a). split; [|split].
  - apply Nat.Div0.div_lt_upper_bound. lia.
  - apply Nat.mod_upper_bound. lia.
  - apply Nat.div_mod_eq.
Qed.

Lemma enc_char_split a b s t :
  enc_char a +:+ s = enc_char b +:+ t -> a = b /\ s = t.
Proof.
  unfold enc_char. destruct (is_unreserved a) eqn:Ha, (is_unreserved b) eqn:Hb;
    cbv [String.app]; intros H.
  - by injection H.
  - injection H as -> _. discriminate Ha.
  - injection H as <- _. discriminate Hb.
  - assert (Hst : s = t) by congruence. split; [|done].
    assert (H1 : hex_upper (nat_of_ascii a / 16) = hex_upper (nat_of_ascii b / 16)) by congruence.
    assert (H2 : hex_upper (nat_of_ascii a mod 16) = hex_upper (nat_of_ascii b mod 16)) by congruence.
    assert (Hab : nat_of_ascii a = nat_of_ascii b).
    { destruct (nibbles a) as (Ha1 & Ha2 & ->), (nibbles b) as (Hb1 & Hb2 & ->).
      apply hex_upper_inj in H1; [|done|done]. apply hex_upper_inj in H2; [|done|done]. by rewrite H1, H2. }
    by rewrite <- (ascii_nat_embedding a), Hab, ascii_nat_embedding.
Qed.

Lemma enc_char_nonempty a : exists c s, enc_char a = String c s.
Proof. unfold enc_char. case_match; eauto. Qed.

(** A character of an escaped byte. *)
Definition url_char (c : ascii) : bool := is_unreserved c || bool_decide (c = "%"%char).

Lemma hex_upper_url n : (n < 16)%nat -> url_char (hex_upper n) = true.
Proof.
  intros H. do 16 (destruct n as [|n]; [by vm_compute|]). lia.
Qed.

Fixpoint str_forall (P : ascii -> bool) (s : string) : bool :=
  match s with EmptyString => true | String a s' => P a && str_forall P s' end.

Lemma str_forall_app P s t : str_forall P (s +:+ t) = str_forall P s && str_forall P t.
Proof.
  induction s as [|a s IH]; [done|]. cbn [str_forall String.app]. 
  change (String a s +:+ t) with (String a (s +:+ t)). cbn [str_forall]. by rewrite IH, andb_assoc.
Qed.

Lemma enc_char_url a : str_forall url_char (enc_char a) = true.
Proof.
  unfold enc_char. destruct (is_unreserved a) eqn:Ha; cbn [str_forall].
  - unfold url_char. by rewrite Ha.
  - destruct (nibbles a) as (H1 & H2 & _). by rewrite !hex_upper_url.
Qed.

(** Two different document identifiers have different names in the document
    URL, and a name only holds unreserved characters and percent signs: an
    identifier never adds a path segment, a query or a fragment to the URL. *)
Theorem enc_injective a b :
  (enc a = enc b -> a = b) /\ str_forall url_char (enc a) = true.
Proof.
  split.
  - revert b. induction a as [|x a IH]; intros [|y b]; cbn [enc].
    + done.
    + destruct (enc_char_nonempty y) as (c & s & ->). done.
    + destruct (enc_char_nonempty x) as (c & s & ->). done.
    + intros H. apply enc_char_split in H as [-> H]. by rewrite (IH b).
  - induction a as [|x a IH]; [done|]. cbn [enc]. by rewrite str_forall_app, enc_char_url.
Qed.

Lemma enc_injective_witness : "a/b" = "a" +:+ "/b" /\ str_forall url_char (enc "a/b") = true.
Proof.
  split.
  - apply (proj1 (enc_injective "a/b" ("a" +:+ "/b"))). reflexivity.
  - exact (proj2 (enc_injective "a/b" "a/b")).
Defined.
