(* ===== verification/Externals.v ===== *)
(** * Operations of the crates the code calls

    Hashes, encodings, signatures, JSON and form parsing belong to third-party
    crates: the development takes them as the operations of one interface, and
    no proof looks inside.  [uuid_v4 n] is the [n]-th identifier the process
    draws. *)

From S2P Require Import Prelude Json Model Decimal.

(** ciborium: a CBOR value, as far as the code looks into it. *)
Inductive Cbor : Type :=
| CborInteger (z : Z)
| CborBytes (b : string)
| CborText (s : string)
| CborArray (l : list Cbor)
| CborMap (m : list (Cbor * Cbor))
| CborOther.

Class Externals := {
  (** sha2 *)
  sha256_digest : string -> string;
  (** base64: [URL_SAFE_NO_PAD] and [STANDARD] *)
  url_safe_no_pad_encode : string -> string;
  url_safe_no_pad_decode : string -> result string string;
  standard_decode : string -> result string string;
  (** p256 *)
  VerifyingKey : Type;
  Signature : Type;
  key_from_affine : string -> string -> result string VerifyingKey;
  signature_from_slice : string -> result string Signature;
  signature_from_der : string -> result string Signature;
  ecdsa_verify : VerifyingKey -> string -> Signature -> bool;
  (** rsa, sha1, ed25519-dalek: the scheme, the key, the hashed message, the signature *)
  RsaPublicKey : Type;
  rsa_public_key : string -> string -> result string RsaPublicKey;
  rsa_verify : string -> RsaPublicKey -> string -> string -> bool;
  sha1_digest : string -> string;
  sha384_digest : string -> string;
  EdKey : Type;
  ed_key_from_bytes : string -> result string EdKey;
  ed_verify : EdKey -> string -> string -> bool;
  (** ciborium: the first value of a text and the number of bytes it takes *)
  cbor_from_reader : string -> result string (Cbor * nat);
  (** serde_json, serde_urlencoded *)
  json_from_slice : string -> result string Value;
  json_to_string : Value -> string;
  client_from_json : string -> result string Client;
  client_to_json : Client -> string;
  form_encode : list (string * string) -> string;
  form_decode : string -> option (gmap string string);
  params_decode : string -> result string AuthParams;
  (** serde_json on [HashMap<String, String>] *)
  string_map_from_json : string -> result string (gmap string string);
  (** http: [HeaderValue::to_str] *)
  header_to_str : string -> option string;
  (** http: [StatusCode]'s [Display] *)
  status_display : Z -> string;
  (** axum: the percent-decoded value of a path segment *)
  percent_decode : string -> string;
  (** [{:?}] of a text (std::fmt) *)
  debug_str : string -> string;
  debug_value : option Value -> string;
  debug_int : option Z -> string;
  (** [str::to_lowercase] (std, by the Unicode tables) *)
  str_to_lowercase : string -> string;
  (** uuid and the operating system's random source *)
  uuid_v4 : nat -> string;
  (** the text of an identifier with hyphens, from its text without *)
  hyphenated : string -> string;
  random_32 : nat -> string
}.

(** Identifiers drawn by one process never repeat (RFC 9562: 122 random bits). *)
Class FreshIds `{Externals} := uuid_inj : forall n m, uuid_v4 n = uuid_v4 m -> n = m.

(** ** A concrete instance

    For the evaluation of the definitions on concrete inputs: encodings that keep
    the text, one good signature, and JSON texts
    looked up in a table. *)

Fixpoint unary (n : nat) : string :=
  match n with O => "" | S n' => String "1"%char (unary n') end.

(** RFC 3986, section 2.1. *)
Definition hex_value (a : ascii) : nat :=
  let n := nat_of_ascii a in if (n <? 58)%nat then (n - 48)%nat else (n - 55)%nat.
Fixpoint pct_decode (s : string) : string :=
  match s with
  | "" => ""
  | String c r =>
      match r with
      | String a (String b r') =>
          if bool_decide (c = "%"%char)
          then String (ascii_of_nat (16 * hex_value a + hex_value b)) (pct_decode r')
          else String c (pct_decode r)
      | _ => String c (pct_decode r)
      end
  end.

(** Two CBOR texts: ``A'' before authenticator data is an attestation object of format
    none, ``K'' before two coordinates is an EC key. *)
Definition sample_cbor (s : string) : result string (Cbor * nat) :=
  match s with
  | String "A" r => Ok (CborMap [(CborText "fmt", CborText "none"); (CborText "authData", CborBytes r)], String.length s)
  | String "K" r =>
      Ok (CborMap [(CborInteger 1, CborInteger 2); (CborInteger 3, CborInteger (-7));
                   (CborInteger (-2), CborBytes (slice 0 32 r)); (CborInteger (-3), CborBytes (slice 32 64 r))], 65%nat)
  | _ => Err "no cbor"
  end.

Definition sample_externals_with (table : list (string * Value)) (params : list (string * AuthParams)) : Externals := {|
  sha256_digest s := "sha256(" +:+ s +:+ ")................";
  url_safe_no_pad_encode s := s;
  url_safe_no_pad_decode s := Ok s;
  standard_decode s := Ok s;
  VerifyingKey := string;
  Signature := string;
  key_from_affine x y := Ok (x +:+ y);
  signature_from_slice s := Ok s;
  signature_from_der s := Ok s;
  ecdsa_verify k m s := bool_decide (s = "good");
  RsaPublicKey := string;
  rsa_public_key n e := Ok n;
  rsa_verify scheme k m s := bool_decide (s = "good");
  sha1_digest s := s;
  sha384_digest s := s;
  EdKey := string;
  ed_key_from_bytes s := Ok s;
  ed_verify k m s := bool_decide (s = "good");
  cbor_from_reader := sample_cbor;
  json_from_slice s := ok_or "expected value" (assoc s table);
  json_to_string v := default "{}" (fst <$> list_find_first (fun kv => match kv.2, v with Str a, Str b => bool_decide (a = b) | _, _ => false end) table);
  client_from_json s := Err "missing field";
  client_to_json c := cl_client_id c;
  form_encode l := match l with (k, v) :: _ => k +:+ "=" +:+ v | [] => "" end;
  form_decode s := None;
  params_decode s := ok_or "missing field" (assoc s params);
  debug_str s := s;
  debug_value v := "?";
  debug_int v := "?";
  str_to_lowercase s := s;
  string_map_from_json s := Err "missing field";
  header_to_str s := Some s;
  status_display z := u64_to_string z;
  percent_decode := pct_decode;
  hyphenated s := s;
  uuid_v4 n := "id" +:+ unary n;
  random_32 n := "r" +:+ unary n
|}.

Definition sample_externals (table : list (string * Value)) : Externals := sample_externals_with table [].

#[export] Instance sample_fresh table : @FreshIds (sample_externals table).
Proof.
  intros n m H. simpl in H. injection H as H. revert m H.
  induction n as [|n IH]; intros [|m] H; simpl in H; try done.
  injection H as H. f_equal. by apply IH.
Qed.

(** The same operations with another base64url, other signatures, other JSON texts and other
    texts of clients. *)
Definition with_encodings (e : Externals) (enc : string -> string) (dec : string -> result string string)
    (from_slice : string -> result string (@Signature e)) (verify : @VerifyingKey e -> string -> @Signature e -> bool)
    (from_json : string -> result string Value) (to_json : Value -> string) (from_client : string -> result string Client) : Externals :=
  {| sha256_digest := @sha256_digest e; url_safe_no_pad_encode := enc;
     url_safe_no_pad_decode := dec; standard_decode := @standard_decode e;
     VerifyingKey := @VerifyingKey e; Signature := @Signature e; key_from_affine := @key_from_affine e;
     signature_from_slice := from_slice; signature_from_der := @signature_from_der e;
     ecdsa_verify := verify; RsaPublicKey := @RsaPublicKey e; rsa_public_key := @rsa_public_key e;
     rsa_verify := @rsa_verify e; sha1_digest := @sha1_digest e; sha384_digest := @sha384_digest e;
     EdKey := @EdKey e; ed_key_from_bytes := @ed_key_from_bytes e; ed_verify := @ed_verify e;
     cbor_from_reader := @cbor_from_reader e; json_from_slice := from_json; json_to_string := to_json;
     client_from_json := from_client; client_to_json := @client_to_json e; form_encode := @form_encode e;
     form_decode := @form_decode e; params_decode := @params_decode e; string_map_from_json := @string_map_from_json e;
     header_to_str := @header_to_str e; status_display := @status_display e; percent_decode := @percent_decode e;
     debug_str := @debug_str e; debug_value := @debug_value e; debug_int := @debug_int e;
     str_to_lowercase := @str_to_lowercase e; uuid_v4 := @uuid_v4 e; hyphenated := @hyphenated e; random_32 := @random_32 e |}.
