(* ===== verification/Es256.v ===== *)
(** * ES256 primitives

    [src/src/es256.rs]: base64url with the accepted variations, the fixed-width
    coordinates of P-256 keys and the JWK thumbprint. *)

From S2P Require Import Prelude Json Model Externals.

#[local] Open Scope Z_scope.

(** [str::trim]: Unicode white space at both ends. *)
Fixpoint trim_start_go (skip : nat) (s : string) : string :=
  match s with
  | EmptyString => ""
  | String _ s' =>
      match skip with
      | S k => trim_start_go k s'
      | O => match ws_prefix s with O => s | S k => trim_start_go k s' end
      end
  end.
Definition trim_end (s : string) : string :=
  (fix go (s : string) : string :=
     match s with
     | EmptyString => ""
     | String a s' => if str_is_empty (trim_start_go 0 s) then "" else String a (go s')
     end) s.
Definition str_trim (s : string) : string := trim_end (trim_start_go 0 s).

(** [replace] of one character, [trim_end_matches] of one character. *)
Fixpoint str_map (f : ascii -> ascii) (s : string) : string :=
  match s with EmptyString => "" | String a s' => String (f a) (str_map f s') end.
Fixpoint str_all (c : ascii) (s : string) : bool :=
  match s with EmptyString => true | String a s' => bool_decide (a = c) && str_all c s' end.
Fixpoint trim_end_matches (c : ascii) (s : string) : string :=
  match s with
  | EmptyString => ""
  | String a s' => if str_all c s then "" else String a (trim_end_matches c s')
  end.

(** [n] zero bytes. *)
Fixpoint zero_bytes (n : nat) : string :=
  match n with O => "" | S n' => String (ascii_of_nat 0) (zero_bytes n') end.

Section es256.
Context `{Externals}.

Definition b64url_encode (b : string) : string := url_safe_no_pad_encode b.

Definition b64url_decode (s : string) : result string string :=
    let t := str_map (fun a => if decide (a = "+"%char) then "-"%char
                               else if decide (a = "/"%char) then "_"%char else a) (str_trim s) in
    map_err (fun e => "base64: " +:+ e) (url_safe_no_pad_decode (trim_end_matches "="%char t)).

Definition pad32 (b : string) : result string string :=
    if (32 <? String.length b)%nat then Err "coordinate > 32 bytes"
    else Ok (zero_bytes (32 - String.length b) +:+ b).

Definition verifying_key_from_xy (x y : string) : result string VerifyingKey :=
    xb ← pad32 x; yb ← pad32 y;
    map_err (fun e => "bad EC point: " +:+ e) (key_from_affine xb yb).

  (** Keys in the order of RFC 7638: crv, kty, x, y. *)
Definition quote : string := String (ascii_of_nat 34) "".
Definition quoted (s : string) : string := quote +:+ s +:+ quote.
Definition jwk_canonical_p256 (x_b64 y_b64 : string) : string :=
    "{" +:+ quoted "crv" +:+ ":" +:+ quoted "P-256" +:+ "," +:+
    quoted "kty" +:+ ":" +:+ quoted "EC" +:+ "," +:+
    quoted "x" +:+ ":" +:+ quoted x_b64 +:+ "," +:+
    quoted "y" +:+ ":" +:+ quoted y_b64 +:+ "}".
Definition jwk_thumbprint_p256 (x_b64 y_b64 : string) : string :=
    b64url_encode (sha256_digest (jwk_canonical_p256 x_b64 y_b64)).
End es256.

(** * Properties *)

(** The integer a big-endian byte string denotes. *)
Fixpoint be_value_go (acc : Z) (s : string) : Z :=
  match s with
  | EmptyString => acc
  | String a s' => be_value_go (acc * 256 + Z.of_nat (nat_of_ascii a)) s'
  end.
Definition be_value (s : string) : Z := be_value_go 0 s.

Lemma str_length_app s t : String.length (s +:+ t) = (String.length s + String.length t)%nat.
Proof. induction s as [|a s IH]; [done|]. cbn. by rewrite <- IH. Qed.
Lemma zero_bytes_length n : String.length (zero_bytes n) = n.
Proof. induction n as [|n IH]; [done|]. cbn. by rewrite IH. Qed.
Lemma be_value_zero_bytes n s : be_value (zero_bytes n +:+ s) = be_value s.
Proof. induction n as [|n IH]; [done|]. rewrite <- IH. done. Qed.

(** A coordinate of at most 32 bytes is brought to exactly 32 bytes without
    changing the integer it denotes; a longer one is refused. *)
Theorem pad32_spec b :
  ((String.length b <= 32)%nat ->
     exists o, pad32 b = Ok o /\ String.length o = 32%nat /\ be_value o = be_value b) /\
  ((32 < String.length b)%nat -> pad32 b = Err "coordinate > 32 bytes").
Proof.
  unfold pad32. split; intros Hl.
  - replace (32 <? String.length b)%nat with false by (symmetry; apply Nat.ltb_ge; lia).
    eexists. split; [done|]. split; [|apply be_value_zero_bytes].
    rewrite str_length_app, zero_bytes_length. lia.
  - by rewrite (proj2 (Nat.ltb_lt 32 _) Hl).
Qed.

Lemma pad32_spec_witness :
  exists o, pad32 "ab" = Ok o /\ String.length o = 32%nat /\ be_value o = be_value "ab".
Proof. apply (proj1 (pad32_spec "ab")). vm_compute. lia. Defined.
