(* ===== verification/WebAuthn.v ===== *)
(** * WebAuthn: verification of passkey registrations and assertions

    [src/src/webauthn.rs] with the part of [src/src/fido/verify.rs] it delegates to and
    the signature primitives of [src/src/sig.rs].  Byte strings are [string]s. *)

From S2P Require Import Prelude Json Decimal Externals Es256.

#[local] Open Scope Z_scope.

Definition FLAG_UP : Z := 1.
Definition FLAG_UV : Z := 4.
Definition FLAG_AT : Z := 64.

Record AuthData := mkAuthData {
  ad_rp_id_hash : string;
  ad_flags : Z;
  ad_sign_count : Z;
  ad_rest : string
}.

Definition parse_auth_data (ad : string) : result string AuthData :=
  if (String.length ad <? 37)%nat then Err "authData too short"
  else Ok (mkAuthData (slice 0 32 ad) (be_value (slice 32 33 ad)) (be_value (slice 33 37 ad))
             (slice 37 (String.length ad) ad)).

Definition attested_cred_id_end (rest : string) : option nat :=
  if (String.length rest <? 18)%nat then None
  else
    let fin := (18 + Z.to_nat (be_value (slice 16 18 rest)))%nat in
    if (String.length rest <? fin)%nat then None else Some fin.

Definition flag_set (flags flag : Z) : bool := negb (Z.land flags flag =? 0).
Definition check_flags (flags : Z) (require_uv : bool) : result string unit :=
  if negb (flag_set flags FLAG_UP) then Err "UP flag not set"
  else if require_uv && negb (flag_set flags FLAG_UV) then Err "UV required but not set"
  else Ok tt.

(** ** CBOR and COSE *)

Definition cbor_bytes (v : Cbor) : option string := match v with CborBytes b => Some b | _ => None end.
Definition cose_get_int (m : list (Cbor * Cbor)) (key : Z) : option Cbor :=
  snd <$> list_find_first (fun kv => match kv.1 with CborInteger i => i =? key | _ => false end) m.
Definition cbor_text_get (m : list (Cbor * Cbor)) (key : string) : option Cbor :=
  snd <$> list_find_first (fun kv => match kv.1 with CborText t => bool_decide (t = key) | _ => false end) m.

Inductive CredKey : Type :=
| Es256Key (x y : string)
| Rs256Key (n e : string)
| Rs1Key (n e : string)
| Ed25519Key (pk : string).
Definition cose_alg (k : CredKey) : Z :=
  match k with Es256Key _ _ => -7 | Rs256Key _ _ => -257 | Rs1Key _ _ => -65535 | Ed25519Key _ => -8 end.

Record AttestationObject := mkAttestationObject { ao_fmt : string; ao_auth_data : string; ao_att_stmt : Cbor }.

Record RegOutcome := mkRegOutcome {
  reg_credential_id : string;
  reg_pub_x : string;
  reg_pub_y : string;
  reg_sign_count : Z
}.

Section webauthn.
Context `{Externals}.

(** ** sig.rs *)

Definition rsa_key (n e : string) : result string RsaPublicKey :=
  map_err (fun m => "rsa key: " +:+ m) (rsa_public_key n e).
Definition verify_rs256 (n e message signature : string) : result string unit :=
  key ← rsa_key n e;
  if rsa_verify "sha256" key (sha256_digest message) signature then Ok tt else Err "invalid RS256 signature".
Definition verify_rs384 (n e message signature : string) : result string unit :=
  key ← rsa_key n e;
  if rsa_verify "sha384" key (sha384_digest message) signature then Ok tt else Err "invalid RS384 signature".
Definition verify_rs1 (n e message signature : string) : result string unit :=
  key ← rsa_key n e;
  if rsa_verify "sha1" key (sha1_digest message) signature then Ok tt else Err "invalid RS1 signature".
Definition verify_ed25519 (public_key message signature : string) : result string unit :=
  if negb (String.length public_key =? 32)%nat then Err "ed25519 pubkey != 32 bytes"
  else
    key ← map_err (fun m => "ed25519 key: " +:+ m) (ed_key_from_bytes public_key);
    if negb (String.length signature =? 64)%nat then Err "ed25519 sig != 64 bytes"
    else if ed_verify key message signature then Ok tt else Err "invalid Ed25519 signature".

(** ** fido/verify.rs *)

(** The token binding of client data, when there is one. *)
Definition check_token_binding (v : Value) : result string unit :=
  match get v "tokenBinding" with
  | None => Ok tt
  | Some (Object m) =>
      match get_str (Object m) "status" with
      | Some s => if bool_decide (s ∈ ["present"; "supported"; "not-supported"]) then Ok tt
                  else Err "clientData.tokenBinding.status invalid"
      | None => Err "clientData.tokenBinding.status invalid"
      end
  | Some _ => Err "clientData.tokenBinding must be an object"
  end.

Definition check_client_data (client_data_json_b64 expected_type expected_challenge origin : string) :
    result string string :=
  raw ← b64url_decode client_data_json_b64;
  v ← map_err (fun e => "clientData json: " +:+ e) (json_from_slice raw);
  if negb (bool_decide (get_str v "type" = Some expected_type)) then Err ("clientData.type != " +:+ expected_type)
  else if negb (bool_decide (get_str v "challenge" = Some expected_challenge)) then Err "clientData.challenge mismatch"
  else if negb (bool_decide (get_str v "origin" = Some origin))
  then Err ("clientData.origin mismatch (got " +:+ debug_value (get v "origin") +:+ ", want " +:+ origin +:+ ")")
  else _ ← check_token_binding v; Ok raw.

Definition check_rp_id_hash (rp_id_hash rp_id : string) : result string unit :=
  if bool_decide (rp_id_hash = sha256_digest rp_id) then Ok tt else Err "rpIdHash mismatch".

Definition verify_es256_raw (pub_x pub_y message signature_der : string) : result string unit :=
  vk ← verifying_key_from_xy pub_x pub_y;
  sig ← map_err (fun e => "sig der: " +:+ e) (signature_from_der signature_der);
  if ecdsa_verify vk message sig then Ok tt else Err "invalid signature".

(** [CredKey::verify]. *)
Definition cred_key_verify (k : CredKey) (signed signature : string) : result string unit :=
  match k with
  | Es256Key x y => verify_es256_raw x y signed signature
  | Rs256Key n e => verify_rs256 n e signed signature
  | Rs1Key n e => verify_rs1 n e signed signature
  | Ed25519Key pk => verify_ed25519 pk signed signature
  end.

Definition verify_assertion (key : CredKey) (auth_data client_data_json signature : string) : result string unit :=
  cred_key_verify key (auth_data +:+ sha256_digest client_data_json) signature.

Definition parse_cose_key (cose_bytes : string) : result string (CredKey * nat) :=
  cc ← map_err (fun e => "COSE cbor: " +:+ e) (cbor_from_reader cose_bytes);
  match cc.1 with
  | CborMap m =>
      let int k := match cose_get_int m k with Some (CborInteger i) => Some i | _ => None end in
      let bytes k := cose_get_int m k ≫= cbor_bytes in
      let alg := int 3 in
      if bool_decide (int 1 = Some 2) then
        if negb (bool_decide (alg = Some (-7))) then Err ("COSE EC2 alg != ES256 (" +:+ debug_int alg +:+ ")")
        else
          x ← ok_or "COSE missing x" (bytes (-2));
          y ← ok_or "COSE missing y" (bytes (-3));
          xb ← pad32 x;
          yb ← pad32 y;
          _ ← verifying_key_from_xy xb yb;
          Ok (Es256Key xb yb, cc.2)
      else if bool_decide (int 1 = Some 3) then
        n ← ok_or "COSE RSA missing n" (bytes (-1));
        e ← ok_or "COSE RSA missing e" (bytes (-2));
        if bool_decide (alg = Some (-257)) then Ok (Rs256Key n e, cc.2)
        else if bool_decide (alg = Some (-65535)) then Ok (Rs1Key n e, cc.2)
        else Err ("COSE RSA alg unsupported (" +:+ debug_int alg +:+ ")")
      else if bool_decide (int 1 = Some 1) then
        if negb (bool_decide (alg = Some (-8))) then Err ("COSE OKP alg != EdDSA (" +:+ debug_int alg +:+ ")")
        else if negb (bool_decide (int (-1) = Some 6))
        then Err ("COSE OKP crv != Ed25519 (" +:+ debug_int (int (-1)) +:+ ")")
        else pk ← ok_or "COSE OKP missing x" (bytes (-2)); Ok (Ed25519Key pk, cc.2)
      else Err ("COSE kty unsupported (" +:+ debug_int (int 1) +:+ ")")
  | _ => Err "COSE key is not a map"
  end.

Definition parse_attestation_object (att : string) : result string AttestationObject :=
  oc ← map_err (fun e => "attObj cbor: " +:+ e) (cbor_from_reader att);
  match oc.1 with
  | CborMap m =>
      fmt ← (match cbor_text_get m "fmt" with
             | Some (CborText s) => Ok s
             | _ => Err "attestationObject missing fmt"
             end);
      auth_data ← ok_or "attestationObject missing authData" (cbor_text_get m "authData" ≫= cbor_bytes);
      Ok (mkAttestationObject fmt auth_data (default (CborMap []) (cbor_text_get m "attStmt")))
  | _ => Err "attestationObject not a map"
  end.

(** ** webauthn.rs *)

Definition extract_challenge (client_data_json_b64 : string) : option string :=
  raw ← result_ok (b64url_decode client_data_json_b64);
  v ← result_ok (json_from_slice raw);
  get_str v "challenge".

Definition verify_registration (client_data_json_b64 attestation_object_b64 expected_challenge origin rp_id : string) :
    result string RegOutcome :=
  _ ← check_client_data client_data_json_b64 "webauthn.create" expected_challenge origin;
  att ← b64url_decode attestation_object_b64;
  ao ← parse_attestation_object att;
  ad ← parse_auth_data (ao_auth_data ao);
  _ ← check_rp_id_hash (ad_rp_id_hash ad) rp_id;
  if negb (flag_set (ad_flags ad) FLAG_UP) then Err "UP flag not set"
  else if negb (flag_set (ad_flags ad) FLAG_AT) then Err "AT flag not set (no attested credential data)"
  else
    let rest := ad_rest ad in
    fin ← ok_or "attestedCredentialData too short or credId length overflow" (attested_cred_id_end rest);
    kc ← parse_cose_key (slice fin (String.length rest) rest);
    match kc.1 with
    | Es256Key x y =>
        Ok (mkRegOutcome (b64url_encode (slice 18 fin rest)) (b64url_encode x) (b64url_encode y) (ad_sign_count ad))
    | _ => Err "OIDC passkey must be ES256"
    end.

Definition verify_authentication
    (client_data_json_b64 authenticator_data_b64 signature_b64 expected_challenge origin rp_id pub_x_b64 pub_y_b64 : string)
    (stored_sign_count : Z) (require_uv : bool) : result string Z :=
  client_data ← check_client_data client_data_json_b64 "webauthn.get" expected_challenge origin;
  auth_data ← b64url_decode authenticator_data_b64;
  ad ← parse_auth_data auth_data;
  _ ← check_rp_id_hash (ad_rp_id_hash ad) rp_id;
  _ ← check_flags (ad_flags ad) require_uv;
  x ← b64url_decode pub_x_b64;
  y ← b64url_decode pub_y_b64;
  sig ← b64url_decode signature_b64;
  _ ← verify_assertion (Es256Key x y) auth_data client_data sig;
  if negb (ad_sign_count ad =? 0) && (ad_sign_count ad <=? stored_sign_count)
  then Err "signCount did not increase (possible clone)" else Ok (ad_sign_count ad).
End webauthn.

(** * Properties *)

Lemma substring_length a b s : (a + b <= String.length s)%nat -> String.length (String.substring a b s) = b.
Proof.
  revert a b. induction s as [|c s IH]; intros [|a] [|b] Hl; simpl in *; try lia; try done.
  - f_equal. apply IH. simpl. lia.
  - apply (IH a 0%nat). lia.
  - apply (IH a (S b)). lia.
Qed.
Lemma slice_length a b s : (a <= b <= String.length s)%nat -> String.length (slice a b s) = (b - a)%nat.
Proof. intros. apply substring_length. lia. Qed.

Lemma substring_0_0 s : String.substring 0 0 s = "".
Proof. by destruct s. Qed.
Lemma substring_app a b d s :
  (a + b + d <= String.length s)%nat ->
  String.substring a (b + d) s = String.substring a b s +:+ String.substring (a + b) d s.
Proof.
  revert a b. induction s as [|c s IH]; intros a b Hl; simpl in Hl.
  - replace a with 0%nat by lia. replace b with 0%nat by lia. by replace d with 0%nat by lia.
  - destruct a as [|a].
    + destruct b as [|b]; [by rewrite substring_0_0|].
      simpl. rewrite (IH 0%nat b) by lia. done.
    + change (String.substring (S a) (b + d) (String c s)) with (String.substring a (b + d) s).
      rewrite (IH a b) by lia. done.
Qed.
Lemma slice_split a b d s :
  (a <= b <= d)%nat -> (d <= String.length s)%nat -> slice a d s = slice a b s +:+ slice b d s.
Proof.
  intros [Hab Hbd] Hd. unfold slice. replace (d - a)%nat with ((b - a) + (d - b))%nat by lia.
  rewrite substring_app by lia. by replace (a + (b - a))%nat with b by lia.
Qed.
Lemma slice_all s : slice 0 (String.length s) s = s.
Proof. unfold slice. rewrite Nat.sub_0_r. induction s as [|c s IH]; simpl; [done|]. by rewrite IH. Qed.

Lemma be_value_range s : 0 <= be_value s < 256 ^ Z.of_nat (String.length s).
Proof.
  unfold be_value. assert (H : forall acc, 0 <= acc ->
    0 <= be_value_go acc s < (acc + 1) * 256 ^ Z.of_nat (String.length s)); [|specialize (H 0); lia].
  induction s as [|c s IH]; intros acc Ha; cbn [be_value_go String.length]; [lia|].
  rewrite Nat2Z.inj_succ, Z.pow_succ_r by lia.
  pose proof (Stdlib.Strings.Ascii.nat_ascii_bounded c) as Hc.
  specialize (IH (acc * 256 + Z.of_nat (nat_of_ascii c)) ltac:(lia)). nia.
Qed.

(** The end of the credential identifier, computed from a length that the
    authenticator chose, is always inside the data: the three parts are slices of the
    data and make it up again, the 16-bit addition never overflows, and the data is
    refused exactly when it is too short for the length it announces. *)
Theorem attested_bounds rest :
  match attested_cred_id_end rest with
  | Some fin =>
      (18 <= fin <= String.length rest)%nat /\ Z.of_nat fin = 18 + be_value (slice 16 18 rest) /\
      Z.of_nat fin <= 18 + 65535 /\ String.length (slice 18 fin rest) = (fin - 18)%nat /\
      rest = slice 0 18 rest +:+ slice 18 fin rest +:+ slice fin (String.length rest) rest
  | None =>
      (String.length rest < 18)%nat \/ Z.of_nat (String.length rest) < 18 + be_value (slice 16 18 rest)
  end.
Proof.
  unfold attested_cred_id_end. destruct (Nat.ltb_spec (String.length rest) 18) as [|H18]; [by left|].
  pose proof (be_value_range (slice 16 18 rest)) as Hb. rewrite slice_length in Hb by lia.
  change (256 ^ Z.of_nat (18 - 16)) with 65536 in Hb.
  destruct (Nat.ltb_spec (String.length rest) (18 + Z.to_nat (be_value (slice 16 18 rest)))) as [|Hf]; [right; lia|].
  split; [lia|]. split; [lia|]. split; [lia|]. rewrite slice_length by lia. split; [done|].
  rewrite <- (slice_split 18) by lia. rewrite <- (slice_split 0) by lia. by rewrite slice_all.
Qed.

Section facts.
Context `{Externals}.

(** What accepted client data says. *)
Definition client_data_for (raw type challenge origin : string) : Prop :=
  exists v, json_from_slice raw = Ok v /\ get_str v "type" = Some type /\
    get_str v "challenge" = Some challenge /\ get_str v "origin" = Some origin.

Lemma check_client_data_Ok b64 type challenge origin raw :
  check_client_data b64 type challenge origin = Ok raw ->
  b64url_decode b64 = Ok raw /\ client_data_for raw type challenge origin.
Proof.
  unfold check_client_data. rewrite bind_Ok. intros (raw' & Hraw & Hr). rewrite bind_Ok in Hr.
  destruct Hr as (v & Hv & Hr). apply map_err_Ok in Hv.
  case_bool_decide as Ht; simpl in Hr; [|done]. case_bool_decide as Hc; simpl in Hr; [|done].
  case_bool_decide as Ho; simpl in Hr; [|done]. destruct (check_token_binding v); simpl in Hr; [|done].
  injection Hr as <-. split; [done|]. by exists v.
Qed.

Lemma parse_auth_data_Ok b ad :
  parse_auth_data b = Ok ad ->
  (37 <= String.length b)%nat /\ ad_rp_id_hash ad = slice 0 32 b /\ 0 <= ad_flags ad < 256 /\
  0 <= ad_sign_count ad < 2 ^ 32.
Proof.
  unfold parse_auth_data. destruct (Nat.ltb_spec (String.length b) 37) as [|Hl]; [done|]. intros [= <-]. simpl.
  split; [done|]. split; [done|].
  pose proof (be_value_range (slice 32 33 b)) as H1. pose proof (be_value_range (slice 33 37 b)) as H2.
  rewrite slice_length in H1, H2 by lia. split; [exact H1 | exact H2].
Qed.

(** The signature of an assertion under a stored key. *)
Definition signed_by (pub_x_b64 pub_y_b64 message signature : string) : Prop :=
  exists x y vk sig, b64url_decode pub_x_b64 = Ok x /\ b64url_decode pub_y_b64 = Ok y /\
    verifying_key_from_xy x y = Ok vk /\ signature_from_der signature = Ok sig /\ ecdsa_verify vk message sig = true.

(** An assertion is accepted only for this ceremony's challenge, this origin and this
    relying party, with the user present (and verified when that is required), signed
    by the stored key over the authenticator data and the client data; its counter is
    32 bits wide and, unless it is zero, strictly greater than the stored one. *)
Theorem assertion_verified cd_b64 ad_b64 sig_b64 challenge origin rp_id x_b64 y_b64 stored uv n :
  verify_authentication cd_b64 ad_b64 sig_b64 challenge origin rp_id x_b64 y_b64 stored uv = Ok n ->
  exists client_data auth_data sig ad,
    b64url_decode cd_b64 = Ok client_data /\ client_data_for client_data "webauthn.get" challenge origin /\
    b64url_decode ad_b64 = Ok auth_data /\ parse_auth_data auth_data = Ok ad /\
    ad_rp_id_hash ad = sha256_digest rp_id /\ flag_set (ad_flags ad) FLAG_UP = true /\
    (uv = true -> flag_set (ad_flags ad) FLAG_UV = true) /\
    b64url_decode sig_b64 = Ok sig /\
    signed_by x_b64 y_b64 (auth_data +:+ sha256_digest client_data) sig /\
    n = ad_sign_count ad /\ 0 <= n < 2 ^ 32 /\ (n = 0 \/ stored < n).
Proof.
  unfold verify_authentication. rewrite bind_Ok. intros (cd & Hcd & Hr). apply check_client_data_Ok in Hcd as [Hcd Hfor].
  rewrite bind_Ok in Hr. destruct Hr as (adb & Hadb & Hr). rewrite bind_Ok in Hr. destruct Hr as (ad & Had & Hr).
  rewrite bind_Ok in Hr. destruct Hr as ([] & Hrp & Hr). rewrite bind_Ok in Hr. destruct Hr as ([] & Hfl & Hr).
  rewrite bind_Ok in Hr. destruct Hr as (x & Hx & Hr). rewrite bind_Ok in Hr. destruct Hr as (y & Hy & Hr).
  rewrite bind_Ok in Hr. destruct Hr as (sig & Hsig & Hr). rewrite bind_Ok in Hr. destruct Hr as ([] & Hver & Hr).
  unfold check_rp_id_hash in Hrp. case_bool_decide as Hrp'; [|done].
  unfold verify_assertion, cred_key_verify, verify_es256_raw in Hver.
  rewrite bind_Ok in Hver. destruct Hver as (vk & Hvk & Hver). rewrite bind_Ok in Hver.
  destruct Hver as (sg & Hsg & Hver). apply map_err_Ok in Hsg. destruct (ecdsa_verify _ _ _) eqn:Hv; [|done].
  exists cd, adb, sig, ad. do 5 (split; [done|]). unfold check_flags in Hfl.
  destruct (flag_set (ad_flags ad) FLAG_UP); [|done]. split; [done|]. cbn [negb] in Hfl. split.
  { intros ->. by destruct (flag_set (ad_flags ad) FLAG_UV). }
  split; [done|]. split; [by exists x, y, vk, sg|].
  pose proof (parse_auth_data_Ok _ _ Had) as (_ & _ & _ & Hn).
  destruct (Z.eqb_spec (ad_sign_count ad) 0); simpl in Hr; [injection Hr as <-; auto|].
  destruct (Z.leb_spec (ad_sign_count ad) stored); [done|]. injection Hr as <-. auto.
Qed.

(** A registration is accepted only for this ceremony's challenge, this origin and
    this relying party, with the user present and attested credential data, and the
    stored key is a point of the curve with coordinates of 32 bytes; the identifier is
    the one of the attested data. *)
Theorem registration_verified cd_b64 att_b64 challenge origin rp_id out :
  verify_registration cd_b64 att_b64 challenge origin rp_id = Ok out ->
  exists client_data att ao ad fin x y,
    b64url_decode cd_b64 = Ok client_data /\ client_data_for client_data "webauthn.create" challenge origin /\
    b64url_decode att_b64 = Ok att /\ parse_attestation_object att = Ok ao /\
    parse_auth_data (ao_auth_data ao) = Ok ad /\ ad_rp_id_hash ad = sha256_digest rp_id /\
    flag_set (ad_flags ad) FLAG_UP = true /\ flag_set (ad_flags ad) FLAG_AT = true /\
    attested_cred_id_end (ad_rest ad) = Some fin /\
    out = mkRegOutcome (b64url_encode (slice 18 fin (ad_rest ad))) (b64url_encode x) (b64url_encode y) (ad_sign_count ad) /\
    String.length x = 32%nat /\ String.length y = 32%nat /\ is_ok (verifying_key_from_xy x y) = true.
Proof.
  unfold verify_registration. rewrite bind_Ok. intros (cd & Hcd & Hr). apply check_client_data_Ok in Hcd as [Hcd Hfor].
  rewrite bind_Ok in Hr. destruct Hr as (att & Hatt & Hr). rewrite bind_Ok in Hr. destruct Hr as (ao & Hao & Hr).
  rewrite bind_Ok in Hr. destruct Hr as (ad & Had & Hr). rewrite bind_Ok in Hr. destruct Hr as ([] & Hrp & Hr).
  unfold check_rp_id_hash in Hrp. case_bool_decide as Hrp'; [|done].
  destruct (flag_set (ad_flags ad) FLAG_UP) eqn:Hup; cbn [negb] in Hr; [|done].
  destruct (flag_set (ad_flags ad) FLAG_AT) eqn:Hatf; cbn [negb] in Hr; [|done].
  rewrite bind_Ok in Hr. destruct Hr as (fin & Hfin & Hr). rewrite bind_Ok in Hr. destruct Hr as ([k used] & Hk & Hr).
  destruct (attested_cred_id_end (ad_rest ad)) as [fin'|] eqn:He; [|done]. injection Hfin as ->.
  cbn [fst] in Hr. destruct k as [x y| | |]; try done. injection Hr as <-.
  exists cd, att, ao, ad, fin, x, y. do 10 (split; [done|]). clear -Hk.
  unfold parse_cose_key in Hk. rewrite bind_Ok in Hk. destruct Hk as ([c used'] & _ & Hk). destruct c; try done.
  cbn [fst snd] in Hk. case_bool_decide; [|case_bool_decide; [|case_bool_decide; [|done]]].
  - case_bool_decide; cbn [negb] in Hk; [|done].
    rewrite bind_Ok in Hk. destruct Hk as (xr & _ & Hk). rewrite bind_Ok in Hk. destruct Hk as (yr & _ & Hk).
    rewrite bind_Ok in Hk. destruct Hk as (xb & Hx & Hk). rewrite bind_Ok in Hk. destruct Hk as (yb & Hy & Hk).
    rewrite bind_Ok in Hk. destruct Hk as (vk & Hvk & Hk). injection Hk as -> -> _.
    assert (Hp : forall a b, pad32 a = Ok b -> String.length b = 32%nat).
    { intros a b. unfold pad32. destruct (Nat.ltb_spec 32 (String.length a)); [done|]. intros [= <-].
      rewrite str_length_app, zero_bytes_length. lia. }
    rewrite Hvk. split; [by eapply Hp|]. split; [by eapply Hp | done].
  - rewrite bind_Ok in Hk. destruct Hk as (n & _ & Hk). rewrite bind_Ok in Hk. destruct Hk as (e & _ & Hk).
    repeat case_bool_decide; simplify_eq.
  - case_bool_decide; cbn [negb] in Hk; [|done]. case_bool_decide; cbn [negb] in Hk; [|done].
    rewrite bind_Ok in Hk. by destruct Hk as (pk & _ & Hk).
Qed.
End facts.
