(* ===== verification/Sys.v ===== *)
(** * The process around the components

    The operations of the process and of the database that several components
    use: the two clocks, fresh identifiers, and the Firestore client.  One clock
    counts nanoseconds: [SystemTime] in seconds is [clk / 10^9] and an [Instant]
    is [clk] itself. *)

From S2P Require Import Prelude Prog Json Firestore Externals.

#[local] Open Scope Z_scope.

Inductive sysE : Type -> Type :=
| NowSecs : sysE Z
| UuidV4 : sysE string
| Random32 : sysE string
| FsOp {X} (o : fsE X) : sysE X.

Definition now_secs : prog sysE Z := trigger NowSecs.
Definition opaque : prog sysE string := trigger UuidV4.
Definition random_bytes : prog sysE string := trigger Random32.
Definition fs {X} (o : fsE X) : prog sysE X := trigger (FsOp o).

Definition NS : Z := 1000000000.
Definition secs_of (clk : Z) : Z := clk / NS.

(** A database service: its state and its answers. *)
Class FsBackend := {
  fs_db : Type;
  fs_handle : forall X, fsE X -> fs_db -> X * fs_db
}.

Record sys_world `{FsBackend} := mkSysWorld { sw_clk : Z; sw_uuid : nat; sw_rand : nat; sw_db : fs_db }.
Arguments mkSysWorld {_} _ _ _ _.

Definition sys_handler `{FsBackend, Externals} : handler sysE sys_world :=
  fun X e w =>
    match e in sysE X return X * sys_world with
    | NowSecs => (secs_of (sw_clk w), w)
    | UuidV4 => (uuid_v4 (sw_uuid w), mkSysWorld (sw_clk w) (S (sw_uuid w)) (sw_rand w) (sw_db w))
    | Random32 => (random_32 (sw_rand w), mkSysWorld (sw_clk w) (sw_uuid w) (S (sw_rand w)) (sw_db w))
    | FsOp o => let '(x, db) := fs_handle _ o (sw_db w) in (x, mkSysWorld (sw_clk w) (sw_uuid w) (sw_rand w) db)
    end.

(** A database without any document, which answers reads with "absent" and
    accepts every unconditional write without keeping it: the service of a process
    that runs on its in-memory stores. *)
Definition no_database : FsBackend := {|
  fs_db := unit;
  fs_handle X o db := (match o in fsE X return X with
    | SetDoc _ _ _ | UpdateField _ _ _ _ | DeleteDoc _ _ | MergeDoc _ _ _ => Ok tt
    | GetDoc _ _ => Ok None
    | GetDocWithUpdateTime _ _ => Ok None
    | SetDocIfUnchanged _ _ _ _ | DeleteDocIfUnchanged _ _ _ => Ok false
    | CreateIfAbsent _ _ _ => Ok true
    | QueryEq _ _ _ | ListRecentOrdered _ _ _ => Ok []
    | ListCollection _ => Ok []
    | AccessSecret _ => Ok None
    | FcmSend _ => Ok tt
    end, db)
|}.
