(* ===== verification/X509.v ===== *)
(** * Certificates and the network, as the attestation checks use them

    The operations of the crates x509-cert, der, rsa and p384 that [src/src/fido/]
    calls: the parsers are operations of one interface, and a parsed certificate is
    seen only through the fields the code reads.  Object identifiers are their dotted
    texts.  The two effects of the checks, the clock and an HTTP GET, are a signature
    of their own. *)

From S2P Require Import Prelude Prog Json Decimal Externals Es256.

#[local] Open Scope Z_scope.

Inductive Version := V1 | V2 | V3.
#[export] Instance version_eq_dec : EqDecision Version.
Proof. solve_decision. Defined.

(** The names of a distribution point. *)
Inductive GeneralName := UniformResourceIdentifier (uri : string) | OtherName.
Inductive DistributionPointName := FullName (names : list GeneralName) | NameRelativeToCRLIssuer.

(** An identifier in an extension, and its DER value. *)
Definition Extension : Type := (string * string)%type.

Class X509 `{Externals} := {
  Certificate : Type;
  TbsCertificate : Type;
  tbs_eq_dec :: EqDecision TbsCertificate;
  Certificate_from_der : string -> result string Certificate;
  tbs_certificate : Certificate -> TbsCertificate;
  tbs_to_der : TbsCertificate -> result string string;
  signature_algorithm : Certificate -> string;
  signature_bytes : Certificate -> option string;
  (** the fields of the signed part *)
  version : TbsCertificate -> Version;
  serial_number : TbsCertificate -> string;
  issuer_to_der : TbsCertificate -> result string string;
  subject_to_der : TbsCertificate -> result string string;
  subject_rdns : TbsCertificate -> list (list (string * string));
  not_before : TbsCertificate -> Z;
  not_after : TbsCertificate -> Z;
  extensions : TbsCertificate -> option (list Extension);
  (** the subject public key: its bits when they are bytes, its algorithm, the curve
      among the parameters, and the whole structure *)
  spki_public_key : TbsCertificate -> option string;
  spki_algorithm : TbsCertificate -> string;
  spki_curve : TbsCertificate -> option (result string string);
  spki_to_der : TbsCertificate -> result string string;
  (** extension values: the CA flag, the key purposes, an octet string, the points *)
  BasicConstraints_from_der : string -> result string bool;
  ExtendedKeyUsage_from_der : string -> result string (list string);
  OctetString_from_der : string -> result string string;
  CrlDistributionPoints_from_der : string -> result string (list (option DistributionPointName));
  (** the serial numbers of a revocation list *)
  CertificateList_from_der : string -> result string (option (list string));
  (** rsa: modulus and exponent, big-endian *)
  RsaPublicKey_from_public_key_der : string -> result string (string * string);
  (** p256 and p384 *)
  p256_from_sec1_bytes : string -> result string VerifyingKey;
  P384Key : Type;
  P384Signature : Type;
  p384_from_sec1_bytes : string -> result string P384Key;
  p384_signature_from_der : string -> result string P384Signature;
  p384_signature_from_slice : string -> result string P384Signature;
  p384_verify : P384Key -> string -> P384Signature -> bool
}.

(** [SystemTime::now], and [reqwest::get]: an answer, then its body as text or bytes. *)
Inductive netE : Type -> Type :=
| NetNow : netE Z
| GetText (url : string) : netE (result string (result string string))
| GetBytes (url : string) : netE (result string (result string string)).
Definition net_now : prog netE Z := trigger NetNow.

Definition usize_to_string (n : nat) : string := u64_to_string (Z.of_nat n).
(** The [n]-th byte. *)
Definition byte_at (n : nat) (s : string) : Z := be_value (slice n (S n) s).
(** The text of a signed integer. *)
Definition i64_to_string (z : Z) : string :=
  if z <? 0 then "-" +:+ u64_to_string (- z) else u64_to_string z.

(** [{:0wx}]: hexadecimal digits, [w] of them. *)
Definition hex_digit (d : Z) : ascii :=
  ascii_of_nat (if d <? 10 then (48 + Z.to_nat d)%nat else (87 + Z.to_nat d)%nat).
Fixpoint hex_fixed (w : nat) (z : Z) : string :=
  match w with O => "" | S w' => hex_fixed w' (z / 16) +:+ String (hex_digit (z mod 16)) "" end.

(** [to_be_bytes] of an integer of [n] bytes. *)
Fixpoint to_be_bytes (n : nat) (z : Z) : string :=
  match n with O => "" | S n' => to_be_bytes n' (z / 256) +:+ String (ascii_of_nat (Z.to_nat (z mod 256))) "" end.

(** ** A concrete instance

    Certificates looked up in a table; keys, lists and extension values that keep their
    text. *)

Record SampleTbs := mkSampleTbs {
  st_version : Version;
  st_serial : string;
  st_issuer : string;
  st_subject : string;
  st_rdns : list (list (string * string));
  st_not_before : Z;
  st_not_after : Z;
  st_extensions : option (list Extension);
  st_public_key : string;
  st_key_algorithm : string
}.
#[export] Instance sample_tbs_eq_dec : EqDecision SampleTbs.
Proof. solve_decision. Defined.
Record SampleCertificate := mkSampleCertificate { sc_tbs : SampleTbs; sc_algorithm : string; sc_signature : string }.

Definition sample_x509 `{Externals} (good : string -> VerifyingKey) (certs : list (string * SampleCertificate)) : X509 := {|
  Certificate := SampleCertificate;
  TbsCertificate := SampleTbs;
  Certificate_from_der s := ok_or "no certificate" (assoc s certs);
  tbs_certificate := sc_tbs;
  tbs_to_der t := Ok (st_subject t);
  signature_algorithm := sc_algorithm;
  signature_bytes c := Some (sc_signature c);
  version := st_version;
  serial_number := st_serial;
  issuer_to_der t := Ok (st_issuer t);
  subject_to_der t := Ok (st_subject t);
  subject_rdns := st_rdns;
  not_before := st_not_before;
  not_after := st_not_after;
  extensions := st_extensions;
  spki_public_key t := Some (st_public_key t);
  spki_algorithm := st_key_algorithm;
  spki_curve t := Some (Ok "1.2.840.10045.3.1.7");
  spki_to_der t := Ok (st_public_key t);
  BasicConstraints_from_der s := Ok (bool_decide (s = "ca"));
  ExtendedKeyUsage_from_der s := Ok [s];
  OctetString_from_der s := Ok s;
  CrlDistributionPoints_from_der s := Ok [Some (FullName [UniformResourceIdentifier s])];
  CertificateList_from_der s := Ok (Some (str_split ","%char s));
  RsaPublicKey_from_public_key_der s := Ok (s, s);
  p256_from_sec1_bytes s := Ok (good s);
  P384Key := string;
  P384Signature := string;
  p384_from_sec1_bytes s := Ok s;
  p384_signature_from_der s := Ok s;
  p384_signature_from_slice s := Ok s;
  p384_verify k m s := bool_decide (s = "good")
|}.
