(* ===== verification/Attestation.v ===== *)
(** * Attestation statements of the conformance server

    The part of [src/src/fido/verify.rs] that the login path does not use: the
    certificate checks and the formats none, packed and fido-u2f. *)

From S2P Require Import Prelude Prog Json Decimal Externals Es256 WebAuthn X509.

#[local] Open Scope Z_scope.

Definition FLAG_ED : Z := 128.
Definition OID_ECDSA_SHA256 : string := "1.2.840.10045.4.3.2".
Definition OID_BASIC_CONSTRAINTS : string := "2.5.29.19".
Definition OID_FIDO_AAGUID : string := "1.3.6.1.4.1.45724.1.1.4".

(** [i128 as i32]: a CBOR integer lies within 65 bits, and the cast keeps the low 32. *)
Definition as_i32 (z : Z) : Z := (z + 2 ^ 31) mod 2 ^ 32 - 2 ^ 31.

Definition att_x5c_ders (att_stmt : Cbor) : list string :=
  match att_stmt with
  | CborMap m => match cbor_text_get m "x5c" with Some (CborArray a) => omap cbor_bytes a | _ => [] end
  | _ => []
  end.
Definition require_empty_att_stmt (att_stmt : Cbor) : result string unit :=
  match att_stmt with CborMap [] => Ok tt | _ => Err "none attestation must have an empty attStmt" end.

(** [CredKey::ec_xy] and [CredKey::rsa_ne]. *)
Definition ec_xy (k : CredKey) : option (string * string) :=
  match k with Es256Key x y => Some (x, y) | _ => None end.
Definition rsa_ne (k : CredKey) : option (string * string) :=
  match k with Rs256Key n e | Rs1Key n e => Some (n, e) | _ => None end.

Section attestation.
Context `{X509}.

Definition verify_es256_signature (pub_x pub_y auth_data client_data_json signature_der : string) : result string unit :=
  verify_es256_raw pub_x pub_y (auth_data +:+ sha256_digest client_data_json) signature_der.

Definition x5c_parse (der : string) : result string Certificate :=
  map_err (fun e => "x5c parse: " +:+ e) (Certificate_from_der der).

Definition ec_p256_xy_from_parsed (cert : Certificate) : result string (string * string) :=
  pk ← ok_or "spki bitstring not byte-aligned" (spki_public_key (tbs_certificate cert));
  if (String.length pk =? 65)%nat && (byte_at 0 pk =? 4) then Ok (slice 1 33 pk, slice 33 65 pk)
  else Err ("cert key not uncompressed P-256 (len " +:+ usize_to_string (String.length pk) +:+ ")").
Definition ec_p256_xy_from_cert (der : string) : result string (string * string) :=
  cert ← x5c_parse der;
  ec_p256_xy_from_parsed cert.

(** ** The certificates of x5c *)

Definition check_member (now : Z) (c : Certificate) : result string unit :=
  let tbs := tbs_certificate c in
  if now <? not_before tbs then Err "certificate not yet valid"
  else if not_after tbs <? now then Err "certificate expired"
  else
    iss ← map_err (fun e => "issuer der: " +:+ e) (issuer_to_der tbs);
    sub ← map_err (fun e => "subject der: " +:+ e) (subject_to_der tbs);
    if bool_decide (iss = sub) then Err "attestation x5c must not contain a self-signed certificate" else Ok tt.
Fixpoint check_members (now : Z) (parsed : list Certificate) : result string unit :=
  match parsed with
  | [] => Ok tt
  | c :: rest => _ ← check_member now c; check_members now rest
  end.

(** A child under the key of its parent; only ECDSA with SHA-256 is checked. *)
Definition check_link (child parent : Certificate) : result string unit :=
  if negb (bool_decide (signature_algorithm child = OID_ECDSA_SHA256)) then Ok tt
  else
    tbs ← map_err (fun e => "tbs der: " +:+ e) (tbs_to_der (tbs_certificate child));
    sig ← ok_or "cert signature not byte-aligned" (signature_bytes child);
    xy ← ec_p256_xy_from_parsed parent;
    map_err (fun _ => "certificate chain signature invalid") (verify_es256_raw xy.1 xy.2 tbs sig).
Fixpoint check_links (parsed : list Certificate) : result string unit :=
  match parsed with
  | child :: ((parent :: _) as rest) => _ ← check_link child parent; check_links rest
  | _ => Ok tt
  end.

Definition check_cert_chain (ders : list string) : prog netE (result string unit) :=
  parsed ←? mret (mapM x5c_parse ders);
  now ← net_now;
  mret (_ ← check_members now parsed; check_links parsed).

(** The first attribute of a type in a name. *)
Fixpoint find_attribute (oid : string) (rdns : list (list (string * string))) : option string :=
  match rdns with
  | [] => None
  | rdn :: rest =>
      match list_find_first (fun atv => bool_decide (atv.1 = oid)) rdn with
      | Some atv => Some atv.2
      | None => find_attribute oid rest
      end
  end.
Definition none_or_empty (o : option string) : bool := match o with Some v => str_is_empty v | None => true end.

Definition check_attestn_ext (aaguid : string) (ext : Extension) : result string unit :=
  if bool_decide (ext.1 = OID_BASIC_CONSTRAINTS) then
    ca ← map_err (fun e => "basicConstraints: " +:+ e) (BasicConstraints_from_der ext.2);
    if ca : bool then Err "attestn cert basicConstraints CA must be false" else Ok tt
  else if bool_decide (ext.1 = OID_FIDO_AAGUID) then
    inner ← map_err (fun e => "aaguid ext: " +:+ e) (OctetString_from_der ext.2);
    if bool_decide (inner = aaguid) then Ok tt else Err "AAGUID extension mismatch"
  else Ok tt.
Fixpoint check_attestn_exts (aaguid : string) (exts : list Extension) : result string unit :=
  match exts with
  | [] => Ok tt
  | ext :: rest => _ ← check_attestn_ext aaguid ext; check_attestn_exts aaguid rest
  end.

Definition check_attestn_cert (der aaguid : string) : result string unit :=
  cert ← x5c_parse der;
  let tbs := tbs_certificate cert in
  let find oid := find_attribute oid (subject_rdns tbs) in
  if negb (bool_decide (find "2.5.4.11" = Some "Authenticator Attestation"))
  then Err "attestn cert Subject-OU != 'Authenticator Attestation'"
  else if none_or_empty (find "2.5.4.3") then Err "attestn cert Subject-CN empty"
  else if none_or_empty (find "2.5.4.10") then Err "attestn cert Subject-O empty"
  else if negb (match find "2.5.4.6" with Some v => (String.length v =? 2)%nat | None => false end)
  then Err "attestn cert Subject-C not a 2-char ISO 3166 code"
  else if negb (bool_decide (version tbs = V3)) then Err "attestn cert version != 3"
  else match extensions tbs with Some exts => check_attestn_exts aaguid exts | None => Ok tt end.

(** ** The formats *)

Definition verify_packed (att_stmt : Cbor) (auth_data client_data_json : string) (cred_key : CredKey) (aaguid : string) :
    prog netE (result string unit) :=
  match att_stmt with
  | CborMap m =>
      alg ←? mret (match cbor_text_get m "alg" with
                   | Some (CborInteger i) => Ok (as_i32 i)
                   | _ => Err "packed attStmt missing alg"
                   end);
      sig ←? mret (ok_or "packed attStmt missing sig" (cbor_text_get m "sig" ≫= cbor_bytes));
      match cbor_text_get m "x5c" with
      | Some (CborArray ((_ :: _) as certs)) =>
          if negb (alg =? -7) then mret (Err ("packed full alg " +:+ i64_to_string alg +:+ " not supported yet"))
          else
            ders ←? mret (ok_or "x5c entry not bytes" (mapM cbor_bytes certs));
            let leaf := default "" (head ders) in
            xy ←? mret (ec_p256_xy_from_cert leaf);
            _ ←? mret (verify_es256_signature xy.1 xy.2 auth_data client_data_json sig);
            _ ←? mret (check_attestn_cert leaf aaguid);
            check_cert_chain ders
      | Some _ => mret (Err "packed x5c invalid")
      | None =>
          if negb (alg =? cose_alg cred_key)
          then mret (Err ("packed self alg " +:+ i64_to_string alg +:+ " != credential alg " +:+ i64_to_string (cose_alg cred_key)))
          else mret (verify_assertion cred_key auth_data client_data_json sig)
      end
  | _ => mret (Err "packed attStmt not a map")
  end.

Definition verify_u2f (att_stmt : Cbor) (rp_id_hash client_data_json cred_id cred_pub_x cred_pub_y : string) :
    result string unit :=
  match att_stmt with
  | CborMap m =>
      sig ← ok_or "u2f attStmt missing sig" (cbor_text_get m "sig" ≫= cbor_bytes);
      leaf ← (match cbor_text_get m "x5c" with
              | Some (CborArray [c]) => ok_or "u2f x5c[0] not bytes" (cbor_bytes c)
              | Some (CborArray _) => Err "u2f x5c must hold exactly one cert"
              | _ => Err "u2f attStmt missing x5c"
              end);
      xy ← ec_p256_xy_from_cert leaf;
      verify_es256_raw xy.1 xy.2
        (String (byte 0) "" +:+ rp_id_hash +:+ sha256_digest client_data_json +:+ cred_id +:+
         String (byte 4) "" +:+ cred_pub_x +:+ cred_pub_y) sig
  | _ => Err "u2f attStmt not a map"
  end.
End attestation.
