(* ===== verification/Tpm.v ===== *)
(** * TPM attestation

    [src/src/fido/tpm.rs]: the reader of the TPM structures, the public area and the
    attestation structure, and the checks that tie them to the credential. *)

From S2P Require Import Prelude Prog Json Decimal Externals Es256 WebAuthn X509 Attestation.

#[local] Open Scope Z_scope.

Definition TPM_GENERATED : Z := 0xFF544347.
Definition TPM_ST_ATTEST_CERTIFY : Z := 0x8017.
Definition TPM_ALG_RSA : Z := 0x0001.
Definition TPM_ALG_NULL : Z := 0x0010.
Definition TPM_ALG_SHA1 : Z := 0x0004.
Definition TPM_ALG_SHA256 : Z := 0x000B.
Definition OID_TCG_AIK : string := "2.23.133.8.3".
Definition OID_EKU : string := "2.5.29.37".

(** ** The reader: a buffer and a position *)

Record Reader := mkReader { rd_b : string; rd_i : nat }.
Definition Reader_new (b : string) : Reader := mkReader b 0.
(** Reading moves the position or fails. *)
Definition reading (A : Type) : Type := Reader -> result string (A * Reader).
#[export] Instance reading_ret : MRet reading := fun A a r => Ok (a, r).
#[export] Instance reading_bind : MBind reading := fun A B f p r =>
  match p r with Ok (a, r') => f a r' | Err e => Err e end.
Definition read_result {A} (x : result string A) : reading A := fun r => a ← x; Ok (a, r).

Definition take (n : nat) : reading string := fun r =>
  if (String.length (rd_b r) <? rd_i r + n)%nat then Err "tpm: unexpected end of buffer"
  else Ok (slice (rd_i r) (rd_i r + n) (rd_b r), mkReader (rd_b r) (rd_i r + n)).
Definition read_u16 : reading Z := s ← take 2; mret (be_value s).
Definition read_u32 : reading Z := s ← take 4; mret (be_value s).
Definition tpm2b : reading string := n ← read_u16; take (Z.to_nat n).

Fixpoint trim0 (b : string) : string :=
  match b with
  | String a r => if bool_decide (a = byte 0) then trim0 r else b
  | "" => ""
  end.

(** ** The structures *)

Definition read_pubarea_rsa : reading (string * string * Z) :=
  typ ← read_u16;
  if negb (typ =? TPM_ALG_RSA) then read_result (Err ("tpm pubArea type 0x" +:+ hex_fixed 4 typ +:+ " != RSA"))
  else
    name_alg ← read_u16;
    _ ← read_u32;
    _ ← tpm2b;
    symmetric ← read_u16;
    _ ← (if negb (symmetric =? TPM_ALG_NULL) then _ ← read_u16; _ ← read_u16; mret tt else mret tt);
    scheme ← read_u16;
    _ ← (if negb (scheme =? TPM_ALG_NULL) then _ ← read_u16; mret tt else mret tt);
    _ ← read_u16;
    exponent ← read_u32;
    modulus ← tpm2b;
    let e := if exponent =? 0 then to_be_bytes 3 65537 else to_be_bytes 4 exponent in
    mret (modulus, e, name_alg).
Definition parse_pubarea_rsa (pub_area : string) : result string (string * string * Z) :=
  fst <$> read_pubarea_rsa (Reader_new pub_area).

Record CertInfo := mkCertInfo { ci_magic : Z; ci_typ : Z; ci_extra_data : string; ci_attested_name : string }.
Definition read_certinfo : reading CertInfo :=
  magic ← read_u32;
  typ ← read_u16;
  _ ← tpm2b;
  extra_data ← tpm2b;
  _ ← take 17;
  _ ← take 8;
  attested_name ← tpm2b;
  _ ← tpm2b;
  mret (mkCertInfo magic typ extra_data attested_name).
Definition parse_certinfo (cert_info : string) : result string CertInfo :=
  fst <$> read_certinfo (Reader_new cert_info).

(** ** Verification *)

Section tpm.
Context `{X509}.

Definition hash_cose_alg (alg : Z) (data : string) : result string string :=
  if alg =? -257 then Ok (sha256_digest data)
  else if alg =? -65535 then Ok (sha1_digest data)
  else Err ("tpm alg " +:+ i64_to_string alg +:+ " not supported (RS256/RS1 only)").
Definition hash_tpm_alg (name_alg : Z) (data : string) : result string string :=
  if name_alg =? TPM_ALG_SHA256 then Ok (sha256_digest data)
  else if name_alg =? TPM_ALG_SHA1 then Ok (sha1_digest data)
  else Err ("tpm nameAlg 0x" +:+ hex_fixed 4 name_alg +:+ " unsupported").

Definition aik_rsa_ne (cert : Certificate) : result string (string * string) :=
  spki ← map_err (fun e => "aik spki der: " +:+ e) (spki_to_der (tbs_certificate cert));
  map_err (fun e => "aik rsa key: " +:+ e) (RsaPublicKey_from_public_key_der spki).

(** Whether one of the purposes is the one of an attestation key. *)
Fixpoint check_aik_exts (eku_ok : bool) (exts : list Extension) : result string bool :=
  match exts with
  | [] => Ok eku_ok
  | ext :: rest =>
      if bool_decide (ext.1 = OID_EKU) then
        eku ← map_err (fun e => "eku: " +:+ e) (ExtendedKeyUsage_from_der ext.2);
        check_aik_exts (eku_ok || bool_decide (OID_TCG_AIK ∈ eku)) rest
      else if bool_decide (ext.1 = OID_BASIC_CONSTRAINTS) then
        ca ← map_err (fun e => "basicConstraints: " +:+ e) (BasicConstraints_from_der ext.2);
        if ca : bool then Err "aik cert basicConstraints CA must be false" else check_aik_exts eku_ok rest
      else check_aik_exts eku_ok rest
  end.
Definition check_aik_cert (cert : Certificate) : result string unit :=
  exts ← ok_or "aik cert has no extensions" (extensions (tbs_certificate cert));
  eku_ok ← check_aik_exts false exts;
  if eku_ok : bool then Ok tt else Err "aik cert missing tcg-kp-AIKCertificate EKU".

Definition verify_tpm (att_stmt : Cbor) (auth_data client_data_json : string) (cred_key : CredKey) : result string unit :=
  match att_stmt with
  | CborMap m =>
      let bytes k := match cbor_text_get m k with Some (CborBytes b) => Some b | _ => None end in
      _ ← (match cbor_text_get m "ver" with
           | Some (CborText v) => if bool_decide (v = "2.0") then Ok tt else Err "tpm ver != 2.0"
           | _ => Err "tpm ver != 2.0"
           end);
      alg ← (match cbor_text_get m "alg" with
             | Some (CborInteger i) => Ok (as_i32 i)
             | _ => Err "tpm attStmt missing alg"
             end);
      sig ← ok_or "tpm attStmt missing sig" (bytes "sig");
      cert_info ← ok_or "tpm attStmt missing certInfo" (bytes "certInfo");
      pub_area ← ok_or "tpm attStmt missing pubArea" (bytes "pubArea");
      aik_der ← (match cbor_text_get m "x5c" with
                 | Some (CborArray (CborBytes b :: _)) => Ok b
                 | Some (CborArray (_ :: _)) => Err "tpm x5c[0] not bytes"
                 | _ => Err "tpm attStmt missing x5c"
                 end);
      pa ← parse_pubarea_rsa pub_area;
      let '(pa_n, pa_e, name_alg) := pa : string * string * Z in
      ne ← ok_or "tpm credential key is not RSA" (rsa_ne cred_key);
      if negb (bool_decide (trim0 pa_n = trim0 ne.1) && bool_decide (trim0 pa_e = trim0 ne.2))
      then Err "tpm pubArea key != credential key"
      else
        ci ← parse_certinfo cert_info;
        if negb (ci_magic ci =? TPM_GENERATED) then Err "tpm certInfo magic invalid"
        else if negb (ci_typ ci =? TPM_ST_ATTEST_CERTIFY) then Err "tpm certInfo type != ATTEST_CERTIFY"
        else
          extra ← hash_cose_alg alg (auth_data +:+ sha256_digest client_data_json);
          if negb (bool_decide (ci_extra_data ci = extra)) then Err "tpm certInfo.extraData mismatch"
          else
            digest ← hash_tpm_alg name_alg pub_area;
            if negb (bool_decide (ci_attested_name ci = to_be_bytes 2 name_alg +:+ digest))
            then Err "tpm certInfo attested name mismatch"
            else
              aik ← map_err (fun e => "aik cert parse: " +:+ e) (Certificate_from_der aik_der);
              _ ← check_aik_cert aik;
              ane ← aik_rsa_ne aik;
              if alg =? -257 then verify_rs256 ane.1 ane.2 cert_info sig
              else if alg =? -65535 then verify_rs1 ane.1 ane.2 cert_info sig
              else Err ("tpm alg " +:+ i64_to_string alg +:+ " not supported (RS256/RS1 only)")
  | _ => Err "tpm attStmt not a map"
  end.
End tpm.
