(* ===== verification/Mds.v ===== *)
(** * The metadata service

    [src/src/fido/mds.rs]: certificate chains up to trusted roots, the signed BLOB with
    its entries, the revocation lists, and the cache of entries by authenticator.
    What serde makes of a JSON text (the header and the payload of a BLOB) is an
    operation of an interface. *)

From S2P Require Import Prelude Prog Json Decimal Externals Es256 WebAuthn X509 Attestation.

#[local] Open Scope Z_scope.

Record MetadataStatement := mkMetadataStatement { attestation_root_certificates : list string }.
Record StatusReport := mkStatusReport { sr_status : string }.
Record Entry := mkEntry {
  en_aaguid : option string;
  en_metadata_statement : option MetadataStatement;
  en_status_reports : list StatusReport
}.
Record BlobPayload := mkBlobPayload { bp_no : Z; bp_entries : list Entry }.
Record BlobHeader := mkBlobHeader { bh_alg : string; bh_x5c : list string }.

Definition COMPROMISED : list string :=
  ["USER_VERIFICATION_BYPASS"; "ATTESTATION_KEY_COMPROMISE"; "USER_KEY_REMOTE_COMPROMISE";
   "USER_KEY_PHYSICAL_COMPROMISE"].

Class MdsCodec := {
  blob_header_from_json : string -> result string BlobHeader;
  blob_payload_from_json : string -> result string BlobPayload
}.

(** [serde_json::from_value]: an absent list is empty. *)
Definition metadata_statement_from_value (v : Value) : option MetadataStatement :=
  match get v "attestationRootCertificates" with
  | None => Some (mkMetadataStatement [])
  | Some (Array l) => mkMetadataStatement <$> mapM as_str l
  | Some _ => None
  end.

Inductive CertPubKey :=
| EcP256 (x y : string)
| EcP384 (x y : string)
| CertRsa (n e : string).

Definition OID_EC_PUBLIC_KEY : string := "1.2.840.10045.2.1".
Definition OID_P256 : string := "1.2.840.10045.3.1.7".
Definition OID_P384 : string := "1.3.132.0.34".
Definition OID_RSA : string := "1.2.840.113549.1.1.1".
Definition OID_RSA_SHA256 : string := "1.2.840.113549.1.1.11".
Definition OID_RSA_SHA384 : string := "1.2.840.113549.1.1.12".
Definition OID_RSA_SHA1 : string := "1.2.840.113549.1.1.5".
Definition OID_CRL_POINTS : string := "2.5.29.31".

Section mds.
Context `{X509, MdsCodec}.

Definition mds_b64url (s : string) : result string string :=
  map_err (fun e => "jws base64url: " +:+ e) (url_safe_no_pad_decode (trim_end_matches "="%char s)).

(** ** Keys and signatures *)

Definition cert_pubkey (cert : Certificate) : result string CertPubKey :=
  let spki := tbs_certificate cert in
  pk ← ok_or "spki not byte-aligned" (spki_public_key spki);
  let alg := spki_algorithm spki in
  if bool_decide (alg = OID_EC_PUBLIC_KEY) then
    c ← ok_or "ec spki missing curve" (spki_curve spki);
    curve ← map_err (fun e => "ec curve: " +:+ e) c;
    if bool_decide (curve = OID_P256) && (String.length pk =? 65)%nat && (byte_at 0 pk =? 4)
    then Ok (EcP256 (slice 1 33 pk) (slice 33 65 pk))
    else if bool_decide (curve = OID_P384) && (String.length pk =? 97)%nat && (byte_at 0 pk =? 4)
    then Ok (EcP384 (slice 1 49 pk) (slice 49 97 pk))
    else Err ("unsupported EC key (curve/len " +:+ usize_to_string (String.length pk) +:+ ")")
  else if bool_decide (alg = OID_RSA) then
    der ← map_err (fun e => "spki der: " +:+ e) (spki_to_der spki);
    ne ← map_err (fun e => "rsa: " +:+ e) (RsaPublicKey_from_public_key_der der);
    Ok (CertRsa ne.1 ne.2)
  else Err ("unsupported cert key alg " +:+ alg).

Definition sec1 (x y : string) : string := String (byte 4) "" +:+ x +:+ y.
Definition p256_vk (x y : string) : result string VerifyingKey :=
  map_err (fun e => "p256 key: " +:+ e) (p256_from_sec1_bytes (sec1 x y)).
Definition p384_vk (x y : string) : result string P384Key :=
  map_err (fun e => "p384 key: " +:+ e) (p384_from_sec1_bytes (sec1 x y)).

Definition cert_verify (parent : CertPubKey) (child : Certificate) (msg sig : string) : result string unit :=
  match parent with
  | EcP256 x y =>
      s ← map_err (fun e => "p256 sig: " +:+ e) (signature_from_der sig);
      vk ← p256_vk x y;
      if ecdsa_verify vk msg s then Ok tt else Err "ecdsa-p256 verify failed"
  | EcP384 x y =>
      s ← map_err (fun e => "p384 sig: " +:+ e) (p384_signature_from_der sig);
      vk ← p384_vk x y;
      if p384_verify vk msg s then Ok tt else Err "ecdsa-p384 verify failed"
  | CertRsa n e =>
      let oid := signature_algorithm child in
      if bool_decide (oid = OID_RSA_SHA256) then verify_rs256 n e msg sig
      else if bool_decide (oid = OID_RSA_SHA384) then verify_rs384 n e msg sig
      else if bool_decide (oid = OID_RSA_SHA1) then verify_rs1 n e msg sig
      else Err ("unsupported RSA cert sig alg " +:+ oid)
  end.

Definition mds_jws_verify (leaf : CertPubKey) (alg signing_input sig : string) : result string unit :=
  let refuse := Err ("JWS alg " +:+ alg +:+ " not supported or key mismatch") in
  match leaf with
  | EcP256 x y =>
      if bool_decide (alg = "ES256") then
        s ← map_err (fun e => "es256 sig: " +:+ e) (signature_from_slice sig);
        vk ← p256_vk x y;
        if ecdsa_verify vk signing_input s then Ok tt else Err "ES256 verify failed"
      else refuse
  | EcP384 x y =>
      if bool_decide (alg = "ES384") then
        s ← map_err (fun e => "es384 sig: " +:+ e) (p384_signature_from_slice sig);
        vk ← p384_vk x y;
        if p384_verify vk signing_input s then Ok tt else Err "ES384 verify failed"
      else refuse
  | CertRsa n e =>
      if bool_decide (alg = "RS256") then verify_rs256 n e signing_input sig
      else if bool_decide (alg = "RS384") then verify_rs384 n e signing_input sig
      else refuse
  end.

(** ** Chains *)

Definition cert_valid_now (cert : Certificate) : prog netE (result string unit) :=
  now ← net_now;
  let v := tbs_certificate cert in
  mret (if now <? not_before v then Err "mds chain cert not yet valid"
        else if not_after v <? now then Err "mds chain cert expired"
        else Ok tt).

Definition signed_by (child parent : Certificate) : result string unit :=
  pk ← cert_pubkey parent;
  tbs ← map_err (fun e => "tbs der: " +:+ e) (tbs_to_der (tbs_certificate child));
  sig ← ok_or "cert sig not byte-aligned" (signature_bytes child);
  cert_verify pk child tbs sig.

Fixpoint all_valid_now (chain : list Certificate) : prog netE (result string unit) :=
  match chain with
  | [] => mret (Ok tt)
  | c :: rest => _ ←? cert_valid_now c; all_valid_now rest
  end.
Fixpoint signed_links (chain : list Certificate) : result string unit :=
  match chain with
  | child :: ((parent :: _) as rest) => _ ← signed_by child parent; signed_links rest
  | _ => Ok tt
  end.
(** The search for a root: an expired one is skipped when validity counts. *)
Fixpoint anchored (check_validity : bool) (lst : Certificate) (roots : list Certificate) : prog netE bool :=
  match roots with
  | [] => mret false
  | root :: rest =>
      usable ← (if check_validity then v ← cert_valid_now root; mret (is_ok v) else mret true);
      if negb usable then anchored check_validity lst rest
      else if bool_decide (tbs_certificate lst = tbs_certificate root) || is_ok (signed_by lst root) then mret true
      else anchored check_validity lst rest
  end.

Definition validate_chain_to_roots (x5c_der roots_der : list string) (check_validity : bool) :
    prog netE (result string CertPubKey) :=
  match x5c_der with
  | [] => mret (Err "mds blob x5c empty")
  | _ =>
      chain ←? mret (mapM (fun d => map_err (fun e => "mds x5c parse: " +:+ e) (Certificate_from_der d)) x5c_der);
      roots ←? mret (mapM (fun d => map_err (fun e => "mds root parse: " +:+ e) (Certificate_from_der d)) roots_der);
      _ ←? (if check_validity then all_valid_now chain else mret (Ok tt));
      _ ←? mret (signed_links chain);
      match chain, last chain with
      | leaf :: _, Some lst =>
          ok ← anchored check_validity lst roots;
          mret (if ok : bool then cert_pubkey leaf
                else Err "mds blob chain does not anchor to a trusted MDS root")
      | _, _ => mret (Err "mds blob x5c empty")
      end
  end.

Definition validate_attestation_chain (x5c_der roots_b64 : list string) : prog netE (result string unit) :=
  match omap (fun s => result_ok (standard_decode s)) roots_b64 with
  | [] => mret (Err "metadata has no attestationRootCertificates")
  | roots => _ ←? validate_chain_to_roots x5c_der roots false; mret (Ok tt)
  end.

(** ** The BLOB *)

Definition verify_blob (blob : string) (roots_der : list string) (prev_no : Z) :
    prog netE (result string (Z * list Entry * list string)) :=
  match str_split "."%char (str_trim blob) with
  | [p0; p1; p2] =>
      h ←? mret (mds_b64url p0);
      header ←? mret (map_err (fun e => "mds header: " +:+ e) (blob_header_from_json h));
      b ←? mret (mds_b64url p1);
      payload ←? mret (map_err (fun e => "mds payload: " +:+ e) (blob_payload_from_json b));
      if bp_no payload <=? prev_no
      then mret (Err ("mds blob no " +:+ i64_to_string (bp_no payload) +:+ " <= previous " +:+ i64_to_string prev_no))
      else
        x5c_der ←? mret (mapM (fun c => map_err (fun e => "mds x5c base64: " +:+ e) (standard_decode c)) (bh_x5c header));
        leaf_key ←? validate_chain_to_roots x5c_der roots_der true;
        sig ←? mret (mds_b64url p2);
        _ ←? mret (mds_jws_verify leaf_key (bh_alg header) (p0 +:+ "." +:+ p1) sig);
        mret (Ok (bp_no payload, bp_entries payload, x5c_der))
  | _ => mret (Err "mds blob not a JWS compact")
  end.

(** ** Revocation *)

(** The first URI of the distribution points. *)
Definition name_uri (n : GeneralName) : option string :=
  match n with UniformResourceIdentifier uri => Some uri | OtherName => None end.
Definition point_uri (p : option DistributionPointName) : option string :=
  match p with Some (FullName names) => head (omap name_uri names) | _ => None end.
Fixpoint crl_url_exts (exts : list Extension) : option string :=
  match exts with
  | [] => None
  | ext :: rest =>
      if bool_decide (ext.1 = OID_CRL_POINTS) then
        cdp ← result_ok (CrlDistributionPoints_from_der ext.2);
        match head (omap point_uri cdp) with
        | Some uri => Some uri
        | None => crl_url_exts rest
        end
      else crl_url_exts rest
  end.
Definition crl_url (cert : Certificate) : option string :=
  exts ← extensions (tbs_certificate cert); crl_url_exts exts.

Definition assert_not_revoked (cert : Certificate) : prog netE (result string unit) :=
  match crl_url cert with
  | None => mret (Ok tt)
  | Some url =>
      r ← trigger (GetBytes url);
      body ←? mret (map_err (fun e => "crl fetch " +:+ url +:+ ": " +:+ e) r);
      bytes ←? mret (map_err (fun e => "crl body: " +:+ e) body);
      revoked ←? mret (map_err (fun e => "crl parse: " +:+ e) (CertificateList_from_der bytes));
      mret (match revoked with
            | Some serials =>
                if bool_decide (serial_number (tbs_certificate cert) ∈ serials)
                then Err "mds chain certificate is revoked" else Ok tt
            | None => Ok tt
            end)
  end.
Fixpoint assert_none_revoked (ders : list string) : prog netE (result string unit) :=
  match ders with
  | [] => mret (Ok tt)
  | der :: rest =>
      cert ←? mret (x5c_parse der);
      _ ←? assert_not_revoked cert;
      assert_none_revoked rest
  end.

(** ** The cache *)

Definition MdsCache : Type := gmap string Entry.

(** The new cache and the number of entries. *)
Fixpoint add_entries (cache : MdsCache) (added : nat) (entries : list Entry) : nat * MdsCache :=
  match entries with
  | [] => (added, cache)
  | e :: rest =>
      match en_aaguid e with
      | Some aaguid => add_entries (<[str_to_lowercase aaguid := e]> cache) (S added) rest
      | None => add_entries cache added rest
      end
  end.
Definition load_blob (cache : MdsCache) (blob : string) (roots_der : list string) :
    prog netE (result string (nat * MdsCache)) :=
  v ←? verify_blob blob roots_der (-1);
  let '(_, entries, x5c_der) := v : Z * list Entry * list string in
  _ ←? assert_none_revoked x5c_der;
  mret (Ok (add_entries cache 0 entries)).

Definition load_statement (cache : MdsCache) (stmt : Value) : bool * MdsCache :=
  match get_str stmt "aaguid" with
  | None => (false, cache)
  | Some aaguid =>
      let ms := default (mkMetadataStatement []) (metadata_statement_from_value stmt) in
      (true, <[str_to_lowercase aaguid := mkEntry (Some aaguid) (Some ms) []]> cache)
  end.

Definition get_statement (cache : MdsCache) (aaguid_hex_dashed : string) : result string (option MetadataStatement) :=
  match cache !! str_to_lowercase aaguid_hex_dashed with
  | None => Ok None
  | Some entry =>
      match list_find_first (fun r => bool_decide (sr_status r ∈ COMPROMISED)) (en_status_reports entry) with
      | Some r => Err ("authenticator status compromised: " +:+ sr_status r)
      | None => Ok (en_metadata_statement entry)
      end
  end.
End mds.
