(* ===== verification/TpmFacts.v ===== *)
(** * What an accepted TPM attestation means

    The readers of [Tpm] against an encoder of the TPM structures, and what ties the
    structures of an accepted statement to the credential and to the ceremony. *)

From S2P Require Import Prelude Prog Json Decimal Externals Es256 WebAuthn X509 Attestation Tpm.

#[local] Open Scope Z_scope.

(** ** Big-endian integers *)

Lemma be_value_go_app acc a b : be_value_go acc (a +:+ b) = be_value_go (be_value_go acc a) b.
Proof. revert acc. induction a as [|c a IH]; intros acc; [done|]. apply IH. Qed.
Lemma be_value_go_acc acc s : be_value_go acc s = acc * 256 ^ Z.of_nat (String.length s) + be_value s.
Proof.
  unfold be_value. revert acc. induction s as [|c s IH]; intros acc; cbn [be_value_go String.length]; [lia|].
  rewrite (IH (acc * 256 + _)), (IH (0 * 256 + _)), Nat2Z.inj_succ, Z.pow_succ_r by lia. ring.
Qed.
Lemma be_value_snoc a c : be_value (a +:+ String c "") = be_value a * 256 + Z.of_nat (nat_of_ascii c).
Proof. unfold be_value. by rewrite be_value_go_app. Qed.

Lemma to_be_bytes_length n z : String.length (to_be_bytes n z) = n.
Proof.
  revert z. induction n as [|n IH]; intros z; [done|]. cbn [to_be_bytes]. rewrite str_length_app, IH. simpl. lia.
Qed.
Lemma be_value_to_be_bytes n z : 0 <= z < 256 ^ Z.of_nat n -> be_value (to_be_bytes n z) = z.
Proof.
  revert z. induction n as [|n IH]; intros z Hz; [simpl in *; change (be_value "") with 0; lia|].
  cbn [to_be_bytes]. rewrite Nat2Z.inj_succ, Z.pow_succ_r in Hz by lia.
  pose proof (Z.mod_pos_bound z 256 ltac:(lia)). rewrite be_value_snoc, IH, nat_ascii_embedding, Z2Nat.id.
  - pose proof (Z.div_mod z 256). lia.
  - lia.
  - lia.
  - split; [apply Z.div_pos; lia | apply Z.div_lt_upper_bound; lia].
Qed.
Lemma str_snoc_inv n s : String.length s = S n -> exists t c, s = t +:+ String c "" /\ String.length t = n.
Proof.
  revert s. induction n as [|n IH]; intros [|a [|b s]] Hl; simpl in Hl; try lia.
  - by exists "", a.
  - destruct (IH (String b s)) as (t & c & -> & Ht); [simpl; lia|]. exists (String a t), c. simpl. by rewrite Ht.
Qed.
Lemma to_be_bytes_be_value n s : String.length s = n -> to_be_bytes n (be_value s) = s.
Proof.
  revert s. induction n as [|n IH]; intros s Hs; [by destruct s|].
  apply str_snoc_inv in Hs as (t & c & -> & Ht). cbn [to_be_bytes]. rewrite be_value_snoc.
  pose proof (Stdlib.Strings.Ascii.nat_ascii_bounded c) as Hc.
  rewrite Z.div_add_l, Z.div_small, Z.add_0_r by lia.
  rewrite Z.add_comm, Z.mod_add, Z.mod_small, Nat2Z.id by lia. rewrite IH by done. by rewrite ascii_nat_embedding.
Qed.

#[local] Arguments to_be_bytes : simpl never.

(** ** Readers that read exactly an encoding *)

(** What is left to read. *)
Definition suffix (r : Reader) : string := slice (rd_i r) (String.length (rd_b r)) (rd_b r).
Definition advance (n : nat) (r : Reader) : Reader := mkReader (rd_b r) (rd_i r + n).
Definition in_buffer (r : Reader) : Prop := (rd_i r <= String.length (rd_b r))%nat.

(** [p] succeeds with [a] exactly on the texts that start with an [s] such that [R s a]. *)
Definition reads_exactly {A} (p : reading A) (R : string -> A -> Prop) : Prop :=
  forall r, in_buffer r -> forall a r',
    p r = Ok (a, r') <->
    exists s post, suffix r = s +:+ post /\ R s a /\ r' = advance (String.length s) r.

Lemma suffix_length r : in_buffer r -> String.length (suffix r) = (String.length (rd_b r) - rd_i r)%nat.
Proof. unfold suffix, in_buffer. intros. apply slice_length. lia. Qed.
Lemma str_app_inj (a b c d : string) : String.length a = String.length b -> a +:+ c = b +:+ d -> a = b /\ c = d.
Proof.
  revert b. induction a as [|x a IH]; intros [|y b] Hl; simpl in Hl; try lia; [done|].
  intros [= -> Heq]. destruct (IH b) as [-> ->]; [lia | done | done].
Qed.
Lemma suffix_split n r : in_buffer r -> (rd_i r + n <= String.length (rd_b r))%nat ->
  suffix r = slice (rd_i r) (rd_i r + n) (rd_b r) +:+ suffix (advance n r).
Proof. intros Hr Hn. unfold suffix, advance. simpl. apply slice_split; unfold in_buffer in *; lia. Qed.
Lemma suffix_advance r s post : in_buffer r -> suffix r = s +:+ post ->
  in_buffer (advance (String.length s) r) /\ suffix (advance (String.length s) r) = post.
Proof.
  intros Hr Hs. pose proof (suffix_length r Hr) as Hl. rewrite Hs, str_length_app in Hl.
  unfold in_buffer in *. split; [simpl; lia|].
  pose proof (suffix_split (String.length s) r Hr ltac:(lia)) as Heq. rewrite Hs in Heq.
  apply str_app_inj in Heq as [_ Heq]; [by symmetry|]. rewrite slice_length by lia. lia.
Qed.
Lemma advance_advance a b r : advance a (advance b r) = advance (b + a) r.
Proof. unfold advance. simpl. f_equal. lia. Qed.
Lemma advance_0 r : advance 0 r = r.
Proof. destruct r. unfold advance. simpl. f_equal. lia. Qed.

Lemma reads_mono {A} (p : reading A) R S :
  (forall s a, R s a <-> S s a) -> reads_exactly p R -> reads_exactly p S.
Proof. intros Hi Hp r Hr a r'. rewrite (Hp r Hr). by setoid_rewrite Hi. Qed.
Lemma reads_ret {A} (b : A) : reads_exactly (mret b) (fun s a => s = "" /\ a = b).
Proof.
  intros r Hr a r'. unfold mret, reading_ret. split.
  - intros [= <- <-]. exists "", (suffix r). by rewrite advance_0.
  - intros (s & post & _ & [-> ->] & ->). by rewrite advance_0.
Qed.
Lemma reads_fail {A} e : reads_exactly (read_result (Err e) : reading A) (fun _ _ => False).
Proof. intros r Hr a r'. split; [done|]. by intros (? & ? & ? & ? & ?). Qed.
Lemma reads_bind {A B} (p : reading A) (f : A -> reading B) R Q :
  reads_exactly p R -> (forall a, reads_exactly (f a) (Q a)) ->
  reads_exactly (p ≫= f) (fun s b => exists s1 s2 a, s = s1 +:+ s2 /\ R s1 a /\ Q a s2 b).
Proof.
  intros Hp Hf r Hr b r'. unfold mbind, reading_bind. split.
  - destruct (p r) as [[a r1]|] eqn:Hpr; [|done]. intros Hfr.
    apply (Hp r Hr) in Hpr as (s1 & post & Hs & HR & ->). destruct (suffix_advance r s1 post Hr Hs) as [Hr1 Hs1].
    apply (Hf a _ Hr1) in Hfr as (s2 & post2 & Hs2 & HQ & ->). rewrite Hs1 in Hs2. subst post.
    exists (s1 +:+ s2), post2. rewrite str_app_assoc. split; [done|]. split; [by exists s1, s2, a|].
    by rewrite str_length_app, advance_advance.
  - intros (s & post & Hs & (s1 & s2 & a & -> & HR & HQ) & ->). rewrite str_app_assoc in Hs.
    destruct (suffix_advance r s1 _ Hr Hs) as [Hr1 Hs1].
    assert (Hpr : p r = Ok (a, advance (String.length s1) r)) by (apply (Hp r Hr); by exists s1, (s2 +:+ post)).
    rewrite Hpr. apply (Hf a _ Hr1). exists s2, post. by rewrite str_length_app, advance_advance.
Qed.
Lemma reads_if {A} (b : bool) (p q : reading A) R S :
  reads_exactly p R -> reads_exactly q S ->
  reads_exactly (if b then p else q) (fun s a => if b then R s a else S s a).
Proof. by destruct b. Qed.
Lemma reads_take n : reads_exactly (take n) (fun s a => a = s /\ String.length s = n).
Proof.
  intros r Hr a r'. unfold take. destruct (Nat.ltb_spec (String.length (rd_b r)) (rd_i r + n)) as [Hlt|Hle].
  - split; [done|]. intros (s & post & Hs & [_ Hn] & _). pose proof (suffix_length r Hr) as Hl.
    unfold in_buffer in Hr. rewrite Hs, str_length_app in Hl. lia.
  - pose proof (suffix_split n r Hr Hle) as Hsp.
    assert (Hln : String.length (slice (rd_i r) (rd_i r + n) (rd_b r)) = n) by (rewrite slice_length; lia).
    split.
    + intros [= <- <-]. exists (slice (rd_i r) (rd_i r + n) (rd_b r)), (suffix (advance n r)). by rewrite Hln.
    + intros (s & post & Hs & [-> Hn] & ->). rewrite Hs in Hsp. apply str_app_inj in Hsp as [-> _]; [|lia].
      by rewrite Hln.
Qed.

(** An unsigned integer of [n] bytes. *)
Definition uint (n : nat) (z : Z) : Prop := 0 <= z < 256 ^ Z.of_nat n.
Lemma reads_uint n : reads_exactly (s ← take n; mret (be_value s)) (fun s z => uint n z /\ s = to_be_bytes n z).
Proof.
  eapply reads_mono; [|apply reads_bind; [apply reads_take | intros a; apply reads_ret]]. intros s z. split.
  - intros (s1 & s2 & a & -> & [-> Hl] & [-> ->]). rewrite str_app_nil_r.
    split; [rewrite <- Hl; apply be_value_range | by rewrite to_be_bytes_be_value].
  - intros [Hz ->]. exists (to_be_bytes n z), "", (to_be_bytes n z).
    rewrite str_app_nil_r, to_be_bytes_length, be_value_to_be_bytes; done.
Qed.
(** A length of two bytes and as many bytes. *)
Definition tpm2b_enc (s : string) : string := to_be_bytes 2 (Z.of_nat (String.length s)) +:+ s.
Definition short (s : string) : Prop := Z.of_nat (String.length s) < 65536.
Lemma reads_tpm2b : reads_exactly tpm2b (fun s a => short a /\ s = tpm2b_enc a).
Proof.
  eapply reads_mono; [|apply reads_bind; [apply (reads_uint 2) | intros a; apply reads_take]]. intros s b.
  change (256 ^ Z.of_nat 2) with 65536. unfold uint, short, tpm2b_enc. split.
  - intros (s1 & s2 & z & -> & [Hz ->] & [-> Hl]). rewrite Hl, Z2Nat.id by lia. split; [lia | done].
  - intros [Hb ->]. exists (to_be_bytes 2 (Z.of_nat (String.length b))), b, (Z.of_nat (String.length b)).
    rewrite Nat2Z.id. change (256 ^ Z.of_nat 2) with 65536. repeat split; lia.
Qed.

(** ** The public area *)

(** TPMT_PUBLIC of an RSA key; a symmetric algorithm comes with a key size and a mode,
    a scheme with a hash. *)
Record PubArea := mkPubArea {
  pa_name_alg : Z;
  pa_attributes : Z;
  pa_policy : string;
  pa_symmetric : option (Z * Z * Z);
  pa_scheme : option (Z * Z);
  pa_key_bits : Z;
  pa_exponent : Z;
  pa_modulus : string
}.
Definition algorithm (z : Z) : Prop := uint 2 z /\ z <> TPM_ALG_NULL.
Definition symmetric_wf (o : option (Z * Z * Z)) : Prop :=
  match o with None => True | Some (alg, bits, mode) => algorithm alg /\ uint 2 bits /\ uint 2 mode end.
Definition scheme_wf (o : option (Z * Z)) : Prop :=
  match o with None => True | Some (alg, hash) => algorithm alg /\ uint 2 hash end.
Definition pubarea_wf (p : PubArea) : Prop :=
  uint 2 (pa_name_alg p) /\ uint 4 (pa_attributes p) /\ short (pa_policy p) /\ symmetric_wf (pa_symmetric p) /\
  scheme_wf (pa_scheme p) /\ uint 2 (pa_key_bits p) /\ uint 4 (pa_exponent p) /\ short (pa_modulus p).
Definition symmetric_enc (o : option (Z * Z * Z)) : string :=
  match o with
  | None => to_be_bytes 2 TPM_ALG_NULL
  | Some (alg, bits, mode) => to_be_bytes 2 alg +:+ to_be_bytes 2 bits +:+ to_be_bytes 2 mode
  end.
Definition scheme_enc (o : option (Z * Z)) : string :=
  match o with
  | None => to_be_bytes 2 TPM_ALG_NULL
  | Some (alg, hash) => to_be_bytes 2 alg +:+ to_be_bytes 2 hash
  end.
Definition pubarea_enc (p : PubArea) : string :=
  to_be_bytes 2 TPM_ALG_RSA +:+ to_be_bytes 2 (pa_name_alg p) +:+ to_be_bytes 4 (pa_attributes p) +:+
  tpm2b_enc (pa_policy p) +:+ symmetric_enc (pa_symmetric p) +:+ scheme_enc (pa_scheme p) +:+
  to_be_bytes 2 (pa_key_bits p) +:+ to_be_bytes 4 (pa_exponent p) +:+ tpm2b_enc (pa_modulus p).
(** An exponent of zero stands for 65537. *)
Definition exponent_bytes (z : Z) : string := if z =? 0 then to_be_bytes 3 65537 else to_be_bytes 4 z.

(** The parameters after an algorithm; the output is not kept. *)
Definition sym_details (alg : Z) (s : string) : Prop :=
  if alg =? TPM_ALG_NULL then s = "" else exists b m, uint 2 b /\ uint 2 m /\ s = to_be_bytes 2 b +:+ to_be_bytes 2 m.
Definition scheme_details (alg : Z) (s : string) : Prop :=
  if alg =? TPM_ALG_NULL then s = "" else exists h, uint 2 h /\ s = to_be_bytes 2 h.

Lemma reads_nothing : reads_exactly (mret tt) (fun s _ => s = "").
Proof. eapply reads_mono; [|apply reads_ret]. intros s []. split; [by intros [-> _] | by intros ->]. Qed.
Lemma reads_sym_details alg :
  reads_exactly (if negb (alg =? TPM_ALG_NULL) then _ ← read_u16; _ ← read_u16; mret tt else mret tt)
    (fun s _ => sym_details alg s).
Proof.
  unfold sym_details. destruct (alg =? TPM_ALG_NULL); cbn [negb]; [apply reads_nothing|].
  eapply reads_mono; [|apply reads_bind; [apply (reads_uint 2) | intros b; apply reads_bind; [apply (reads_uint 2) | intros m; apply reads_nothing]]].
  intros s []. split.
  - intros (s1 & s2 & b & -> & [Hb ->] & (s3 & s4 & m & -> & [Hm ->] & ->)). exists b, m. by rewrite str_app_nil_r.
  - intros (b & m & Hb & Hm & ->). exists (to_be_bytes 2 b), (to_be_bytes 2 m), b. do 2 (split; [done|]).
    exists (to_be_bytes 2 m), "", m. by rewrite str_app_nil_r.
Qed.
Lemma reads_scheme_details alg :
  reads_exactly (if negb (alg =? TPM_ALG_NULL) then _ ← read_u16; mret tt else mret tt)
    (fun s _ => scheme_details alg s).
Proof.
  unfold scheme_details. destruct (alg =? TPM_ALG_NULL); cbn [negb]; [apply reads_nothing|].
  eapply reads_mono; [|apply reads_bind; [apply (reads_uint 2) | intros b; apply reads_nothing]].
  intros s []. split.
  - intros (s1 & s2 & b & -> & [Hb ->] & ->). exists b. by rewrite str_app_nil_r.
  - intros (b & Hb & ->). exists (to_be_bytes 2 b), "", b. by rewrite str_app_nil_r.
Qed.

Lemma null_uint : uint 2 TPM_ALG_NULL.
Proof. unfold uint, TPM_ALG_NULL. simpl. lia. Qed.
Lemma symmetric_parts s :
  (exists alg d, uint 2 alg /\ sym_details alg d /\ s = to_be_bytes 2 alg +:+ d) <->
  exists o, symmetric_wf o /\ s = symmetric_enc o.
Proof.
  split.
  - intros (alg & d & Ha & Hd & ->). unfold sym_details in Hd. destruct (Z.eqb_spec alg TPM_ALG_NULL) as [->|Hn].
    + exists None. subst d. by rewrite str_app_nil_r.
    + destruct Hd as (b & m & Hb & Hm & ->). by exists (Some (alg, b, m)).
  - intros ([[[alg b] m]|] & Hw & ->).
    + destruct Hw as ([Ha Hn] & Hb & Hm). exists alg, (to_be_bytes 2 b +:+ to_be_bytes 2 m). unfold sym_details.
      rewrite (proj2 (Z.eqb_neq _ _) Hn). eauto 8.
    + exists TPM_ALG_NULL, "". split; [apply null_uint|]. by rewrite str_app_nil_r.
Qed.
Lemma scheme_parts s :
  (exists alg d, uint 2 alg /\ scheme_details alg d /\ s = to_be_bytes 2 alg +:+ d) <->
  exists o, scheme_wf o /\ s = scheme_enc o.
Proof.
  split.
  - intros (alg & d & Ha & Hd & ->). unfold scheme_details in Hd. destruct (Z.eqb_spec alg TPM_ALG_NULL) as [->|Hn].
    + exists None. subst d. by rewrite str_app_nil_r.
    + destruct Hd as (h & Hh & ->). by exists (Some (alg, h)).
  - intros ([[alg h]|] & Hw & ->).
    + destruct Hw as ([Ha Hn] & Hh). exists alg, (to_be_bytes 2 h). unfold scheme_details.
      rewrite (proj2 (Z.eqb_neq _ _) Hn). eauto 8.
    + exists TPM_ALG_NULL, "". split; [apply null_uint|]. by rewrite str_app_nil_r.
Qed.

(** The chain of readers, one piece of the text each. *)
Ltac read_pieces :=
  repeat first
    [ apply reads_ret
    | apply reads_bind; [first [apply (reads_uint 2) | apply (reads_uint 4) | apply reads_tpm2b | apply reads_take
                               | apply reads_sym_details | apply reads_scheme_details] | intros ?] ].

Lemma reads_pubarea :
  reads_exactly read_pubarea_rsa (fun s out =>
    exists p, pubarea_wf p /\ s = pubarea_enc p /\ out = (pa_modulus p, exponent_bytes (pa_exponent p), pa_name_alg p)).
Proof.
  unfold read_pubarea_rsa. eapply reads_mono; [|apply reads_bind; [apply (reads_uint 2)|intros typ; apply reads_if; [apply reads_fail | read_pieces]]].
  intros s out. split.
  - intros (s1 & s2 & typ & -> & [_ ->] & Hr). destruct (typ =? TPM_ALG_RSA) eqn:Ht; [|done]. cbn [negb] in Hr. apply Z.eqb_eq in Ht. rewrite Ht. clear Ht.
    destruct Hr as (? & ? & na & -> & [Hna ->] & ? & ? & at_ & -> & [Hat ->] & ? & ? & po & -> & [Hpo ->] & ? & ? & sy &
      -> & [Hsy ->] & sd & ? & ? & -> & Hsd & ? & ? & sc & -> & [Hsc ->] & cd & ? & ? & -> & Hcd & ? & ? & kb & -> &
      [Hkb ->] & ? & ? & ex & -> & [Hex ->] & ? & ? & mo & -> & [Hmo ->] & -> & ->).
    destruct (proj1 (symmetric_parts (to_be_bytes 2 sy +:+ sd))) as (sym & Hsym & Hsyme); [by exists sy, sd|].
    destruct (proj1 (scheme_parts (to_be_bytes 2 sc +:+ cd))) as (sch & Hsch & Hsche); [by exists sc, cd|].
    exists (mkPubArea na at_ po sym sch kb ex mo). split; [done|]. split; [|done].
    unfold pubarea_enc. simpl. rewrite <- Hsyme, <- Hsche, str_app_nil_r. by rewrite !str_app_assoc.
  - intros ([na at_ po sym sch kb ex mo] & (Hna & Hat & Hpo & Hsym & Hsch & Hkb & Hex & Hmo) & -> & ->).
    simpl in *. destruct (proj2 (symmetric_parts (symmetric_enc sym))) as (sy & sd & Hsy & Hsd & Hsyme); [by exists sym|].
    destruct (proj2 (scheme_parts (scheme_enc sch))) as (sc & cd & Hsc & Hcd & Hsche); [by exists sch|].
    eexists _, _, TPM_ALG_RSA. split; [reflexivity|]. split; [by split; [unfold uint, TPM_ALG_RSA; simpl; lia|]|].
    rewrite Z.eqb_refl. cbn [negb]. unfold pubarea_enc. simpl.
    eexists _, _, na. split; [reflexivity|]. split; [done|]. eexists _, _, at_. split; [reflexivity|]. split; [done|].
    eexists _, _, po. split; [reflexivity|]. split; [done|]. rewrite Hsyme, Hsche, !str_app_assoc.
    eexists _, _, sy. split; [reflexivity|]. split; [done|]. eexists sd, _, tt. split; [reflexivity|]. split; [done|].
    eexists _, _, sc. split; [reflexivity|]. split; [done|]. eexists cd, _, tt. split; [reflexivity|]. split; [done|].
    eexists _, _, kb. split; [reflexivity|]. split; [done|]. eexists _, _, ex. split; [reflexivity|]. split; [done|].
    eexists _, "", mo. by rewrite str_app_nil_r.
Qed.

(** ** The attestation structure *)

(** TPMS_ATTEST with certify information. *)
Record CertifyInfo := mkCertifyInfo {
  ct_info : CertInfo;
  ct_signer : string;
  ct_clock : string;
  ct_firmware : string;
  ct_qualified_name : string
}.
Definition certify_wf (c : CertifyInfo) : Prop :=
  uint 4 (ci_magic (ct_info c)) /\ uint 2 (ci_typ (ct_info c)) /\ short (ct_signer c) /\ short (ci_extra_data (ct_info c)) /\
  String.length (ct_clock c) = 17%nat /\ String.length (ct_firmware c) = 8%nat /\
  short (ci_attested_name (ct_info c)) /\ short (ct_qualified_name c).
Definition certify_enc (c : CertifyInfo) : string :=
  to_be_bytes 4 (ci_magic (ct_info c)) +:+ to_be_bytes 2 (ci_typ (ct_info c)) +:+ tpm2b_enc (ct_signer c) +:+
  tpm2b_enc (ci_extra_data (ct_info c)) +:+ ct_clock c +:+ ct_firmware c +:+
  tpm2b_enc (ci_attested_name (ct_info c)) +:+ tpm2b_enc (ct_qualified_name c).

Lemma reads_certinfo :
  reads_exactly read_certinfo (fun s out => exists c, certify_wf c /\ s = certify_enc c /\ out = ct_info c).
Proof.
  unfold read_certinfo. eapply reads_mono; [|read_pieces]. intros s out. split.
  - intros (? & ? & ma & -> & [Hma ->] & ? & ? & ty & -> & [Hty ->] & ? & ? & si & -> & [Hsi ->] & ? & ? & ed & -> &
      [Hed ->] & cl & ? & ? & -> & [-> Hcl] & fw & ? & ? & -> & [-> Hfw] & ? & ? & an & -> & [Han ->] & ? & ? & qn & -> &
      [Hqn ->] & -> & ->).
    exists (mkCertifyInfo (mkCertInfo ma ty ed an) si cl fw qn). by rewrite str_app_nil_r.
  - intros ([[ma ty ed an] si cl fw qn] & (Hma & Hty & Hsi & Hed & Hcl & Hfw & Han & Hqn) & -> & ->).
    unfold certify_enc. simpl in *.
    eexists _, _, ma. split; [reflexivity|]. split; [done|]. eexists _, _, ty. split; [reflexivity|]. split; [done|].
    eexists _, _, si. split; [reflexivity|]. split; [done|]. eexists _, _, ed. split; [reflexivity|]. split; [done|].
    eexists cl, _, cl. split; [reflexivity|]. split; [done|]. eexists fw, _, fw. split; [reflexivity|]. split; [done|].
    eexists _, _, an. split; [reflexivity|]. split; [done|]. eexists _, "", qn. by rewrite str_app_nil_r.
Qed.

(** From a reader to its parser. *)
Lemma parse_exact {A} (p : reading A) R b a :
  reads_exactly p R -> fst <$> p (Reader_new b) = Ok a <-> exists s post, b = s +:+ post /\ R s a.
Proof.
  intros Hp. assert (Hin : in_buffer (Reader_new b)) by (unfold in_buffer; simpl; lia).
  assert (Hsuf : suffix (Reader_new b) = b) by apply slice_all. split.
  - destruct (p (Reader_new b)) as [[a' r']|] eqn:Hr; [|done]. intros [= ->].
    apply (Hp _ Hin) in Hr as (s & post & Hs & HR & _). rewrite Hsuf in Hs. eauto.
  - intros (s & post & Hb & HR).
    rewrite (proj2 (Hp _ Hin a (advance (String.length s) (Reader_new b)))); [done|]. exists s, post. by rewrite Hsuf.
Qed.

(** The TPM readers accept exactly the encodings of the two structures, whatever
    follows them, and return their fields: every length field, chosen by the
    authenticator, is honoured and never read past the end, the optional parameters
    after an algorithm are read exactly when the algorithm is not the null one, and an
    exponent of zero stands for 65537. *)
Theorem tpm_structures_exact b :
  (forall n e alg, parse_pubarea_rsa b = Ok (n, e, alg) <->
     exists p rest, pubarea_wf p /\ b = pubarea_enc p +:+ rest /\ n = pa_modulus p /\
       e = exponent_bytes (pa_exponent p) /\ alg = pa_name_alg p) /\
  (forall ci, parse_certinfo b = Ok ci <->
     exists c rest, certify_wf c /\ b = certify_enc c +:+ rest /\ ci = ct_info c).
Proof.
  split; [intros n e alg | intros ci].
  - unfold parse_pubarea_rsa. rewrite (parse_exact _ _ _ _ reads_pubarea). split.
    + intros (s & post & -> & p & Hw & -> & [= -> -> ->]). by exists p, post.
    + intros (p & post & Hw & -> & -> & -> & ->). exists (pubarea_enc p), post. split; [done|]. by exists p.
  - unfold parse_certinfo. rewrite (parse_exact _ _ _ _ reads_certinfo). split.
    + intros (s & post & -> & c & Hw & -> & ->). by exists c, post.
    + intros (c & post & Hw & -> & ->). exists (certify_enc c), post. split; [done|]. by exists c.
Qed.

(** ** Accepted statements *)

(** The same number: equal but for leading zeros. *)
Lemma trim0_value b : be_value (trim0 b) = be_value b.
Proof.
  induction b as [|a b IH]; [done|]. cbn [trim0]. case_bool_decide as Ha; [|done]. rewrite IH. by subst a.
Qed.

Section tpm_facts.
Context `{X509}.

(** A certificate whose purposes include the one of an attestation key and that is no
    authority. *)
Definition aik_certificate (cert : Certificate) : Prop :=
  exists exts, extensions (tbs_certificate cert) = Some exts /\
    (exists v purposes, (OID_EKU, v) ∈ exts /\ ExtendedKeyUsage_from_der v = Ok purposes /\ OID_TCG_AIK ∈ purposes) /\
    (forall v, (OID_BASIC_CONSTRAINTS, v) ∈ exts -> BasicConstraints_from_der v = Ok false).

Lemma check_aik_exts_Ok ok exts :
  check_aik_exts ok exts = Ok true ->
  (ok = true \/ exists v purposes, (OID_EKU, v) ∈ exts /\ ExtendedKeyUsage_from_der v = Ok purposes /\ OID_TCG_AIK ∈ purposes) /\
  (forall v, (OID_BASIC_CONSTRAINTS, v) ∈ exts -> BasicConstraints_from_der v = Ok false).
Proof.
  revert ok. induction exts as [|[oid v] exts IH]; intros ok; cbn [check_aik_exts fst snd].
  { intros [= ->]. split; [by left|]. by intros v ?%elem_of_nil. }
  case_bool_decide as Heku.
  - rewrite bind_Ok. intros (eku & He & Hr). apply map_err_Ok in He. apply IH in Hr as [Hok Hbc]. split.
    + destruct Hok as [Hok|(v' & ps & Hin & ?)]; [|right; exists v', ps; by rewrite elem_of_cons; auto].
      apply orb_true_iff in Hok as [->|Hd]; [by left|]. apply bool_decide_eq_true in Hd. right.
      exists v, eku. subst oid. split; [left | done].
    + intros v' [[= Ho ->]|Hin]%elem_of_cons; [by rewrite Heku in Ho | by apply Hbc].
  - case_bool_decide as Hb.
    + rewrite bind_Ok. intros (ca & Hc & Hr). apply map_err_Ok in Hc. destruct ca; [done|]. apply IH in Hr as [Hok Hbc].
      split; [destruct Hok as [?|(v' & ps & Hin & ?)]; [by left | right; exists v', ps; by rewrite elem_of_cons; auto]|].
      intros v' [[= Ho ->]|Hin]%elem_of_cons; [done | by apply Hbc].
    + intros Hr. apply IH in Hr as [Hok Hbc].
      split; [destruct Hok as [?|(v' & ps & Hin & ?)]; [by left | right; exists v', ps; by rewrite elem_of_cons; auto]|].
      intros v' [[= Ho ->]|Hin]%elem_of_cons; [by destruct Hb | by apply Hbc].
Qed.
Lemma check_aik_cert_Ok cert : check_aik_cert cert = Ok tt -> aik_certificate cert.
Proof.
  unfold check_aik_cert. rewrite bind_Ok. intros (exts & He & Hr). apply ok_or_Ok in He.
  rewrite bind_Ok in Hr. destruct Hr as ([] & Hc & Hr); [|done]. apply check_aik_exts_Ok in Hc as [[?|Hp] Hbc]; [done|].
  by exists exts.
Qed.

(** The verification under an RSA key by a COSE algorithm, and its hash. *)
Definition rsa_verified (alg : Z) (n e message sig : string) : Prop :=
  (alg = -257 /\ verify_rs256 n e message sig = Ok tt) \/ (alg = -65535 /\ verify_rs1 n e message sig = Ok tt).
Definition bytes_member (m : list (Cbor * Cbor)) (k b : string) : Prop := cbor_text_get m k = Some (CborBytes b).
Lemma bytes_member_Ok m k (e : string) b :
  ok_or e (match cbor_text_get m k with Some (CborBytes b) => Some b | _ => None end) = Ok b -> bytes_member m k b.
Proof. unfold bytes_member. destruct (cbor_text_get m k) as [[]|]; simpl; congruence. Qed.

(** The members of a statement. *)
Record TpmStatement (m : list (Cbor * Cbor)) (alg : Z) (sig cert_info pub_area aik_der : string) : Prop := {
  ts_ver : cbor_text_get m "ver" = Some (CborText "2.0");
  ts_alg : exists i, cbor_text_get m "alg" = Some (CborInteger i) /\ alg = as_i32 i;
  ts_sig : bytes_member m "sig" sig;
  ts_cert_info : bytes_member m "certInfo" cert_info;
  ts_pub_area : bytes_member m "pubArea" pub_area;
  ts_x5c : exists ders, cbor_text_get m "x5c" = Some (CborArray (CborBytes aik_der :: ders))
}.

(** What ties a TPM statement to a credential and a ceremony. *)
Definition tpm_bound (m : list (Cbor * Cbor)) (auth_data client_data : string) (key : CredKey) : Prop :=
  exists alg sig cert_info pub_area aik_der p rest c rest' n e cert an ae digest,
    TpmStatement m alg sig cert_info pub_area aik_der /\
    pub_area = pubarea_enc p +:+ rest /\ pubarea_wf p /\ rsa_ne key = Some (n, e) /\
    be_value (pa_modulus p) = be_value n /\ be_value (exponent_bytes (pa_exponent p)) = be_value e /\
    cert_info = certify_enc c +:+ rest' /\ certify_wf c /\
    ci_magic (ct_info c) = TPM_GENERATED /\ ci_typ (ct_info c) = TPM_ST_ATTEST_CERTIFY /\
    hash_cose_alg alg (auth_data +:+ sha256_digest client_data) = Ok (ci_extra_data (ct_info c)) /\
    hash_tpm_alg (pa_name_alg p) pub_area = Ok digest /\
    ci_attested_name (ct_info c) = to_be_bytes 2 (pa_name_alg p) +:+ digest /\
    Certificate_from_der aik_der = Ok cert /\ aik_certificate cert /\ aik_rsa_ne cert = Ok (an, ae) /\
    rsa_verified alg an ae cert_info sig.

(** C25: a TPM statement is accepted only when its public area encodes an RSA key equal,
    as numbers, to the credential's, its attestation structure was generated by a TPM to
    certify exactly this public area (by the hash of its name) for exactly these
    authenticator and client data (by the hash in the extra data), and the structure is
    signed under the key of a certificate for attestation keys that is no authority. *)
Theorem tpm_attestation_sound m auth_data client_data key :
  verify_tpm (CborMap m) auth_data client_data key = Ok tt -> tpm_bound m auth_data client_data key.
Proof.
  unfold verify_tpm. intros Hr.
  rewrite bind_Ok in Hr. destruct Hr as ([] & Hver & Hr). rewrite bind_Ok in Hr. destruct Hr as (alg & Halg & Hr).
  rewrite bind_Ok in Hr. destruct Hr as (sig & Hsig & Hr). apply bytes_member_Ok in Hsig.
  rewrite bind_Ok in Hr. destruct Hr as (cert_info & Hcert & Hr). apply bytes_member_Ok in Hcert.
  rewrite bind_Ok in Hr. destruct Hr as (pub_area & Hpub & Hr). apply bytes_member_Ok in Hpub.
  rewrite bind_Ok in Hr. destruct Hr as (aik_der & Hx5c & Hr).
  rewrite bind_Ok in Hr. destruct Hr as ([[pn pe] na] & Hpa & Hr).
  rewrite bind_Ok in Hr. destruct Hr as ([n e] & Hne & Hr). apply ok_or_Ok in Hne.
  destruct (_ && _) eqn:Hkey in Hr; cbn [negb] in Hr; [|done].
  apply andb_true_iff in Hkey as [Hn He]. apply bool_decide_eq_true, (f_equal be_value) in Hn, He.
  rewrite !trim0_value in Hn, He. cbn [fst snd] in Hn, He.
  rewrite bind_Ok in Hr. destruct Hr as (ci & Hci & Hr).
  destruct (ci_magic ci =? TPM_GENERATED) eqn:Hma; cbn [negb] in Hr; [|done]. apply Z.eqb_eq in Hma.
  destruct (ci_typ ci =? TPM_ST_ATTEST_CERTIFY) eqn:Hty; cbn [negb] in Hr; [|done]. apply Z.eqb_eq in Hty.
  rewrite bind_Ok in Hr. destruct Hr as (extra & Hex & Hr). case_bool_decide as Hed; cbn [negb] in Hr; [|done].
  rewrite bind_Ok in Hr. destruct Hr as (digest & Hdi & Hr). case_bool_decide as Han; cbn [negb] in Hr; [|done].
  rewrite bind_Ok in Hr. destruct Hr as (aik & Haik & Hr). apply map_err_Ok in Haik.
  rewrite bind_Ok in Hr. destruct Hr as ([] & Hcheck & Hr). rewrite bind_Ok in Hr. destruct Hr as ([an ae] & Hane & Hr).
  apply (parse_exact _ _ _ _ reads_pubarea) in Hpa as (s & rest & Hs & p & Hp & -> & [= -> -> ->]).
  apply (parse_exact _ _ _ _ reads_certinfo) in Hci as (s' & rest' & Hs' & c & Hc & -> & ->).
  exists alg, sig, cert_info, pub_area, aik_der, p, rest, c, rest', n, e, aik, an, ae, digest.
  split.
  { split; [..| by destruct (cbor_text_get m "x5c") as [[| | |[|[]]| |]|]; try done; injection Hx5c as ->; eauto]; try done.
    - destruct (cbor_text_get m "ver") as [[]|]; try done. by case_bool_decide; subst.
    - destruct (cbor_text_get m "alg") as [[]|]; try done. injection Halg as <-. eauto. }
  do 9 (split; [done|]). rewrite Hed. do 4 (split; [done|]). split; [by apply check_aik_cert_Ok|]. split; [done|].
  cbn [fst snd] in Hr. unfold rsa_verified.
  destruct (Z.eqb_spec alg (-257)); [by left|]. destruct (Z.eqb_spec alg (-65535)); [by right | done].
Qed.
End tpm_facts.
