(* ===== verification/MdsFacts.v ===== *)
(** * Which certificates and metadata are trusted

    The chain validation of [Mds] against an inductive definition of trust, and what
    an entry of the cache rests on. *)

From S2P Require Import Prelude Prog Json Decimal Externals Es256 WebAuthn X509 Attestation Mds.

#[local] Open Scope Z_scope.

Lemma mapM_Ok {E A B} (f : A -> result E B) l k : mapM f l = Ok k <-> Forall2 (fun x y => f x = Ok y) l k.
Proof.
  revert k. induction l as [|x l IH]; intros k; simpl.
  - split; [intros [= <-]; constructor | intros Hf; by inversion Hf].
  - destruct (f x) as [y|e] eqn:Hx; simpl.
    + destruct (mapM f l) as [ys|e]; simpl.
      * split; [intros [= <-]; constructor; [done | by apply IH]|]. intros Hf. inversion Hf as [|? y' ? l' Hy Hl]; subst.
        apply IH in Hl as [= ->]. rewrite Hx in Hy. by injection Hy as ->.
      * split; [done|]. intros Hf. inversion Hf as [|? ? ? l' ? Hl]; subst. by apply IH in Hl.
    + split; [done|]. intros Hf. inversion Hf; congruence.
Qed.

Section mds_facts.
Context `{X509, MdsCodec}.

(** ** Trust *)

(** A chain up to a root: its last certificate is the root's, or signed under its key. *)
Inductive trusted (roots : list Certificate) : list Certificate -> Prop :=
| trusted_root c r : r ∈ roots -> tbs_certificate c = tbs_certificate r \/ signed_by c r = Ok tt -> trusted roots [c]
| trusted_link c p rest : signed_by c p = Ok tt -> trusted roots (p :: rest) -> trusted roots (c :: p :: rest).

Lemma signed_links_cons c p rest : signed_links (c :: p :: rest) = (_ ← signed_by c p; signed_links (p :: rest)).
Proof. done. Qed.
Lemma trusted_split roots chain :
  trusted roots chain <->
  exists lst r, last chain = Some lst /\ r ∈ roots /\
    (tbs_certificate lst = tbs_certificate r \/ signed_by lst r = Ok tt) /\ signed_links chain = Ok tt.
Proof.
  split.
  - induction 1 as [c r Hr Hs | c p rest Hs Ht (lst & r & Hl & Hr & Ha & Hk)]; [by exists c, r|].
    exists lst, r. rewrite signed_links_cons, Hs. by rewrite last_cons_cons.
  - intros (lst & r & Hl & Hr & Ha & Hk). revert Hl Hk.
    induction chain as [|c [|p rest] IH]; [done | intros [= ->] _; by eapply trusted_root |].
    rewrite last_cons_cons, signed_links_cons. intros Hl. rewrite bind_Ok. intros ([] & Hs & Hk).
    apply trusted_link; [done | by apply IH].
Qed.

Definition parses (ders : list string) (certs : list Certificate) : Prop :=
  Forall2 (fun d c => Certificate_from_der d = Ok c) ders certs.
Lemma parses_Ok msg ders certs :
  mapM (fun d => map_err (fun e : string => msg +:+ e) (Certificate_from_der d)) ders = Ok certs <-> parses ders certs.
Proof.
  rewrite mapM_Ok. unfold parses. split; intros Hf; eapply Forall2_impl; try exact Hf; intros d c; by rewrite map_err_Ok.
Qed.

Lemma is_ok_unit {E} (r : result E unit) : is_ok r = true <-> r = Ok tt.
Proof. destruct r as [[]|]; simpl; split; congruence. Qed.
(** Without validity, the search for a root has no effect. *)
Lemma anchored_pure lst roots :
  exists b, anchored false lst roots = Ret b /\
    (b = true <-> exists r, r ∈ roots /\ (tbs_certificate lst = tbs_certificate r \/ signed_by lst r = Ok tt)).
Proof.
  induction roots as [|r roots (b & IH & Hb)]; simpl.
  { exists false. split; [done|]. split; [done|]. by intros (r & ?%elem_of_nil & _). }
  destruct (bool_decide (tbs_certificate lst = tbs_certificate r) || is_ok (signed_by lst r)) eqn:Ho.
  - exists true. split; [done|]. split; [|done]. intros _. exists r. split; [left|].
    apply orb_true_iff in Ho as [Ho|Ho]; [left; by apply bool_decide_eq_true in Ho | right; by apply is_ok_unit].
  - exists b. split; [done|]. rewrite Hb. apply orb_false_iff in Ho as [Ho1 Ho2]. apply bool_decide_eq_false in Ho1. split.
    + intros (r' & Hr & Hs). exists r'. split; [by right | done].
    + intros (r' & [->|Hr]%elem_of_cons & Hs); [|by exists r']. exfalso. destruct Hs as [?|Hs]; [done|].
      by rewrite Hs in Ho2.
Qed.

(** C27: the x5c of an attestation is accepted against the roots of its metadata exactly
    when all certificates parse, each is signed under the key of the next, the last one
    is a root or signed under the key of one, and the leaf has a usable key; the answer
    depends on nothing else, in particular not on the clock. *)
Theorem attestation_chain_exact x5c roots_b64 :
  exists r, validate_attestation_chain x5c roots_b64 = Ret r /\
    (r = Ok tt <-> exists chain roots, parses x5c chain /\
       parses (omap (fun s => result_ok (standard_decode s)) roots_b64) roots /\ trusted roots chain /\
       exists leaf key, head chain = Some leaf /\ cert_pubkey leaf = Ok key).
Proof.
  unfold validate_attestation_chain.
  destruct (omap (fun s => result_ok (standard_decode s)) roots_b64) as [|d ds] eqn:Hd.
  { eexists. split; [done|]. split; [done|]. intros (chain & roots & _ & Hp & Ht & _). inversion Hp; subst.
    apply trusted_split in Ht as (? & ? & _ & ?%elem_of_nil & _). done. }
  clear Hd. unfold validate_chain_to_roots. destruct x5c as [|x xs].
  { eexists. split; [done|]. split; [done|]. intros (chain & roots & Hp & _ & Ht & _). inversion Hp; subst. by inversion Ht. }
  pose proof (parses_Ok "mds x5c parse: " (x :: xs)) as Hx. pose proof (parses_Ok "mds root parse: " (d :: ds)) as Hr.
  destruct (mapM _ (x :: xs)) as [chain|e]; rewrite ?try_ok, ?try_err.
  2:{ eexists. split; [done|]. split; [done|]. intros (chain & roots & Hp & _). by apply Hx in Hp. }
  destruct (mapM _ (d :: ds)) as [roots|e]; rewrite ?try_ok, ?try_err.
  2:{ eexists. split; [done|]. split; [done|]. intros (chain' & roots & _ & Hp & _). by apply Hr in Hp. }
  assert (Hiff : forall P : list Certificate -> list Certificate -> Prop,
    (exists chain roots, parses (x :: xs) chain /\ parses (d :: ds) roots /\ P chain roots) <-> P chain roots).
  { intros P. split; [|intros Hp; exists chain, roots; by rewrite <- Hx, <- Hr].
    intros (c' & r' & Hc & Hr' & Hp). apply Hx in Hc as [= ->]. by apply Hr in Hr' as [= ->]. }
  destruct chain as [|leaf rest]; [pose proof (proj1 (Hx []) eq_refl) as Hf; inversion Hf|].
  specialize (Hiff (fun chain roots => trusted roots chain /\ exists leaf key, head chain = Some leaf /\ cert_pubkey leaf = Ok key)).
  cbn beta in Hiff. destruct (last (leaf :: rest)) as [lst|] eqn:Hl; [|by apply last_None in Hl].
  destruct (anchored_pure lst roots) as (b & -> & Hb).
  destruct (signed_links (leaf :: rest)) as [[]|e] eqn:Hk; rewrite ?try_ok, ?try_err.
  2:{ eexists. split; [done|]. split; [done|]. rewrite Hiff. intros [Ht _].
      apply trusted_split in Ht as (? & ? & _ & _ & _ & ?). congruence. }
  cbn [mbind prog_bind prog_bind_go].
  destruct b.
  - assert (Ht : trusted roots (leaf :: rest)).
    { apply trusted_split. destruct (proj1 Hb eq_refl) as (r & ? & ?). by exists lst, r. }
    destruct (cert_pubkey leaf) as [key|e] eqn:Hc; rewrite ?try_ok, ?try_err; (eexists; split; [done|]; rewrite Hiff).
    + split; [intros _; split; [done | by exists leaf, key] | done].
    + split; [done|]. intros (_ & l & k & [= <-] & ?). congruence.
  - rewrite try_err. eexists. split; [done|]. split; [done|]. rewrite Hiff. intros [Ht _].
    apply trusted_split in Ht as (? & r & ? & ? & ? & _). simplify_eq. destruct Hb as [_ Hb].
    discriminate Hb. by exists r.
Qed.

(** ** What the metadata rest on *)

(** The clock, read during the check, was within the validity of a certificate. *)
Definition valid_in (tr : list (event netE)) (c : Certificate) : Prop :=
  exists i t, Ev i NetNow t ∈ tr /\ not_before (tbs_certificate c) <= t <= not_after (tbs_certificate c).
(** The list its distribution point names, fetched during the check, lacks its number. *)
Definition not_revoked_in (tr : list (event netE)) (c : Certificate) : Prop :=
  forall url, crl_url c = Some url ->
    exists i bytes revoked, Ev i (GetBytes url) (Ok (Ok bytes)) ∈ tr /\ CertificateList_from_der bytes = Ok revoked /\
      (forall serials, revoked = Some serials -> serial_number (tbs_certificate c) ∉ serials).

Lemma valid_in_mono tr tr' c : tr ⊆ tr' -> valid_in tr c -> valid_in tr' c.
Proof. intros Hs (i & t & Hin & ?). exists i, t. split; [by apply Hs | done]. Qed.
Lemma not_revoked_mono tr tr' c : tr ⊆ tr' -> not_revoked_in tr c -> not_revoked_in tr' c.
Proof. intros Hs Hr url Hu. destruct (Hr url Hu) as (i & b & l & Hin & ?). exists i, b, l. split; [by apply Hs | done]. Qed.

(** A condition on accepted results that more events keep. *)
Definition ensures {A} (P : list (event netE) -> A -> Prop) (p : prog netE (result string A)) : Prop :=
  always (fun tr r => match r with Ok a => P tr a | Err _ => True end) p.
Definition monotone {A} (P : list (event netE) -> A -> Prop) : Prop := forall tr tr' a, tr ⊆ tr' -> P tr a -> P tr' a.
Lemma ensures_ret {A} P (r : result string A) : (forall a, r = Ok a -> P [] a) -> ensures P (mret r).
Proof. intros Hp. apply always_ret. destruct r; auto. Qed.
Lemma ensures_check {A B} P (r : result string A) (f : A -> prog netE (result string B)) :
  (forall a, r = Ok a -> ensures P (f a)) -> ensures P (try_bind (mret r) f).
Proof. intros Hf. by apply always_check. Qed.
Lemma ensures_try {A B} Q P (p : prog netE (result string A)) (f : A -> prog netE (result string B)) :
  ensures Q p -> (forall tr1 a, Q tr1 a -> ensures (fun tr2 => P (tr1 ++ tr2)) (f a)) -> ensures P (try_bind p f).
Proof.
  intros Hp Hf. eapply always_bind; [exact Hp|]. intros tr1 [a|e] Hq; [by apply Hf | by apply always_ret].
Qed.

Lemma cert_valid_now_ensures c : ensures (fun tr _ => valid_in tr c) (cert_valid_now c).
Proof.
  apply always_vis. intros i t. apply always_ret.
  destruct (Z.ltb_spec t (not_before (tbs_certificate c))); [done|].
  destruct (Z.ltb_spec (not_after (tbs_certificate c)) t); [done|]. exists i, t. split; [left | done].
Qed.
Lemma all_valid_now_ensures chain : ensures (fun tr _ => Forall (valid_in tr) chain) (all_valid_now chain).
Proof.
  induction chain as [|c chain IH]; [by apply always_ret|]. cbn [all_valid_now].
  eapply ensures_try; [apply cert_valid_now_ensures|]. intros tr1 [] Hc tr2 r Ht. specialize (IH tr2 r Ht).
  destruct r as [[]|]; [|done]. constructor.
  - eapply valid_in_mono; [|done]. intros ev. rewrite elem_of_app. auto.
  - eapply Forall_impl; [exact IH|]. intros c' Hc'. eapply valid_in_mono; [|done]. intros ev. rewrite elem_of_app. auto.
Qed.
Lemma anchored_always lst roots :
  always (fun tr b => b = true -> exists r, r ∈ roots /\ valid_in tr r /\
    (tbs_certificate lst = tbs_certificate r \/ signed_by lst r = Ok tt)) (anchored true lst roots).
Proof.
  induction roots as [|r roots IH]; cbn [anchored]; [by apply always_ret|].
  eapply (always_bind (fun tr (u : bool) => u = true -> valid_in tr r)).
  { eapply always_bind; [apply cert_valid_now_ensures|]. intros tr1 v Hv. apply always_ret. rewrite app_nil_r. by destruct v. }
  assert (Hrest : forall tr1, always (fun tr2 b => b = true -> exists r', r' ∈ r :: roots /\ valid_in (tr1 ++ tr2) r' /\
    (tbs_certificate lst = tbs_certificate r' \/ signed_by lst r' = Ok tt)) (anchored true lst roots)).
  { intros tr1 tr2 b Ht Hb. destruct (IH tr2 b Ht Hb) as (r' & Hin & Hv & Hs). exists r'. split; [by right|]. split; [|done].
    eapply valid_in_mono; [|done]. intros ev. rewrite elem_of_app. auto. }
  intros tr1 [|] Hu; cbn [negb]; [|apply Hrest]. destruct (_ || _) eqn:Ho; [|apply Hrest].
  apply always_ret. intros _. exists r. rewrite app_nil_r. split; [left|]. split; [by apply Hu|].
  apply orb_true_iff in Ho as [Ho|Ho]; [left; by apply bool_decide_eq_true in Ho | right; by apply is_ok_unit].
Qed.

(** A chain, all of whose certificates are valid now, up to a root that is, with the key
    of its leaf. *)
Definition signing_chain (tr : list (event netE)) (x5c roots_der : list string) (chain : list Certificate) (key : CertPubKey) : Prop :=
  exists roots usable leaf, parses x5c chain /\ parses roots_der roots /\ usable ⊆ roots /\
    Forall (valid_in tr) (chain ++ usable) /\ trusted usable chain /\ head chain = Some leaf /\ cert_pubkey leaf = Ok key.
Lemma Forall_valid_mono tr tr' l : tr ⊆ tr' -> Forall (valid_in tr) l -> Forall (valid_in tr') l.
Proof. intros Hs Hf. eapply Forall_impl; [exact Hf|]. intros c. by apply valid_in_mono. Qed.
Lemma signing_chain_mono tr tr' x5c roots chain key :
  tr ⊆ tr' -> signing_chain tr x5c roots chain key -> signing_chain tr' x5c roots chain key.
Proof.
  intros Hs (rs & us & leaf & ? & ? & ? & Hv & ?). exists rs, us, leaf. do 3 (split; [done|]).
  split; [by eapply Forall_valid_mono | done].
Qed.

Lemma validate_chain_ensures x5c roots_der :
  ensures (fun tr key => exists chain, signing_chain tr x5c roots_der chain key) (validate_chain_to_roots x5c roots_der true).
Proof.
  unfold validate_chain_to_roots. destruct x5c as [|x xs]; [by apply always_ret|].
  apply ensures_check. intros chain Hc. apply parses_Ok in Hc. apply ensures_check. intros roots Hr. apply parses_Ok in Hr.
  eapply ensures_try; [apply all_valid_now_ensures|]. intros tr1 [] Hv. apply ensures_check. intros [] Hk.
  destruct chain as [|leaf rest]; [by apply always_ret|]. destruct (last (leaf :: rest)) as [lst|] eqn:Hl; [|by apply always_ret].
  eapply always_bind; [apply anchored_always|]. intros tr2 [|] Ha; apply always_ret; [|done].
  destruct (cert_pubkey leaf) as [key|e] eqn:Hkey; [|done]. destruct (Ha eq_refl) as (r & Hin & Hvr & Hs).
  exists (leaf :: rest), roots, [r], leaf. do 2 (split; [done|]). split; [by intros ? ->%list_elem_of_singleton|]. split.
  { apply Forall_app. split.
    - eapply Forall_valid_mono; [|exact Hv]. intros ev. rewrite elem_of_app. auto.
    - constructor; [|done]. eapply valid_in_mono; [|exact Hvr]. intros ev. rewrite !elem_of_app. auto. }
  split; [|done]. apply trusted_split. exists lst, r. split; [done|]. split; [left | done].
Qed.

(** A BLOB whose payload is signed, under a chain of trusted certificates. *)
Definition signed_blob (tr : list (event netE)) (blob : string) (roots_der : list string) (payload : BlobPayload)
    (x5c : list string) (chain : list Certificate) : Prop :=
  exists p0 p1 p2 h b sig header key,
    str_split "."%char (str_trim blob) = [p0; p1; p2] /\
    mds_b64url p0 = Ok h /\ blob_header_from_json h = Ok header /\
    mds_b64url p1 = Ok b /\ blob_payload_from_json b = Ok payload /\
    mapM standard_decode (bh_x5c header) = Ok x5c /\ signing_chain tr x5c roots_der chain key /\
    mds_b64url p2 = Ok sig /\ mds_jws_verify key (bh_alg header) (p0 +:+ "." +:+ p1) sig = Ok tt.

Lemma mapM_map_err {E F A B} (g : E -> F) (f : A -> result E B) l k :
  mapM (fun x => map_err g (f x)) l = Ok k <-> mapM f l = Ok k.
Proof. rewrite !mapM_Ok. split; intros Hf; eapply Forall2_impl; try exact Hf; intros x y; by rewrite map_err_Ok. Qed.

Lemma verify_blob_ensures blob roots_der prev :
  ensures (fun tr v => exists payload chain, signed_blob tr blob roots_der payload v.2 chain /\
    v.1.1 = bp_no payload /\ v.1.2 = bp_entries payload /\ prev < bp_no payload) (verify_blob blob roots_der prev).
Proof.
  unfold verify_blob. destruct (str_split "."%char (str_trim blob)) as [|p0 [|p1 [|p2 []]]] eqn:Hs; try by apply always_ret.
  apply ensures_check. intros h Hh. apply ensures_check. intros header Hhd. apply map_err_Ok in Hhd.
  apply ensures_check. intros b Hb. apply ensures_check. intros payload Hp. apply map_err_Ok in Hp.
  destruct (Z.leb_spec (bp_no payload) prev) as [|Hno]; [by apply always_ret|].
  apply ensures_check. intros x5c Hx. apply mapM_map_err in Hx.
  eapply ensures_try; [apply validate_chain_ensures|]. intros tr1 key (chain & Hc).
  apply ensures_check. intros sig Hsig. apply ensures_check. intros [] Hv. apply always_ret. rewrite app_nil_r.
  exists payload, chain. split; [by exists p0, p1, p2, h, b, sig, header, key | done].
Qed.

Lemma assert_not_revoked_ensures c : ensures (fun tr _ => not_revoked_in tr c) (assert_not_revoked c).
Proof.
  unfold assert_not_revoked. destruct (crl_url c) as [url|] eqn:Hu.
  2:{ apply always_ret. intros url. by rewrite Hu. }
  apply always_vis. intros i r.
  apply always_check; [done|]. intros body Hr. apply map_err_Ok in Hr. apply always_check; [done|]. intros bytes Hb.
  apply map_err_Ok in Hb. apply always_check; [done|]. intros revoked Hl. apply map_err_Ok in Hl. apply always_ret. subst.
  assert (Hin : forall P : Prop, P -> (forall serials, revoked = Some serials -> serial_number (tbs_certificate c) ∉ serials) ->
    not_revoked_in [Ev i (GetBytes url) (Ok (Ok bytes))] c).
  { intros _ _ Hn url' Hu'. rewrite Hu in Hu'. injection Hu' as <-. exists i, bytes, revoked. split; [left | done]. }
  destruct revoked as [serials|]; [|by apply (Hin True)]. case_bool_decide; [done|].
  apply (Hin True); [done|]. by intros ? [= <-].
Qed.
Lemma assert_none_revoked_ensures ders :
  ensures (fun tr _ => forall chain, parses ders chain -> Forall (not_revoked_in tr) chain) (assert_none_revoked ders).
Proof.
  induction ders as [|d ders IH]; cbn [assert_none_revoked].
  { apply always_ret. intros chain Hp. by inversion Hp. }
  apply ensures_check. intros cert Hc. apply map_err_Ok in Hc.
  eapply ensures_try; [apply assert_not_revoked_ensures|]. intros tr1 [] Hn tr2 r Ht. specialize (IH tr2 r Ht).
  destruct r as [[]|]; [|done]. intros chain Hp. inversion Hp as [|? c ? cs Hd Hcs]; subst. assert (c = cert) as -> by congruence. constructor.
  - eapply not_revoked_mono; [|done]. intros ev. rewrite elem_of_app. auto.
  - eapply Forall_impl; [by apply IH|]. intros c' Hc'. eapply not_revoked_mono; [|done]. intros ev. rewrite elem_of_app. auto.
Qed.

(** The entries of a cache after some were added. *)
Lemma add_entries_lookup cache n entries k :
  let '(m, cache') := add_entries cache n entries in
  forall e, cache' !! k = Some e -> cache !! k = Some e \/
    e ∈ entries /\ exists a, en_aaguid e = Some a /\ k = str_to_lowercase a.
Proof.
  revert cache n. induction entries as [|e0 entries IH]; intros cache n; cbn [add_entries]; [by left|].
  destruct (en_aaguid e0) as [a|] eqn:Ha.
  - specialize (IH (<[str_to_lowercase a:=e0]> cache) (S n)). destruct (add_entries _ _ entries) as [m cache'].
    intros e He. destruct (IH e He) as [Hl|[Hin Hx]]; [|right; split; [by right | done]].
    apply lookup_insert_Some in Hl as [[<- <-]|[_ Hl]]; [right | by left]. split; [left|]. by exists a.
  - specialize (IH cache n). destruct (add_entries _ _ entries) as [m cache'].
    intros e He. destruct (IH e He) as [Hl|[Hin Hx]]; [by left | right; split; [by right | done]].
Qed.

Definition backed (tr : list (event netE)) (blob : string) (roots_der : list string) (k : string) (e : Entry) : Prop :=
  exists payload x5c chain a, signed_blob tr blob roots_der payload x5c chain /\ Forall (not_revoked_in tr) chain /\
    e ∈ bp_entries payload /\ en_aaguid e = Some a /\ k = str_to_lowercase a.

Lemma signed_blob_mono tr tr' blob roots_der payload x5c chain :
  tr ⊆ tr' -> signed_blob tr blob roots_der payload x5c chain -> signed_blob tr' blob roots_der payload x5c chain.
Proof.
  intros Hs (p0 & p1 & p2 & h & b & sig & header & key & ? & ? & ? & ? & ? & ? & Hc & ?).
  exists p0, p1, p2, h, b, sig, header, key. do 6 (split; [done|]). split; [|done]. by eapply signing_chain_mono.
Qed.
Lemma backed_mono tr tr' blob roots_der k e : tr ⊆ tr' -> backed tr blob roots_der k e -> backed tr' blob roots_der k e.
Proof.
  intros Hs (payload & x5c & chain & a & Hb & Hr & ?). exists payload, x5c, chain, a.
  split; [by eapply signed_blob_mono|]. split; [|done]. eapply Forall_impl; [exact Hr|]. intros c. by apply not_revoked_mono.
Qed.

(** The entries of the cache after a BLOB was loaded: those of before, and those that it
    brings. *)
Lemma load_blob_backed cache blob roots_der :
  ensures (fun tr v => forall k e, v.2 !! k = Some e -> cache !! k = Some e \/ backed tr blob roots_der k e)
    (load_blob cache blob roots_der).
Proof.
  unfold load_blob. eapply ensures_try; [apply verify_blob_ensures|].
  intros tr1 [[no entries] x5c] (payload & chain & Hb & _ & Hent & _). cbn [fst snd] in *.
  eapply ensures_try; [apply assert_none_revoked_ensures|]. intros tr2 [] Hr. apply always_ret. rewrite app_nil_r.
  intros k e He. pose proof (add_entries_lookup cache 0 (bp_entries payload) k) as Hl. rewrite Hent in He.
  destruct (add_entries cache 0 (bp_entries payload)) as [n cache']. destruct (Hl e He) as [?|(Hin & a & Ha & ->)]; [by left | right].
  exists payload, x5c, chain, a. split; [eapply signed_blob_mono; [|exact Hb]; intros ev; rewrite elem_of_app; auto|]. split; [|done].
  destruct Hb as (? & ? & ? & ? & ? & ? & ? & ? & _ & _ & _ & _ & _ & _ & (? & ? & ? & Hp & _) & _).
  eapply Forall_impl; [by apply Hr|]. intros c Hn. eapply not_revoked_mono; [|exact Hn]. intros ev. rewrite elem_of_app. auto.
Qed.
End mds_facts.
