(* ===== verification/AttestationFacts.v ===== *)
(** * What accepted attestation statements mean

    The certificate checks of [Attestation] against their declarative content, and the
    evidence each statement format gives for a new credential. *)

From S2P Require Import Prelude Prog Json Decimal Externals Es256 WebAuthn X509 Attestation Tpm Mds MdsFacts.

#[local] Open Scope Z_scope.

Section attestation_facts.
Context `{X509}.

(** ** Certificates *)

Definition attribute (tbs : TbsCertificate) (oid : string) : option string := find_attribute oid (subject_rdns tbs).
(** A certificate for attestations of this authenticator model (WebAuthn, section 8.2.1). *)
Record attestation_certificate (aaguid : string) (cert : Certificate) : Prop := {
  att_unit : attribute (tbs_certificate cert) "2.5.4.11" = Some "Authenticator Attestation";
  att_name : exists v, attribute (tbs_certificate cert) "2.5.4.3" = Some v /\ v <> "";
  att_organisation : exists v, attribute (tbs_certificate cert) "2.5.4.10" = Some v /\ v <> "";
  att_country : exists v, attribute (tbs_certificate cert) "2.5.4.6" = Some v /\ String.length v = 2%nat;
  att_version : version (tbs_certificate cert) = V3;
  att_extensions : forall exts, extensions (tbs_certificate cert) = Some exts ->
    (forall v, (OID_BASIC_CONSTRAINTS, v) ∈ exts -> BasicConstraints_from_der v = Ok false) /\
    (forall v, (OID_FIDO_AAGUID, v) ∈ exts -> OctetString_from_der v = Ok aaguid)
}.

Lemma none_or_empty_false o : none_or_empty o = false -> exists v, o = Some v /\ v <> "".
Proof. destruct o as [[]|]; simpl; [done | by eexists | done]. Qed.
Lemma check_attestn_exts_Ok aaguid exts :
  check_attestn_exts aaguid exts = Ok tt ->
  (forall v, (OID_BASIC_CONSTRAINTS, v) ∈ exts -> BasicConstraints_from_der v = Ok false) /\
  (forall v, (OID_FIDO_AAGUID, v) ∈ exts -> OctetString_from_der v = Ok aaguid).
Proof.
  induction exts as [|[oid v] exts IH]; cbn [check_attestn_exts].
  { split; by intros v ?%elem_of_nil. }
  rewrite bind_Ok. intros ([] & He & Hr). destruct (IH Hr) as [Hbc Haa].
  unfold check_attestn_ext in He. cbn [fst snd] in He. case_bool_decide as Hb.
  - rewrite bind_Ok in He. destruct He as (ca & Hca & He). apply map_err_Ok in Hca. destruct ca; [done|].
    split; intros v' [[= Ho ->]|Hin]%elem_of_cons; auto. by rewrite Hb in Ho.
  - case_bool_decide as Ha.
    + rewrite bind_Ok in He. destruct He as (inner & Hi & He). apply map_err_Ok in Hi. case_bool_decide; [|done]. subst inner.
      split; intros v' [[= Ho ->]|Hin]%elem_of_cons; auto. by rewrite Ha in Ho.
    + split; intros v' [[= Ho ->]|Hin]%elem_of_cons; auto; by destruct Hb || by destruct Ha.
Qed.
Lemma check_attestn_cert_Ok der aaguid :
  check_attestn_cert der aaguid = Ok tt ->
  exists cert, Certificate_from_der der = Ok cert /\ attestation_certificate aaguid cert.
Proof.
  unfold check_attestn_cert. rewrite bind_Ok. intros (cert & Hc & Hr). apply map_err_Ok in Hc.
  exists cert. split; [done|]. fold (attribute (tbs_certificate cert) "2.5.4.11") in Hr.
  case_bool_decide as Hou; cbn [negb] in Hr; [|done].
  destruct (none_or_empty (find_attribute "2.5.4.3" _)) eqn:Hcn; [done|].
  destruct (none_or_empty (find_attribute "2.5.4.10" _)) eqn:Ho; [done|].
  destruct (find_attribute "2.5.4.6" _) as [cc|] eqn:Hcc; cbn [negb] in Hr; [|done].
  destruct (Nat.eqb_spec (String.length cc) 2) as [Hl|]; cbn [negb] in Hr; [|done].
  case_bool_decide as Hv; cbn [negb] in Hr; [|done].
  split; [done | by apply none_or_empty_false | by apply none_or_empty_false | by exists cc | done |].
  intros exts He. rewrite He in Hr. by apply check_attestn_exts_Ok.
Qed.

(** Valid at [now] and not its own issuer. *)
Definition member_ok (now : Z) (c : Certificate) : Prop :=
  not_before (tbs_certificate c) <= now <= not_after (tbs_certificate c) /\
  exists iss sub, issuer_to_der (tbs_certificate c) = Ok iss /\ subject_to_der (tbs_certificate c) = Ok sub /\ iss <> sub.
(** Signed under the key of the next one, if by ECDSA with SHA-256. *)
Definition link_ok (child parent : Certificate) : Prop :=
  signature_algorithm child = OID_ECDSA_SHA256 ->
  exists tbs sig x y, tbs_to_der (tbs_certificate child) = Ok tbs /\ signature_bytes child = Some sig /\
    ec_p256_xy_from_parsed parent = Ok (x, y) /\ verify_es256_raw x y tbs sig = Ok tt.
Definition chain_ok (now : Z) (chain : list Certificate) : Prop :=
  Forall (member_ok now) chain /\
  forall i child parent, chain !! i = Some child -> chain !! S i = Some parent -> link_ok child parent.

Lemma check_member_Ok now c : check_member now c = Ok tt -> member_ok now c.
Proof.
  unfold check_member. destruct (Z.ltb_spec now (not_before (tbs_certificate c))); [done|].
  destruct (Z.ltb_spec (not_after (tbs_certificate c)) now); [done|].
  rewrite bind_Ok. intros (iss & Hi & Hr). apply map_err_Ok in Hi.
  rewrite bind_Ok in Hr. destruct Hr as (sub & Hs & Hr). apply map_err_Ok in Hs. case_bool_decide; [done|].
  split; [lia|]. by exists iss, sub.
Qed.
Lemma check_link_Ok child parent : check_link child parent = Ok tt -> link_ok child parent.
Proof.
  unfold check_link. intros Hr Ha. rewrite bool_decide_eq_true_2 in Hr by done. cbn [negb] in Hr.
  rewrite bind_Ok in Hr. destruct Hr as (tbs & Ht & Hr). apply map_err_Ok in Ht.
  rewrite bind_Ok in Hr. destruct Hr as (sig & Hs & Hr). apply ok_or_Ok in Hs.
  rewrite bind_Ok in Hr. destruct Hr as ([x y] & Hxy & Hr). apply map_err_Ok in Hr. by exists tbs, sig, x, y.
Qed.
Lemma check_members_Ok now chain : check_members now chain = Ok tt -> Forall (member_ok now) chain.
Proof.
  induction chain as [|c chain IH]; cbn [check_members]; [by constructor|].
  rewrite bind_Ok. intros ([] & Hc & Hr). constructor; [by apply check_member_Ok | by apply IH].
Qed.
Lemma check_links_cons c p rest : check_links (c :: p :: rest) = (_ ← check_link c p; check_links (p :: rest)).
Proof. done. Qed.
Lemma check_links_Ok chain :
  check_links chain = Ok tt ->
  forall i child parent, chain !! i = Some child -> chain !! S i = Some parent -> link_ok child parent.
Proof.
  induction chain as [|c [|p rest] IH]; [done | by intros _ [|i] |].
  rewrite check_links_cons, bind_Ok. intros ([] & Hc & Hr) [|i] child parent Hi Hp.
  - simpl in Hi, Hp. simplify_eq. by apply check_link_Ok.
  - by apply (IH Hr i).
Qed.
Lemma check_cert_chain_ensures ders :
  ensures (fun tr _ => exists i t chain, Ev i NetNow t ∈ tr /\ parses ders chain /\ chain_ok t chain) (check_cert_chain ders).
Proof.
  unfold check_cert_chain. apply ensures_check. intros chain Hp. apply parses_Ok in Hp.
  apply always_vis. intros i t. apply always_ret.
  destruct (_ ← check_members t chain; check_links chain) as [[]|e] eqn:Hr; [|done].
  apply bind_Ok in Hr as ([] & Hm & Hl). exists i, t, chain. split; [left|]. split; [done|].
  split; [by apply check_members_Ok | by apply check_links_Ok].
Qed.

(** ** Statements *)

Definition sig_of (m : list (Cbor * Cbor)) (sig : string) : Prop := cbor_text_get m "sig" = Some (CborBytes sig).
Lemma sig_of_Ok m (e : string) sig : ok_or e (cbor_text_get m "sig" ≫= cbor_bytes) = Ok sig -> sig_of m sig.
Proof. unfold sig_of. destruct (cbor_text_get m "sig") as [[]|]; simpl; congruence. Qed.

(** The evidence of a packed statement: the credential's own key, or the key of an
    attestation certificate with its chain, signed the authenticator and client data. *)
Inductive packed_evidence (tr : list (event netE)) (m : list (Cbor * Cbor)) (auth_data client_data : string) (key : CredKey)
    (aaguid : string) : Prop :=
| packed_self i sig :
    cbor_text_get m "x5c" = None -> cbor_text_get m "alg" = Some (CborInteger i) -> as_i32 i = cose_alg key ->
    sig_of m sig -> verify_assertion key auth_data client_data sig = Ok tt ->
    packed_evidence tr m auth_data client_data key aaguid
| packed_full i sig certs leaf ders cert x y t j chain :
    cbor_text_get m "x5c" = Some (CborArray certs) -> mapM cbor_bytes certs = Some (leaf :: ders) ->
    cbor_text_get m "alg" = Some (CborInteger i) -> as_i32 i = -7 -> sig_of m sig ->
    Certificate_from_der leaf = Ok cert -> ec_p256_xy_from_parsed cert = Ok (x, y) ->
    verify_es256_signature x y auth_data client_data sig = Ok tt -> attestation_certificate aaguid cert ->
    Ev j NetNow t ∈ tr -> parses (leaf :: ders) chain -> chain_ok t chain ->
    packed_evidence tr m auth_data client_data key aaguid.

Lemma verify_packed_ensures stmt auth_data client_data key aaguid :
  ensures (fun tr _ => exists m, stmt = CborMap m /\ packed_evidence tr m auth_data client_data key aaguid)
    (verify_packed stmt auth_data client_data key aaguid).
Proof.
  unfold verify_packed. destruct stmt as [| | | |m|]; try by apply always_ret.
  apply ensures_check. intros alg Ha. apply ensures_check. intros sig Hs. apply sig_of_Ok in Hs.
  assert (exists i, cbor_text_get m "alg" = Some (CborInteger i) /\ alg = as_i32 i) as (i & Hi & ->).
  { destruct (cbor_text_get m "alg") as [[]|]; try done. injection Ha as <-. eauto. }
  destruct (cbor_text_get m "x5c") as [x5c|] eqn:Hx.
  - destruct x5c as [| | |[|c cs]| |]; try by apply always_ret.
    destruct (Z.eqb_spec (as_i32 i) (-7)) as [H7|]; cbn [negb]; [|by apply always_ret].
    apply ensures_check. intros ders Hd. apply ok_or_Ok in Hd. destruct ders as [|leaf ders].
    { simpl in Hd. destruct (cbor_bytes c); simpl in Hd; [|done]. by destruct (mapM cbor_bytes cs). }
    cbn [head default]. apply ensures_check. intros [x y] Hxy.
    unfold ec_p256_xy_from_cert in Hxy. apply bind_Ok in Hxy as (cert & Hc & Hxy). apply map_err_Ok in Hc.
    apply ensures_check. intros [] Hsig. apply ensures_check. intros [] Hat. apply check_attestn_cert_Ok in Hat as (cert' & Hc' & Hat).
    assert (cert' = cert) as -> by congruence.
    eapply always_mono; [|apply check_cert_chain_ensures]. intros tr [[]|e]; [|done].
    intros (j & t & chain & Hev & Hp & Hok). exists m. split; [done|]. by eapply packed_full.
  - destruct (Z.eqb_spec (as_i32 i) (cose_alg key)) as [Hk|]; cbn [negb]; [|by apply always_ret].
    apply ensures_ret. intros [] Hv. exists m. split; [done|]. by eapply packed_self.
Qed.

(** The message a U2F authenticator signs. *)
Definition u2f_message (rp_id_hash client_data cred_id x y : string) : string :=
  String (byte 0) "" +:+ rp_id_hash +:+ sha256_digest client_data +:+ cred_id +:+ String (byte 4) "" +:+ x +:+ y.
Definition u2f_evidence (m : list (Cbor * Cbor)) (rp_id_hash client_data cred_id x y : string) : Prop :=
  exists sig leaf cert cx cy, sig_of m sig /\ cbor_text_get m "x5c" = Some (CborArray [CborBytes leaf]) /\
    Certificate_from_der leaf = Ok cert /\ ec_p256_xy_from_parsed cert = Ok (cx, cy) /\
    verify_es256_raw cx cy (u2f_message rp_id_hash client_data cred_id x y) sig = Ok tt.
Lemma verify_u2f_Ok stmt rp_id_hash client_data cred_id x y :
  verify_u2f stmt rp_id_hash client_data cred_id x y = Ok tt ->
  exists m, stmt = CborMap m /\ u2f_evidence m rp_id_hash client_data cred_id x y.
Proof.
  unfold verify_u2f. destruct stmt as [| | | |m|]; try done. rewrite bind_Ok. intros (sig & Hs & Hr). apply sig_of_Ok in Hs.
  rewrite bind_Ok in Hr. destruct Hr as (leaf & Hl & Hr). rewrite bind_Ok in Hr. destruct Hr as ([cx cy] & Hxy & Hr).
  unfold ec_p256_xy_from_cert in Hxy. apply bind_Ok in Hxy as (cert & Hc & Hxy). apply map_err_Ok in Hc.
  exists m. split; [done|]. exists sig, leaf, cert, cx, cy. split; [done|]. split; [|done].
  destruct (cbor_text_get m "x5c") as [[| | |[|[] []]| |]|]; try done. by injection Hl as ->.
Qed.
End attestation_facts.
