(* ===== verification/FidoStore.v ===== *)
(** * The store of the conformance server

    [src/src/fido/store.rs]: the trait as an operation type, its in-memory and its
    Firestore implementation. *)

From S2P Require Import Prelude Prog Json Decimal Calendar Firestore Externals Es256 WebAuthn Sys.

#[local] Open Scope Z_scope.

Definition FIDO_CHALLENGE_TTL_SECS : Z := 300.

Record ChallengeState := mkChallengeState {
  cs_username : string;
  cs_user_verification : option string;
  cs_created_at : Z
}.
Record StoredCredential := mkStoredCredential { sc_id : string; sc_key : CredKey; sc_sign_count : Z }.
Definition sc_set_sign_count (n : Z) (c : StoredCredential) : StoredCredential :=
  mkStoredCredential (sc_id c) (sc_key c) n.

(** The trait [FidoStore]. *)
Inductive fidoStoreE : Type -> Type :=
| SaveChallenge (challenge : string) (st : ChallengeState) : fidoStoreE unit
| GetChallenge (challenge : string) : fidoStoreE (option ChallengeState)
| SaveCredential (user : string) (cred : StoredCredential) : fidoStoreE unit
| FindCredentials (user : string) : fidoStoreE (list StoredCredential)
| UpdateSignCount (user cred_id : string) (new_count : Z) : fidoStoreE unit.

(** ** In memory *)

Record MemInner := mkMemInner {
  mi_challenges : gmap string ChallengeState;
  mi_credentials : gmap string (list StoredCredential)
}.
Definition MemInner_default : MemInner := mkMemInner ∅ ∅.

(** The first credential of an identifier gets the counter. *)
Fixpoint update_first (cred_id : string) (n : Z) (l : list StoredCredential) : list StoredCredential :=
  match l with
  | [] => []
  | c :: l' => if bool_decide (sc_id c = cred_id) then sc_set_sign_count n c :: l' else c :: update_first cred_id n l'
  end.
Definition push_new (cred : StoredCredential) (l : list StoredCredential) : list StoredCredential :=
  if list_any (fun c => bool_decide (sc_id c = sc_id cred)) l then l else l ++ [cred].

Definition mem_fido_op (now : Z) : handler fidoStoreE MemInner :=
  fun X o s =>
    let cutoff := u64_saturating_sub now FIDO_CHALLENGE_TTL_SECS in
    match o in fidoStoreE X return X * MemInner with
    | SaveChallenge challenge st =>
        (tt, mkMemInner (<[challenge := st]> (filter (fun kv => cutoff <= cs_created_at kv.2) (mi_challenges s)))
               (mi_credentials s))
    | GetChallenge challenge =>
        (st ← mi_challenges s !! challenge;
         if cs_created_at st <? cutoff then None else Some st, s)
    | SaveCredential user cred =>
        (tt, mkMemInner (mi_challenges s)
               (<[user := push_new cred (default [] (mi_credentials s !! user))]> (mi_credentials s)))
    | FindCredentials user => (default [] (mi_credentials s !! user), s)
    | UpdateSignCount user cred_id n =>
        (tt, match mi_credentials s !! user with
             | Some l => mkMemInner (mi_challenges s) (<[user := update_first cred_id n l]> (mi_credentials s))
             | None => s
             end)
    end.

(** ** On Firestore *)

Definition COL_CHALLENGES : string := "fidoChallenges".
Definition COL_CREDENTIALS : string := "fidoCredentials".
(** [as u32]. *)
Definition as_u32 (z : Z) : Z := z mod 2 ^ 32.

Section firestore.
Context `{Externals}.

Definition cred_to_fields (user : string) (c : StoredCredential) : Value :=
  let '(kty, parts) :=
    match sc_key c with
    | Es256Key x y => ("es256", [("x", x); ("y", y)])
    | Rs256Key n e => ("rs256", [("n", n); ("e", e)])
    | Rs1Key n e => ("rs1", [("n", n); ("e", e)])
    | Ed25519Key pk => ("ed25519", [("pk", pk)])
    end in
  Object ([("user", fs_s user); ("credId", fs_s (sc_id c)); ("signCount", fs_int (sc_sign_count c));
           ("kty", fs_s kty)] ++ map (fun kv => (kv.1, fs_s (b64url_encode kv.2))) parts).

Definition cred_from_fields (f : Value) : option StoredCredential :=
  id ← field_str f "credId";
  let sign_count := as_u32 (default 0 (field_u64 f "signCount")) in
  let dec k := result_ok (b64url_decode (default "" (field_str f k))) in
  kty ← field_str f "kty";
  key ← (if bool_decide (kty = "es256") then x ← dec "x"; y ← dec "y"; Some (Es256Key x y)
         else if bool_decide (kty = "rs256") then n ← dec "n"; e ← dec "e"; Some (Rs256Key n e)
         else if bool_decide (kty = "rs1") then n ← dec "n"; e ← dec "e"; Some (Rs1Key n e)
         else if bool_decide (kty = "ed25519") then pk ← dec "pk"; Some (Ed25519Key pk)
         else None);
  Some (mkStoredCredential id key sign_count).

Definition fsf_save_challenge (challenge : string) (st : ChallengeState) : prog sysE unit :=
  t ← now_secs;
  _ ← fs (SetDoc COL_CHALLENGES challenge
            (Object [("username", fs_s (cs_username st));
                     ("userVerification", fs_s (default "" (cs_user_verification st)));
                     ("expiresAt", fs_ts (rfc3339 (t + FIDO_CHALLENGE_TTL_SECS)))]));
  mret tt.
Definition fsf_get_challenge (challenge : string) : prog sysE (option ChallengeState) :=
  r ← fs (GetDoc COL_CHALLENGES challenge);
  match r with
  | Ok (Some f) =>
      t ← now_secs;
      if default 0 (field_ts_secs f "expiresAt") <? t then mret None
      else
        let uv := default "" (field_str f "userVerification") in
        created ← now_secs;
        mret (Some (mkChallengeState (default "" (field_str f "username"))
                      (if str_is_empty uv then None else Some uv) created))
  | _ => mret None
  end.
Definition fsf_update_sign_count (user cred_id : string) (n : Z) : prog sysE unit :=
  r ← fs (GetDoc COL_CREDENTIALS cred_id);
  match r with
  | Ok (Some f) =>
      match cred_from_fields f with
      | Some cred =>
          _ ← fs (SetDoc COL_CREDENTIALS cred_id (cred_to_fields user (sc_set_sign_count n cred)));
          mret tt
      | None => mret tt
      end
  | _ => mret tt
  end.

Definition firestore_fido_op : forall X, fidoStoreE X -> prog sysE X :=
  fun X o =>
    match o in fidoStoreE X return prog sysE X with
    | SaveChallenge challenge st => fsf_save_challenge challenge st
    | GetChallenge challenge => fsf_get_challenge challenge
    | SaveCredential user cred =>
        _ ← fs (SetDoc COL_CREDENTIALS (sc_id cred) (cred_to_fields user cred)); mret tt
    | FindCredentials user =>
        r ← fs (QueryEq COL_CREDENTIALS "user" user);
        mret (match r with Ok rows => omap (fun row => cred_from_fields row.2) rows | Err _ => [] end)
    | UpdateSignCount user cred_id n => fsf_update_sign_count user cred_id n
    end.
End firestore.
