(* ===== verification/DocStore.v ===== *)
(** * What the components rely on in the database

    The contract of a document service: every operation of [fsE] reads or replaces
    single documents, a conditional write happens exactly when its condition holds,
    and a write gives the document a version that was never used before.  A write
    whose answer is an error may have happened or not. *)

From S2P Require Import Prelude Prog Json Firestore Externals Sys.

#[local] Open Scope Z_scope.

Section contract.
Context {D : Type}.
(** The content and the version of a document; the versions used so far. *)
Context (doc_at : D -> string -> string -> option (Value * string)) (seen : D -> string -> Prop).

Definition unchanged (db db' : D) : Prop :=
  (forall c i, doc_at db' c i = doc_at db c i) /\ (forall v, seen db v -> seen db' v).
(** Only document [(c, i)] may differ. *)
Definition only (c i : string) (db db' : D) : Prop :=
  (forall c' i', (c', i') <> (c, i) -> doc_at db' c' i' = doc_at db c' i') /\ (forall v, seen db v -> seen db' v).
Definition put (c i : string) (f : Value) (db db' : D) : Prop :=
  only c i db db' /\ exists v, ~ seen db v /\ doc_at db' c i = Some (f, v).
Definition removed (c i : string) (db db' : D) : Prop := only c i db db' /\ doc_at db' c i = None.

Definition has_version (db : D) (c i v : string) : Prop := exists f, doc_at db c i = Some (f, v).
(** Whether a query of documents by their identifier sees them whole. *)
Definition plain_ids (db : D) (c : string) : Prop :=
  forall i, is_Some (doc_at db c i) -> str_contains "/"%char i = false.
(** The rows of a listing. *)
Definition lists (db : D) (c : string) (P : Value -> Prop) (rows : list (string * Value)) : Prop :=
  NoDup rows.*1 /\ forall i f, (i, f) ∈ rows <-> P f /\ exists v, doc_at db c i = Some (f, v).

(** A write under a condition. *)
Definition conditional (cond : Prop) (effect : D -> D -> Prop) (db : D) (r : result string bool) (db' : D) : Prop :=
  match r with
  | Ok true => cond /\ effect db db'
  | Ok false => ~ cond /\ unchanged db db'
  | Err _ => unchanged db db' \/ cond /\ effect db db'
  end.
Definition plain_write (effect : D -> D -> Prop) (db : D) (r : result string unit) (db' : D) : Prop :=
  match r with Ok _ => effect db db' | Err _ => unchanged db db' \/ effect db db' end.
Definition plain_read {A} (P : A -> Prop) (db : D) (r : result string A) (db' : D) : Prop :=
  unchanged db db' /\ forall a, r = Ok a -> P a.

(** The fields [f'] are those of [base] with those of [new] over them. *)
Definition overlay (new base f' : Value) : Prop :=
  forall k, get f' k = match get new k with Some v => Some v | None => get base k end.
Definition updated (c i k : string) (v : Value) (db db' : D) : Prop :=
  exists f ver f', doc_at db c i = Some (f, ver) /\ overlay (Object [(k, v)]) f f' /\ put c i f' db db'.
(** A merge: an absent document is created. *)
Definition merged_into (c i : string) (f : Value) (db db' : D) : Prop :=
  exists f', put c i f' db db' /\
    (f <> Object [] -> overlay f (default (Object []) (fst <$> doc_at db c i)) f').

Definition doc_step {X} (o : fsE X) (db : D) (x : X) (db' : D) : Prop :=
  match o in fsE X return X -> Prop with
  | SetDoc c i f => fun r => plain_write (put c i f) db r db'
  | UpdateField c i k v => fun r => plain_write (updated c i k v) db r db'
  | GetDoc c i => fun r => plain_read (fun d => d = fst <$> doc_at db c i) db r db'
  | GetDocWithUpdateTime c i => fun r => plain_read (fun d => d = doc_at db c i) db r db'
  | SetDocIfUnchanged c i f v => fun r => conditional (has_version db c i v) (put c i f) db r db'
  | CreateIfAbsent c i f => fun r => conditional (doc_at db c i = None) (put c i f) db r db'
  | DeleteDocIfUnchanged c i v => fun r => conditional (has_version db c i v) (removed c i) db r db'
  | QueryEq c k v => fun r =>
      plain_read (fun rows => plain_ids db c -> lists db c (fun f => field_str f k = Some v) rows) db r db'
  | ListRecentOrdered c k n => fun r => unchanged db db'
  | ListCollection c => fun r =>
      plain_read (fun rows => plain_ids db c -> lists db c (fun _ => True) rows.*1) db r db'
  | DeleteDoc c i => fun r => plain_write (removed c i) db r db'
  | MergeDoc c i f => fun r => plain_write (merged_into c i f) db r db'
  | AccessSecret name => fun r => unchanged db db'
  | FcmSend message => fun r => unchanged db db'
  end x.
End contract.

(** The collection an operation names. *)
Definition collection_of {X} (o : fsE X) : option string :=
  match o with
  | SetDoc c _ _ | UpdateField c _ _ _ | GetDoc c _ | GetDocWithUpdateTime c _ | SetDocIfUnchanged c _ _ _
  | CreateIfAbsent c _ _ | DeleteDocIfUnchanged c _ _ | QueryEq c _ _ | ListRecentOrdered c _ _
  | ListCollection c | DeleteDoc c _ | MergeDoc c _ _ => Some c
  | AccessSecret _ | FcmSend _ => None
  end.
(** The fields an operation writes. *)
Definition fields_of {X} (o : fsE X) : option Value :=
  match o with
  | SetDoc _ _ f | SetDocIfUnchanged _ _ f _ | CreateIfAbsent _ _ f | MergeDoc _ _ f => Some f
  | _ => None
  end.
(** Collections have names that need no escaping, and documents are objects. *)
Definition collection_name (c : string) : bool := negb (str_is_empty c) && str_forall is_unreserved c.
Definition named {X} (o : fsE X) : bool :=
  match collection_of o with Some c => collection_name c | None => true end &&
  match fields_of o with Some f => match f with Object _ => true | _ => false end | None => true end.

Lemma named_set c i f : collection_name c = true -> is_object f -> named (SetDoc c i f) = true.
Proof. intros Hc [m ->]. unfold named. simpl. by rewrite Hc. Qed.
Lemma named_set_if c i f v : collection_name c = true -> is_object f -> named (SetDocIfUnchanged c i f v) = true.
Proof. intros Hc [m ->]. unfold named. simpl. by rewrite Hc. Qed.
Lemma named_merge c i f : collection_name c = true -> is_object f -> named (MergeDoc c i f) = true.
Proof. intros Hc [m ->]. unfold named. simpl. by rewrite Hc. Qed.

Class DocDb (B : FsBackend) := {
  doc_at : fs_db -> string -> string -> option (Value * string);
  seen : fs_db -> string -> Prop;
  db_ok : fs_db -> Prop;
  doc_seen db c i f v : db_ok db -> doc_at db c i = Some (f, v) -> seen db v;
  doc_object db c i f v : db_ok db -> doc_at db c i = Some (f, v) -> is_object f;
  doc_law X (o : fsE X) db x db' :
    db_ok db -> named o = true -> fs_handle _ o db = (x, db') -> db_ok db' /\ doc_step doc_at seen o db x db'
}.

(** ** Consequences *)

Lemma put_unseen {D} (at_ : D -> string -> string -> option (Value * string)) seen c i f db db' :
  put at_ seen c i f db db' -> only at_ seen c i db db'.
Proof. by intros [? _]. Qed.

(** What an operation can do to a document it does not name. *)
Definition target_of {X} (o : fsE X) : option (string * string) :=
  match o with
  | SetDoc c i _ | UpdateField c i _ _ | SetDocIfUnchanged c i _ _ | CreateIfAbsent c i _
  | DeleteDocIfUnchanged c i _ | DeleteDoc c i | MergeDoc c i _ => Some (c, i)
  | _ => None
  end.

Lemma unchanged_only {D} (at_ : D -> string -> string -> option (Value * string)) seen c i db db' :
  unchanged at_ seen db db' -> only at_ seen c i db db'.
Proof. intros [Hd Hs]. split; [auto | done]. Qed.
Lemma conditional_only {D} (at_ : D -> string -> string -> option (Value * string)) seen cond effect c i db r db' :
  (forall db db', effect db db' -> only at_ seen c i db db') ->
  conditional at_ seen cond effect db r db' -> only at_ seen c i db db'.
Proof.
  intros He. destruct r as [[]|e]; simpl.
  - intros [_ ?]. by apply He.
  - intros [_ ?]. by apply unchanged_only.
  - intros [?|[_ ?]]; [by apply unchanged_only | by apply He].
Qed.
Lemma plain_write_only {D} (at_ : D -> string -> string -> option (Value * string)) seen effect c i db r db' :
  (forall db db', effect db db' -> only at_ seen c i db db') ->
  plain_write at_ seen effect db r db' -> only at_ seen c i db db'.
Proof.
  intros He. destruct r as [[]|e]; simpl; [by apply He|].
  intros [?|?]; [by apply unchanged_only | by apply He].
Qed.

Lemma doc_step_frame {D} (at_ : D -> string -> string -> option (Value * string)) seen X (o : fsE X) db x db' :
  doc_step at_ seen o db x db' ->
  match target_of o with
  | Some (c, i) => only at_ seen c i db db'
  | None => unchanged at_ seen db db'
  end.
Proof.
  destruct o; simpl; try by intros [? _]. all: try done.
  - apply plain_write_only. by intros ? ? [? _].
  - apply plain_write_only. by intros ? ? (? & ? & ? & _ & _ & ? & _).
  - apply conditional_only. by intros ? ? [? _].
  - apply conditional_only. by intros ? ? [? _].
  - apply conditional_only. by intros ? ? [? _].
  - apply plain_write_only. by intros ? ? [? _].
  - apply plain_write_only. by intros ? ? (f & [? _] & _).
Qed.

(** A document keeps its version, and then its content, or its version is gone for
    good: it never comes back. *)
Lemma doc_step_version {D} (at_ : D -> string -> string -> option (Value * string)) seen X (o : fsE X) db x db' c i :
  doc_step at_ seen o db x db' ->
  at_ db' c i = at_ db c i \/ at_ db' c i = None \/ exists f v, at_ db' c i = Some (f, v) /\ ~ seen db v.
Proof.
  intros Hs. pose proof (doc_step_frame at_ seen X o db x db' Hs) as Hf.
  destruct (target_of o) as [[c0 i0]|] eqn:Ht; [|left; apply Hf].
  destruct (decide ((c, i) = (c0, i0))) as [[= -> ->]|Hne]; [|left; by apply Hf].
  assert (Hput : forall f, put at_ seen c0 i0 f db db' -> exists f v, at_ db' c0 i0 = Some (f, v) /\ ~ seen db v).
  { intros f [_ (v & ? & ?)]. eauto. }
  destruct o; simplify_eq/=.
  - destruct x; simpl in Hs; [eauto|]. destruct Hs as [[Hu _]|]; eauto.
  - destruct x; simpl in Hs; [destruct Hs as (? & ? & ? & _ & _ & ?); eauto|].
    destruct Hs as [[Hu _]|(? & ? & ? & _ & _ & ?)]; eauto.
  - destruct x as [[]|]; simpl in Hs; [destruct Hs; eauto | destruct Hs as [_ [Hu _]]; eauto|].
    destruct Hs as [[Hu _]|[_ ?]]; eauto.
  - destruct x as [[]|]; simpl in Hs; [destruct Hs; eauto | destruct Hs as [_ [Hu _]]; eauto|].
    destruct Hs as [[Hu _]|[_ ?]]; eauto.
  - destruct x as [[]|]; simpl in Hs; [destruct Hs as [_ []]; eauto | destruct Hs as [_ [Hu _]]; eauto|].
    destruct Hs as [[Hu _]|[_ []]]; eauto.
  - destruct x; simpl in Hs; [destruct Hs; eauto|]. destruct Hs as [[Hu _]|[]]; eauto.
  - destruct x; simpl in Hs; [destruct Hs as (? & ? & _); eauto|].
    destruct Hs as [[Hu _]|(? & ? & _)]; eauto.
Qed.
