(* ===== verification/DocTable.v ===== *)
(** * A reference document service

    The smallest service that meets the contract of [DocStore]: a finite map from
    names to versioned documents that never fails.  The development uses it where a
    statement needs some service to run on; the service of the tests, as the code has
    it, is in [FakeFirestore]. *)

From S2P Require Import Prelude Prog Json Firestore Externals Sys DocStore.

#[local] Open Scope Z_scope.

Record Table := mkTable { tb_docs : gmap (string * string) (Value * string); tb_next : nat }.
Definition empty_table : Table := mkTable ∅ 0.

Definition write (c i : string) (f : Value) (t : Table) : Table :=
  mkTable (<[(c, i) := (f, unary (tb_next t))]> (tb_docs t)) (S (tb_next t)).
Definition erase (c i : string) (t : Table) : Table := mkTable (delete (c, i) (tb_docs t)) (tb_next t).
Definition over (new base : Value) : Value :=
  match new with Object m => foldr (fun kv b => set_field b kv.1 kv.2) base m | _ => base end.
Definition object_or_empty (d : option (Value * string)) : Value := default (Object []) (fst <$> d).

Definition rows_of (c : string) (keep : Value -> bool) (t : Table) : list (string * Value * string) :=
  omap (fun kd : (string * string) * (Value * string) =>
          if bool_decide (kd.1.1 = c) && keep kd.2.1 then Some (kd.1.2, kd.2.1, kd.2.2) else None)
    (map_to_list (tb_docs t)).
Definition version_is (d : option (Value * string)) (v : string) : bool := bool_decide (snd <$> d = Some v).

Definition table_handle X (o : fsE X) (t : Table) : X * Table :=
  match o in fsE X return X * Table with
  | SetDoc c i f => (Ok tt, write c i f t)
  | UpdateField c i k v =>
      match tb_docs t !! (c, i) with
      | Some (f, _) => (Ok tt, write c i (set_field f k v) t)
      | None => (Err "404", t)
      end
  | GetDoc c i => (Ok (fst <$> tb_docs t !! (c, i)), t)
  | GetDocWithUpdateTime c i => (Ok (tb_docs t !! (c, i)), t)
  | SetDocIfUnchanged c i f v =>
      if version_is (tb_docs t !! (c, i)) v then (Ok true, write c i f t) else (Ok false, t)
  | CreateIfAbsent c i f =>
      match tb_docs t !! (c, i) with None => (Ok true, write c i f t) | Some _ => (Ok false, t) end
  | DeleteDocIfUnchanged c i v =>
      if version_is (tb_docs t !! (c, i)) v then (Ok true, erase c i t) else (Ok false, t)
  | QueryEq c k v =>
      (Ok (rows_of c (fun f => bool_decide (field_str f k = Some v)) t).*1, t)
  | ListRecentOrdered c k n =>
      (Ok (take (Z.to_nat n) (sort_by (fun a b => Z.compare (default 0 (field_ts_secs b.2 k)) (default 0 (field_ts_secs a.2 k)))
             (rows_of c (fun _ => true) t).*1)), t)
  | ListCollection c => (Ok (rows_of c (fun _ => true) t), t)
  | DeleteDoc c i => (Ok tt, erase c i t)
  | MergeDoc c i f => (Ok tt, write c i (over f (object_or_empty (tb_docs t !! (c, i)))) t)
  | AccessSecret name => (Ok None, t)
  | FcmSend message => (Ok tt, t)
  end.
Definition table_backend : FsBackend := {| fs_db := Table; fs_handle := table_handle |}.

(** ** It meets the contract *)

Definition table_at (t : Table) (c i : string) : option (Value * string) := tb_docs t !! (c, i).
Definition table_seen (t : Table) (v : string) : Prop := exists n, (n < tb_next t)%nat /\ v = unary n.
Definition table_ok (t : Table) : Prop :=
  map_Forall (fun _ d => is_object d.1 /\ table_seen t d.2) (tb_docs t).

Lemma unary_inj n m : unary n = unary m -> n = m.
Proof. revert m. induction n as [|n IH]; intros [|m] [=]; [done|]. f_equal. by apply IH. Qed.

Lemma empty_table_ok : table_ok empty_table.
Proof. apply map_Forall_empty. Qed.

Lemma seen_next t v n : table_seen t v -> (tb_next t <= n)%nat -> table_seen (mkTable (tb_docs t) n) v.
Proof. intros (k & ? & ->) ?. exists k. simpl. split; [lia | done]. Qed.

Lemma write_ok c i f t : table_ok t -> is_object f -> table_ok (write c i f t).
Proof.
  intros Hok Hf. apply map_Forall_insert_2; simpl.
  - split; [done|]. exists (tb_next t). simpl. split; [lia | done].
  - intros k d Hd. destruct (Hok k d Hd) as [? (n & ? & ->)]. split; [done|]. exists n. simpl. split; [lia | done].
Qed.
Lemma erase_ok c i t : table_ok t -> table_ok (erase c i t).
Proof. intros Hok k d Hd. unfold erase in Hd. cbn [tb_docs] in Hd. apply lookup_delete_Some in Hd as [_ Hd]. exact (Hok k d Hd). Qed.

Lemma write_put c i f t : put table_at table_seen c i f t (write c i f t).
Proof.
  split; [split|].
  - intros c' i' Hne. unfold table_at, write. simpl. by rewrite lookup_insert_ne by congruence.
  - intros v (n & ? & ->). exists n. simpl. split; [lia | done].
  - exists (unary (tb_next t)). split.
    + intros (n & ? & Hn%unary_inj). lia.
    + unfold table_at, write. simpl. by rewrite lookup_insert_eq.
Qed.
Lemma erase_removed c i t : removed table_at table_seen c i t (erase c i t).
Proof.
  split; [split|].
  - intros c' i' Hne. unfold table_at, erase. simpl. by rewrite lookup_delete_ne by congruence.
  - done.
  - unfold table_at, erase. simpl. by rewrite lookup_delete_eq.
Qed.
Lemma table_same t : unchanged table_at table_seen t t.
Proof. done. Qed.

Lemma over_overlay m base : is_object base -> overlay (Object m) base (over (Object m) base) /\ is_object (over (Object m) base).
Proof.
  intros Hb. induction m as [|[k v] m [IH Ho]]; simpl; [done|]. destruct Ho as [m' Hm'].
  unfold over in *. split; [|rewrite Hm'; by eexists].
  intros k'. simpl. destruct (decide (k = k')) as [->|Hne].
  - by rewrite get_set_field_eq by (right; by eexists).
  - rewrite get_set_field_ne by done. apply IH.
Qed.

Lemma rows_of_lists c keep t :
  lists table_at t c (fun f => keep f = true) (rows_of c keep t).*1.
Proof.
  unfold lists, rows_of, table_at. split.
  - pose proof (NoDup_fst_map_to_list (tb_docs t)) as Hnd. induction (map_to_list (tb_docs t)) as [|[[c' i] [f v]] l IH]; [constructor|].
    apply NoDup_cons in Hnd as [Hni Hnd]. cbn [omap list_omap fst snd]. case_bool_decide; simpl; [|by apply IH].
    destruct (keep f); simpl; [|by apply IH]. apply NoDup_cons. split; [|by apply IH].
    intros Hin. apply Hni. apply list_elem_of_fmap in Hin as ([i1 f1] & Hi & Hin).
    apply list_elem_of_fmap in Hin as ([[i2 f2] v2] & [= -> ->] & Hin). simpl in Hi. subst i2.
    apply list_elem_of_omap in Hin as ([[c3 i3] [f3 v3]] & Hin & Heq). simpl in Heq. case_bool_decide; simplify_eq/=.
    destruct (keep f3); simplify_eq/=. apply list_elem_of_fmap. by eexists ((_, _), _).
  - intros i f. rewrite list_elem_of_fmap. split.
    + intros ([[i2 f2] v2] & [= -> ->] & Hin). apply list_elem_of_omap in Hin as ([[c3 i3] [f3 v3]] & Hin & Heq).
      simpl in Heq. case_bool_decide; simplify_eq/=. destruct (keep f3) eqn:Hk; simplify_eq/=. split; [done|].
      exists v2. by apply elem_of_map_to_list in Hin.
    + intros [Hk (v & Hv)]. exists (i, f, v). split; [done|]. apply list_elem_of_omap.
      exists ((c, i), (f, v)). split; [by apply elem_of_map_to_list|]. simpl. rewrite bool_decide_true by done. by rewrite Hk.
Qed.

Lemma version_is_true t c i v : version_is (tb_docs t !! (c, i)) v = true <-> has_version table_at t c i v.
Proof.
  unfold version_is, has_version, table_at. rewrite bool_decide_eq_true.
  destruct (tb_docs t !! (c, i)) as [[f v']|]; simpl; split; [intros [= ->]; eauto | intros [? [= ? ?]]; by subst | done | by intros [? ?]].
Qed.

Lemma table_doc_law X (o : fsE X) t x t' :
  table_ok t -> named o = true -> table_handle X o t = (x, t') ->
  table_ok t' /\ doc_step table_at table_seen o t x t'.
Proof.
  intros Hok Hn. unfold named in Hn. apply andb_true_iff in Hn as [_ Hf].
  destruct o as [c i f|c i k v|c i|c i|c i f v|c i f|c i v|c k v|c k n|c|c i|c i f|name|message]; cbn [table_handle doc_step fields_of] in *.
  - intros [= <- <-]. destruct f; try done. split; [apply write_ok; [done | by eexists] | apply write_put].
  - destruct (tb_docs t !! (c, i)) as [[f ver]|] eqn:Hd; intros [= <- <-]; [|by split; [|left]].
    destruct (Hok _ _ Hd) as [[m Hm] _]. simpl in Hm. subst f. split; [apply write_ok; [done | by eexists]|].
    exists (Object m), ver, (set_field (Object m) k v). split; [done|]. split; [|apply write_put].
    apply (over_overlay [(k, v)]). by eexists.
  - intros [= <- <-]. split; [done|]. split; [done|]. by intros a [= <-].
  - intros [= <- <-]. split; [done|]. split; [done|]. by intros a [= <-].
  - destruct (version_is _ v) eqn:Hv; intros [= <- <-].
    + destruct f; try done. split; [apply write_ok; [done | by eexists]|]. split; [by apply version_is_true | apply write_put].
    + split; [done|]. split; [|done]. rewrite <- version_is_true. congruence.
  - destruct (tb_docs t !! (c, i)) eqn:Hd; intros [= <- <-].
    + split; [done|]. split; [|done]. unfold table_at. congruence.
    + destruct f; try done. split; [apply write_ok; [done | by eexists]|]. split; [done | apply write_put].
  - destruct (version_is _ v) eqn:Hv; intros [= <- <-].
    + split; [by apply erase_ok|]. split; [by apply version_is_true | apply erase_removed].
    + split; [done|]. split; [|done]. rewrite <- version_is_true. congruence.
  - intros [= <- <-]. split; [done|]. split; [done|]. intros a [= <-] _.
    destruct (rows_of_lists c (fun f => bool_decide (field_str f k = Some v)) t) as [Hnd Hl]. split; [done|].
    intros i f. rewrite Hl. by rewrite bool_decide_eq_true.
  - by intros [= <- <-].
  - intros [= <- <-]. split; [done|]. split; [done|]. intros a [= <-] _.
    destruct (rows_of_lists c (fun _ => true) t) as [Hnd Hl]. split; [done|]. intros i f. rewrite Hl. naive_solver.
  - intros [= <- <-]. split; [by apply erase_ok | apply erase_removed].
  - intros [= <- <-]. destruct f as [| | | | |m]; try done.
    assert (Hb : is_object (object_or_empty (tb_docs t !! (c, i)))).
    { destruct (tb_docs t !! (c, i)) as [d|] eqn:Hd; [by apply (Hok _ _ Hd) | by eexists]. }
    destruct (over_overlay m _ Hb) as [Hov Ho]. split; [by apply write_ok|].
    eexists. split; [apply write_put|]. intros _. exact Hov.
  - by intros [= <- <-].
  - by intros [= <- <-].
Qed.

#[export] Instance table_docs : DocDb table_backend.
Proof.
  refine {| doc_at := (table_at : @fs_db table_backend -> _); seen := (table_seen : @fs_db table_backend -> _);
            db_ok := (table_ok : @fs_db table_backend -> _) |}.
  - intros db c i f v Hok Hd. by apply (Hok (c, i) (f, v)).
  - intros db c i f v Hok Hd. by apply (Hok (c, i) (f, v)).
  - intros X o db x db' Hok Hn Hh. by apply table_doc_law.
Defined.
