(* ===== verification/CasFacts.v ===== *)
(** * Single use over the shared database

    Several processes work on the same documents.  A component that spends a
    document (a back-channel request, an authorization code, a refresh token, a
    mandate, an interaction, a nonce) reads it, checks that it is still open and
    writes or deletes it under the version it read.  Whatever the interleaving, only
    one of them succeeds.  And a property of one document that every such write preserves
    holds in every reachable state. *)


From S2P Require Import Prelude Prog Json Firestore Externals Sys DocStore.

#[local] Open Scope Z_scope.

(** Time passes; other work of the process draws identifiers and random bytes.  The
    writers of the database are all among the threads. *)
Inductive sys_env `{FsBackend} : sys_world -> sys_world -> Prop :=
| sys_tick w t : sw_clk w <= t -> sys_env w (mkSysWorld t (sw_uuid w) (sw_rand w) (sw_db w))
| sys_draw w n m : (sw_uuid w <= n)%nat -> (sw_rand w <= m)%nat ->
    sys_env w (mkSysWorld (sw_clk w) n m (sw_db w)).

(** The database operation of an event. *)
Definition fs_event (P : forall X, fsE X -> X -> Prop) (ev : event sysE) : Prop :=
  match ev with
  | Ev _ e x => match e in sysE X return X -> Prop with FsOp o => P _ o | _ => fun _ => False end x
  | EvEnv => False
  end.
Definition db_event (P : forall X, fsE X -> X -> Prop) (ev : event sysE) : Prop :=
  match ev with
  | Ev _ e x => match e in sysE X return X -> Prop with FsOp o => P _ o | _ => fun _ => True end x
  | EvEnv => True
  end.
Definition named_event : event sysE -> Prop := db_event (fun X o _ => named o = true).

Lemma filter_split {A} (P : A -> Prop) `{forall x, Decision (P x)} (l l1 l2 : list A) x :
  filter P l = l1 ++ x :: l2 -> exists k1 k2, l = k1 ++ x :: k2 /\ filter P k1 = l1 /\ filter P k2 = l2.
Proof.
  revert l1. induction l as [|y l IH]; intros l1; [by destruct l1|].
  rewrite filter_cons. destruct (decide (P y)) as [Hp|Hp].
  - destruct l1 as [|z l1]; cbn [app]; intros [= -> Hl].
    + by exists [], l.
    + apply IH in Hl as (k1 & k2 & -> & <- & <-). exists (z :: k1), k2. split; [done|]. split; [|done].
      by rewrite filter_cons_True.
  - intros Hl. apply IH in Hl as (k1 & k2 & -> & <- & <-). exists (y :: k1), k2. split; [done|]. split; [|done].
    by rewrite filter_cons_False.
Qed.

Lemma lookup_split {A} (l : list A) n x :
  l !! n = Some x -> exists l1 l2, l = l1 ++ x :: l2 /\ length l1 = n.
Proof. intros Hn. apply list_elem_of_split_length in Hn as (l1 & l2 & -> & ->). by exists l1, l2. Qed.
Lemma lookup_split3 {A} (l : list A) a b c x y z :
  (a < b < c)%nat -> l !! a = Some x -> l !! b = Some y -> l !! c = Some z ->
  exists l1 l2 l3 l4, l = l1 ++ x :: l2 ++ y :: l3 ++ z :: l4.
Proof.
  intros Hlt Ha Hb Hc. apply lookup_split in Ha as (l1 & r & -> & <-).
  rewrite lookup_app_r in Hb, Hc by lia. rewrite lookup_cons_ne_0 in Hb, Hc by lia.
  apply lookup_split in Hb as (l2 & r' & -> & Hl2).
  rewrite lookup_app_r in Hc by lia. rewrite lookup_cons_ne_0 in Hc by lia.
  apply lookup_split in Hc as (l3 & l4 & -> & _). by exists l1, l2, l3, l4.
Qed.

(** How a document is spent: by marking it, and then it stays; by marking it, and it may
    also be deleted; or by deleting it. *)
Inductive ending : Type := Marked | MarkedOrDeleted | Deleted.

Section cas.
Context `{Externals} (B : FsBackend) `{!DocDb B}.

Definition db_of (w : sys_world) : fs_db := sw_db w.

Lemma sys_step_db X (o : fsE X) w x w' :
  sys_handler _ (FsOp o) w = (x, w') -> fs_handle _ o (sw_db w) = (x, sw_db w').
Proof. unfold sys_handler. destruct (fs_handle X o (sw_db w)) as [y db]. by intros [= -> <-]. Qed.

(** One operation, and the clock, alone. *)
Lemma fs_run X (o : fsE X) w x w' :
  db_ok (sw_db w) -> run sys_handler (fs o) w = (x, w') -> named o = true ->
  db_ok (sw_db w') /\ doc_step doc_at seen o (sw_db w) x (sw_db w') /\ sw_clk w' = sw_clk w.
Proof.
  unfold fs. rewrite run_trigger. intros Hdb Hr Hn. pose proof (sys_step_db X o w x w' Hr) as Hh.
  destruct (doc_law X o _ x _ Hdb Hn Hh). split; [done|]. split; [done|].
  unfold sys_handler in Hr. destruct (fs_handle X o (sw_db w)). injection Hr as _ <-. done.
Qed.
Lemma now_run w : run sys_handler now_secs w = (secs_of (sw_clk w), w).
Proof. done. Qed.

(** A predicate on the database that the operations of a trace preserve. *)
Lemma db_exec (ok : forall X, fsE X -> X -> Prop) (P : fs_db -> Prop) s tr s' :
  (forall X (o : fsE X) db x db', db_ok db -> named o = true -> ok X o x ->
     doc_step doc_at seen o db x db' -> P db -> P db') ->
  wexec sys_handler sys_env s tr s' -> Forall named_event tr -> Forall (db_event ok) tr ->
  db_ok (sw_db s) /\ P (sw_db s) -> db_ok (sw_db s') /\ P (sw_db s').
Proof.
  intros Hp Hw. induction Hw as [s | s i X e x s1 tr s2 He Hw IH | s s1 tr s2 Henv Hw IH]; intros Hn Hok Hs; [done|..];
    apply Forall_cons in Hn as [Hn Hns]; apply Forall_cons in Hok as [Ho Hos]; apply IH; try done.
  - destruct e as [| | | X o]; try (simpl in He; injection He as ? ?; subst; exact Hs).
    apply sys_step_db in He. destruct Hs as [Hdb HP].
    destruct (doc_law X o (sw_db s) x (sw_db s1) Hdb Hn He) as [Hdb' Hst]. split; [done|].
    exact (Hp X o _ x _ Hdb Hn Ho Hst HP).
  - destruct Henv; exact Hs.
Qed.

(** ** A version read *)

(** The version [v] read with the content [f]: either the document still is what was
    read, or that version is gone for good. *)
Definition current_or_gone (c i : string) (f : Value) (v : string) (db : fs_db) : Prop :=
  doc_at db c i = Some (f, v) \/ seen db v /\ ~ has_version doc_at db c i v.

Lemma seen_step X (o : fsE X) db x db' v : doc_step doc_at seen o db x db' -> seen db v -> seen db' v.
Proof.
  intros Hs Hv. apply doc_step_frame in Hs. destruct (target_of o) as [[c0 i0]|]; by apply Hs.
Qed.
Lemma current_or_gone_step c i f v X (o : fsE X) db x db' :
  db_ok db -> doc_step doc_at seen o db x db' -> current_or_gone c i f v db -> current_or_gone c i f v db'.
Proof.
  intros Hdb Hs Hc.
  assert (Hv : seen db v). { destruct Hc as [Hd|[? _]]; [by eapply doc_seen | done]. }
  pose proof (seen_step X o db x db' v Hs Hv) as Hv'.
  destruct (doc_step_version doc_at seen X o db x db' c i Hs) as [Heq|[Hnone|(f' & v' & Hd & Hn)]].
  - unfold current_or_gone, has_version. rewrite Heq. destruct Hc as [?|[_ ?]]; auto.
  - right. split; [done|]. intros [g Hg]. congruence.
  - right. split; [done|]. intros [g Hg]. congruence.
Qed.

(** ** Spending a document *)

Context (c i : string) (open : Value -> bool) (ends : ending).

(** A read of the open document, in version [v]. *)
Definition read_open (f : Value) (v : string) : event sysE -> Prop :=
  fs_event (fun X o => match o in fsE X return X -> Prop with
    | GetDocWithUpdateTime c' i' => fun r => c' = c /\ i' = i /\ r = Ok (Some (f, v)) /\ open f = true
    | _ => fun _ => False
    end).
(** A conditional write under version [v] that succeeds and closes the document. *)
Definition spends (v : string) : event sysE -> Prop :=
  fs_event (fun X o => match o in fsE X return X -> Prop with
    | SetDocIfUnchanged c' i' f' v' => fun r => c' = c /\ i' = i /\ v' = v /\ r = Ok true /\ ends <> Deleted /\ open f' = false
    | DeleteDocIfUnchanged c' i' v' => fun r => c' = c /\ i' = i /\ v' = v /\ r = Ok true /\ ends <> Marked
    | _ => fun _ => False
    end).
(** Merging [f] into a spent document leaves it spent. *)
Definition keeps_closed (f : Value) : Prop :=
  forall f0 f', open f0 = false -> overlay f f0 f' -> open f' = false.
(** No operation of the trace opens the document again. *)
Definition not_reopening X (o : fsE X) (x : X) : Prop :=
  match o with
  | SetDoc c' i' f | CreateIfAbsent c' i' f => (c', i') = (c, i) -> ends <> Deleted /\ open f = false
  | SetDocIfUnchanged c' i' f _ => (c', i') = (c, i) -> ends = Deleted \/ open f = false
  | UpdateField c' i' k v => (c', i') = (c, i) -> keeps_closed (Object [(k, v)])
  | MergeDoc c' i' f => (c', i') = (c, i) -> ends = Marked /\ f <> Object [] /\ keeps_closed f
  | DeleteDoc c' i' | DeleteDocIfUnchanged c' i' _ => (c', i') = (c, i) -> ends <> Marked
  | _ => True
  end.
Definition closed (db : fs_db) : Prop :=
  match doc_at db c i with Some (f, _) => ends <> Deleted /\ open f = false | None => ends <> Marked end.

Lemma unchanged_closed db db' : unchanged doc_at seen db db' -> closed db -> closed db'.
Proof. intros [Hd _]. unfold closed. by rewrite Hd. Qed.
Lemma only_closed c' i' db db' :
  ((c', i') = (c, i) -> closed db') -> only doc_at seen c' i' db db' -> closed db -> closed db'.
Proof.
  intros He [Ho _]. destruct (decide ((c', i') = (c, i))) as [Hc|Hne]; [intros _; by apply He|].
  unfold closed. by rewrite Ho by congruence.
Qed.
Lemma put_closed f db db' c' i' :
  ((c', i') = (c, i) -> ends <> Deleted /\ open f = false) -> put doc_at seen c' i' f db db' -> closed db -> closed db'.
Proof.
  intros Hf [Ho (v & _ & Hd)]. revert Ho. apply only_closed. intros [= -> ->]. unfold closed. rewrite Hd. by apply Hf.
Qed.
Lemma removed_closed c' i' db db' :
  ((c', i') = (c, i) -> ends <> Marked) -> removed doc_at seen c' i' db db' -> closed db -> closed db'.
Proof.
  intros Hf [Ho Hd]. revert Ho. apply only_closed. intros [= -> ->]. unfold closed. rewrite Hd. by apply Hf.
Qed.
Lemma updated_closed c' i' k v db db' :
  ((c', i') = (c, i) -> keeps_closed (Object [(k, v)])) -> updated doc_at seen c' i' k v db db' -> closed db -> closed db'.
Proof.
  intros Hk (f & ver & f' & Hd & Hov & Hp) Hcl. eapply put_closed; [|exact Hp | exact Hcl].
  intros [= -> ->]. unfold closed in Hcl. rewrite Hd in Hcl. destruct Hcl as [He Hcl]. split; [done|].
  by eapply Hk; [| |exact Hov].
Qed.
Lemma merged_closed c' i' f db db' :
  ((c', i') = (c, i) -> ends = Marked /\ f <> Object [] /\ keeps_closed f) ->
  merged_into doc_at seen c' i' f db db' -> closed db -> closed db'.
Proof.
  intros Hk (f' & Hp & Hov) Hcl. eapply put_closed; [|exact Hp | exact Hcl].
  intros [= -> ->]. destruct (Hk eq_refl) as (Hends & Hne & Hkc). split; [congruence|]. eapply Hkc; [|by apply Hov].
  unfold closed in Hcl. destruct (doc_at db c i) as [[g v]|]; simpl; [by destruct Hcl | congruence].
Qed.

Lemma set_if_closed c' i' f v r db db' :
  ((c', i') = (c, i) -> ends = Deleted \/ open f = false) ->
  conditional doc_at seen (has_version doc_at db c' i' v) (put doc_at seen c' i' f) db r db' -> closed db -> closed db'.
Proof.
  intros Hf Hs Hcl.
  assert (Hput : has_version doc_at db c' i' v -> put doc_at seen c' i' f db db' -> closed db').
  { intros [g Hg] Hp. eapply put_closed; [|exact Hp | exact Hcl]. intros [= -> ->]. unfold closed in Hcl.
    rewrite Hg in Hcl. destruct Hcl as [He _]. split; [done|]. by destruct (Hf eq_refl). }
  destruct r as [[]|e]; simpl in Hs.
  - destruct Hs. auto.
  - destruct Hs. by eapply unchanged_closed.
  - destruct Hs as [?|[? ?]]; [by eapply unchanged_closed | auto].
Qed.
Lemma conditional_closed cond effect db r db' :
  (effect db db' -> closed db -> closed db') ->
  conditional doc_at seen cond effect db r db' -> closed db -> closed db'.
Proof.
  intros He. destruct r as [[]|e]; simpl.
  - intros [_ ?]. by apply He.
  - intros [_ ?]. by eapply unchanged_closed.
  - intros [?|[_ ?]]; [by eapply unchanged_closed | by apply He].
Qed.
Lemma plain_write_closed effect db r db' :
  (effect db db' -> closed db -> closed db') ->
  plain_write doc_at seen effect db r db' -> closed db -> closed db'.
Proof.
  intros He. destruct r as [[]|e]; simpl; [by apply He|]. intros [?|?]; [by eapply unchanged_closed | by apply He].
Qed.
Lemma closed_step X (o : fsE X) db x db' :
  not_reopening X o x -> doc_step doc_at seen o db x db' -> closed db -> closed db'.
Proof.
  intros Hn Hs. destruct o; simpl in *.
  all: try (destruct Hs as [Hu _]; by apply unchanged_closed).
  all: try (by apply unchanged_closed).
  all: try (revert Hs; by apply set_if_closed).
  all: try (revert Hs; apply conditional_closed; by apply put_closed).
  all: try (revert Hs; apply conditional_closed; by apply removed_closed).
  - revert Hs. apply plain_write_closed. by apply put_closed.
  - revert Hs. apply plain_write_closed. by apply updated_closed.
  - revert Hs. apply plain_write_closed. by apply removed_closed.
  - revert Hs. apply plain_write_closed. by apply merged_closed.
Qed.

Lemma spends_step v j X (e : sysE X) x w w' :
  spends v (Ev j e x) -> sys_handler _ e w = (x, w') -> db_ok (sw_db w) -> named_event (Ev j e x) ->
  has_version doc_at (sw_db w) c i v /\ closed (sw_db w').
Proof.
  destruct e as [| | | X o]; simpl; try done. intros Hsp He Hdb Hn. apply (sys_step_db X o w x w') in He.
  destruct (doc_law X o _ x _ Hdb Hn He) as [_ Hs]. clear He.
  destruct o; simpl in *; try done.
  - destruct Hsp as (-> & -> & -> & -> & He & Hf). destruct Hs as [Hv [_ (v' & _ & Hd)]]. split; [done|].
    unfold closed. by rewrite Hd.
  - destruct Hsp as (-> & -> & -> & -> & Hf). destruct Hs as [Hv [_ Hd]]. split; [done|].
    unfold closed. by rewrite Hd.
Qed.
Lemma read_open_step f v j X (e : sysE X) x w w' :
  read_open f v (Ev j e x) -> sys_handler _ e w = (x, w') -> db_ok (sw_db w) -> named_event (Ev j e x) ->
  doc_at (sw_db w') c i = Some (f, v).
Proof.
  destruct e as [| | | X o]; simpl; try done. intros Hsp He Hdb Hn. apply (sys_step_db X o w x w') in He.
  destruct (doc_law X o _ x _ Hdb Hn He) as [_ Hs]. clear He.
  destruct o; simpl in *; try done.
  destruct Hsp as (-> & -> & -> & Hf). destruct Hs as [[Hu _] Hr]. rewrite Hu. symmetry. by apply Hr.
Qed.

(** Reading the open document, then spending it under the version read. *)
Definition spent_by (tr : list (event sysE)) : Prop :=
  exists tr1 er tr2 es tr3 f v,
    tr = tr1 ++ er :: tr2 ++ es :: tr3 /\ read_open f v er /\ open f = true /\ (is_object f -> spends v es).

Definition quiet_event (ev : event sysE) : Prop := named_event ev /\ db_event not_reopening ev.

Lemma exec_quiet P s tr s' :
  (forall X (o : fsE X) db x db', db_ok db -> not_reopening X o x -> doc_step doc_at seen o db x db' -> P db -> P db') ->
  wexec sys_handler sys_env s tr s' -> Forall quiet_event tr ->
  db_ok (sw_db s) -> P (sw_db s) -> db_ok (sw_db s') /\ P (sw_db s').
Proof.
  intros Hp Hw Hq Hdb HP. eapply (db_exec not_reopening); [|exact Hw|..].
  - intros X o db x db' ? _ ? ?. by eapply Hp.
  - eapply Forall_impl; [exact Hq | by intros ? [? _]].
  - eapply Forall_impl; [exact Hq | by intros ? [_ ?]].
  - done.
Qed.

Lemma exec_step_ev s ev tr s' :
  wexec sys_handler sys_env s (ev :: tr) s' -> ev <> EvEnv ->
  exists j X (e : sysE X) x s1, ev = Ev j e x /\ sys_handler _ e s = (x, s1) /\ wexec sys_handler sys_env s1 tr s'.
Proof. intros Hw Hne. inversion Hw; subst; [|done]. by exists i0, X, e, x, s'0. Qed.

Lemma spends_not_env v ev : spends v ev -> ev <> EvEnv.
Proof. by destruct ev. Qed.
Lemma read_not_env f v ev : read_open f v ev -> ev <> EvEnv.
Proof. by destruct ev. Qed.

Lemma quiet_step j X (e : sysE X) x w w' P :
  (forall X (o : fsE X) db x db', db_ok db -> not_reopening X o x -> doc_step doc_at seen o db x db' -> P db -> P db') ->
  sys_handler _ e w = (x, w') -> quiet_event (Ev j e x) -> db_ok (sw_db w) -> P (sw_db w) ->
  db_ok (sw_db w') /\ P (sw_db w').
Proof.
  intros Hp He Hq Hdb HP. eapply (exec_quiet P w [Ev j e x] w'); try done.
  - by econstructor; [|constructor].
  - by constructor.
Qed.

(** After a successful conditional write no later one under an open version succeeds. *)
Lemma spent_for_good s tr1 es tr2 er tr3 es' tr4 s' f v v' :
  db_ok (sw_db s) ->
  wexec sys_handler sys_env s (tr1 ++ es :: tr2 ++ er :: tr3 ++ es' :: tr4) s' ->
  Forall quiet_event (tr1 ++ es :: tr2 ++ er :: tr3 ++ es' :: tr4) ->
  spends v es -> read_open f v' er -> ~ spends v' es'.
Proof.
  intros Hdb Hw Hq Hs Hr Hs'.
  apply wexec_app in Hw as (s1 & Hw1 & Hw). apply Forall_app in Hq as [Hq1 Hq].
  destruct (exec_quiet (fun _ => True) s tr1 s1) as [Hdb1 _]; try done.
  apply exec_step_ev in Hw as (j & X & e & x & s2 & -> & He & Hw); [|by eapply spends_not_env].
  apply Forall_cons in Hq as [Hq2 Hq]. destruct (spends_step v j X e x s1 s2 Hs He Hdb1 (proj1 Hq2)) as [_ Hcl].
  destruct (quiet_step j X e x s1 s2 (fun _ => True)) as [Hdb2 _]; try done.
  apply wexec_app in Hw as (s3 & Hw3 & Hw). apply Forall_app in Hq as [Hq3 Hq].
  destruct (exec_quiet closed s2 tr2 s3) as [Hdb3 Hcl3]; try done.
  { intros. by eapply closed_step. }
  apply exec_step_ev in Hw as (j' & Y & e' & y & s4 & -> & He' & Hw); [|by eapply read_not_env].
  apply Forall_cons in Hq as [Hq4 _].
  pose proof (read_open_step f v' j' Y e' y s3 s4 Hr He' Hdb3 (proj1 Hq4)) as Hd.
  destruct (quiet_step j' Y e' y s3 s4 closed) as [_ Hcl4]; try done.
  { intros. by eapply closed_step. }
  unfold closed in Hcl4. rewrite Hd in Hcl4. destruct e'; simpl in Hr; try done. destruct o; simpl in Hr; try done.
  destruct Hr as (_ & _ & _ & Hr). destruct Hcl4. congruence.
Qed.
Lemma spent_after_read s tr1 er tr2 es tr3 es' tr4 s' f v v' :
  db_ok (sw_db s) ->
  wexec sys_handler sys_env s (tr1 ++ er :: tr2 ++ es :: tr3 ++ es' :: tr4) s' ->
  Forall quiet_event (tr1 ++ er :: tr2 ++ es :: tr3 ++ es' :: tr4) ->
  spends v es -> read_open f v' er -> open f = true -> ~ spends v' es'.
Proof.
  intros Hdb Hw Hq Hs Hr Hf Hs'.
  assert (Hcg : forall X (o : fsE X) db x db', db_ok db -> not_reopening X o x -> doc_step doc_at seen o db x db' ->
    current_or_gone c i f v' db -> current_or_gone c i f v' db') by (intros; by eapply current_or_gone_step).
  apply wexec_app in Hw as (s1 & Hw1 & Hw). apply Forall_app in Hq as [Hq1 Hq].
  destruct (exec_quiet (fun _ => True) s tr1 s1) as [Hdb1 _]; try done.
  apply exec_step_ev in Hw as (j & X & e & x & s2 & -> & He & Hw); [|by eapply read_not_env].
  apply Forall_cons in Hq as [Hq2 Hq]. pose proof (read_open_step f v' j X e x s1 s2 Hr He Hdb1 (proj1 Hq2)) as Hd.
  destruct (quiet_step j X e x s1 s2 (fun _ => True)) as [Hdb2 _]; try done.
  apply wexec_app in Hw as (s3 & Hw3 & Hw). apply Forall_app in Hq as [Hq3 Hq].
  destruct (exec_quiet (current_or_gone c i f v') s2 tr2 s3) as [Hdb3 Hc3]; try done; [by left|].
  apply exec_step_ev in Hw as (j' & Y & e' & y & s4 & -> & He' & Hw); [|by eapply spends_not_env].
  apply Forall_cons in Hq as [Hq4 Hq]. destruct (spends_step v j' Y e' y s3 s4 Hs He' Hdb3 (proj1 Hq4)) as [_ Hcl4].
  destruct (quiet_step j' Y e' y s3 s4 (current_or_gone c i f v')) as [Hdb4 Hc4]; try done.
  apply wexec_app in Hw as (s5 & Hw5 & Hw). apply Forall_app in Hq as [Hq5 Hq].
  destruct (exec_quiet (fun db => current_or_gone c i f v' db /\ closed db) s4 tr3 s5) as [Hdb5 [Hc5 Hcl5]]; try done.
  { intros Z o db z db' Ho Hno Hst [H1 H2]. split; [by eapply Hcg | by eapply closed_step]. }
  apply exec_step_ev in Hw as (k & Z & e2 & z & s6 & -> & He2 & _); [|by eapply spends_not_env].
  apply Forall_cons in Hq as [Hq6 _]. destruct (spends_step v' k Z e2 z s5 s6 Hs' He2 Hdb5 (proj1 Hq6)) as [Hv _].
  destruct Hc5 as [Hc5|[_ Hn]]; [|done]. unfold closed in Hcl5. rewrite Hc5 in Hcl5. destruct Hcl5. congruence.
Qed.

(** ** Threads *)

Lemma spent_by_positions th tr :
  spent_by (filter (of_thread th) tr) ->
  exists nr ns er es f v, (nr < ns)%nat /\ tr !! nr = Some er /\ tr !! ns = Some es /\
    of_thread th er /\ of_thread th es /\ read_open f v er /\ open f = true /\ (is_object f -> spends v es).
Proof.
  intros (t1 & er & t2 & es & t3 & f & v & Hf & Hr & Ho & Hs).
  assert (Her : er ∈ filter (of_thread th) tr) by (rewrite Hf; set_solver).
  assert (Hes : es ∈ filter (of_thread th) tr) by (rewrite Hf; set_solver).
  apply list_elem_of_filter in Her as [Her _]. apply list_elem_of_filter in Hes as [Hes _].
  apply filter_split in Hf as (k1 & k2 & -> & _ & Hf). apply filter_split in Hf as (k3 & k4 & -> & _ & _).
  exists (length k1), (length k1 + S (length k3))%nat, er, es, f, v.
  split; [lia|]. split; [by rewrite list_lookup_middle|]. split; [|done].
  rewrite lookup_app_r by lia. replace (length k1 + S (length k3) - length k1)%nat with (S (length k3)) by lia.
  simpl. by rewrite list_lookup_middle.
Qed.

Lemma read_object s tr s' nr er f v :
  db_ok (sw_db s) -> wexec sys_handler sys_env s tr s' -> Forall quiet_event tr ->
  tr !! nr = Some er -> read_open f v er -> is_object f.
Proof.
  intros Hdb Hw Hq Hn Hr. apply lookup_split in Hn as (l1 & l2 & -> & _).
  apply wexec_app in Hw as (s1 & Hw1 & Hw). apply Forall_app in Hq as [Hq1 Hq].
  destruct (exec_quiet (fun _ => True) s l1 s1) as [Hdb1 _]; try done.
  apply exec_step_ev in Hw as (j & X & e & x & s2 & -> & He & Hw); [|by eapply read_not_env].
  apply Forall_cons in Hq as [Hq2 _]. pose proof (read_open_step f v j X e x s1 s2 Hr He Hdb1 (proj1 Hq2)) as Hd.
  destruct (quiet_step j X e x s1 s2 (fun _ => True)) as [Hdb2 _]; try done.
  by eapply doc_object.
Qed.

Lemma one_spender_before s tr s' es nr ns ns' er es' f v v' :
  db_ok (sw_db s) -> wexec sys_handler sys_env s tr s' -> Forall quiet_event tr ->
  tr !! ns = Some es -> tr !! nr = Some er -> tr !! ns' = Some es' -> (ns < ns')%nat -> (nr < ns')%nat -> nr <> ns ->
  spends v es -> read_open f v' er -> open f = true -> ~ spends v' es'.
Proof.
  intros Hdb Hw Hq Hs Hr Hs' Hlt Hlt' Hne Hsp Hrd Hf. destruct (decide (nr < ns)%nat) as [Hb|Hb].
  - destruct (lookup_split3 tr nr ns ns' er es es') as (l1 & l2 & l3 & l4 & ->); [lia | done..|].
    by apply (spent_after_read s l1 er l2 es l3 es' l4 s' f v v').
  - destruct (lookup_split3 tr ns nr ns' es er es') as (l1 & l2 & l3 & l4 & ->); [lia | done..|].
    by apply (spent_for_good s l1 es l2 er l3 es' l4 s' f v v').
Qed.

(** Two threads never both spend the same open document. *)
Lemma one_spender {A} (ps ps' : list (prog sysE A)) s tr s' a b :
  db_ok (sw_db s) -> steps sys_handler sys_env (ps, s) tr (ps', s') -> Forall quiet_event tr -> a <> b ->
  spent_by (filter (of_thread a) tr) -> ~ spent_by (filter (of_thread b) tr).
Proof.
  intros Hdb Hst Hq Hne Ha Hb. apply steps_wexec in Hst. simpl in Hst.
  apply spent_by_positions in Ha as (nr & ns & er & es & f & v & Hlt & Hr & Hs & Hta & Hta' & Hrd & Hf & Hsp).
  apply spent_by_positions in Hb as (mr & ms & gr & gs & g & w & Hlt' & Hr' & Hs' & Htb & Htb' & Hrd' & Hg & Hsp').
  assert (Hof : is_object f) by (by eapply (read_object s tr s' nr er)).
  assert (Hog : is_object g) by (by eapply (read_object s tr s' mr gr)).
  specialize (Hsp Hof). specialize (Hsp' Hog).
  assert (Hd : forall ev : event sysE, of_thread a ev -> of_thread b ev -> False).
  { intros [] ? ?; simpl in *; [congruence | done]. }
  destruct (lt_eq_lt_dec ns ms) as [[Hc|Hc]|Hc].
  - eapply (one_spender_before s tr s' es mr ns ms gr gs g v w); try done.
    intros ->. assert (gr = es) as -> by congruence. exact (Hd es Hta' Htb).
  - subst. assert (gs = es) as -> by congruence. exact (Hd es Hta' Htb').
  - eapply (one_spender_before s tr s' gs nr ms ns er es f w v); try done.
    intros ->. assert (er = gs) as -> by congruence. exact (Hd gs Hta Htb').
Qed.

(** A program whose outcomes with [good] spend the document. *)
Definition spender {A} (good : A -> Prop) (p : prog sysE A) : Prop :=
  forall tr a, thread_path p tr (Ret a) -> good a -> spent_by tr.

Lemma one_good_outcome {A} (good : A -> Prop) (ps ps' : list (prog sysE A)) s tr s' i1 i2 p1 p2 a1 a2 :
  db_ok (sw_db s) -> steps sys_handler sys_env (ps, s) tr (ps', s') -> Forall quiet_event tr -> i1 <> i2 ->
  ps !! i1 = Some p1 -> ps !! i2 = Some p2 -> spender good p1 -> spender good p2 ->
  ps' !! i1 = Some (Ret a1) -> ps' !! i2 = Some (Ret a2) -> good a1 -> ~ good a2.
Proof.
  intros Hdb Hst Hq Hne H1 H2 Hs1 Hs2 Ha1 Ha2 Hg1 Hg2.
  destruct (steps_thread_path _ _ _ _ _ i1 p1 Hst H1) as (q1 & Hq1 & Hp1).
  destruct (steps_thread_path _ _ _ _ _ i2 p2 Hst H2) as (q2 & Hq2 & Hp2). simpl in *. simplify_eq.
  eapply one_spender; [exact Hdb | exact Hst | exact Hq | exact Hne | by eapply Hs1 | by eapply Hs2].
Qed.
End cas.

(** * Invariants of documents *)

Section protocol.
Context (c i : string) (good : Value -> Prop).

(** What a process that has read the pairs [K] may do next. *)
Definition fs_allowed (K : list (Value * string)) {X} (o : fsE X) : Prop :=
  named o = true /\
  match o with
  | SetDocIfUnchanged c' i' f' v => (c', i') = (c, i) -> exists f, (f, v) ∈ K /\ (good f -> good f')
  | CreateIfAbsent _ _ _ => True
  | _ => target_of o <> Some (c, i)
  end.
Definition allowed (K : list (Value * string)) {X} (e : sysE X) : Prop :=
  match e with FsOp o => fs_allowed K o | _ => True end.
(** What it knows after the answer. *)
Definition learn (K : list (Value * string)) {X} (e : sysE X) : X -> list (Value * string) :=
  match e in sysE X return X -> list (Value * string) with
  | FsOp o =>
      match o in fsE X return X -> list (Value * string) with
      | GetDocWithUpdateTime c' i' => fun r =>
          match r with
          | Ok (Some d) => if decide ((c', i') = (c, i)) then d :: K else K
          | _ => K
          end
      | _ => fun _ => K
      end
  | _ => fun _ => K
  end.
(** The process follows the protocol. *)
Fixpoint cas_keeps {A} (K : list (Value * string)) (p : prog sysE A) : Prop :=
  match p with
  | Ret _ => True
  | Vis e k => allowed K e /\ forall x, cas_keeps (learn K e x) (k x)
  end.

Lemma learn_incl K X (e : sysE X) x d : d ∈ K -> d ∈ learn K e x.
Proof.
  intros Hd. destruct e as [| | | X o]; try done. destruct o; try done. simpl.
  destruct x as [[?|]|]; try done. case_decide; [by right | done].
Qed.

Lemma cas_keeps_mono {A} (p : prog sysE A) : forall K K', K ⊆ K' -> cas_keeps K p -> cas_keeps K' p.
Proof.
  induction p as [|X e k IH]; simpl; [done|]. intros K K' Hs [Ha Hk]. split.
  - destruct e as [| | | X o]; try done. destruct Ha as [Hn Ha]. split; [done|].
    destruct o; try done. intros Heq. destruct (Ha Heq) as (f & Hf & Hg). exists f. split; [by apply Hs | done].
  - intros x. apply (IH x (learn K e x)); [|done]. intros d.
    destruct e as [| | | X o]; try apply Hs. destruct o; try apply Hs. simpl.
    destruct x as [[?|]|]; try apply Hs. case_decide; [|apply Hs].
    rewrite !elem_of_cons. intros [?|?]; [by left | right; by apply Hs].
Qed.

Lemma cas_keeps_bind {A B} (p : prog sysE A) (f : A -> prog sysE B) : forall K,
  cas_keeps K p -> (forall a, cas_keeps K (f a)) -> cas_keeps K (p ≫= f).
Proof.
  induction p as [a|X e k IH]; simpl; intros K Hp Hf; [apply Hf|]. destruct Hp as [Ha Hk]. split; [done|].
  intros x. apply IH; [apply Hk|]. intros a. apply (cas_keeps_mono _ K); [|apply Hf].
  intros d. apply learn_incl.
Qed.

Section run.
Context `{Externals} (B : FsBackend) `{!DocDb B}.

Definition doc_good (db : fs_db) : Prop := exists f v, doc_at db c i = Some (f, v) /\ good f.
Definition knows (db : fs_db) (K : list (Value * string)) : Prop :=
  Forall (fun d => current_or_gone B c i d.1 d.2 db) K.
Definition follows {A} (db : fs_db) (p : prog sysE A) : Prop := exists K, knows db K /\ cas_keeps K p.

Lemma knows_step K X (o : fsE X) db x db' :
  db_ok db -> doc_step doc_at seen o db x db' -> knows db K -> knows db' K.
Proof. intros Hdb Hs HK. apply (Forall_impl _ _ _ HK). intros d. by apply (current_or_gone_step B _ _ _ _ X o db x). Qed.

Lemma follows_step {A} (p : prog sysE A) X (o : fsE X) db x db' :
  db_ok db -> doc_step doc_at seen o db x db' -> follows db p -> follows db' p.
Proof. intros Hdb Hs (K & HK & Hp). exists K. split; [by apply (knows_step K X o db x) | done]. Qed.

Lemma learn_knows K X (o : fsE X) db x db' :
  db_ok db -> doc_step doc_at seen o db x db' -> knows db K -> knows db' (learn K (FsOp o) x).
Proof.
  intros Hdb Hs HK. pose proof (knows_step K X o db x db' Hdb Hs HK) as HK'.
  destruct o; try done. simpl. destruct x as [[[f v]|]|]; try done. case_decide as Heq; [|done].
  injection Heq as -> ->. constructor; [|done]. left. simpl in *. destruct Hs as [[Hu _] Hr].
  rewrite Hu. symmetry. by apply Hr.
Qed.

Lemma put_good f db db' : put doc_at seen c i f db db' -> good f -> doc_good db'.
Proof. intros [_ (v & _ & Hd)] Hg. by exists f, v. Qed.

Lemma doc_good_step K X (o : fsE X) db x db' :
  fs_allowed K o -> knows db K -> doc_step doc_at seen o db x db' -> doc_good db -> doc_good db'.
Proof.
  intros [_ Ha] HK Hs Hg. pose proof (doc_step_frame doc_at seen X o db x db' Hs) as Hf.
  assert (Hsame : (forall c' i', (c', i') = (c, i) -> doc_at db' c' i' = doc_at db c' i') -> doc_good db').
  { intros Heq. destruct Hg as (f & v & Hd & Hg). exists f, v. by rewrite Heq. }
  destruct (decide (target_of o = Some (c, i))) as [Ht|Ht].
  2:{ apply Hsame. intros c' i' Heq. destruct (target_of o) as [[c0 i0]|]; [|by apply Hf].
      apply Hf. congruence. }
  destruct o; cbn [target_of] in *; try (by destruct (Ha Ht)); injection Ht as -> ->.
  - destruct (Ha eq_refl) as (f & HfK & Hgg). apply (proj1 (Forall_forall _ _) HK) in HfK as HK'. cbn [fst snd] in HK'.
    assert (Hput : has_version doc_at db c i update_time /\ put doc_at seen c i fields db db' -> doc_good db').
    { intros [[f0 Hv] Hp]. apply (put_good fields db); [done|]. apply Hgg.
      destruct HK' as [Hd|[_ Hno]]; [|destruct Hno; by exists f0].
      destruct Hg as (f1 & v1 & Hd1 & Hg). congruence. }
    destruct x as [[]|]; simpl in Hs; [by apply Hput | apply Hsame | destruct Hs as [Hs|Hs]; [apply Hsame | by apply Hput]].
    + intros ? ? [= -> ->]. by apply Hs.
    + intros ? ? [= -> ->]. by apply Hs.
  - destruct Hg as (f & v & Hd & Hg). destruct x as [[]|]; simpl in Hs.
    + destruct Hs as [Hno _]. congruence.
    + apply Hsame. intros ? ? [= -> ->]. by apply Hs.
    + destruct Hs as [Hs|[Hno _]]; [|congruence]. apply Hsame. intros ? ? [= -> ->]. by apply Hs.
Qed.

Definition pool_ok {A} (cfg : list (prog sysE A) * sys_world) : Prop :=
  db_ok (sw_db cfg.2) /\ doc_good (sw_db cfg.2) /\ Forall (follows (sw_db cfg.2)) cfg.1.

Lemma pool_ok_step {A} (x y : list (prog sysE A) * sys_world) ev :
  step sys_handler sys_env x ev y -> pool_ok x -> pool_ok y.
Proof.
  intros Hs (Hdb & Hg & Hf). destruct Hs as [j X e k ps w x w' Hj He | ps w w' Henv]; unfold pool_ok in *; cbn [fst snd] in *.
  2:{ destruct Henv; by split_and!. }
  pose proof (proj1 (Forall_lookup _ _) Hf j _ Hj) as (K & HK & Ha & Hk). specialize (Hk x).
  destruct e as [| | | X o].
  1-3: simpl in He; injection He as <- <-; split_and!; try done; apply Forall_insert; [done|]; by exists K.
  pose proof (sys_step_db B X o w x w' He) as Hh. destruct Ha as [Hn Ha].
  destruct (doc_law X o _ x _ Hdb Hn Hh) as [Hdb' Hst]. split; [done|]. split.
  - by apply (doc_good_step K X o (sw_db w) x).
  - apply Forall_insert.
    + apply (Forall_impl _ _ _ Hf). intros p. by apply (follows_step p X o (sw_db w) x).
    + exists (learn K (FsOp o) x). split; [by apply (learn_knows K X o (sw_db w)) | done].
Qed.

Lemma pool_ok_steps {A} (x y : list (prog sysE A) * sys_world) tr :
  steps sys_handler sys_env x tr y -> pool_ok x -> pool_ok y.
Proof. induction 1 as [|x ev y tr z Hs _ IH]; [done|]. intros Hx. apply IH. by apply (pool_ok_step x y ev). Qed.
End run.
End protocol.
