(* ===== verification/Nonce.v ===== *)
(** * Single-use nonces

    [src/src/nonce.rs]: [NonceStore::claim] in its two implementations, in memory
    (with [Instant]s) and on Firestore. *)

From S2P Require Import Prelude Prog Json Calendar Firestore Externals Sys.

#[local] Open Scope Z_scope.

(** [HashMap<String, Instant>] is the map of the expiry of every claimed key. *)
Definition memory_claim (now : Z) (key : string) (ttl : Z) (m : gmap string Z) : bool * gmap string Z :=
  let g := filter (fun kv => now < kv.2) m in
  match g !! key with
  | Some _ => (false, g)
  | None => (true, <[key := now + ttl]> g)
  end.

(** [ttl_secs] is [ttl.as_secs()]; an error of the service refuses the key. *)
Definition firestore_claim (key : string) (ttl_secs : Z) : prog sysE bool :=
  now ← now_secs;
  r ← fs (CreateIfAbsent "nonces" key (Object [("expiresAt", fs_ts (rfc3339 (now + ttl_secs)))]));
  mret match r with Ok created => created | Err _ => false end.

(** * Properties *)

(** An unexpired claim is kept by every claim, and refuses its key. *)
Lemma memory_claim_keeps now key ttl m k exp :
  m !! k = Some exp -> now < exp -> (memory_claim now key ttl m).2 !! k = Some exp.
Proof.
  intros Hk Hlt. unfold memory_claim.
  assert (Hg : filter (fun kv : string * Z => now < kv.2) m !! k = Some exp).
  { by apply map_lookup_filter_Some. }
  destruct (filter _ m !! key) eqn:Hkey; simpl; [done|].
  rewrite lookup_insert_ne; [done | intros ->; congruence].
Qed.

Lemma memory_claim_spec now key ttl m :
  let fresh := match m !! key with Some exp => bool_decide (exp <= now) | None => true end in
  (memory_claim now key ttl m).1 = fresh /\
  (memory_claim now key ttl m).2 !! key =
    if fresh then Some (now + ttl) else m !! key.
Proof.
  unfold memory_claim. destruct (m !! key) as [exp|] eqn:Hk.
  - case_bool_decide as He; simpl.
    + rewrite (proj2 (map_lookup_filter_None _ _ _)); simpl.
      * by rewrite lookup_insert_eq.
      * right. intros e He'. simplify_eq/=. lia.
    + rewrite (proj2 (map_lookup_filter_Some _ _ _ exp)); [simpl | split; [done | simpl; lia]].
      split; [done|]. apply map_lookup_filter_Some. split; [done | simpl; lia].
  - rewrite (proj2 (map_lookup_filter_None _ _ _)) by (by left). simpl.
    by rewrite lookup_insert_eq.
Qed.

Lemma memory_claim_refuses now key ttl m exp :
  m !! key = Some exp -> now < exp -> (memory_claim now key ttl m).1 = false.
Proof.
  intros Hk Hlt. destruct (memory_claim_spec now key ttl m) as [-> _]. rewrite Hk.
  rewrite bool_decide_eq_false_2; [done | lia].
Qed.

(** In memory, a key is granted exactly when no claim of it is still retained;
    a granted claim is retained for its whole lifetime, under any later claims at
    times before its end, and until then the key is refused. *)
Theorem claim_single_use now key ttl m calls :
  let fresh := match m !! key with Some exp => bool_decide (exp <= now) | None => true end in
  (memory_claim now key ttl m).1 = fresh /\
  (fresh = true -> Forall (fun c => c.1.1 < now + ttl) calls ->
   forall now' ttl', now' < now + ttl ->
     let m' := foldl (fun m c => (memory_claim c.1.1 c.1.2 c.2 m).2) (memory_claim now key ttl m).2 calls in
     (memory_claim now' key ttl' m').1 = false).
Proof.
  intros fresh. destruct (memory_claim_spec now key ttl m) as [H1 H2]. fold fresh in H1, H2.
  split; [done|]. intros Hf Hcalls now' ttl' Hlt. rewrite Hf in H2.
  eapply memory_claim_refuses; [|done].
  revert H2. generalize (memory_claim now key ttl m).2.
  induction Hcalls as [|c calls Hc _ IH]; intros m' Hm'; simpl; [done|].
  apply IH. by apply memory_claim_keeps.
Qed.

Lemma claim_single_use_witness :
  (memory_claim 350 "jti" 300
     (memory_claim 200 "other" 300 (memory_claim 100 "jti" 300 ∅).2).2).1 = false.
Proof.
  apply (proj2 (claim_single_use 100 "jti" 300 ∅ [((200, "other"), 300)])).
  - vm_compute. reflexivity.
  - repeat constructor.
  - reflexivity.
Defined.
