(* ===== verification/Ciba.v ===== *)
(** * Back-channel authentication requests (CIBA)

    [src/src/ciba.rs]: the requests and their history, the trait [CibaStore]
    ([cibaE]), its in-memory implementation ([mem_ciba_op]) and its Firestore
    implementation (programs over [sysE]), and the sliding-window rate limiter. *)

From S2P Require Import Prelude Prog Json Calendar Firestore Externals Sys.

#[local] Open Scope Z_scope.

Definition CIBA_TTL_SECS : Z := 300.
Definition CIBA_COL : string := "cibaRequests".
Definition HIST_COL : string := "cibaHistory".
Definition HISTORY_RETENTION_SECS : Z := 90 * 86400.

(** ** Data *)

Inductive CibaStatus : Type := Pending | Approved | Denied.
#[export] Instance CibaStatus_eq_dec : EqDecision CibaStatus.
Proof. solve_decision. Defined.

Definition status_as_str (s : CibaStatus) : string :=
  match s with Pending => "pending" | Approved => "approved" | Denied => "denied" end.
Definition status_parse (s : string) : CibaStatus :=
  if bool_decide (s = "approved") then Approved
  else if bool_decide (s = "denied") then Denied else Pending.

Record BackchannelAuthRequest := mkBackchannelAuthRequest {
  br_auth_req_id : string;
  br_client_id : string;
  br_account : string;
  br_scope : string;
  br_binding_message : string;
  br_status : CibaStatus;
  br_expires_at : Z;
  br_authorization_details : option string
}.
#[export] Instance BackchannelAuthRequest_eq_dec : EqDecision BackchannelAuthRequest.
Proof. solve_decision. Defined.

Definition br_set_status (st : CibaStatus) (r : BackchannelAuthRequest) : BackchannelAuthRequest :=
  mkBackchannelAuthRequest (br_auth_req_id r) (br_client_id r) (br_account r) (br_scope r)
    (br_binding_message r) st (br_expires_at r) (br_authorization_details r).

(** [BackchannelAuthRequest::expired] at a clock value. *)
Definition br_expired (now : Z) (r : BackchannelAuthRequest) : bool := br_expires_at r <? now.

Definition opt_field (name : string) (v : option string) (m : list (string * Value)) :
    list (string * Value) :=
  match v with Some s => assoc_insert name (fs_s s) m | None => m end.

Definition br_fields (r : BackchannelAuthRequest) : Value :=
  Object (opt_field "authorizationDetails" (br_authorization_details r)
    [("clientId", fs_s (br_client_id r)); ("account", fs_s (br_account r));
     ("scope", fs_s (br_scope r)); ("bindingMessage", fs_s (br_binding_message r));
     ("status", fs_s (status_as_str (br_status r)));
     ("expiresAt", fs_ts (rfc3339 (br_expires_at r)))]).

Definition str_or_empty (f : Value) (k : string) : string := default "" (field_str f k).
Definition nonempty (s : option string) : option string :=
  s ≫= fun t => if str_is_empty t then None else Some t.

Definition br_from_fields (auth_req_id : string) (f : Value) : BackchannelAuthRequest :=
  mkBackchannelAuthRequest auth_req_id (str_or_empty f "clientId") (str_or_empty f "account")
    (str_or_empty f "scope") (str_or_empty f "bindingMessage")
    (status_parse (default "pending" (field_str f "status")))
    (default 0 (field_ts_secs f "expiresAt"))
    (nonempty (field_str f "authorizationDetails")).

Record CibaHistoryEntry := mkCibaHistoryEntry {
  he_auth_req_id : string;
  he_account : string;
  he_client_id : string;
  he_scope : string;
  he_binding_message : string;
  he_authorization_details : option string;
  he_outcome : string;
  he_resolved_at : Z
}.

Definition he_from_request (r : BackchannelAuthRequest) (outcome : string) (resolved_at : Z) :
    CibaHistoryEntry :=
  mkCibaHistoryEntry (br_auth_req_id r) (br_account r) (br_client_id r) (br_scope r)
    (br_binding_message r) (br_authorization_details r) outcome resolved_at.

Definition he_fields (e : CibaHistoryEntry) : Value :=
  Object (opt_field "authorizationDetails" (he_authorization_details e)
    [("account", fs_s (he_account e)); ("clientId", fs_s (he_client_id e));
     ("scope", fs_s (he_scope e)); ("bindingMessage", fs_s (he_binding_message e));
     ("outcome", fs_s (he_outcome e)); ("resolvedAt", fs_ts (rfc3339 (he_resolved_at e)));
     ("expireAt", fs_ts (rfc3339 (he_resolved_at e + HISTORY_RETENTION_SECS)))]).

Definition he_from_fields (auth_req_id : string) (f : Value) : CibaHistoryEntry :=
  mkCibaHistoryEntry auth_req_id (str_or_empty f "account") (str_or_empty f "clientId")
    (str_or_empty f "scope") (str_or_empty f "bindingMessage")
    (nonempty (field_str f "authorizationDetails")) (str_or_empty f "outcome")
    (default 0 (field_ts_secs f "resolvedAt")).

(** ** The trait *)

Inductive cibaE : Type -> Type :=
| CibaCreate (client_id account scope binding_message : string)
    (authorization_details : option string) : cibaE (result string string)
| CibaGet (auth_req_id : string) : cibaE (result string (option BackchannelAuthRequest))
| TransitionIfPending (auth_req_id : string) (status : CibaStatus) : cibaE (result string bool)
| ConsumeIfApproved (auth_req_id : string) : cibaE (result string (option BackchannelAuthRequest))
| CibaDelete (auth_req_id : string) : cibaE (result string unit)
| ListPending (account : string) : cibaE (result string (list BackchannelAuthRequest))
| RecordHistory (entry : CibaHistoryEntry) : cibaE (result string unit)
| ListHistory (account : string) (limit : nat) : cibaE (result string (list CibaHistoryEntry))
| CibaSweepExpired (account : string) : cibaE (result string Z).

(** The provided method [find_pending_for]. *)
Definition find_pending_for (client_id account : string) :
    prog cibaE (result string (option BackchannelAuthRequest)) :=
  rows ←? trigger (ListPending account);
  mret (Ok (list_find_first (fun r => bool_decide (br_client_id r = client_id)) rows)).

(** ** Newest first: [sort_by] is a stable sort *)

Fixpoint insert_newest (e : CibaHistoryEntry) (l : list CibaHistoryEntry) : list CibaHistoryEntry :=
  match l with
  | [] => [e]
  | x :: l' => if he_resolved_at x <=? he_resolved_at e then e :: l else x :: insert_newest e l'
  end.
Definition sort_newest (l : list CibaHistoryEntry) : list CibaHistoryEntry :=
  foldr insert_newest [] l.

(** ** In memory *)

Record MemoryCibaStore := mkMemoryCibaStore {
  mc_map : gmap string BackchannelAuthRequest;
  mc_history : list CibaHistoryEntry
}.
Definition MemoryCibaStore_default : MemoryCibaStore := mkMemoryCibaStore ∅ [].

Definition new_request (now : Z) (id client_id account scope binding_message : string)
    (ad : option string) : BackchannelAuthRequest :=
  mkBackchannelAuthRequest id client_id account scope binding_message Pending
    (now + CIBA_TTL_SECS) ad.

Definition ciba_transition (id : string) (st : CibaStatus) (s : MemoryCibaStore) :
    bool * MemoryCibaStore :=
  match mc_map s !! id with
  | Some r =>
      if bool_decide (br_status r = Pending)
      then (true, mkMemoryCibaStore (<[id := br_set_status st r]> (mc_map s)) (mc_history s))
      else (false, s)
  | None => (false, s)
  end.

Definition ciba_consume (id : string) (s : MemoryCibaStore) :
    option BackchannelAuthRequest * MemoryCibaStore :=
  match mc_map s !! id with
  | Some r =>
      if bool_decide (br_status r = Approved)
      then (Some r, mkMemoryCibaStore (delete id (mc_map s)) (mc_history s))
      else (None, s)
  | None => (None, s)
  end.

(** The order of [HashMap::values] is unspecified; here it is [map_to_list]'s. *)
Definition ciba_values (s : MemoryCibaStore) : list BackchannelAuthRequest :=
  (map_to_list (mc_map s)).*2.
Definition pending_of (account : string) (r : BackchannelAuthRequest) : bool :=
  bool_decide (br_account r = account) && bool_decide (br_status r = Pending).

(** One expired request: recorded in the history, then removed. *)
Definition ciba_sweep_one (now : Z) (acc : Z * MemoryCibaStore) (r : BackchannelAuthRequest) :
    Z * MemoryCibaStore :=
  (wrap_u32 (acc.1 + 1),
   mkMemoryCibaStore (delete (br_auth_req_id r) (mc_map acc.2))
     (mc_history acc.2 ++ [he_from_request r "expired" now])).
Definition expired_of (now : Z) (account : string) (s : MemoryCibaStore) :
    list BackchannelAuthRequest :=
  List.filter (fun r => pending_of account r && br_expired now r) (ciba_values s).
Definition ciba_sweep (now : Z) (account : string) (s : MemoryCibaStore) : Z * MemoryCibaStore :=
  foldl (ciba_sweep_one now) (0, s) (expired_of now account s).

(** [impl CibaStore for MemoryCibaStore]; [fresh] is the identifier that
    [AuthReqId::generate] draws. *)
Definition mem_ciba_op (now : Z) (fresh : string) {X} (o : cibaE X) (s : MemoryCibaStore) :
    X * MemoryCibaStore :=
  match o in cibaE X return X * MemoryCibaStore with
  | CibaCreate cl ac sc bm ad =>
      (Ok fresh,
       mkMemoryCibaStore (<[fresh := new_request now fresh cl ac sc bm ad]> (mc_map s)) (mc_history s))
  | CibaGet id => (Ok (mc_map s !! id), s)
  | TransitionIfPending id st => let '(b, s') := ciba_transition id st s in (Ok b, s')
  | ConsumeIfApproved id => let '(r, s') := ciba_consume id s in (Ok r, s')
  | CibaDelete id => (Ok tt, mkMemoryCibaStore (delete id (mc_map s)) (mc_history s))
  | ListPending account =>
      (Ok (List.filter (fun r => pending_of account r && negb (br_expired now r)) (ciba_values s)), s)
  | RecordHistory e => (Ok tt, mkMemoryCibaStore (mc_map s) (mc_history s ++ [e]))
  | ListHistory account limit =>
      (Ok (take limit (sort_newest
             (List.filter (fun e => bool_decide (he_account e = account)) (mc_history s)))), s)
  | CibaSweepExpired account => let '(n, s') := ciba_sweep now account s in (Ok n, s')
  end.

(** ** On Firestore *)

Definition fsc_create (client_id account scope binding_message : string) (ad : option string) :
    prog sysE (result string string) :=
  id ← opaque;
  now ← now_secs;
  let req := new_request now id client_id account scope binding_message ad in
  _ ←? fs (SetDoc CIBA_COL id (br_fields req));
  mret (Ok id).

Definition fsc_get (id : string) : prog sysE (result string (option BackchannelAuthRequest)) :=
  f ←? fs (GetDoc CIBA_COL id);
  mret (Ok (br_from_fields id <$> f)).

Definition fsc_transition (id : string) (st : CibaStatus) : prog sysE (result string bool) :=
  d ←? fs (GetDocWithUpdateTime CIBA_COL id);
  match d with
  | None => mret (Ok false)
  | Some (fields, update_time) =>
      let req := br_from_fields id fields in
      if negb (bool_decide (br_status req = Pending)) then mret (Ok false)
      else fs (SetDocIfUnchanged CIBA_COL id (br_fields (br_set_status st req)) update_time)
  end.

Definition fsc_consume (id : string) : prog sysE (result string (option BackchannelAuthRequest)) :=
  d ←? fs (GetDocWithUpdateTime CIBA_COL id);
  match d with
  | None => mret (Ok None)
  | Some (fields, update_time) =>
      let req := br_from_fields id fields in
      if negb (bool_decide (br_status req = Approved)) then mret (Ok None)
      else
        won ←? fs (DeleteDocIfUnchanged CIBA_COL id update_time);
        mret (Ok (if (won : bool) then Some req else None))
  end.

Definition fsc_delete (id : string) : prog sysE (result string unit) := fs (DeleteDoc CIBA_COL id).

(** [expired] reads the clock for every pending row. *)
Fixpoint fsc_live_rows (rows : list (string * Value)) : prog sysE (list BackchannelAuthRequest) :=
  match rows with
  | [] => mret []
  | (id, f) :: rows' =>
      let r := br_from_fields id f in
      if bool_decide (br_status r = Pending) then
        now ← now_secs;
        rest ← fsc_live_rows rows';
        mret (if br_expired now r then rest else r :: rest)
      else fsc_live_rows rows'
  end.
Definition fsc_list_pending (account : string) :
    prog sysE (result string (list BackchannelAuthRequest)) :=
  rows ←? fs (QueryEq CIBA_COL "account" account);
  v ← fsc_live_rows rows;
  mret (Ok v).

Definition fsc_record_history (e : CibaHistoryEntry) : prog sysE (result string unit) :=
  fs (SetDoc HIST_COL (he_auth_req_id e) (he_fields e)).

Definition fsc_list_history (account : string) (limit : nat) :
    prog sysE (result string (list CibaHistoryEntry)) :=
  rows ←? fs (QueryEq HIST_COL "account" account);
  mret (Ok (take limit (sort_newest (map (fun row => he_from_fields row.1 row.2) rows)))).

Fixpoint fsc_sweep_rows (t n : Z) (rows : list (string * Value)) : prog sysE Z :=
  match rows with
  | [] => mret n
  | (id, f) :: rows' =>
      let r := br_from_fields id f in
      if bool_decide (br_status r = Pending) then
        now ← now_secs;
        if br_expired now r then
          _ ← fsc_record_history (he_from_request r "expired" t);
          _ ← fsc_delete id;
          fsc_sweep_rows t (wrap_u32 (n + 1)) rows'
        else fsc_sweep_rows t n rows'
      else fsc_sweep_rows t n rows'
  end.
Definition fsc_sweep_expired (account : string) : prog sysE (result string Z) :=
  rows ←? fs (QueryEq CIBA_COL "account" account);
  t ← now_secs;
  n ← fsc_sweep_rows t 0 rows;
  mret (Ok n).

(** [impl CibaStore for FirestoreCibaStore]. *)
Definition firestore_ciba_op X (o : cibaE X) : prog sysE X :=
  match o in cibaE X return prog sysE X with
  | CibaCreate cl ac sc bm ad => fsc_create cl ac sc bm ad
  | CibaGet id => fsc_get id
  | TransitionIfPending id st => fsc_transition id st
  | ConsumeIfApproved id => fsc_consume id
  | CibaDelete id => fsc_delete id
  | ListPending account => fsc_list_pending account
  | RecordHistory e => fsc_record_history e
  | ListHistory account limit => fsc_list_history account limit
  | CibaSweepExpired account => fsc_sweep_expired account
  end.

(** ** The rate limiter *)

Record CibaRateLimiter := mkCibaRateLimiter {
  rl_window : Z;
  rl_max : nat;
  rl_map : gmap (string * string) (list Z)
}.
Definition CibaRateLimiter_new (window : Z) (max : nat) : CibaRateLimiter :=
  mkCibaRateLimiter window max ∅.
(** [Default]: 3 requests in 60 seconds. *)
Definition CibaRateLimiter_default : CibaRateLimiter := CibaRateLimiter_new (60 * NS) 3.

(** [while let Some(front) = dq.front()]: [duration_since] saturates at 0. *)
Fixpoint pop_expired (window now : Z) (dq : list Z) : list Z :=
  match dq with
  | [] => []
  | front :: dq' => if window <? Z.max 0 (now - front) then pop_expired window now dq' else dq
  end.

Definition check_and_record (now : Z) (client_id account : string) (l : CibaRateLimiter) :
    bool * CibaRateLimiter :=
  let key := (client_id, account) in
  let dq := pop_expired (rl_window l) now (default [] (rl_map l !! key)) in
  if (rl_max l <=? length dq)%nat
  then (false, mkCibaRateLimiter (rl_window l) (rl_max l) (<[key := dq]> (rl_map l)))
  else (true, mkCibaRateLimiter (rl_window l) (rl_max l) (<[key := dq ++ [now]]> (rl_map l))).
