(* ===== verification/CibaFacts.v ===== *)
(** * Properties of the CIBA store and of the rate limiter

    First decision wins, approved requests are consumed once, the sweep, the
    history order, the document round trip, and the exact behaviour of the
    sliding-window limiter. *)

From Stdlib Require Import Sorting.Sorted.
From S2P Require Import Prelude Prog Json Decimal Calendar Firestore Externals Sys Ciba.

#[local] Open Scope Z_scope.

(** ** One-shot transitions *)

Section one_shot.
Context `{Externals}.

(** Clock (seconds), identifiers drawn so far, store. *)
Record ciba_world := mkCibaWorld { cw_now : Z; cw_uuid : nat; cw_store : MemoryCibaStore }.

Definition draws_id {X} (o : cibaE X) : bool :=
  match o with CibaCreate _ _ _ _ _ => true | _ => false end.
Definition ciba_handler : handler cibaE ciba_world :=
  fun X o w =>
    let '(x, s') := mem_ciba_op (cw_now w) (uuid_v4 (cw_uuid w)) o (cw_store w) in
    (x, mkCibaWorld (cw_now w) (if draws_id o then S (cw_uuid w) else cw_uuid w) s').

(** Time passes and the rest of the process draws identifiers. *)
Inductive ciba_env : ciba_world -> ciba_world -> Prop :=
| ciba_env_intro t t' n n' s :
    t <= t' -> (n <= n')%nat -> ciba_env (mkCibaWorld t n s) (mkCibaWorld t' n' s).

(** A decision ([Approved] or [Denied]) that was accepted. *)
Definition decision_wins (id : string) X (o : cibaE X) : X -> bool :=
  match o in cibaE X return X -> bool with
  | TransitionIfPending id' st => fun r => bool_decide (id' = id /\ st <> Pending /\ r = Ok true)
  | _ => fun _ => false
  end.
(** The consumption of an approved request. *)
Definition consume_wins (id : string) X (o : cibaE X) : X -> bool :=
  match o in cibaE X return X -> bool with
  | ConsumeIfApproved id' => fun r =>
      match r with Ok (Some _) => bool_decide (id' = id) | _ => false end
  | _ => fun _ => false
  end.
Definition create_resets (id : string) X (o : cibaE X) : X -> bool :=
  match o in cibaE X return X -> bool with
  | CibaCreate _ _ _ _ _ => fun r => bool_decide (r = Ok id)
  | _ => fun _ => false
  end.

Definition decided (id : string) (s : MemoryCibaStore) : Prop :=
  forall r, mc_map s !! id = Some r -> br_status r <> Pending.
Definition consumed (id : string) (s : MemoryCibaStore) : Prop := mc_map s !! id = None.

(** A sweep removes the requests it finds, in any state. *)
Lemma sweep_fold now l p k :
  mc_map (foldl (ciba_sweep_one now) p l).2 !! k =
    if decide (k ∈ map br_auth_req_id l) then None else mc_map p.2 !! k.
Proof.
  revert p. induction l as [|x l IH]; intros p.
  { rewrite decide_False; [done | apply not_elem_of_nil]. }
  simpl foldl. rewrite IH. simpl mc_map. rewrite lookup_delete. simpl map.
  repeat case_decide; set_solver.
Qed.

(** How every operation changes one entry of the map. *)
Lemma mem_ciba_op_entry now fresh X (o : cibaE X) s id r :
  mc_map (mem_ciba_op now fresh o s).2 !! id = Some r ->
  (exists cl ac sc bm ad, fresh = id /\ create_resets id X o (mem_ciba_op now fresh o s).1 = true /\
     r = new_request now id cl ac sc bm ad) \/
  (exists st r0, mc_map s !! id = Some r0 /\ br_status r0 = Pending /\ r = br_set_status st r0) \/
  mc_map s !! id = Some r.
Proof.
  destruct o as [cl ac sc bm ad | | id' st | id' | id' | | | | account]; simpl;
    try (by intros; right; right).
  - rewrite lookup_insert_Some. intros [[-> <-]|[_ ?]]; [left | by right; right].
    exists cl, ac, sc, bm, ad. by rewrite bool_decide_eq_true_2.
  - unfold ciba_transition. destruct (mc_map s !! id') as [r0|] eqn:Hr0; simpl; [|by right; right].
    case_bool_decide as Hp; simpl; [|by right; right].
    rewrite lookup_insert_Some. intros [[-> <-]|[_ ?]]; [right; left | by right; right].
    by exists st, r0.
  - unfold ciba_consume. destruct (mc_map s !! id') as [r0|] eqn:Hr0; simpl; [|by right; right].
    case_bool_decide; simpl; [|by right; right]. rewrite lookup_delete_Some. intros [_ ?]. by right; right.
  - rewrite lookup_delete_Some. intros [_ ?]. by right; right.
  - destruct (ciba_sweep now account s) as [n s'] eqn:Hs. simpl. intros Hk. right; right.
    replace s' with (ciba_sweep now account s).2 in Hk by (by rewrite Hs).
    unfold ciba_sweep in Hk. rewrite sweep_fold in Hk. by case_decide.
Qed.

Lemma new_request_pending now id cl ac sc bm ad :
  br_status (new_request now id cl ac sc bm ad) = Pending.
Proof. done. Qed.

Ltac ciba_unfold :=
  unfold ciba_handler in *;
  match goal with
  | H : (let '(_, _) := ?p in _) = _ |- _ =>
      let Hp := fresh "Hop" in let y := fresh "y" in let s' := fresh "s'" in
      destruct p as [y s'] eqn:Hp; injection H as <- <-; simpl in *
  end.

#[export] Instance decision_one_shot id :
  OneShot ciba_handler ciba_env (decision_wins id) (create_resets id).
Proof.
  refine {| spent w := decided id (cw_store w) |}.
  - intros X o w x w' He Hw. ciba_unfold. destruct o; simpl in *; try done.
    apply bool_decide_eq_true in Hw as (-> & Hst & ->). unfold ciba_transition in Hop.
    destruct (mc_map (cw_store w) !! id) as [r0|] eqn:Hr0; [|simplify_eq].
    case_bool_decide; simplify_eq/=. intros r'. simpl. rewrite lookup_insert_eq. by intros [= <-].
  - intros X o w x w' He Hs Hr. ciba_unfold. intros r' Hr'.
    pose proof (mem_ciba_op_entry (cw_now w) (uuid_v4 (cw_uuid w)) X o (cw_store w) id r') as Hc.
    rewrite Hop in Hc. destruct (Hc Hr') as [(?&?&?&?&?&_&Hc'&_)|[(st&r0&Hr0&Hp&_)|Hr0]].
    + simpl in Hc'. congruence.
    + by destruct (Hs _ Hr0).
    + by apply Hs.
  - intros X o w x w' He Hs. ciba_unfold. destruct o; simpl in *; try done.
    apply bool_decide_eq_false. intros (-> & Hst & ->). unfold ciba_transition in Hop.
    destruct (mc_map (cw_store w) !! id) as [r0|] eqn:Hr0; [|simplify_eq].
    case_bool_decide; simplify_eq/=. by destruct (Hs _ Hr0).
  - by intros w w' [t t' n n' s Ht Hn].
Defined.

#[export] Instance consume_one_shot id :
  OneShot ciba_handler ciba_env (consume_wins id) (create_resets id).
Proof.
  refine {| spent w := consumed id (cw_store w) |}.
  - intros X o w x w' He Hw. ciba_unfold. destruct o; simpl in *; try done.
    destruct y as [[y|]|]; [|done|done]. apply bool_decide_eq_true in Hw as ->.
    unfold ciba_consume in Hop.
    destruct (mc_map (cw_store w) !! id) as [r0|] eqn:Hr0; [|simplify_eq].
    case_bool_decide; simplify_eq/=. apply lookup_delete_eq.
  - intros X o w x w' He Hs Hr. ciba_unfold. unfold consumed in *.
    destruct (mc_map s' !! id) as [r'|] eqn:Hr'; [|done].
    pose proof (mem_ciba_op_entry (cw_now w) (uuid_v4 (cw_uuid w)) X o (cw_store w) id r') as Hc.
    rewrite Hop in Hc. destruct (Hc Hr') as [(?&?&?&?&?&_&Hc'&_)|[(st&r0&Hr0&Hp&_)|Hr0]];
      simpl in *; congruence.
  - intros X o w x w' He Hs. ciba_unfold. destruct o; simpl in *; try done.
    destruct y as [[y|]|]; [|done|done]. apply bool_decide_eq_false. intros ->.
    unfold ciba_consume, consumed in *. rewrite Hs in Hop. simplify_eq.
  - by intros w w' [t t' n n' s Ht Hn].
Defined.

(** An identifier that was drawn is never the answer of a later creation. *)
Lemma drawn_no_reset `{!FreshIds} w tr w' n :
  wexec ciba_handler ciba_env w tr w' -> (n < cw_uuid w)%nat ->
  Forall (fun ev => ~ ev_resets (create_resets (uuid_v4 n)) ev) tr.
Proof.
  intros Hw. induction Hw as [w | w i X o x w1 tr w' Hh Hw IH | w w1 tr w' Henv Hw IH]; intros Hn.
  - constructor.
  - ciba_unfold. constructor.
    + destruct o; simpl in *; simplify_eq; try done. intros Hr.
      apply bool_decide_eq_true in Hr. injection Hr as Hr. apply uuid_inj in Hr. lia.
    + apply IH. destruct (draws_id o); lia.
  - destruct Henv. constructor; [by intros []|]. apply IH. simpl in *. lia.
Qed.
End one_shot.

(** ** The limiter against its specification *)

(** The specification keeps every grant ever made; a call is granted exactly when
    fewer than [max] grants of its key have an age of at most [window]. *)
Definition grants_of (key : string * string) (hist : list ((string * string) * Z)) : list Z :=
  omap (fun g => if decide (g.1 = key) then Some g.2 else None) hist.
Definition recent (window now : Z) (ts : list Z) : list Z :=
  List.filter (fun t => now - t <=? window) ts.
Definition spec_check (window : Z) (max : nat) (now : Z) (key : string * string)
    (hist : list ((string * string) * Z)) : bool * list ((string * string) * Z) :=
  if (length (recent window now (grants_of key hist)) <? max)%nat
  then (true, hist ++ [(key, now)]) else (false, hist).

(** The answers to a list of calls (time, key). *)
Fixpoint limiter_run (l : CibaRateLimiter) (calls : list (Z * (string * string))) : list bool :=
  match calls with
  | [] => []
  | (now, (c, a)) :: calls' =>
      let '(b, l') := check_and_record now c a l in b :: limiter_run l' calls'
  end.
Fixpoint spec_run (window : Z) (max : nat) (hist : list ((string * string) * Z))
    (calls : list (Z * (string * string))) : list bool :=
  match calls with
  | [] => []
  | (now, key) :: calls' =>
      let '(b, hist') := spec_check window max now key hist in b :: spec_run window max hist' calls'
  end.

Lemma grants_of_app key h1 h2 : grants_of key (h1 ++ h2) = grants_of key h1 ++ grants_of key h2.
Proof. apply omap_app. Qed.

(** The deque of a key is the tail of its grants: what was popped is too old. *)
Definition limiter_inv (l : CibaRateLimiter) (hist : list ((string * string) * Z)) (last : Z) : Prop :=
  forall key, exists old : list Z,
    grants_of key hist = old ++ default [] (rl_map l !! key) /\
    StronglySorted Z.le (grants_of key hist) /\
    Forall (fun t => t <= last) (grants_of key hist) /\
    Forall (fun t => rl_window l < last - t) old.

Lemma pop_expired_split window now dq :
  StronglySorted Z.le dq -> Forall (fun t => t <= now) dq -> 0 <= window ->
  exists old, dq = old ++ pop_expired window now dq /\ Forall (fun t => window < now - t) old /\
    Forall (fun t => now - t <= window) (pop_expired window now dq).
Proof.
  intros Hs Hle Hw. induction dq as [|x dq IH]; simpl; [by exists []|].
  apply StronglySorted_inv in Hs as [Hs Hx]. apply Forall_cons in Hle as [Hxn Hle].
  destruct (Z.ltb_spec window (Z.max 0 (now - x))) as [Hlt|Hge].
  - destruct (IH Hs Hle) as (old & Hold & Hf & Hr). exists (x :: old). simpl. rewrite <- Hold.
    split; [done|]. split; [|done]. constructor; [lia | done].
  - exists []. split; [done|]. split; [done|]. constructor; [lia|].
    eapply Forall_impl; [exact Hx|]. simpl. lia.
Qed.

Lemma recent_all window now ts : Forall (fun t => now - t <= window) ts -> recent window now ts = ts.
Proof.
  unfold recent. induction 1 as [|t ts Ht _ IH]; simpl; [done|].
  apply Z.leb_le in Ht. by rewrite Ht, IH.
Qed.
Lemma recent_none window now ts : Forall (fun t => window < now - t) ts -> recent window now ts = [].
Proof.
  unfold recent. induction 1 as [|t ts Ht _ IH]; simpl; [done|].
  apply Z.leb_gt in Ht. by rewrite Ht, IH.
Qed.

Lemma StronglySorted_snoc ts now :
  StronglySorted Z.le ts -> Forall (fun t => t <= now) ts -> StronglySorted Z.le (ts ++ [now]).
Proof.
  induction 1 as [|t ts Hs IH Ht]; intros Hle; simpl.
  { constructor; [constructor | constructor]. }
  apply Forall_cons in Hle as [Htn Hle]. constructor; [by apply IH|].
  apply Forall_app. split; [done|]. by constructor.
Qed.

Lemma check_refines l hist last now c a :
  0 <= rl_window l -> limiter_inv l hist last -> last <= now ->
  let '(b, l') := check_and_record now c a l in
  let '(b', hist') := spec_check (rl_window l) (rl_max l) now (c, a) hist in
  b = b' /\ rl_window l' = rl_window l /\ rl_max l' = rl_max l /\ limiter_inv l' hist' now.
Proof.
  intros Hw Hinv Hle.
  assert (Hkeep : forall key, key <> (c, a) -> forall dq, exists old : list Z,
    grants_of key hist = old ++ default [] (<[(c, a) := dq]> (rl_map l) !! key) /\
    StronglySorted Z.le (grants_of key hist) /\ Forall (fun t => t <= now) (grants_of key hist) /\
    Forall (fun t => rl_window l < now - t) old).
  { intros key Hne dq. destruct (Hinv key) as (old & Hg & Hs & Hf & Ho). exists old.
    rewrite lookup_insert_ne by done. split; [done|]. split; [done|].
    split; (eapply Forall_impl; [eassumption|]; simpl; lia). }
  destruct (Hinv (c, a)) as (old & Hg & Hs & Hf & Ho). unfold check_and_record, spec_check.
  set (dq := default [] (rl_map l !! (c, a))) in *.
  assert (Hdq : StronglySorted Z.le dq /\ Forall (fun t => t <= now) dq).
  { rewrite Hg in Hs, Hf. apply Forall_app in Hf as [_ Hf]. split.
    - clear -Hs. induction old as [|x old IH]; [done|]. apply StronglySorted_inv in Hs as [Hs _]. auto.
    - eapply Forall_impl; [exact Hf|]. simpl. lia. }
  destruct (pop_expired_split (rl_window l) now dq (proj1 Hdq) (proj2 Hdq) Hw) as (old' & Hd & Ho' & Hr).
  set (dq' := pop_expired (rl_window l) now dq) in *.
  assert (Hold : Forall (fun t => rl_window l < now - t) (old ++ old')).
  { apply Forall_app. split; [|done]. eapply Forall_impl; [exact Ho|]. simpl. lia. }
  assert (Hg' : grants_of (c, a) hist = (old ++ old') ++ dq') by (by rewrite Hg, <- app_assoc, <- Hd).
  assert (Hrec : recent (rl_window l) now (grants_of (c, a) hist) = dq').
  { rewrite Hg'. unfold recent in *. rewrite List.filter_app.
    rewrite (recent_none _ _ _ Hold : List.filter _ _ = _). by apply recent_all. }
  assert (Hfn : Forall (fun t => t <= now) (grants_of (c, a) hist)).
  { eapply Forall_impl; [exact Hf|]. simpl. lia. }
  rewrite Hrec. rewrite Nat.ltb_antisym.
  destruct (rl_max l <=? length dq')%nat; simpl; (split; [done|]; split; [done|]; split; [done|]);
    intros key; simpl; destruct (decide (key = (c, a))) as [->|Hne].
  - exists (old ++ old'). rewrite lookup_insert_eq. done.
  - by apply Hkeep.
  - exists (old ++ old'). rewrite lookup_insert_eq. simpl. rewrite !grants_of_app, Hg'. simpl.
    rewrite decide_True by done. simpl. rewrite <- Hg'.
    split; [by rewrite Hg', <- !app_assoc|]. split; [by apply StronglySorted_snoc|].
    split; [|done]. apply Forall_app. split; [done|]. constructor; [lia | done].
  - rewrite grants_of_app. simpl. rewrite decide_False by done. rewrite app_nil_r. by apply Hkeep.
Qed.

Lemma limiter_refines l hist last calls :
  0 <= rl_window l -> limiter_inv l hist last -> StronglySorted Z.le (last :: calls.*1) ->
  limiter_run l calls = spec_run (rl_window l) (rl_max l) hist calls.
Proof.
  revert l hist last. induction calls as [|[now [c a]] calls IH]; intros l hist last Hw Hinv Hs; [done|].
  simpl in *. apply StronglySorted_inv in Hs as [Hs Hle]. apply Forall_cons in Hle as [Hle _].
  pose proof (check_refines l hist last now c a Hw Hinv Hle) as Hc.
  destruct (check_and_record now c a l) as [b l'].
  destruct (spec_check (rl_window l) (rl_max l) now (c, a) hist) as [b' hist'].
  destruct Hc as (-> & Hwin & Hmax & Hinv'). f_equal.
  rewrite <- Hwin, <- Hmax. apply (IH l' hist' now); [by rewrite Hwin | done | done].
Qed.

Lemma limiter_inv_new window max last : limiter_inv (CibaRateLimiter_new window max) [] last.
Proof. intros key. exists []. simpl. rewrite lookup_empty. simpl. split; [done|]. repeat constructor. Qed.

Lemma limiter_refines_new window max calls :
  0 <= window -> StronglySorted Z.le calls.*1 ->
  limiter_run (CibaRateLimiter_new window max) calls = spec_run window max [] calls.
Proof.
  intros Hw Hs. destruct calls as [|[now k] calls]; [done|].
  apply (limiter_refines (CibaRateLimiter_new window max) [] now); [done | apply limiter_inv_new |].
  constructor; [done|]. simpl in *. apply StronglySorted_inv in Hs as [_ Hf].
  constructor; [lia | done].
Qed.

(** The grants of a whole run. *)
Fixpoint spec_grants (window : Z) (max : nat) (hist : list ((string * string) * Z))
    (calls : list (Z * (string * string))) : list ((string * string) * Z) :=
  match calls with
  | [] => hist
  | (now, key) :: calls' => spec_grants window max (spec_check window max now key hist).2 calls'
  end.

(** The times of a period of length [window]. *)
Definition within (from window : Z) (ts : list Z) : list Z :=
  List.filter (fun t => (from <=? t) && (t <=? from + window)) ts.

(** The granted calls, from the answers. *)
Fixpoint granted (calls : list (Z * (string * string))) (answers : list bool) :
    list ((string * string) * Z) :=
  match calls, answers with
  | (now, key) :: calls', b :: answers' =>
      if b then (key, now) :: granted calls' answers' else granted calls' answers'
  | _, _ => []
  end.

Lemma spec_grants_granted_from window max hist calls :
  spec_grants window max hist calls = hist ++ granted calls (spec_run window max hist calls).
Proof.
  revert hist. induction calls as [|[now key] calls IH]; intros hist; simpl; [by rewrite app_nil_r|].
  unfold spec_check. case_match; simpl; rewrite IH; [by rewrite <- app_assoc | done].
Qed.
Lemma spec_grants_granted window max calls :
  spec_grants window max [] calls = granted calls (spec_run window max [] calls).
Proof. apply spec_grants_granted_from. Qed.

Lemma spec_grants_bound window max calls key from :
  (length (within from window (grants_of key (spec_grants window max [] calls))) <= max)%nat.
Proof.
  assert (H : forall hist,
    (length (within from window (grants_of key hist)) <= max)%nat ->
    (length (within from window (grants_of key (spec_grants window max hist calls))) <= max)%nat).
  2:{ apply H. simpl. lia. }
  induction calls as [|[now k] calls IH]; intros hist Hh; simpl; [done|]. apply IH.
  unfold spec_check. destruct (Nat.ltb_spec (length (recent window now (grants_of k hist))) max) as [Hlt|]; [|done].
  unfold within in *. simpl. rewrite grants_of_app, List.filter_app, length_app. simpl.
  destruct (decide (k = key)) as [->|]; simpl; [|lia].
  destruct ((from <=? now) && (now <=? from + window)) eqn:Hin; simpl; [|lia].
  apply andb_true_iff in Hin as [Hf Hn]. apply Z.leb_le in Hf, Hn.
  assert (Hsub : forall ts, (length (within from window ts) <= length (recent window now ts))%nat).
  { unfold recent, within. induction ts as [|t ts IHts]; simpl; [done|].
    destruct (Z.leb_spec from t), (Z.leb_spec t (from + window)), (Z.leb_spec (now - t) window);
      simpl; lia. }
  specialize (Hsub (grants_of key hist)). unfold within in Hsub. lia.
Qed.

(** ** The history order *)

Definition newer (a b : CibaHistoryEntry) : Prop := he_resolved_at b <= he_resolved_at a.

Lemma insert_newest_perm e l : Permutation (insert_newest e l) (e :: l).
Proof.
  induction l as [|x l IH]; simpl; [done|]. case_match; [done|]. rewrite IH. apply Permutation_swap.
Qed.

Lemma insert_newest_sorted e l :
  StronglySorted newer l -> StronglySorted newer (insert_newest e l).
Proof.
  induction 1 as [|x l Hs IH Hx]; simpl; [repeat constructor|].
  destruct (Z.leb_spec (he_resolved_at x) (he_resolved_at e)).
  - constructor; [by constructor|]. constructor; [done|].
    eapply Forall_impl; [exact Hx|]. unfold newer. lia.
  - constructor; [done|]. rewrite insert_newest_perm. constructor; [unfold newer; lia | done].
Qed.

(** Entries resolved at the same time keep their order. *)
Definition at_time (t : Z) (e : CibaHistoryEntry) : bool := he_resolved_at e =? t.
Lemma insert_newest_stable t e l :
  StronglySorted newer l ->
  List.filter (at_time t) (insert_newest e l) = List.filter (at_time t) (e :: l).
Proof.
  induction 1 as [|x l Hs IH Hx]; simpl; [done|].
  destruct (Z.leb_spec (he_resolved_at x) (he_resolved_at e)); [done|].
  simpl. rewrite IH. simpl. unfold at_time.
  destruct (Z.eqb_spec (he_resolved_at x) t), (Z.eqb_spec (he_resolved_at e) t); done || lia.
Qed.

Lemma sort_newest_spec l :
  Permutation (sort_newest l) l /\ StronglySorted newer (sort_newest l) /\
  forall t, List.filter (at_time t) (sort_newest l) = List.filter (at_time t) l.
Proof.
  induction l as [|e l (Hp & Hs & Ht)]; simpl; [by repeat constructor|].
  split; [by rewrite insert_newest_perm, Hp|]. split; [by apply insert_newest_sorted|].
  intros t. rewrite insert_newest_stable by done. simpl. by rewrite Ht.
Qed.

(** ** The document round trip *)

Lemma status_round_trip st : status_parse (status_as_str st) = st.
Proof. by destruct st. Qed.

Lemma field_ts_round_trip m k t :
  get (Object m) k = Some (fs_ts (rfc3339 t)) -> 0 <= t < 253402300800 ->
  field_ts_secs (Object m) k = Some t.
Proof.
  intros Hk Ht. unfold field_ts_secs. rewrite Hk. cbn [fs_ts mbind option_bind get as_str assoc].
  rewrite decide_True by done. cbn [mbind option_bind as_str]. by rewrite rfc3339_reads_back.
Qed.

(** * Properties *)

(** Among all the interleaved calls on the store, at most one decision
    (approval or denial) of a request is ever accepted, and at most one poll consumes
    it, whatever else happens meanwhile. *)
Theorem ciba_decided_once `{Externals, !FreshIds} w tr w' n i j evi evj :
  wexec ciba_handler ciba_env w tr w' -> (n < cw_uuid w)%nat ->
  tr !! i = Some evi -> tr !! j = Some evj ->
  let id := uuid_v4 n in
  (ev_wins (decision_wins id) evi -> ev_wins (decision_wins id) evj -> i = j) /\
  (ev_wins (consume_wins id) evi -> ev_wins (consume_wins id) evj -> i = j).
Proof.
  intros Hw Hn Hi Hj id. pose proof (drawn_no_reset _ _ _ _ Hw Hn) as Hr. split; intros Hwi Hwj.
  - by eapply (one_win ciba_handler ciba_env (decision_wins id) (create_resets id)).
  - by eapply (one_win ciba_handler ciba_env (consume_wins id) (create_resets id)).
Qed.

(** C39: the limiter grants a call exactly when its key had fewer than [max] grants of
    an age of at most [window]: forgetting old entries never changes an answer, and
    the calls of one key never influence another key. *)
Theorem rate_limiter_exact window max calls :
  0 <= window -> StronglySorted Z.le calls.*1 ->
  limiter_run (CibaRateLimiter_new window max) calls = spec_run window max [] calls.
Proof. exact (limiter_refines_new window max calls). Qed.

(** No key gets more than [max] grants within any period of length [window],
    bounds included, whatever the calls. *)
Theorem rate_limiter_bound window max calls key from :
  0 <= window -> StronglySorted Z.le calls.*1 ->
  (length (within from window (grants_of key
     (granted calls (limiter_run (CibaRateLimiter_new window max) calls)))) <= max)%nat.
Proof.
  intros Hw Hs. rewrite limiter_refines_new by done.
  pose proof (spec_grants_bound window max calls key from) as H. by rewrite spec_grants_granted in H.
Qed.

(** The sweep moves exactly the expired pending requests of the account to the
    history, each once, as "expired" at the time of the sweep; every other request
    and the earlier history stay as they were. *)
Theorem ciba_sweep_exact now account s :
  (forall k r, mc_map s !! k = Some r -> br_auth_req_id r = k) ->
  let '(n, s') := ciba_sweep now account s in
  n = wrap_u32 (Z.of_nat (length (expired_of now account s))) /\
  mc_history s' = mc_history s ++ map (fun r => he_from_request r "expired" now) (expired_of now account s) /\
  NoDup (expired_of now account s) /\
  forall k, mc_map s' !! k =
    match mc_map s !! k with
    | Some r => if pending_of account r && br_expired now r then None else Some r
    | None => None
    end.
Proof.
  intros Hid. pose proof (fun k => sweep_fold now (expired_of now account s) (0, s) k) as Hmap.
  destruct (ciba_sweep now account s) as [n s'] eqn:Hs.
  assert (Hfold : forall l p, foldl (ciba_sweep_one now) p l =
    (foldl (fun k _ => wrap_u32 (k + 1)) p.1 l,
     mkMemoryCibaStore (mc_map (foldl (ciba_sweep_one now) p l).2)
       (mc_history p.2 ++ map (fun r => he_from_request r "expired" now) l))).
  { clear. induction l as [|x l IH]; intros [k s]; simpl; [by rewrite app_nil_r; destruct s|].
    rewrite IH at 1. simpl. by rewrite <- app_assoc. }
  unfold ciba_sweep in Hs. rewrite Hs in Hmap. rewrite Hfold in Hs. simpl in Hs.
  injection Hs as Hn Hs'. rewrite <- Hs' at 1. simpl.
  split; [|split; [done|split]].
  - rewrite <- Hn. clear. generalize (expired_of now account s). intros l.
    assert (H : forall k, foldl (fun k _ => wrap_u32 (k + 1)) (wrap_u32 k) l =
      wrap_u32 (k + Z.of_nat (length l))).
    { induction l as [|x l IH]; intros k; cbn [foldl length]; [by rewrite Z.add_0_r|].
      replace (wrap_u32 (wrap_u32 k + 1)) with (wrap_u32 (k + 1)); [rewrite IH; f_equal; lia|].
      unfold wrap_u32. by rewrite Zplus_mod_idemp_l. }
    exact (H 0).
  - unfold expired_of, ciba_values. apply NoDup_ListNoDup, List.NoDup_filter, NoDup_ListNoDup.
    apply (NoDup_fmap_1 br_auth_req_id). rewrite <- list_fmap_compose.
    rewrite (list_fmap_ext _ fst); [apply NoDup_fst_map_to_list|].
    intros i [k r] Hi. apply list_elem_of_lookup_2, elem_of_map_to_list in Hi. by apply (Hid k).
  - intros k. rewrite Hmap. simpl.
    assert (Hin : k ∈ map br_auth_req_id (expired_of now account s) <->
      exists r, mc_map s !! k = Some r /\ pending_of account r && br_expired now r = true).
    { rewrite list_elem_of_In, in_map_iff. unfold expired_of, ciba_values.
      setoid_rewrite filter_In. setoid_rewrite <- list_elem_of_In. setoid_rewrite list_elem_of_fmap.
      split.
      - intros (r & <- & ([k' r'] & -> & Hr) & Ht). apply elem_of_map_to_list in Hr. simpl in *.
        exists r'. by rewrite (Hid _ _ Hr).
      - intros (r & Hr & Ht). exists r. split; [by apply Hid|]. split; [|done].
        exists (k, r). split; [done|]. by apply elem_of_map_to_list. }
    case_decide as Hd; rewrite Hin in Hd.
    + by destruct Hd as (r & -> & ->).
    + destruct (mc_map s !! k) as [r|]; [|done].
      destruct (pending_of account r && br_expired now r) eqn:Ht; [|done]. destruct Hd. eauto.
Qed.

(** The history of an account is returned newest first: its entries, entries of
    the same second in the order of recording, cut at the limit. *)
Theorem list_history_newest_first now fresh account limit s :
  exists sorted,
    (mem_ciba_op now fresh (ListHistory account limit) s) = (Ok (take limit sorted), s) /\
    Permutation sorted (List.filter (fun e => bool_decide (he_account e = account)) (mc_history s)) /\
    StronglySorted newer sorted /\
    forall t, List.filter (at_time t) sorted =
      List.filter (at_time t) (List.filter (fun e => bool_decide (he_account e = account)) (mc_history s)).
Proof. eexists. split; [done|]. apply sort_newest_spec. Qed.

(** A back-channel request is read back from its document exactly as it was
    written, for every expiry before the year 10000 and every non-empty
    authorization_details. *)
Theorem ciba_request_round_trip r :
  0 <= br_expires_at r < 253402300800 -> br_authorization_details r <> Some "" ->
  br_from_fields (br_auth_req_id r) (br_fields r) = r.
Proof.
  destruct r as [id cl ac sc bm st ex ad]. simpl. intros Hex Had.
  unfold br_fields, br_from_fields, str_or_empty. simpl br_authorization_details.
  erewrite field_ts_round_trip; [|by destruct ad|done]. simpl default.
  destruct ad as [ad|]; cbv [field_str opt_field assoc_insert get assoc decide]; simpl;
    rewrite status_round_trip; [|done].
  destruct ad; [done|]. done.
Qed.

(** ** Witnesses *)

Lemma rate_limiter_exact_witness :
  limiter_run CibaRateLimiter_default
    [(0, ("rp", "a")); (1, ("rp", "a")); (2, ("rp", "a")); (60 * NS, ("rp", "a"));
     (60 * NS + 1, ("rp", "a"))] = [true; true; true; false; true].
Proof.
  etransitivity.
  - apply (rate_limiter_exact (60 * NS) 3); [done|].
    repeat (constructor; [|repeat (constructor; [done|]); try constructor]). constructor.
  - vm_compute. reflexivity.
Defined.

Definition sample_calls : list (Z * (string * string)) := [(0, ("rp", "a")); (1, ("rp", "a"))].
Lemma rate_limiter_bound_witness :
  (length (within 0 60 (grants_of ("rp", "a")
     (granted sample_calls (limiter_run (CibaRateLimiter_new 60 1) sample_calls)))) <= 1)%nat.
Proof.
  apply (rate_limiter_bound 60 1); [done|].
  repeat (constructor; [|repeat (constructor; [done|]); try constructor]). constructor.
Defined.

Definition sample_request (id account : string) (st : CibaStatus) : BackchannelAuthRequest :=
  mkBackchannelAuthRequest id "rp" account "openid" "pay 10" st 1300 (Some "[]").

Lemma ciba_request_round_trip_witness :
  br_from_fields "r1" (br_fields (sample_request "r1" "alice" Approved)) =
    sample_request "r1" "alice" Approved.
Proof. apply (ciba_request_round_trip (sample_request "r1" "alice" Approved)); [simpl; lia | done]. Defined.

Definition sample_ciba : MemoryCibaStore :=
  mkMemoryCibaStore (<["r1" := sample_request "r1" "alice" Pending]>
    (<["r2" := sample_request "r2" "bob" Pending]> ∅)) [].
Lemma ciba_sweep_exact_witness :
  let '(n, s') := ciba_sweep 2000 "alice" sample_ciba in
  n = wrap_u32 (Z.of_nat (length (expired_of 2000 "alice" sample_ciba))) /\
  mc_history s' = mc_history sample_ciba ++
    map (fun r => he_from_request r "expired" 2000) (expired_of 2000 "alice" sample_ciba) /\
  NoDup (expired_of 2000 "alice" sample_ciba) /\
  forall k, mc_map s' !! k =
    match mc_map sample_ciba !! k with
    | Some r => if pending_of "alice" r && br_expired 2000 r then None else Some r
    | None => None
    end.
Proof.
  apply (ciba_sweep_exact 2000 "alice" sample_ciba).
  intros k r. simpl. rewrite !lookup_insert_Some, lookup_empty.
  intros [[<- <-]|[_ [[<- <-]|[_ ?]]]]; [reflexivity | reflexivity | discriminate].
Defined.

(** An approval, a late denial that loses, a poll that consumes. *)
Definition sample_trace : list (event cibaE) :=
  [Ev 0%nat (TransitionIfPending "id" Approved) (Ok true);
   Ev 1%nat (TransitionIfPending "id" Denied) (Ok false);
   Ev 2%nat (ConsumeIfApproved "id") (Ok (Some (sample_request "id" "alice" Approved)))].
Definition sample_ciba_world (s : MemoryCibaStore) : ciba_world := mkCibaWorld 1200 1 s.
Lemma ciba_decided_once_witness : 0%nat = 0%nat.
Proof.
  refine (proj1 (@ciba_decided_once (sample_externals []) _
    (sample_ciba_world (mkMemoryCibaStore (<["id" := sample_request "id" "alice" Pending]> ∅) []))
    sample_trace _ 0 0 0 _ _ _ _ eq_refl eq_refl) eq_refl eq_refl).
  - unfold sample_trace. econstructor; [reflexivity|]. econstructor; [reflexivity|].
    econstructor; [reflexivity|]. constructor.
  - simpl. lia.
Defined.
