(* ===== verification/Dcr.v ===== *)
(** * Controlled dynamic client registration

    [src/src/dcr.rs]: the constraints of an initial access token, the validation
    of a registration request, the host extraction of redirect URIs. *)

From S2P Require Import Prelude Json Model Externals Es256.

#[local] Open Scope Z_scope.

Inductive ClientProfile : Type := Public | ConfidentialSecret | ConfidentialKey.
#[export] Instance ClientProfile_eq_dec : EqDecision ClientProfile.
Proof. solve_decision. Defined.

Record IatConstraints := mkIatConstraints {
  ic_allowed_redirect_hosts : list string;
  ic_allowed_grant_types : list string;
  ic_profile : ClientProfile
}.
Definition default_profile : ClientProfile := ConfidentialKey.

Record RegistrationRequest := mkRegistrationRequest {
  rr_redirect_uris : list string;
  rr_post_logout_redirect_uris : list string;
  rr_grant_types : list string;
  rr_jwks : list JwkPub;
  rr_jwks_uri : option string
}.

Inductive DcrError : Type :=
| NoRedirectUris
| InsecureRedirectUri (u : string)
| RedirectHostNotAllowed (h : string)
| InsecurePostLogoutRedirectUri (u : string)
| PostLogoutRedirectHostNotAllowed (h : string)
| MissingJwks
| GrantTypeNotAllowed (g : string).
#[export] Instance DcrError_eq_dec : EqDecision DcrError.
Proof. solve_decision. Defined.

Definition dcr_error_code (e : DcrError) : string :=
  match e with
  | NoRedirectUris | InsecureRedirectUri _ | RedirectHostNotAllowed _ => "invalid_redirect_uri"
  | InsecurePostLogoutRedirectUri _ | PostLogoutRedirectHostNotAllowed _
  | MissingJwks | GrantTypeNotAllowed _ => "invalid_client_metadata"
  end.
Definition dcr_error_description (e : DcrError) : string :=
  match e with
  | NoRedirectUris => "at least one redirect_uri is required"
  | InsecureRedirectUri u => "redirect_uri must be https without fragment or userinfo: " +:+ u
  | RedirectHostNotAllowed h =>
      "redirect_uri host not allowed by the initial access token: " +:+ h
  | InsecurePostLogoutRedirectUri u =>
      "post_logout_redirect_uri must be https without fragment or userinfo: " +:+ u
  | PostLogoutRedirectHostNotAllowed h =>
      "post_logout_redirect_uri host not allowed by the initial access token: " +:+ h
  | MissingJwks => "a jwks with at least one EC P-256 key is required"
  | GrantTypeNotAllowed g => "grant_type not allowed by the initial access token: " +:+ g
  end.

(** [s.split(c).next()]: the text before the first [c]. *)
Definition before (c : ascii) (s : string) : string :=
  match str_split c s with p :: _ => p | [] => s end.

Definition https_host (uri : string) : option string :=
  if str_contains "#"%char uri then None
  else
    rest ← strip_prefix "https://" uri;
    let authority := before "/"%char rest in
    if str_contains "@"%char authority then None
    else
      let host := before ":"%char authority in
      if str_is_empty host then None else Some host.

Definition is_valid_post_logout_redirect_uri (uri : string) : bool :=
  match https_host uri with Some _ => true | None => false end.

Definition check_admin_post_logout_uris (uris client_redirect_uris : list string) :
    result string unit :=
  let allowed := omap https_host client_redirect_uris in
  foldr (fun uri rest =>
    match https_host uri with
    | None => Err ("post_logout_redirect_uri must use https and must not contain a fragment or userinfo: " +:+ uri)
    | Some host =>
        if negb (list_any (fun h => eq_ignore_ascii_case h host) allowed)
        then Err ("post_logout_redirect_uri host must be the host of one of this client's redirect_uris: " +:+ host)
        else rest
    end) (Ok tt) uris.

Section dcr.
Context `{Externals}.

(** The keys of a JWK set that are well-formed P-256 keys. *)
Definition jwk_pub_of (k : Value) : option JwkPub :=
  kty ← get_str k "kty";
  if negb (bool_decide (kty = "EC")) then None
  else
    crv ← get_str k "crv";
    if negb (bool_decide (crv = "P-256")) then None
    else
      kid ← get_str k "kid";
      if str_is_empty kid then None
      else
        x ← get_str k "x";
        y ← get_str k "y";
        xb ← result_ok (b64url_decode x);
        yb ← result_ok (b64url_decode y);
        _ ← result_ok (verifying_key_from_xy xb yb);
        Some (mkJwkPub kid x y).
Definition jwks_from_jwk_set (jwks : option Value) : list JwkPub :=
  match (jwks ≫= fun v => get v "keys") ≫= as_array with
  | Some keys => omap jwk_pub_of keys
  | None => []
  end.

Definition hash_token (token : string) : string := b64url_encode (sha256_digest token).
(** [rnd] is what [OsRng] fills the 32 bytes with. *)
Definition gen_random_token (rnd : string) : string * string :=
  let token := b64url_encode rnd in (token, hash_token token).

Record RegistrationOutcome := mkRegistrationOutcome {
  ro_client : Client;
  ro_raw_client_secret : option string
}.

(** The loop over one list of URIs: https, then an allowed host. *)
Fixpoint check_uris (insecure not_allowed : string -> DcrError) (allowed : list string)
    (uris : list string) : result DcrError unit :=
  match uris with
  | [] => Ok tt
  | uri :: uris' =>
      host ← ok_or (insecure uri) (https_host uri);
      if negb (list_any (fun h => eq_ignore_ascii_case h host) allowed) then Err (not_allowed host)
      else check_uris insecure not_allowed allowed uris'
  end.
Fixpoint check_grant_types (allowed gts : list string) : result DcrError unit :=
  match gts with
  | [] => Ok tt
  | g :: gts' =>
      if negb (list_any (fun a => bool_decide (a = g)) allowed) then Err (GrantTypeNotAllowed g)
      else check_grant_types allowed gts'
  end.

Definition validate_registration (rnd client_id : string) (req : RegistrationRequest)
    (c : IatConstraints) : result DcrError RegistrationOutcome :=
  if bool_decide (rr_redirect_uris req = []) then Err NoRedirectUris
  else
    _ ← check_uris InsecureRedirectUri RedirectHostNotAllowed (ic_allowed_redirect_hosts c)
          (rr_redirect_uris req);
    _ ← check_uris InsecurePostLogoutRedirectUri PostLogoutRedirectHostNotAllowed
          (ic_allowed_redirect_hosts c) (rr_post_logout_redirect_uris req);
    grant_types ← (if bool_decide (rr_grant_types req = []) then Ok ["authorization_code"]
                   else _ ← check_grant_types (ic_allowed_grant_types c) (rr_grant_types req);
                        Ok (rr_grant_types req));
    let client auth secret dpop jwks uri par pkce :=
      mkClient client_id (rr_redirect_uris req) auth secret grant_types
        (rr_post_logout_redirect_uris req) dpop jwks uri par pkce None in
    match ic_profile c with
    | ConfidentialKey =>
        if bool_decide (rr_jwks req = []) &&
           match rr_jwks_uri req with Some u => str_is_empty u | None => true end
        then Err MissingJwks
        else Ok (mkRegistrationOutcome
               (client "private_key_jwt" None true (rr_jwks req) (rr_jwks_uri req) true true) None)
    | ConfidentialSecret =>
        let '(raw, hash) := gen_random_token rnd in
        Ok (mkRegistrationOutcome
              (client "client_secret_basic" (Some hash) false [] None false true) (Some raw))
    | Public =>
        Ok (mkRegistrationOutcome (client "none" None true [] None false false) None)
    end.
End dcr.

(** * Properties *)

Lemma before_spec c s :
  exists rest, s = before c s +:+ rest /\ str_contains c (before c s) = false /\
    (rest = "" \/ exists r, rest = String c r).
Proof.
  unfold before. induction s as [|a s IH]; [exists ""; split; [done|]; split; [done | by left]|].
  cbn [str_split]. destruct (decide (a = c)) as [->|Hne].
  - exists (String c s). split; [done|]. split; [done | eauto].
  - destruct IH as (rest & Hs & Hc & Hr).
    destruct (str_split c s) as [|p ps] eqn:Hsp.
    { destruct s; cbn [str_split] in Hsp; [done|]. case_decide; [done|]. by case_match. }
    exists rest. split; [|split; [|done]].
    + change (String a p +:+ rest) with (String a (p +:+ rest)). by rewrite <- Hs.
    + cbn [str_contains]. by rewrite decide_False.
Qed.

Lemma https_host_Some uri host :
  https_host uri = Some host ->
  exists port path,
    uri = "https://" +:+ host +:+ port +:+ path /\ host <> "" /\
    str_contains "#"%char uri = false /\
    str_contains "@"%char (host +:+ port) = false /\ str_contains "/"%char (host +:+ port) = false /\
    str_contains ":"%char host = false /\
    (port = "" \/ exists p, port = String ":"%char p) /\ (path = "" \/ exists p, path = String "/"%char p).
Proof.
  unfold https_host. destruct (str_contains "#"%char uri) eqn:Hf; [done|].
  destruct (strip_prefix "https://" uri) as [rest|] eqn:Hp; [|done]. simpl.
  apply strip_prefix_Some in Hp as ->.
  destruct (before_spec "/"%char rest) as (path & Hrest & Hslash & Hpath).
  set (authority := before "/"%char rest) in *. clearbody authority. subst rest.
  destruct (str_contains "@"%char authority) eqn:Hat; [done|].
  destruct (before_spec ":"%char authority) as (port & Ha & Hcolon & Hport).
  destruct (str_is_empty (before ":"%char authority)) eqn:He; [done|].
  intros [= <-]. exists port, path. rewrite <- Ha.
  split.
  { rewrite Ha at 1. by rewrite str_app_assoc. }
  split; [by intros Hn; rewrite Hn in He|]. by repeat split.
Qed.

(** A URI that the loops accept for a list of allowed hosts. *)
Definition host_allowed (allowed : list string) (uri : string) : Prop :=
  exists host, https_host uri = Some host /\
    exists h, h ∈ allowed /\ eq_ignore_ascii_case h host = true.

Lemma list_any_host allowed host :
  list_any (fun h => eq_ignore_ascii_case h host) allowed = true <->
  exists h, h ∈ allowed /\ eq_ignore_ascii_case h host = true.
Proof. apply list_any_true. Qed.

Lemma check_uris_Ok f g allowed uris :
  check_uris f g allowed uris = Ok tt <-> Forall (host_allowed allowed) uris.
Proof.
  induction uris as [|u uris IH]; cbn [check_uris]; [done|].
  rewrite Forall_cons, <- IH. unfold host_allowed.
  destruct (https_host u) as [host|]; cbn [ok_or mbind result_bind].
  2:{ split; [done | by intros [(? & ? & ?) _]]. }
  destruct (list_any _ allowed) eqn:Hany; cbn [negb].
  - apply list_any_host in Hany. split; [intros ?; split; [eauto | done] | by intros [_ ?]].
  - split; [done|]. intros [(h & [= <-] & Hh) _]. apply list_any_host in Hh. congruence.
Qed.

Lemma check_uris_result f g allowed uris :
  check_uris f g allowed uris = Ok tt \/ exists e, check_uris f g allowed uris = Err e.
Proof. destruct (check_uris _ _ _ _) as [[]|]; eauto. Qed.

Lemma check_grant_types_Ok allowed gts :
  check_grant_types allowed gts = Ok tt <-> Forall (fun g => g ∈ allowed) gts.
Proof.
  induction gts as [|g gts IH]; cbn [check_grant_types]; [done|].
  rewrite Forall_cons, <- IH.
  destruct (list_any _ allowed) eqn:Hany; cbn [negb].
  - apply list_any_true in Hany as (a & Ha & He). apply bool_decide_eq_true in He as ->. by split; [|intros [_ ?]].
  - split; [done|]. intros [Hg _].
    assert (Ht : list_any (fun a => bool_decide (a = g)) allowed = true).
    { apply list_any_true. exists g. by rewrite bool_decide_eq_true_2. }
    congruence.
Qed.

Section properties.
Context `{Externals}.

(** What an initial access token lets a registration ask for. *)
Definition registrable (req : RegistrationRequest) (c : IatConstraints) : Prop :=
  rr_redirect_uris req <> [] /\
  Forall (host_allowed (ic_allowed_redirect_hosts c)) (rr_redirect_uris req) /\
  Forall (host_allowed (ic_allowed_redirect_hosts c)) (rr_post_logout_redirect_uris req) /\
  Forall (fun g => g ∈ ic_allowed_grant_types c) (rr_grant_types req) /\
  (ic_profile c = ConfidentialKey ->
     rr_jwks req <> [] \/ exists u, rr_jwks_uri req = Some u /\ u <> "").

(** The client of an accepted registration: what the request chose, and what the
    profile of the token fixes. *)
Definition registered_client (rnd client_id : string) (req : RegistrationRequest) (c : IatConstraints) : Client :=
  let gts := if bool_decide (rr_grant_types req = []) then ["authorization_code"] else rr_grant_types req in
  let key := bool_decide (ic_profile c = ConfidentialKey) in
  let sec := bool_decide (ic_profile c = ConfidentialSecret) in
  mkClient client_id (rr_redirect_uris req)
    (match ic_profile c with
     | Public => "none" | ConfidentialSecret => "client_secret_basic" | ConfidentialKey => "private_key_jwt"
     end)
    (if sec then Some (hash_token (b64url_encode rnd)) else None)
    gts (rr_post_logout_redirect_uris req) (negb sec)
    (if key then rr_jwks req else []) (if key then rr_jwks_uri req else None)
    key (key || sec) None.

(** A registration is accepted exactly when its redirect URIs (at least one) and
    post-logout URIs are https URIs of allowed hosts, its grant types are allowed and
    the key profile has a key; the accepted client has the authentication method, the
    secret and the PAR, PKCE and DPoP obligations of the token's profile, whatever
    the request says. *)
Theorem registration_decided_by_iat rnd client_id req c :
  (is_ok (validate_registration rnd client_id req c) = true <-> registrable req c) /\
  (forall o, validate_registration rnd client_id req c = Ok o ->
     ro_client o = registered_client rnd client_id req c /\
     ro_raw_client_secret o =
       if bool_decide (ic_profile c = ConfidentialSecret) then Some (b64url_encode rnd) else None).
Proof.
  unfold validate_registration, registrable, registered_client, gen_random_token.
  rewrite <- !(check_uris_Ok InsecureRedirectUri RedirectHostNotAllowed).
  rewrite <- check_grant_types_Ok.
  destruct (bool_decide (rr_redirect_uris req = [])) eqn:Hne.
  { apply bool_decide_eq_true in Hne. split; [split; [done | by intros [? _]] | done]. }
  apply bool_decide_eq_false in Hne.
  pose proof (check_uris_Ok InsecurePostLogoutRedirectUri PostLogoutRedirectHostNotAllowed
    (ic_allowed_redirect_hosts c) (rr_post_logout_redirect_uris req)) as Hpl.
  rewrite (check_uris_Ok InsecureRedirectUri RedirectHostNotAllowed _ (rr_post_logout_redirect_uris req)), <- Hpl.
  destruct (check_uris InsecureRedirectUri _ _ _) as [[]|]; cbn [mbind result_bind is_ok];
    [|split; [split; [done | by intros (_ & ? & _)] | done]].
  destruct (check_uris InsecurePostLogoutRedirectUri _ _ _) as [[]|]; cbn [mbind result_bind is_ok];
    [|split; [split; [done | by intros (_ & _ & ? & _)] | done]].
  assert (Hg : (if bool_decide (rr_grant_types req = []) then Ok ["authorization_code"]
     else _ ← check_grant_types (ic_allowed_grant_types c) (rr_grant_types req); Ok (rr_grant_types req)) =
    match check_grant_types (ic_allowed_grant_types c) (rr_grant_types req) with
    | Ok _ => Ok (if bool_decide (rr_grant_types req = []) then ["authorization_code"] else rr_grant_types req)
    | Err e => Err e
    end).
  { case_bool_decide as Hn; [by rewrite Hn | by destruct (check_grant_types _ _)]. }
  rewrite Hg. destruct (check_grant_types _ _) as [[]|]; cbn [mbind result_bind is_ok];
    [|split; [split; [done | by intros (_ & _ & _ & ? & _)] | done]].
  destruct (ic_profile c); cbn [is_ok]; [split; [done | by intros o [= <-]].. |].
  destruct (bool_decide (rr_jwks req = [])) eqn:Hj; cbn [andb];
    [apply bool_decide_eq_true in Hj | apply bool_decide_eq_false in Hj; cbn [is_ok]; split;
      [by split; [repeat split; auto|] | by intros o [= <-]]].
  destruct (rr_jwks_uri req) as [[|a u]|]; cbn [str_is_empty is_ok].
  - split; [split; [done|] | done]. intros (_ & _ & _ & _ & Hk). destruct (Hk eq_refl) as [?|(u & [= <-] & ?)]; done.
  - split; [split; [|done] | by intros o [= <-]]. intros _. repeat split; auto. right. eauto.
  - split; [split; [done|] | done]. intros (_ & _ & _ & _ & Hk). by destruct (Hk eq_refl) as [?|(u & ? & ?)].
Qed.

(** Every host the checks compare with an allow list is the host of the URI's
    authority: the URI is the https scheme, the host, an optional port, then nothing or
    a path; there is no user information, no fragment, and no slash before the path. *)
Theorem https_host_sound uri host :
  https_host uri = Some host ->
  exists port path,
    uri = "https://" +:+ host +:+ port +:+ path /\ host <> "" /\
    str_contains "#"%char uri = false /\
    str_contains "@"%char (host +:+ port) = false /\ str_contains "/"%char (host +:+ port) = false /\
    str_contains ":"%char host = false /\
    (port = "" \/ exists p, port = String ":"%char p) /\ (path = "" \/ exists p, path = String "/"%char p).
Proof. apply https_host_Some. Qed.

(** The post-logout URIs an administrator may set are exactly the https URIs
    whose host is the host of a registered redirect URI of the same client. *)
Theorem admin_post_logout_hosts uris client_redirect_uris :
  check_admin_post_logout_uris uris client_redirect_uris = Ok tt <->
  Forall (fun u => exists host r h, https_host u = Some host /\ r ∈ client_redirect_uris /\
                     https_host r = Some h /\ eq_ignore_ascii_case h host = true) uris.
Proof.
  unfold check_admin_post_logout_uris.
  induction uris as [|u uris IH]; cbn [foldr]; [done|].
  rewrite Forall_cons, <- IH. destruct (https_host u) as [host|].
  2:{ split; [done | by intros [(? & ? & ? & ? & _) _]]. }
  destruct (list_any _ _) eqn:Hany; cbn [negb].
  - apply list_any_host in Hany as (h & Hh & He). apply list_elem_of_omap in Hh as (r & Hr & Hrh).
    split; [intros ?; split; [by exists host, r, h | done] | by intros [_ ?]].
  - split; [done|]. intros [(host' & r & h & [= <-] & Hr & Hrh & He) _].
    assert (Ht : list_any (fun h => eq_ignore_ascii_case h host) (omap https_host client_redirect_uris) = true);
      [|congruence].
    apply list_any_host. exists h. split; [|done]. apply list_elem_of_omap. eauto.
Qed.
End properties.

(** ** Witnesses *)

Lemma https_host_sound_witness :
  exists port path,
    "https://rp.example:8443/cb" = "https://" +:+ "rp.example" +:+ port +:+ path /\ "rp.example" <> "" /\
    str_contains "#"%char "https://rp.example:8443/cb" = false /\
    str_contains "@"%char ("rp.example" +:+ port) = false /\
    str_contains "/"%char ("rp.example" +:+ port) = false /\
    str_contains ":"%char "rp.example" = false /\
    (port = "" \/ exists p, port = String ":"%char p) /\ (path = "" \/ exists p, path = String "/"%char p).
Proof. apply (https_host_sound "https://rp.example:8443/cb" "rp.example"). reflexivity. Defined.

Definition sample_registration : RegistrationRequest :=
  mkRegistrationRequest ["https://rp.example/cb"] [] [] [] None.
Definition sample_constraints : IatConstraints :=
  mkIatConstraints ["RP.example"] ["authorization_code"] Public.
Lemma registration_decided_by_iat_witness :
  is_ok (@validate_registration (sample_externals []) "rnd" "dcr-1" sample_registration sample_constraints) = true.
Proof.
  apply (proj2 (proj1 (@registration_decided_by_iat (sample_externals []) "rnd" "dcr-1"
    sample_registration sample_constraints))).
  split; [discriminate|]. split; [|split; [constructor | split; [constructor | discriminate]]].
  constructor; [|constructor]. exists "rp.example". split; [reflexivity|].
  exists "RP.example". split; [left | reflexivity].
Defined.
