(* ===== verification/Claims.v ===== *)
(** * Claims released for a scope, and the editable profile

    [src/src/claims.rs] and the profile documents of [src/src/registration.rs]. *)

From S2P Require Import Prelude Prog Json Model Firestore Externals Sys.

#[local] Open Scope Z_scope.

Definition PROFILE : list string :=
  ["name"; "family_name"; "given_name"; "middle_name"; "nickname"; "preferred_username"; "profile";
   "picture"; "website"; "gender"; "birthdate"; "zoneinfo"; "locale"; "updated_at"].
Definition EMAIL : list string := ["email"; "email_verified"].
Definition EDITABLE : list string := ["name"; "nickname"; "birthdate"; "gender"; "zoneinfo"; "locale"].
Definition ADDRESS : list string := ["address"].
Definition PHONE : list string := ["phone_number"; "phone_number_verified"].

Definition claims_of_scope (s : string) : list string :=
  if bool_decide (s = "profile") then PROFILE
  else if bool_decide (s = "email") then EMAIL
  else if bool_decide (s = "address") then ADDRESS
  else if bool_decide (s = "phone") then PHONE
  else [].
Definition claim_names_for_scopes (scope : string) : list string :=
  foldl (fun out s => out ++ claims_of_scope s) ["sub"] (split_whitespace scope).
Definition all_supported_claims : list string := ["sub"] ++ PROFILE ++ EMAIL ++ ADDRESS ++ PHONE.

(** The body of [userinfo_respond]: the claims of the account that the scope releases. *)
Definition released_claims (scope : string) (account : Account) : gmap string Value :=
  list_to_map (omap (fun name => v ← acct_claims account !! name; Some (name, v))
                 (claim_names_for_scopes scope)).

(** ** registration.rs: the profile documents *)

(** The editable fields of a profile document. *)
Definition profile_of_doc (fields : Value) : gmap string string :=
  foldl (fun out k => match field_str fields k with Some v => <[k := v]> out | None => out end) ∅ EDITABLE.
Arguments profile_of_doc : simpl never.

Definition get_profile (email : string) : prog sysE (result string (gmap string string)) :=
  d ←? fs (GetDoc "profiles" email);
  mret (Ok match d with None => ∅ | Some fields => profile_of_doc fields end).

Definition save_profile (email : string) (updates : gmap string string) : prog sysE (result string unit) :=
  current ←? get_profile email;
  let merged := filter (fun kv : string * string => kv.1 ∈ EDITABLE) updates ∪ current in
  fs (SetDoc "profiles" email
        (Object (("email", fs_s email) :: map (fun kv => (kv.1, fs_s kv.2)) (map_to_list merged)))).

Definition find_email_by_account_id (account_id : string) : prog sysE (result string (option string)) :=
  d ←? fs (GetDoc "accountsByUuid" account_id);
  mret (Ok (d ≫= fun fields => field_str fields "email")).

(** * Properties *)

Lemma claim_names_elem scope c :
  c ∈ claim_names_for_scopes scope <->
  c = "sub" \/ exists s, s ∈ split_whitespace scope /\ c ∈ claims_of_scope s.
Proof.
  unfold claim_names_for_scopes. generalize (split_whitespace scope). intros l.
  assert (H : forall out, c ∈ foldl (fun out s => out ++ claims_of_scope s) out l <->
    c ∈ out \/ exists s, s ∈ l /\ c ∈ claims_of_scope s).
  { induction l as [|s l IH]; intros out; simpl.
    - split; [by left|]. intros [?|(? & ?%elem_of_nil & _)]; done.
    - rewrite IH, elem_of_app. setoid_rewrite elem_of_cons.
      split; [intros [[?|?]|(s' & ? & ?)] | intros [?|(s' & [->|?] & ?)]]; eauto 6. }
  rewrite H, list_elem_of_singleton. done.
Qed.

Lemma released_claims_lookup scope account k v :
  released_claims scope account !! k = Some v <->
  k ∈ claim_names_for_scopes scope /\ acct_claims account !! k = Some v.
Proof.
  unfold released_claims. generalize (claim_names_for_scopes scope). intros names.
  induction names as [|n names IH]; simpl.
  { rewrite lookup_empty. split; [done|]. by intros [?%elem_of_nil _]. }
  rewrite elem_of_cons. destruct (acct_claims account !! n) as [w|] eqn:Hn; simpl.
  - rewrite lookup_insert_Some, IH. split.
    + intros [[-> <-]|[? [? ?]]]; auto.
    + intros [[->|?] Hk]; [left; split; [done | congruence]|].
      destruct (decide (n = k)) as [->|]; [left; split; [done | congruence] | auto].
  - rewrite IH. split; [intros [? ?]; auto|]. intros [[->|?] Hk]; [congruence | auto].
Qed.

(** The userinfo answer holds exactly the account's claims that are [sub] or
    belong to a scope of the token, with the account's values; all of them are
    announced as supported. *)
Theorem userinfo_releases scope account k v :
  (released_claims scope account !! k = Some v <->
     acct_claims account !! k = Some v /\
     (k = "sub" \/ exists s, s ∈ split_whitespace scope /\ k ∈ claims_of_scope s)) /\
  (released_claims scope account !! k = Some v -> k ∈ all_supported_claims).
Proof.
  rewrite released_claims_lookup, claim_names_elem. split; [tauto|].
  intros [[->|(s & _ & Hs)] _]; [left|]. unfold claims_of_scope, all_supported_claims in *.
  rewrite !elem_of_app. repeat case_bool_decide; auto 6. by apply elem_of_nil in Hs.
Qed.

Lemma userinfo_releases_witness :
  "sub" ∈ all_supported_claims.
Proof.
  apply (proj2 (userinfo_releases "openid" (mkAccount "u" (<["sub" := Str "u"]> ∅)) "sub" (Str "u"))).
  vm_compute. reflexivity.
Defined.
