(* ===== verification/Accounts.v ===== *)
(** * Accounts, their passkeys and the ceremonies that create them

    [src/src/registration.rs] as programs over the database: the challenges of the
    confirmation mails, of the invitations and of the WebAuthn ceremonies, and the
    credential documents.  The profile documents are in [Claims]. *)

From S2P Require Import Prelude Prog Json Model Decimal Calendar Firestore Externals Es256 WebAuthn Sys Claims.

#[local] Open Scope Z_scope.

Definition EMAIL_TTL_SECS : Z := 30 * 60.
Definition INVITE_TTL_SECS : Z := 7 * 24 * 60 * 60.
Definition CEREMONY_TTL_SECS : Z := 5 * 60.

Definition token_char (c : ascii) : bool :=
  let n := nat_of_ascii c in
  ((65 <=? n) && (n <=? 90) || (97 <=? n) && (n <=? 122) || (48 <=? n) && (n <=? 57) || (n =? 45) || (n =? 95))%nat.
Definition token_ok (t : string) : bool :=
  ((20 <=? String.length t) && (String.length t <=? 100))%nat && str_forall token_char t.

(** [challenge_expired]: a document without a readable expiry has expired in 1970. *)
Definition expires_at (fields : Value) : Z :=
  default 0 (v ← get fields "expiresAt"; v ← get v "timestampValue"; t ← as_str v; Some (parse_rfc3339_secs t)).
Definition challenge_expired (fields : Value) : prog sysE bool :=
  t ← now_secs; mret (expires_at fields <? t).

Inductive ChallengeKind : Type := Reg | Auth | CibaApprove.
#[export] Instance ChallengeKind_eq_dec : EqDecision ChallengeKind.
Proof. solve_decision. Defined.
Definition kind_as_str (k : ChallengeKind) : string :=
  match k with Reg => "reg" | Auth => "auth" | CibaApprove => "ciba-approve" end.
Definition kind_parse (s : string) : option ChallengeKind :=
  if bool_decide (s = "reg") then Some Reg
  else if bool_decide (s = "auth") then Some Auth
  else if bool_decide (s = "ciba-approve") then Some CibaApprove
  else None.

(** [str::parse::<u32>]. *)
Definition parse_u32 (s : string) : option Z :=
  z ← parse_u64 s; if z <? 2 ^ 32 then Some z else None.

Record Credential := mkCredential {
  cr_account_id : string;
  cr_credential_id : string;
  cr_pub_x : string;
  cr_pub_y : string;
  cr_sign_count : Z;
  cr_disabled : bool
}.

Record AccountSummary := mkAccountSummary {
  as_email : string;
  as_account_id : string;
  as_disabled : bool;
  as_sign_count : Z;
  as_created_at : Z
}.

Section accounts.
Context `{Externals}.

Definition random_token : prog sysE string := b ← random_bytes; mret (b64url_encode b).

(** ** Challenges of mails and invitations *)

Definition create_email_challenge (email : string) : prog sysE (result string string) :=
  token ← random_token;
  t ← now_secs;
  _ ←? fs (SetDoc "emailChallenges" token
             (Object [("email", fs_s email); ("expiresAt", fs_ts (rfc3339 (t + EMAIL_TTL_SECS)))]));
  mret (Ok token).

Definition create_invite_challenge (email return_to : string) : prog sysE (result string string) :=
  token ← random_token;
  t ← now_secs;
  _ ←? fs (SetDoc "emailChallenges" token
             (Object [("email", fs_s email); ("returnTo", fs_s return_to);
                      ("expiresAt", fs_ts (rfc3339 (t + INVITE_TTL_SECS)))]));
  mret (Ok token).

(** The address and the return target of an invitation document. *)
Definition invite_of (fields : Value) : option (string * string) :=
  match field_str fields "email", field_str fields "returnTo" with
  | Some e, Some r => if str_is_empty r then None else Some (e, r)
  | _, _ => None
  end.
Definition peek_invite (token : string) : prog sysE (result string (option (string * string))) :=
  if negb (token_ok token) then mret (Ok None)
  else
    d ←? fs (GetDoc "emailChallenges" token);
    match d with
    | None => mret (Ok None)
    | Some fields =>
        e ← challenge_expired fields;
        mret (Ok (if (e : bool) then None else invite_of fields))
    end.

Definition peek_email_challenge (token : string) : prog sysE (result string (option string)) :=
  if negb (token_ok token) then mret (Ok None)
  else
    d ←? fs (GetDoc "emailChallenges" token);
    match d with
    | None => mret (Ok None)
    | Some fields =>
        e ← challenge_expired fields;
        mret (Ok (if (e : bool) then None else field_str fields "email"))
    end.

(** The failure of the deletion is ignored. *)
Definition consume_email_challenge (token : string) : prog sysE (result string (option string)) :=
  if negb (token_ok token) then mret (Ok None)
  else
    d ←? fs (GetDoc "emailChallenges" token);
    match d with
    | None => mret (Ok None)
    | Some fields =>
        _ ← fs (DeleteDoc "emailChallenges" token);
        e ← challenge_expired fields;
        mret (Ok (if (e : bool) then None else field_str fields "email"))
    end.

Definition account_exists (email : string) : prog sysE (result string bool) :=
  d ←? fs (GetDoc "accounts" email);
  mret (Ok (bool_decide (is_Some d))).

(** ** Challenges of WebAuthn ceremonies *)

Definition webauthn_doc (now : Z) (email : string) (kind : ChallengeKind) (uid account_id : string) : Value :=
  Object [("email", fs_s email); ("kind", fs_s (kind_as_str kind)); ("uid", fs_s uid);
          ("accountId", fs_s account_id); ("expiresAt", fs_ts (rfc3339 (now + CEREMONY_TTL_SECS)))].
Definition create_webauthn_challenge (email : string) (kind : ChallengeKind) (uid account_id : string) :
    prog sysE (result string string) :=
  challenge ← random_token;
  t ← now_secs;
  _ ←? fs (SetDoc "webauthnChallenges" challenge (webauthn_doc t email kind uid account_id));
  mret (Ok challenge).

(** The address, the kind, the transaction and the account of a ceremony. *)
Definition ceremony_of (fields : Value) : option (string * ChallengeKind * string * string) :=
  kind ← kind_parse (default "" (field_str fields "kind"));
  Some (default "" (field_str fields "email"), kind, default "" (field_str fields "uid"),
        default "" (field_str fields "accountId")).
Definition consume_webauthn_challenge (challenge : string) :
    prog sysE (result string (option (string * ChallengeKind * string * string))) :=
  if negb (token_ok challenge) then mret (Ok None)
  else
    d ←? fs (GetDoc "webauthnChallenges" challenge);
    match d with
    | None => mret (Ok None)
    | Some fields =>
        _ ← fs (DeleteDoc "webauthnChallenges" challenge);
        e ← challenge_expired fields;
        mret (Ok (if (e : bool) then None else ceremony_of fields))
    end.

(** ** Credentials *)

Definition credential_of_doc (fields : Value) : option Credential :=
  credential_id ← field_str fields "credentialId";
  let sign_count := default 0 (v ← get fields "signCount"; v ← get v "integerValue"; s ← as_str v; parse_u32 s) in
  Some (mkCredential (default "" (field_str fields "accountId")) credential_id
          (default "" (field_str fields "pubX")) (default "" (field_str fields "pubY")) sign_count
          (default false (field_bool fields "disabled"))).
Definition get_credential (email : string) : prog sysE (result string (option Credential)) :=
  d ←? fs (GetDoc "accounts" email);
  mret (Ok (d ≫= credential_of_doc)).

Definition credential_doc (now : Z) (email account_id : string) (c : RegOutcome) (disabled : bool) : Value :=
  Object [("email", fs_s email); ("accountId", fs_s account_id); ("credentialId", fs_s (reg_credential_id c));
          ("pubX", fs_s (reg_pub_x c)); ("pubY", fs_s (reg_pub_y c)); ("signCount", fs_int (reg_sign_count c));
          ("verified", fs_b true); ("createdAt", fs_ts (rfc3339 now)); ("disabled", fs_b disabled)].
Definition save_credential (email account_id : string) (c : RegOutcome) : prog sysE (result string unit) :=
  existing ←? get_credential email;
  let disabled := default false (cr_disabled <$> existing) in
  t ← now_secs;
  _ ←? fs (SetDoc "accounts" email (credential_doc t email account_id c disabled));
  _ ← fs (SetDoc "accountsByUuid" account_id (Object [("email", fs_s email)]));
  mret (Ok tt).

(** [as u32] keeps the low 32 bits. *)
Definition summary_of (row : string * Value * string) : option AccountSummary :=
  let '(email, fields, _) := row in
  account_id ← field_str fields "accountId";
  if str_is_empty account_id then None
  else Some (mkAccountSummary email account_id (default false (field_bool fields "disabled"))
               (default 0 (field_u64 fields "signCount") mod 2 ^ 32)
               (default 0 (field_ts_secs fields "createdAt"))).
Definition list_accounts : prog sysE (result string (list AccountSummary)) :=
  rows ←? fs (ListCollection "accounts");
  mret (Ok (omap summary_of rows)).

Definition update_sign_count (email : string) (n : Z) : prog sysE (result string unit) :=
  fs (UpdateField "accounts" email "signCount" (fs_int n)).
Definition set_disabled (email : string) (disabled : bool) : prog sysE (result string unit) :=
  fs (UpdateField "accounts" email "disabled" (fs_b disabled)).

End accounts.
