(* ===== verification/AdminStore.v ===== *)
(** * Administrators, the audit log and the freezing of accounts

    [src/src/admin_store.rs], [src/src/audit_log.rs] and [src/src/account_admin.rs]. *)

From S2P Require Import Prelude Prog Json Model Decimal Calendar Firestore Externals Es256 Sys Accounts.

#[local] Open Scope Z_scope.

(** ** admin_store.rs: the registry of administrators *)

Record AdminEntry := mkAdminEntry {
  ae_account_id : string;
  ae_granted_by : string;
  ae_granted_at : Z
}.

(** [serde_json] on [Vec<AdminEntry>]; [serde_json::to_string] does not fail on it. *)
Class AdminCodec := {
  entries_from_json : string -> result string (list AdminEntry);
  entries_to_json : list AdminEntry -> string
}.

Inductive GrantAdminResult : Type := Granted | AlreadyAdmin | GrantConflict.
Inductive RevokeAdminResult : Type := Revoked | NotAdmin | LastAdminGuard | RevokeConflict.
#[export] Instance RevokeAdminResult_eq_dec : EqDecision RevokeAdminResult.
Proof. solve_decision. Defined.

Definition REGISTRY_COL : string := "admins".
Definition REGISTRY_ID : string := "_registry".

Definition listed (account_id : string) (entries : list AdminEntry) : bool :=
  existsb (fun e => bool_decide (ae_account_id e = account_id)) entries.

Definition decide_revoke (entries : list AdminEntry) (target : string) : RevokeAdminResult :=
  if negb (listed target entries) then NotAdmin
  else if (length entries <=? 1)%nat then LastAdminGuard
  else Revoked.

Section admins.
Context `{AdminCodec}.

(** A text that does not parse counts as no administrator at all. *)
Definition parse_entries (fields : Value) : list AdminEntry :=
  default [] (s ← field_str fields "entries"; result_ok (entries_from_json s)).
Definition entries_field (entries : list AdminEntry) : Value :=
  Object [("entries", fs_s (entries_to_json entries))].

Definition load_registry : prog sysE (result string (list AdminEntry * option string)) :=
  d ←? fs (GetDocWithUpdateTime REGISTRY_COL REGISTRY_ID);
  mret (Ok match d with
           | Some (fields, update_time) => (parse_entries fields, Some update_time)
           | None => ([], None)
           end).

Definition is_admin (account_id : string) : prog sysE (result string bool) :=
  r ←? load_registry;
  mret (Ok (listed account_id r.1)).
Definition list_admins : prog sysE (result string (list string)) :=
  r ←? load_registry;
  mret (Ok (map ae_account_id r.1)).

Definition grant_admin (account_id granted_by : string) : prog sysE (result string GrantAdminResult) :=
  r ←? load_registry;
  if listed account_id r.1 then mret (Ok AlreadyAdmin)
  else
    t ← now_secs;
    let entries := r.1 ++ [mkAdminEntry account_id granted_by t] in
    ok ←? match r.2 with
          | Some ut => fs (SetDocIfUnchanged REGISTRY_COL REGISTRY_ID (entries_field entries) ut)
          | None => fs (CreateIfAbsent REGISTRY_COL REGISTRY_ID (entries_field entries))
          end;
    mret (Ok (if (ok : bool) then Granted else GrantConflict)).

Definition remaining (account_id : string) (entries : list AdminEntry) : list AdminEntry :=
  List.filter (fun e => negb (bool_decide (ae_account_id e = account_id))) entries.
Definition revoke_admin (account_id : string) : prog sysE (result string RevokeAdminResult) :=
  r ←? load_registry;
  match decide_revoke r.1 account_id with
  | Revoked =>
      match r.2 with
      | None => mret (Err "admin_store: revoke_admin: inconsistent state")
      | Some ut =>
          ok ←? fs (SetDocIfUnchanged REGISTRY_COL REGISTRY_ID (entries_field (remaining account_id r.1)) ut);
          mret (Ok (if (ok : bool) then Revoked else RevokeConflict))
      end
  | other => mret (Ok other)
  end.
End admins.

(** ** audit_log.rs *)

Record AuditEntry := mkAuditEntry {
  au_actor : string;
  au_action : string;
  au_target : string;
  au_detail : string;
  au_at : Z
}.

Definition audit_doc (now : Z) (actor action target detail : string) : Value :=
  Object [("actor", fs_s actor); ("action", fs_s action); ("target", fs_s target);
          ("detail", fs_s detail); ("at", fs_ts (rfc3339 now))].
(** Every answer of the write is only logged. *)
Definition audit_record (actor action target detail : string) : prog sysE unit :=
  id_ ← opaque;
  t ← now_secs;
  _ ← fs (CreateIfAbsent "auditLog" id_ (audit_doc t actor action target detail));
  mret tt.

Definition parse_entry (fields : Value) : AuditEntry :=
  mkAuditEntry (default "" (field_str fields "actor")) (default "" (field_str fields "action"))
    (default "" (field_str fields "target")) (default "" (field_str fields "detail"))
    (default 0 (field_ts_secs fields "at")).
Definition list_recent (limit : Z) : prog sysE (result string (list AuditEntry)) :=
  rows ←? fs (ListRecentOrdered "auditLog" "at" limit);
  mret (Ok (map (fun row => parse_entry row.2) rows)).
Definition newest_first (a b : AuditEntry) : comparison := Z.compare (au_at b) (au_at a).
Definition list_for_target (target : string) : prog sysE (result string (list AuditEntry)) :=
  rows ←? fs (QueryEq "auditLog" "target" target);
  mret (Ok (sort_by newest_first (map (fun row => parse_entry row.2) rows))).

(** ** account_admin.rs *)

Record RevocationCounts := mkRevocationCounts {
  rc_sessions : nat;
  rc_access_tokens : nat;
  rc_refresh_tokens : nat;
  rc_query_errors : list string
}.
Definition RevocationCounts_default : RevocationCounts := mkRevocationCounts 0 0 0 [].

Inductive DisableOutcome : Type :=
| Disabled (c : RevocationCounts)
| AlreadyDisabled (c : RevocationCounts)
| DisableNotFound.
Inductive EnableOutcome : Type := Enabled | AlreadyEnabled | EnableNotFound.
Inductive DeleteOutcome : Type := Deleted (c : RevocationCounts) | NotDisabled | DeleteNotFound.

(** [{:?}] of the collection names, and of the [Vec] of them. *)
Fixpoint join (sep : string) (l : list string) : string :=
  match l with [] => "" | [x] => x | x :: l' => x +:+ sep +:+ join sep l' end.
Definition debug_names (l : list string) : string := "[" +:+ join ", " (map quoted l) +:+ "]".
Definition bool_to_string (b : bool) : string := if b then "true" else "false".
Definition counts_detail (email : string) (c : RevocationCounts) : string :=
  "email=" +:+ email +:+ " sessions=" +:+ u64_to_string (Z.of_nat (rc_sessions c))
  +:+ " access_tokens=" +:+ u64_to_string (Z.of_nat (rc_access_tokens c))
  +:+ " refresh_tokens=" +:+ u64_to_string (Z.of_nat (rc_refresh_tokens c))
  +:+ " query_errors=" +:+ debug_names (rc_query_errors c).

Section account_admin.
Context `{Externals}.

(** The documents are deleted one by one; a failure does not stop the loop. *)
Fixpoint revoke_rows (col : string) (revoked : nat) (rows : list (string * Value)) : prog sysE nat :=
  match rows with
  | [] => mret revoked
  | (id_, _) :: rows' =>
      r ← fs (DeleteDoc col id_);
      revoke_rows col (if is_ok r then S revoked else revoked) rows'
  end.
Definition revoke_by_account (col account_id : string) : prog sysE (result string nat) :=
  rows ←? fs (QueryEq col "accountId" account_id);
  n ← revoke_rows col 0 rows;
  mret (Ok n).

(** The count of one collection, or its name among the failed queries. *)
Definition count_or_error (col : string) (r : result string nat) : nat * list string :=
  match r with Ok n => (n, []) | Err _ => (0%nat, [col]) end.
Definition revoke_all (account_id : string) : prog sysE RevocationCounts :=
  s ← revoke_by_account "sessions" account_id;
  a ← revoke_by_account "accessTokens" account_id;
  r ← revoke_by_account "refreshTokens" account_id;
  let s' := count_or_error "sessions" s in
  let a' := count_or_error "accessTokens" a in
  let r' := count_or_error "refreshTokens" r in
  mret (mkRevocationCounts s'.1 a'.1 r'.1 (s'.2 ++ a'.2 ++ r'.2)).

Definition disable_account (actor email : string) : prog sysE (result string DisableOutcome) :=
  cred ←? get_credential email;
  match cred with
  | None => mret (Ok DisableNotFound)
  | Some cred =>
      let already_disabled := cr_disabled cred in
      _ ←? (if already_disabled then mret (Ok tt) else set_disabled email true);
      counts ← revoke_all (cr_account_id cred);
      _ ← audit_record actor "disable_account" (cr_account_id cred) (counts_detail email counts);
      mret (Ok (if already_disabled then AlreadyDisabled counts else Disabled counts))
  end.

Definition enable_account (actor email : string) : prog sysE (result string EnableOutcome) :=
  cred ←? get_credential email;
  match cred with
  | None => mret (Ok EnableNotFound)
  | Some cred =>
      let already_enabled := negb (cr_disabled cred) in
      _ ←? (if already_enabled then mret (Ok tt) else set_disabled email false);
      _ ← audit_record actor "enable_account" (cr_account_id cred)
            ("email=" +:+ email +:+ " already_enabled=" +:+ bool_to_string already_enabled);
      mret (Ok (if already_enabled then AlreadyEnabled else Enabled))
  end.

Definition delete_account (actor email : string) : prog sysE (result string DeleteOutcome) :=
  cred ←? get_credential email;
  match cred with
  | None => mret (Ok DeleteNotFound)
  | Some cred =>
      if negb (cr_disabled cred) then mret (Ok NotDisabled)
      else
        counts ← revoke_all (cr_account_id cred);
        _ ←? fs (DeleteDoc "fcmTokens" (cr_account_id cred));
        _ ←? fs (DeleteDoc "profiles" (cr_account_id cred));
        _ ←? fs (DeleteDoc "accountsByUuid" (cr_account_id cred));
        _ ←? fs (DeleteDoc "accounts" email);
        _ ← audit_record actor "delete_account" (cr_account_id cred) (counts_detail email counts);
        mret (Ok (Deleted counts))
  end.
End account_admin.
