(* ===== verification/AdminFacts.v ===== *)
(** * Properties of the administrators' registry *)

From S2P Require Import Prelude Prog Json Model Firestore Externals Sys DocStore DocTable CasFacts.
From S2P Require Import Accounts AdminStore.

#[local] Open Scope Z_scope.

Section registry.
Context `{AdminCodec}.
(** [serde_json] reads back what it writes. *)
Context (codec_law : forall l, entries_from_json (entries_to_json l) = Ok l).

(** At least one administrator, none of them twice. *)
Definition admins_ok (l : list AdminEntry) : Prop := l <> [] /\ NoDup (map ae_account_id l).
Definition registry_good (f : Value) : Prop := admins_ok (parse_entries f).

Lemma parse_entries_field l : parse_entries (entries_field l) = l.
Proof.
  unfold parse_entries, entries_field, field_str. simpl. by rewrite codec_law.
Qed.

Lemma listed_true a l : listed a l = true <-> a ∈ map ae_account_id l.
Proof.
  unfold listed. rewrite existsb_exists, list_elem_of_fmap. split.
  - intros (e & Hin & He%bool_decide_eq_true). exists e. split; [done | by apply list_elem_of_In].
  - intros (e & -> & Hin). exists e. split; [by apply list_elem_of_In | by apply bool_decide_eq_true].
Qed.
Lemma remaining_elem x a l : x ∈ map ae_account_id (remaining a l) <-> x <> a /\ x ∈ map ae_account_id l.
Proof.
  unfold remaining. rewrite !list_elem_of_fmap. split.
  - intros (e & -> & Hin). apply list_elem_of_In, filter_In in Hin as [Hin Hne].
    apply negb_true_iff, bool_decide_eq_false in Hne. split; [done|]. exists e. split; [done | by apply list_elem_of_In].
  - intros [Hne (e & -> & Hin)]. exists e. split; [done|]. apply list_elem_of_In, filter_In.
    split; [by apply list_elem_of_In|]. by apply negb_true_iff, bool_decide_eq_false.
Qed.
Lemma remaining_NoDup a l : NoDup (map ae_account_id l) -> NoDup (map ae_account_id (remaining a l)).
Proof.
  unfold remaining. induction l as [|e l IH]; simpl; [done|]. intros [Hni Hnd]%NoDup_cons.
  case_bool_decide; simpl; [by apply IH|]. apply NoDup_cons. split; [|by apply IH].
  intros Hin. apply Hni. by apply (remaining_elem _ a) in Hin as [_ ?].
Qed.

(** Removing one of at least two distinct administrators leaves one. *)
Lemma remaining_ok a l : decide_revoke l a = Revoked -> admins_ok l -> admins_ok (remaining a l).
Proof.
  unfold decide_revoke. destruct (listed a l); simpl; [|done]. destruct (Nat.leb_spec (length l) 1) as [|Hl]; [done|].
  intros _ [_ Hnd]. split; [|by apply remaining_NoDup].
  destruct l as [|e1 [|e2 l]]; simpl in Hl; [lia..|]. cbn [map] in Hnd.
  apply NoDup_cons in Hnd as [Hni _]. rewrite elem_of_cons in Hni. intros Hr.
  assert (Hor : ae_account_id e1 <> a \/ ae_account_id e2 <> a).
  { destruct (decide (ae_account_id e1 = a)); [right; intros ?; apply Hni; left; congruence | by left]. }
  destruct Hor as [Hne|Hne]; eapply (elem_of_nil (A := string)); change [] with (map ae_account_id []); rewrite <- Hr;
    apply remaining_elem; (split; [exact Hne|]); set_solver.
Qed.
Lemma granted_ok e l : listed (ae_account_id e) l = false -> admins_ok l -> admins_ok (l ++ [e]).
Proof.
  intros Hno [_ Hnd]. split; [by destruct l|]. rewrite map_app. apply NoDup_app. split; [done|]. split; [|apply NoDup_singleton].
  intros x Hx Hin. apply list_elem_of_singleton in Hin as ->. apply listed_true in Hx. congruence.
Qed.

(** ** Who may work on the database *)

(** A program that writes other documents only. *)
Fixpoint leaves_registry {A} (p : prog sysE A) : Prop :=
  match p with
  | Ret _ => True
  | Vis e k =>
      match e with
      | FsOp o => named o = true /\ target_of o <> Some (REGISTRY_COL, REGISTRY_ID)
      | _ => True
      end /\ forall x, leaves_registry (k x)
  end.

Inductive admin_task : Type :=
| GrantTask (account granted_by : string)
| RevokeTask (account : string)
| OtherTask (p : prog sysE unit).
Definition run_task (t : admin_task) : prog sysE unit :=
  match t with
  | GrantTask account granted_by => _ ← grant_admin account granted_by; mret tt
  | RevokeTask account => _ ← revoke_admin account; mret tt
  | OtherTask p => p
  end.
Definition task_ok (t : admin_task) : Prop := match t with OtherTask p => leaves_registry p | _ => True end.

Abbreviation keeps := (cas_keeps REGISTRY_COL REGISTRY_ID registry_good).

Lemma leaves_keeps {A} (p : prog sysE A) K : leaves_registry p -> keeps K p.
Proof.
  revert K. induction p as [|X e k IH]; simpl; [done|]. intros K [He Hk]. split; [|intros x; by apply IH].
  destruct e as [| | | X o]; try done. destruct He as [Hn Ht]. split; [done|].
  destruct o; try done. intros [= -> ->]. by destruct Ht.
Qed.

Lemma grant_keeps account granted_by : keeps [] (grant_admin account granted_by).
Proof.
  split; [by split|]. intros [[[f v]|]|]; simpl; [|split; [done|]; intros t; split; [done|]; intros [[]|]; done | done].
  destruct (listed account (parse_entries f)) eqn:Hl; [done|]. split; [done|]. intros t. split; [|by intros [[]|]].
  split; [done|]. intros _. exists f. split; [by left|]. unfold registry_good. rewrite parse_entries_field.
  by apply granted_ok.
Qed.
Lemma revoke_keeps account : keeps [] (revoke_admin account).
Proof.
  split; [by split|]. intros [[[f v]|]|]; simpl; [|by destruct (decide_revoke [] account) | done].
  destruct (decide_revoke (parse_entries f) account) eqn:Hd; try done. split; [|by intros [[]|]].
  split; [done|]. intros _. exists f. split; [by left|]. unfold registry_good. rewrite parse_entries_field.
  by apply remaining_ok.
Qed.
Lemma task_keeps t : task_ok t -> keeps [] (run_task t).
Proof.
  destruct t as [account granted_by|account|p]; cbn [task_ok run_task]; intros Ht.
  - apply cas_keeps_bind; [apply grant_keeps | done].
  - apply cas_keeps_bind; [apply revoke_keeps | done].
  - by apply leaves_keeps.
Qed.

(** C17: once the registry names an administrator it always does: whatever grants and
    revocations the instances of the server run at the same time, in whatever order
    their operations on the shared database come, and whatever other work goes on, every reachable state has at
    least one administrator, and none twice. *)
Theorem registry_never_empties `{Externals} (B : FsBackend) `{!DocDb B} (tasks : list admin_task) s tr ps' s' :
  db_ok (sw_db s) -> doc_good REGISTRY_COL REGISTRY_ID registry_good B (sw_db s) ->
  Forall task_ok tasks ->
  steps sys_handler sys_env (map run_task tasks, s) tr (ps', s') ->
  doc_good REGISTRY_COL REGISTRY_ID registry_good B (sw_db s').
Proof.
  intros Hdb Hg Ht Hs. apply (pool_ok_steps REGISTRY_COL REGISTRY_ID registry_good B _ _ _ Hs).
  split; [done|]. split; [done|]. apply Forall_forall. intros p [t [-> Hin]]%list_elem_of_fmap.
  exists []. split; [constructor|]. apply task_keeps. by apply (proj1 (Forall_forall _ _) Ht).
Qed.

(** ** One change alone *)

Section alone.
Context `{Externals} (B : FsBackend) `{!DocDb B}.

Definition administers (db : fs_db) (account : string) : Prop :=
  exists f v, doc_at db REGISTRY_COL REGISTRY_ID = Some (f, v) /\ account ∈ map ae_account_id (parse_entries f).

Lemma load_registry_run w r w' :
  db_ok (sw_db w) -> run sys_handler load_registry w = (Ok r, w') ->
  db_ok (sw_db w') /\ unchanged doc_at seen (sw_db w) (sw_db w') /\
  match r.2 with
  | Some v => exists f, doc_at (sw_db w) REGISTRY_COL REGISTRY_ID = Some (f, v) /\ r.1 = parse_entries f
  | None => doc_at (sw_db w) REGISTRY_COL REGISTRY_ID = None /\ r.1 = []
  end.
Proof.
  intros Hdb. unfold load_registry. rewrite run_try_bind. destruct (run _ (fs _) w) as [x w1] eqn:Hr.
  destruct (fs_run B _ _ w x w1 Hdb Hr eq_refl) as (Hdb1 & [Hu Hd] & _). destruct x as [d|]; [|done].
  intros [= <- <-]. specialize (Hd d eq_refl). split; [done|]. split; [done|].
  destruct d as [[f v]|]; simpl; [exists f; by rewrite <- Hd | done].
Qed.
Lemma administers_unchanged db db' account : unchanged doc_at seen db db' -> administers db' account <-> administers db account.
Proof. intros [Hu _]. unfold administers. by rewrite Hu. Qed.
Lemma administers_put l db db' account :
  put doc_at seen REGISTRY_COL REGISTRY_ID (entries_field l) db db' ->
  administers db' account <-> account ∈ map ae_account_id l.
Proof.
  intros [_ (v & _ & Hd)]. unfold administers. rewrite Hd. split.
  - intros (f & v' & [= <- <-] & Hin). by rewrite parse_entries_field in Hin.
  - intros Hin. exists (entries_field l), v. by rewrite parse_entries_field.
Qed.

(** What the administrators' operations answer and do.  A grant that answers
    [Granted] adds exactly that account, a revocation that answers [Revoked] removes exactly
    that one of at least two, a revocation refused for the last administrator or for
    an account that is none changes nothing, and neither does a conflict. *)
Theorem registry_changes_exact account granted_by w :
  db_ok (sw_db w) ->
  (forall r w', run sys_handler (grant_admin account granted_by) w = (Ok r, w') -> forall x,
     administers (sw_db w') x <->
       match r with Granted => x = account \/ administers (sw_db w) x | _ => administers (sw_db w) x end) /\
  (forall r w', run sys_handler (revoke_admin account) w = (Ok r, w') ->
     (forall x, administers (sw_db w') x <->
        match r with Revoked => x <> account /\ administers (sw_db w) x | _ => administers (sw_db w) x end) /\
     (r = Revoked \/ r = LastAdminGuard -> administers (sw_db w) account) /\
     (r = NotAdmin -> ~ administers (sw_db w) account)).
Proof.
  intros Hdb. split.
  - intros r w'. unfold grant_admin. rewrite run_try_bind. destruct (run _ load_registry w) as [[[l o]|] w1] eqn:Hl; [|done].
    destruct (load_registry_run w (l, o) w1 Hdb Hl) as (Hdb1 & Hu & Hreg). cbn [fst snd] in *.
    destruct (listed account l); [intros [= <- <-] x; by apply administers_unchanged|].
    rewrite run_bind, now_run, run_try_bind. set (l' := l ++ _).
    assert (Hin : forall x, x ∈ map ae_account_id l' <-> x = account \/ administers (sw_db w) x).
    { intros x. unfold l', administers. rewrite map_app, elem_of_app. cbn [map ae_account_id]. rewrite list_elem_of_singleton.
      destruct o as [v|]; [destruct Hreg as (f & -> & ->); naive_solver|].
      destruct Hreg as [-> ->]. simpl. rewrite elem_of_nil. naive_solver. }
    destruct o as [v|]; destruct (run _ (fs _) w1) as [x w2] eqn:Hw;
      destruct (fs_run B _ _ w1 x w2 Hdb1 Hw eq_refl) as (_ & Hs & _); destruct x as [[]|]; try done; simpl in Hs;
      destruct Hs as [_ Hs]; intros [= <- <-] x.
    1,3: by rewrite (administers_put l' _ _ _ Hs), Hin.
    all: by rewrite (administers_unchanged _ _ _ Hs), (administers_unchanged _ _ _ Hu).
  - intros r w'. unfold revoke_admin. rewrite run_try_bind. destruct (run _ load_registry w) as [[[l o]|] w1] eqn:Hl; [|done].
    destruct (load_registry_run w (l, o) w1 Hdb Hl) as (Hdb1 & Hu & Hreg). cbn [fst snd] in *.
    assert (Hin : forall x, x ∈ map ae_account_id l <-> administers (sw_db w) x).
    { intros x. unfold administers. destruct o as [v|]; [destruct Hreg as (f & -> & ->); naive_solver|].
      destruct Hreg as [-> ->]. simpl. rewrite elem_of_nil. naive_solver. }
    unfold decide_revoke. destruct (listed account l) eqn:Hli; simpl.
    2:{ intros [= <- <-]. split; [intros x; by apply administers_unchanged|]. split; [by intros [|]|].
        intros _. rewrite <- Hin, <- listed_true. congruence. }
    apply listed_true, Hin in Hli. destruct (length l <=? 1)%nat.
    { intros [= <- <-]. split; [intros x; by apply administers_unchanged|]. by split. }
    destruct o as [v|]; [|done]. rewrite run_try_bind. destruct (run _ (fs _) w1) as [x w2] eqn:Hw.
    destruct (fs_run B _ _ w1 x w2 Hdb1 Hw eq_refl) as (_ & Hs & _). destruct x as [[]|]; [..|done]; simpl in Hs;
      destruct Hs as [_ Hs]; intros [= <- <-]; (split; [|done]); intros x.
    + by rewrite (administers_put _ _ _ _ Hs), remaining_elem, Hin.
    + by rewrite (administers_unchanged _ _ _ Hs), (administers_unchanged _ _ _ Hu).
Qed.
End alone.
End registry.

(** ** On the reference service *)

(** A codec with the law: the entries as a number, written in binary. *)
Fixpoint bits (p : positive) : string :=
  match p with xH => "" | xO p => String "0"%char (bits p) | xI p => String "1"%char (bits p) end.
Fixpoint of_bits (s : string) : option positive :=
  match s with
  | "" => Some xH
  | String c s' => p ← of_bits s'; if bool_decide (c = "0"%char) then Some (xO p) else if bool_decide (c = "1"%char) then Some (xI p) else None
  end.
Lemma of_bits_bits p : of_bits (bits p) = Some p.
Proof. induction p as [p IH|p IH|]; simpl; [by rewrite IH..|done]. Qed.

#[export] Instance AdminEntry_eq_dec : EqDecision AdminEntry.
Proof. solve_decision. Defined.
#[export] Instance AdminEntry_countable : Countable AdminEntry.
Proof.
  refine (inj_countable' (fun e => (ae_account_id e, ae_granted_by e, ae_granted_at e))
            (fun x => mkAdminEntry x.1.1 x.1.2 x.2) _).
  by intros [].
Defined.
#[local] Instance binary_codec : AdminCodec := {|
  entries_from_json s := ok_or "expected value" (p ← of_bits s; decode p);
  entries_to_json l := bits (encode l)
|}.
Lemma binary_codec_law l : entries_from_json (entries_to_json l) = Ok l.
Proof. simpl. rewrite of_bits_bits. simpl. by rewrite decode_encode. Qed.

#[local] Existing Instance table_backend.
#[local] Instance admin_externals : Externals := sample_externals [].

Definition two_admins : list AdminEntry := [mkAdminEntry "alice" "cli" 5; mkAdminEntry "bob" "alice" 6].
Definition admin_world : sys_world :=
  mkSysWorld (1000 * NS) 0 0 (write REGISTRY_COL REGISTRY_ID (entries_field two_admins) empty_table).
Lemma admin_world_ok : db_ok (sw_db admin_world).
Proof. apply (write_ok _ _ _ empty_table); [apply empty_table_ok | by eexists]. Qed.
Lemma admin_world_good : doc_good REGISTRY_COL REGISTRY_ID registry_good table_backend (sw_db admin_world).
Proof.
  exists (entries_field two_admins), (unary 0). split; [reflexivity|]. unfold registry_good.
  rewrite (parse_entries_field binary_codec_law). split; [done|]. vm_compute. repeat constructor; set_solver.
Qed.

Definition revoke_alice : prog sysE unit := run_task (RevokeTask "alice").
Definition revoke_bob : prog sysE unit := run_task (RevokeTask "bob").
Lemma registry_never_empties_witness :
  doc_good REGISTRY_COL REGISTRY_ID registry_good table_backend
    (sw_db (run sys_handler revoke_bob (run sys_handler revoke_alice admin_world).2).2).
Proof.
  exact (registry_never_empties binary_codec_law table_backend [RevokeTask "alice"; RevokeTask "bob"] admin_world _ _ _
    admin_world_ok admin_world_good ltac:(repeat constructor)
    (steps_twice sys_handler sys_env revoke_alice revoke_bob admin_world)).
Defined.

Lemma registry_changes_exact_witness :
  administers table_backend (sw_db (run sys_handler (revoke_admin "alice") admin_world).2) "bob" /\
  ~ administers table_backend (sw_db (run sys_handler (revoke_admin "alice") admin_world).2) "alice".
Proof.
  destruct (proj2 (registry_changes_exact binary_codec_law table_backend "alice" "bob" admin_world admin_world_ok)
              Revoked (run sys_handler (revoke_admin "alice") admin_world).2
              (run_result _ _ _ _ ltac:(vm_compute; reflexivity))) as [Hin _].
  split; [apply Hin; split; [done|] | intros Ha; by apply Hin in Ha as [? _]].
  exists (entries_field two_admins), (unary 0). split; [reflexivity|]. rewrite (parse_entries_field binary_codec_law).
  right. left.
Defined.
