(* ===== verification/AccountFacts.v ===== *)
(** * Properties of accounts, of their freezing and of the one-time challenges

    The challenges of the registration mails and of the WebAuthn ceremonies are consumed by
    a read and a deletion, not by one conditional operation. *)


From S2P Require Import Prelude Prog Json Model Decimal Calendar Firestore Externals Es256 WebAuthn Sys DocStore DocTable CasFacts.
From S2P Require Import Accounts AdminStore.

#[local] Open Scope Z_scope.

Section facts.
Context `{Externals} (B : FsBackend) `{!DocDb B}.

Definition of_account (account : string) (f : Value) : Prop := field_str f "accountId" = Some account.

(** Nothing changes but that documents of the account disappear from one collection. *)
Definition shrinks (col account : string) (db db' : fs_db) : Prop :=
  forall c i, doc_at db' c i = doc_at db c i \/
    c = col /\ doc_at db' c i = None /\ exists f v, doc_at db c i = Some (f, v) /\ of_account account f.
(** What the count of deleted documents says of the collection. *)
Definition counted (col account : string) (r : result string nat) (db db' : fs_db) : Prop :=
  match r with
  | Err _ => unchanged doc_at seen db db'
  | Ok n => exists rows, lists doc_at db col (of_account account) rows /\ (n <= length rows)%nat /\
      (n = length rows -> forall i f v, doc_at db' col i = Some (f, v) -> ~ of_account account f)
  end.

Lemma revoke_rows_run col rows : collection_name col = true -> forall n w m w',
  db_ok (sw_db w) -> run sys_handler (revoke_rows col n rows) w = (m, w') ->
  db_ok (sw_db w') /\ (n <= m <= n + length rows)%nat /\
  (forall c i, doc_at (sw_db w') c i = doc_at (sw_db w) c i \/ c = col /\ i ∈ rows.*1 /\ doc_at (sw_db w') c i = None) /\
  (m = (n + length rows)%nat -> forall i, i ∈ rows.*1 -> doc_at (sw_db w') col i = None).
Proof.
  intros Hc. induction rows as [|[i0 f0] rows IH]; intros n w m w' Hdb.
  { intros [= <- <-]. split; [done|]. split; [simpl; lia|]. split; [by left|]. intros _ i Hi. set_solver. }
  cbn [revoke_rows]. rewrite run_bind. destruct (run _ (fs _) w) as [r w1] eqn:Hr.
  assert (Hn : named (DeleteDoc col i0) = true) by (unfold named; simpl; by rewrite Hc).
  destruct (fs_run B _ _ w r w1 Hdb Hr Hn) as (Hdb1 & Hs & _). intros Hrun.
  destruct (IH _ w1 m w' Hdb1 Hrun) as (Hdb' & Hm & Hfr & Hall).
  assert (H1 : forall c i, doc_at (sw_db w1) c i = doc_at (sw_db w) c i \/ c = col /\ i = i0 /\ doc_at (sw_db w1) c i = None).
  { intros c i. assert (Hrm : removed doc_at seen col i0 (sw_db w) (sw_db w1) -> doc_at (sw_db w1) c i = doc_at (sw_db w) c i \/ c = col /\ i = i0 /\ doc_at (sw_db w1) c i = None).
    { intros [[Ho _] Hnone]. destruct (decide ((c, i) = (col, i0))) as [[= -> ->]|Hne]; [by right|]. left. by apply Ho. }
    destruct r; simpl in Hs; [by apply Hrm|]. destruct Hs as [[Hu _]|]; [left; apply Hu | by apply Hrm]. }
  split; [done|]. split; [destruct r; simpl in *; lia|]. cbn [fmap list_fmap fst]. split.
  - intros c i. destruct (Hfr c i) as [->|(-> & Hi & Hnone)]; [|right; set_solver].
    destruct (H1 c i) as [->|(-> & -> & Hnone)]; [by left | right]. set_solver.
  - intros Heq i Hi. cbn [length] in Heq. destruct r as [u|e]; cbn [is_ok] in *; [|lia].
    assert (Ht : forall j, j ∈ rows.*1 -> doc_at (sw_db w') col j = None) by (apply Hall; lia).
    apply elem_of_cons in Hi as [->|Hi]; [|by apply Ht].
    destruct (Hfr col i0) as [->|(_ & _ & Hnone)]; [|done]. simpl in Hs. by destruct Hs.
Qed.

Lemma revoke_by_account_run col account w r w' :
  collection_name col = true -> db_ok (sw_db w) -> plain_ids doc_at (sw_db w) col ->
  run sys_handler (revoke_by_account col account) w = (r, w') ->
  db_ok (sw_db w') /\ shrinks col account (sw_db w) (sw_db w') /\ counted col account r (sw_db w) (sw_db w').
Proof.
  intros Hc Hdb Hp. unfold revoke_by_account. rewrite run_try_bind. destruct (run _ (fs _) w) as [x w1] eqn:Hr.
  assert (Hn : named (QueryEq col "accountId" account) = true) by (unfold named; simpl; by rewrite Hc).
  destruct (fs_run B _ _ w x w1 Hdb Hr Hn) as (Hdb1 & [Hu Hrows] & _). destruct x as [rows|e].
  2:{ intros [= <- <-]. split; [done|]. split; [intros c i; left; apply Hu | exact Hu]. }
  destruct (Hrows rows eq_refl Hp) as [Hnd Hl]. rewrite run_bind. destruct (run _ (revoke_rows col 0 rows) w1) as [m w2] eqn:Hrun.
  destruct (revoke_rows_run col rows Hc 0 w1 m w2 Hdb1 Hrun) as (Hdb2 & Hm & Hfr & Hall). intros [= <- <-].
  split; [done|].
  assert (Hin : forall i, i ∈ rows.*1 -> exists f v, doc_at (sw_db w) col i = Some (f, v) /\ of_account account f).
  { intros i ([i' f] & -> & Hi)%list_elem_of_fmap. apply Hl in Hi as [? [v ?]]. eauto. }
  split.
  - intros c i. destruct (Hfr c i) as [Heq|(-> & Hi & Hnone)]; [left; rewrite Heq; apply Hu | right; auto].
  - exists rows. split; [done|]. split; [lia|]. intros Heq i f v Hd Ha.
    destruct (Hfr col i) as [Hsame|(_ & _ & Hnone)]; [|congruence]. rewrite Hsame in Hd. destruct Hu as [Hu _]. rewrite Hu in Hd.
    assert (Hi : i ∈ rows.*1). { apply list_elem_of_fmap. exists (i, f). split; [done|]. apply Hl. eauto. }
    specialize (Hall ltac:(lia) i Hi). rewrite Hsame, Hu in Hall. congruence.
Qed.

(** ** The three collections *)

Definition revoked_collections (counts : RevocationCounts) : list (string * nat) :=
  [("sessions", rc_sessions counts); ("accessTokens", rc_access_tokens counts); ("refreshTokens", rc_refresh_tokens counts)].
Definition revocable : list string := ["sessions"; "accessTokens"; "refreshTokens"].

(** Every change: a document of the account in one of the three collections is gone. *)
Definition only_revoked (account : string) (db db' : fs_db) : Prop :=
  forall c i, doc_at db' c i = doc_at db c i \/
    c ∈ revocable /\ doc_at db' c i = None /\ exists f v, doc_at db c i = Some (f, v) /\ of_account account f.
(** A collection whose query did not fail: as many documents as counted are gone,
    and none is left when all were deleted. *)
Definition revoked (account : string) (counts : RevocationCounts) (db db' : fs_db) : Prop :=
  forall col n, (col, n) ∈ revoked_collections counts -> col ∉ rc_query_errors counts ->
    exists rows, lists doc_at db col (of_account account) rows /\ (n <= length rows)%nat /\
      (n = length rows -> forall i f v, doc_at db' col i = Some (f, v) -> ~ of_account account f).

Lemma shrinks_only col account db db' : col ∈ revocable -> shrinks col account db db' -> only_revoked account db db'.
Proof. intros Hin Hs c i. destruct (Hs c i) as [?|(-> & ? & ?)]; auto. Qed.
Lemma only_revoked_trans account db1 db2 db3 :
  only_revoked account db1 db2 -> only_revoked account db2 db3 -> only_revoked account db1 db3.
Proof.
  intros H12 H23 c i. destruct (H23 c i) as [->|(Hc & Hn & f & v & Hd & Ha)]; [apply H12|].
  destruct (H12 c i) as [He|(_ & Hno & _)]; [|congruence]. right. rewrite <- He. eauto 6.
Qed.
Lemma only_revoked_same c account db db' i :
  c ∉ revocable -> only_revoked account db db' -> doc_at db' c i = doc_at db c i.
Proof. intros Hc Ho. destruct (Ho c i) as [?|[? _]]; done. Qed.
Lemma shrinks_other col account db db' c i : shrinks col account db db' -> c <> col -> doc_at db' c i = doc_at db c i.
Proof. intros Hs Hc. destruct (Hs c i) as [?|[? _]]; done. Qed.

(** The counting of a collection, seen from a state before and a state after in which
    the collection is the same. *)
Lemma counted_shift col account r db0 db db' db1 :
  (forall i, doc_at db col i = doc_at db0 col i) -> (forall i, doc_at db1 col i = doc_at db' col i) ->
  counted col account r db db' ->
  match r with
  | Err _ => True
  | Ok n => exists rows, lists doc_at db0 col (of_account account) rows /\ (n <= length rows)%nat /\
      (n = length rows -> forall i f v, doc_at db1 col i = Some (f, v) -> ~ of_account account f)
  end.
Proof.
  intros H0 H1. destruct r as [n|e]; [|done]. intros (rows & [Hnd Hl] & Hn & Hall). exists rows. split.
  - split; [done|]. intros i f. by rewrite Hl, H0.
  - split; [done|]. intros Heq i f v. rewrite H1. by apply Hall.
Qed.

Lemma plain_ids_shrinks col account db db' c : shrinks col account db db' -> plain_ids doc_at db c -> plain_ids doc_at db' c.
Proof.
  intros Hs Hp i Hi. apply Hp. destruct (Hs c i) as [<-|(_ & Hn & _)]; [done|]. rewrite Hn in Hi. by destruct Hi.
Qed.

Lemma revoke_all_run account w counts w' :
  db_ok (sw_db w) -> (forall col, col ∈ revocable -> plain_ids doc_at (sw_db w) col) ->
  run sys_handler (revoke_all account) w = (counts, w') ->
  db_ok (sw_db w') /\ only_revoked account (sw_db w) (sw_db w') /\ revoked account counts (sw_db w) (sw_db w').
Proof.
  intros Hdb Hp. unfold revoke_all. rewrite run_bind.
  destruct (run _ (revoke_by_account "sessions" account) w) as [s w1] eqn:H1.
  destruct (revoke_by_account_run "sessions" account w s w1 eq_refl Hdb ltac:(apply Hp; set_solver) H1) as (Hdb1 & S1 & C1).
  rewrite run_bind. destruct (run _ (revoke_by_account "accessTokens" account) w1) as [a w2] eqn:H2.
  destruct (revoke_by_account_run "accessTokens" account w1 a w2 eq_refl Hdb1
    ltac:(apply (plain_ids_shrinks _ _ _ _ _ S1); apply Hp; set_solver) H2) as (Hdb2 & S2 & C2).
  rewrite run_bind. destruct (run _ (revoke_by_account "refreshTokens" account) w2) as [r w3] eqn:H3.
  destruct (revoke_by_account_run "refreshTokens" account w2 r w3 eq_refl Hdb2
    ltac:(apply (plain_ids_shrinks _ _ _ _ _ S2); apply (plain_ids_shrinks _ _ _ _ _ S1); apply Hp; set_solver) H3) as (Hdb3 & S3 & C3).
  intros [= <- <-]. split; [done|]. split.
  { apply (only_revoked_trans _ _ (sw_db w2)); [apply (only_revoked_trans _ _ (sw_db w1))|].
    all: eapply shrinks_only; [|eassumption]; set_solver. }
  intros col n Hcol Herr.
  unfold revoked_collections in Hcol. cbn [rc_sessions rc_access_tokens rc_refresh_tokens rc_query_errors] in *.
  rewrite !elem_of_app in Herr.
  apply elem_of_cons in Hcol as [[= -> ->]|Hcol]; [|apply elem_of_cons in Hcol as [[= -> ->]|Hcol];
    [|apply list_elem_of_singleton in Hcol as [= -> ->]]].
  - destruct s as [n|e]; [|simpl in Herr; set_solver].
    refine (counted_shift _ _ (Ok n) (sw_db w) (sw_db w) (sw_db w1) (sw_db w3) _ _ C1); [done|]. intros i.
    rewrite (shrinks_other _ _ _ _ "sessions" i S3 ltac:(discriminate)). by apply (shrinks_other _ _ _ _ "sessions" i S2 ltac:(discriminate)).
  - destruct a as [n|e]; [|simpl in Herr; set_solver].
    refine (counted_shift _ _ (Ok n) (sw_db w) (sw_db w1) (sw_db w2) (sw_db w3) _ _ C2); intros i;
      [by apply (shrinks_other _ _ _ _ "accessTokens" i S1 ltac:(discriminate)) | by apply (shrinks_other _ _ _ _ "accessTokens" i S3 ltac:(discriminate))].
  - destruct r as [n|e]; [|simpl in Herr; set_solver].
    refine (counted_shift _ _ (Ok n) (sw_db w) (sw_db w2) (sw_db w3) (sw_db w3) _ _ C3); [|done]. intros i.
    rewrite (shrinks_other _ _ _ _ "refreshTokens" i S2 ltac:(discriminate)). by apply (shrinks_other _ _ _ _ "refreshTokens" i S1 ltac:(discriminate)).
Qed.

(** ** The other steps *)

Lemma get_credential_run email w r w' :
  db_ok (sw_db w) -> run sys_handler (get_credential email) w = (Ok r, w') ->
  db_ok (sw_db w') /\ unchanged doc_at seen (sw_db w) (sw_db w') /\ r = (fst <$> doc_at (sw_db w) "accounts" email) ≫= credential_of_doc.
Proof.
  intros Hdb. unfold get_credential. rewrite run_try_bind. destruct (run _ (fs _) w) as [[d|e] w1] eqn:Hr; [|done].
  destruct (fs_run B _ _ w _ w1 Hdb Hr eq_refl) as (Hdb1 & [Hu Hd] & _). intros [= <- <-].
  by rewrite (Hd d eq_refl).
Qed.

(** The audit log gains at most one document; nothing else changes. *)
Lemma audit_record_run actor action target detail w u w' :
  db_ok (sw_db w) -> run sys_handler (audit_record actor action target detail) w = (u, w') ->
  db_ok (sw_db w') /\ forall c i, c <> "auditLog" -> doc_at (sw_db w') c i = doc_at (sw_db w) c i.
Proof.
  intros Hdb. unfold audit_record. rewrite run_bind. cbn [run opaque trigger sys_handler].
  rewrite run_bind, now_run, run_bind. set (w0 := mkSysWorld _ _ _ _).
  destruct (run _ (fs _) w0) as [x w1] eqn:Hr. intros [= <- <-].
  destruct (fs_run B _ _ w0 x w1 Hdb Hr eq_refl) as (Hdb1 & Hs & _). split; [done|].
  intros c i Hne. apply doc_step_frame in Hs. apply Hs. congruence.
Qed.

Definition set_cr_disabled (b : bool) (c : Credential) : Credential :=
  mkCredential (cr_account_id c) (cr_credential_id c) (cr_pub_x c) (cr_pub_y c) (cr_sign_count c) b.
Lemma overlay_disabled b f f' cred :
  overlay (Object [("disabled", fs_b b)]) f f' -> credential_of_doc f = Some cred ->
  credential_of_doc f' = Some (set_cr_disabled b cred).
Proof.
  intros Ho. unfold credential_of_doc, field_str, field_bool. rewrite !Ho. simpl.
  destruct (get f "credentialId" ≫= _) as [id_|]; simpl; [|done]. by intros [= <-].
Qed.

Lemma set_disabled_run email b w u w' f v cred :
  db_ok (sw_db w) -> doc_at (sw_db w) "accounts" email = Some (f, v) -> credential_of_doc f = Some cred ->
  run sys_handler (set_disabled email b) w = (Ok u, w') ->
  db_ok (sw_db w') /\ only doc_at seen "accounts" email (sw_db w) (sw_db w') /\
  exists f' v', doc_at (sw_db w') "accounts" email = Some (f', v') /\ credential_of_doc f' = Some (set_cr_disabled b cred).
Proof.
  intros Hdb Hd Hc Hr. destruct (fs_run B _ _ w _ w' Hdb Hr eq_refl) as (Hdb1 & Hs & _). split; [done|].
  destruct Hs as (f0 & v0 & f' & Hd0 & Ho & [Hon (v' & _ & Hd')]). rewrite Hd in Hd0. injection Hd0 as <- <-.
  split; [done|]. exists f', v'. split; [done|]. by apply (overlay_disabled b f).
Qed.

(** What stands in the database when an account has been frozen. *)
Definition frozen (email : string) (cred : Credential) (db : fs_db) : Prop :=
  exists f v, doc_at db "accounts" email = Some (f, v) /\ credential_of_doc f = Some (set_cr_disabled true cred).
Definition disable_counts (o : DisableOutcome) : option RevocationCounts :=
  match o with Disabled c | AlreadyDisabled c => Some c | DisableNotFound => None end.

(** C34: freezing an account.  When [disable_account] answers a result for an existing
    account, the account's document carries the flag and is otherwise as before, the
    three queries that did not fail have found exactly the account's sessions, access
    tokens and refresh tokens, none of which is left when all were deleted, and apart
    from these, the flag and the audit log nothing in the database has changed. *)
Theorem disable_account_freezes actor email w o counts w' :
  db_ok (sw_db w) -> (forall col, col ∈ revocable -> plain_ids doc_at (sw_db w) col) ->
  run sys_handler (disable_account actor email) w = (Ok o, w') -> disable_counts o = Some counts ->
  exists f v cred, doc_at (sw_db w) "accounts" email = Some (f, v) /\ credential_of_doc f = Some cred /\
    frozen email cred (sw_db w') /\
    revoked (cr_account_id cred) counts (sw_db w) (sw_db w') /\
    forall c i, c <> "auditLog" -> (c, i) <> ("accounts", email) ->
      doc_at (sw_db w') c i = doc_at (sw_db w) c i \/
      c ∈ revocable /\ doc_at (sw_db w') c i = None /\
        exists f v, doc_at (sw_db w) c i = Some (f, v) /\ of_account (cr_account_id cred) f.
Proof.
  intros Hdb Hp. unfold disable_account. rewrite run_try_bind.
  destruct (run _ (get_credential email) w) as [[r|e] w1] eqn:Hg; [|done].
  destruct (get_credential_run email w r w1 Hdb Hg) as (Hdb1 & [Hu1 _] & Hr).
  destruct r as [cred|]; [|intros [= <- <-]; done].
  destruct (doc_at (sw_db w) "accounts" email) as [[f v]|] eqn:Hd; [|done]. symmetry in Hr. cbn in Hr.
  rewrite run_try_bind. set (wr := if cr_disabled cred then _ else _).
  destruct (run _ wr w1) as [[u|e] w2] eqn:Hw; [|done].
  assert (H2 : db_ok (sw_db w2) /\ (forall c i, (c, i) <> ("accounts", email) -> doc_at (sw_db w2) c i = doc_at (sw_db w) c i) /\
               frozen email cred (sw_db w2)).
  { unfold wr in Hw. destruct (cr_disabled cred) eqn:Hdis.
    - injection Hw as <- <-. split; [done|]. split; [intros c i _; apply Hu1|]. exists f, v. rewrite Hu1. split; [done|].
      rewrite Hr. unfold set_cr_disabled. rewrite <- Hdis. by destruct cred.
    - destruct (set_disabled_run email true w1 u w2 f v cred Hdb1 ltac:(by rewrite Hu1) Hr Hw) as (Hdb2 & [Ho _] & Hfr).
      split; [done|]. split; [|exact Hfr]. intros c i Hne. rewrite Ho by done. apply Hu1. }
  destruct H2 as (Hdb2 & Hsame2 & Hfr2). rewrite run_bind.
  destruct (run _ (revoke_all (cr_account_id cred)) w2) as [cnt w3] eqn:Hrev.
  assert (Hcol : forall col i, col ∈ revocable -> doc_at (sw_db w2) col i = doc_at (sw_db w) col i).
  { intros col i Hin. apply Hsame2. intros [= -> _]. unfold revocable in Hin. set_solver. }
  destruct (revoke_all_run _ w2 cnt w3 Hdb2
    ltac:(intros col Hin i Hi; rewrite Hcol in Hi by done; by apply (Hp col Hin i)) Hrev) as (Hdb3 & Hor & Hrv).
  rewrite run_bind. destruct (run _ (audit_record _ _ _ _) w3) as [t w4] eqn:Hau.
  destruct (audit_record_run _ _ _ _ w3 t w4 Hdb3 Hau) as (_ & Hsame4). intros [= Ho <-] Hcnt.
  assert (cnt = counts) as -> by (destruct (cr_disabled cred); subst o; by injection Hcnt).
  exists f, v, cred. split; [done|]. split; [done|]. split.
  { destruct Hfr2 as (f2 & v2 & Hd2 & Hc2). exists f2, v2. rewrite Hsame4 by done.
    rewrite (only_revoked_same "accounts" _ _ _ email ltac:(unfold revocable; set_solver) Hor). done. }
  split.
  { intros col n Hin Herr. destruct (Hrv col n Hin Herr) as (rows & [Hnd Hl] & Hn & Hall). exists rows.
    assert (Hc : col ∈ revocable) by (unfold revoked_collections in Hin; unfold revocable; set_solver).
    split; [split; [done|]; intros i g; by rewrite Hl, Hcol|]. split; [done|]. intros Heq i g x.
    rewrite Hsame4 by (intros ->; unfold revocable in Hc; set_solver). by apply Hall. }
  intros c i Hna Hne. rewrite Hsame4 by done. destruct (Hor c i) as [->|(Hc & Hnone & Hx)]; [left; by apply Hsame2|].
  right. rewrite <- (Hcol c i Hc). auto.
Qed.

Lemma delete_run col id_ w u w' :
  db_ok (sw_db w) -> run sys_handler (fs (DeleteDoc col id_)) w = (Ok u, w') -> collection_name col = true ->
  db_ok (sw_db w') /\ removed doc_at seen col id_ (sw_db w) (sw_db w').
Proof.
  intros Hdb Hr Hc. assert (Hn : named (DeleteDoc col id_) = true) by (unfold named; simpl; by rewrite Hc).
  by destruct (fs_run B _ _ w _ w' Hdb Hr Hn) as (? & ? & _).
Qed.

(** Deleting an account takes two steps: an account that is not frozen is never
    deleted, and nothing happens; of a frozen one the credential, the reverse index,
    the profile and the device token are gone when the answer is [Deleted], its
    sessions and tokens as for freezing, and nothing else but the audit log changed. *)
Theorem delete_needs_freeze actor email w o w' :
  db_ok (sw_db w) -> (forall col, col ∈ revocable -> plain_ids doc_at (sw_db w) col) ->
  run sys_handler (delete_account actor email) w = (Ok o, w') ->
  match o with
  | Deleted counts =>
      exists f v cred, doc_at (sw_db w) "accounts" email = Some (f, v) /\ credential_of_doc f = Some cred /\
        cr_disabled cred = true /\ revoked (cr_account_id cred) counts (sw_db w) (sw_db w') /\
        let gone := [("fcmTokens", cr_account_id cred); ("profiles", cr_account_id cred);
                     ("accountsByUuid", cr_account_id cred); ("accounts", email)] in
        (forall k, k ∈ gone -> doc_at (sw_db w') k.1 k.2 = None) /\
        (forall c i, c <> "auditLog" -> c ∉ revocable -> (c, i) ∉ gone -> doc_at (sw_db w') c i = doc_at (sw_db w) c i)
  | NotDisabled =>
      (forall c i, doc_at (sw_db w') c i = doc_at (sw_db w) c i) /\
      exists f v cred, doc_at (sw_db w) "accounts" email = Some (f, v) /\ credential_of_doc f = Some cred /\ cr_disabled cred = false
  | DeleteNotFound => forall c i, doc_at (sw_db w') c i = doc_at (sw_db w) c i
  end.
Proof.
  intros Hdb Hp. unfold delete_account. rewrite run_try_bind.
  destruct (run _ (get_credential email) w) as [[r|e] w1] eqn:Hg; [|done].
  destruct (get_credential_run email w r w1 Hdb Hg) as (Hdb1 & [Hu1 _] & Hr).
  destruct r as [cred|]; [|intros [= <- <-]; done].
  destruct (doc_at (sw_db w) "accounts" email) as [[f v]|] eqn:Hd; [|done]. symmetry in Hr. cbn in Hr.
  destruct (cr_disabled cred) eqn:Hdis; cbn [negb].
  2:{ intros [= <- <-]. split; [done|]. by exists f, v, cred. }
  rewrite run_bind. destruct (run _ (revoke_all (cr_account_id cred)) w1) as [cnt w2] eqn:Hrev.
  destruct (revoke_all_run _ w1 cnt w2 Hdb1 ltac:(intros col Hin i Hi; rewrite Hu1 in Hi; by apply (Hp col Hin i)) Hrev) as (Hdb2 & Hor & Hrv).
  rewrite run_try_bind. destruct (run _ (fs _) w2) as [[u3|e] w3] eqn:H3; [|done].
  rewrite run_try_bind. destruct (run _ (fs _) w3) as [[u4|e] w4] eqn:H4; [|done].
  rewrite run_try_bind. destruct (run _ (fs _) w4) as [[u5|e] w5] eqn:H5; [|done].
  rewrite run_try_bind. destruct (run _ (fs _) w5) as [[u6|e] w6] eqn:H6; [|done].
  rewrite run_bind. destruct (run _ (audit_record _ _ _ _) w6) as [t w7] eqn:Hau. intros [= <- <-].
  destruct (delete_run _ _ w2 u3 w3 Hdb2 H3 eq_refl) as (Hdb3 & [O3 _] & N3).
  destruct (delete_run _ _ w3 u4 w4 Hdb3 H4 eq_refl) as (Hdb4 & [O4 _] & N4).
  destruct (delete_run _ _ w4 u5 w5 Hdb4 H5 eq_refl) as (Hdb5 & [O5 _] & N5).
  destruct (delete_run _ _ w5 u6 w6 Hdb5 H6 eq_refl) as (Hdb6 & [O6 _] & N6).
  destruct (audit_record_run _ _ _ _ w6 t w7 Hdb6 Hau) as (_ & O7).
  assert (Hkeep : forall c i, c <> "auditLog" -> c <> "fcmTokens" -> c <> "profiles" -> c <> "accountsByUuid" -> c <> "accounts" ->
            doc_at (sw_db w7) c i = doc_at (sw_db w2) c i).
  { intros c i ? ? ? ? ?. rewrite O7, O6, O5, O4, O3 by congruence. done. }
  exists f, v, cred. split; [done|]. split; [done|]. split; [done|]. split; [|split].
  - intros col n Hin Herr. destruct (Hrv col n Hin Herr) as (rows & [Hnd Hl] & Hn & Hall). exists rows.
    split; [split; [done|]; intros i g; by rewrite Hl, Hu1|]. split; [done|]. intros Heq i g x.
    unfold revoked_collections in Hin. rewrite Hkeep by set_solver. by apply Hall.
  - intros k Hk. repeat (apply elem_of_cons in Hk as [->|Hk]); [..|by apply elem_of_nil in Hk]; cbn [fst snd].
    + by rewrite O7, O6, O5, O4 by done.
    + by rewrite O7, O6, O5 by done.
    + by rewrite O7, O6 by done.
    + by rewrite O7 by done.
  - intros c i Hna Hnr Hng. rewrite !elem_of_cons in Hng. rewrite O7, O6, O5, O4, O3 by (try done; intuition congruence).
    rewrite (only_revoked_same c _ _ _ i Hnr Hor). apply Hu1.
Qed.
End facts.

(** ** On the reference service *)

#[local] Existing Instance table_backend.
#[local] Instance account_externals : Externals := sample_externals [].

Definition alice_doc (frozen_ : bool) : Value :=
  credential_doc 100 "a@example.com" "alice" (mkRegOutcome "cred" "x" "y" 7) frozen_.
Definition account_table (frozen_ : bool) : Table :=
  write "accounts" "a@example.com" (alice_doc frozen_)
  (write "sessions" "s1" (Object [("accountId", fs_s "alice")])
  (write "sessions" "s2" (Object [("accountId", fs_s "bob")])
  (write "refreshTokens" "r1" (Object [("accountId", fs_s "alice")]) empty_table))).
Definition account_world (frozen_ : bool) : sys_world := mkSysWorld (1000 * NS) 0 0 (account_table frozen_).
Lemma account_world_ok b : db_ok (sw_db (account_world b)).
Proof. repeat (apply write_ok; [|by eexists]). apply empty_table_ok. Qed.
Lemma account_world_plain b col : col ∈ revocable -> plain_ids doc_at (sw_db (account_world b)) col.
Proof.
  intros _ i Hi. assert (Hall : map_Forall (fun k _ => str_contains "/"%char k.2 = false) (tb_docs (account_table b))).
  { apply (bool_decide_eq_true_1 (map_Forall _ _)). destruct b; vm_compute; reflexivity. }
  destruct Hi as [d Hd]. exact (Hall (col, i) d Hd).
Qed.

Lemma disable_account_freezes_witness :
  (exists f v, doc_at (sw_db (run sys_handler (disable_account "cli" "a@example.com") (account_world false)).2) "sessions" "s2" = Some (f, v)) /\
  frozen table_backend "a@example.com" (mkCredential "alice" "cred" "x" "y" 7 false)
    (sw_db (run sys_handler (disable_account "cli" "a@example.com") (account_world false)).2).
Proof.
  destruct (disable_account_freezes table_backend "cli" "a@example.com" (account_world false)
    (Disabled (mkRevocationCounts 1 0 1 [])) (mkRevocationCounts 1 0 1 [])
    (run sys_handler (disable_account "cli" "a@example.com") (account_world false)).2 (account_world_ok false)
    (account_world_plain false) (run_result _ _ _ _ ltac:(vm_compute; reflexivity)) eq_refl)
    as (f & v & cred & Hd & Hc & Hf & _ & Ho).
  change (doc_at (sw_db (account_world false)) "accounts" "a@example.com") with (Some (alice_doc false, unary 3)) in Hd.
  injection Hd as <- <-. assert (cred = mkCredential "alice" "cred" "x" "y" 7 false) as ->.
  { change (credential_of_doc (alice_doc false)) with (Some (mkCredential "alice" "cred" "x" "y" 7 false)) in Hc. by injection Hc. }
  split; [|exact Hf]. destruct (Ho "sessions" "s2" ltac:(discriminate) ltac:(discriminate)) as [->|(_ & _ & g & x & Hg & Ha)].
  - by eexists _, _.
  - change (doc_at (sw_db (account_world false)) "sessions" "s2") with (Some (Object [("accountId", fs_s "bob")], unary 1)) in Hg.
    injection Hg as <- _. discriminate Ha.
Defined.

Lemma delete_needs_freeze_witness :
  doc_at (sw_db (run sys_handler (delete_account "cli" "a@example.com") (account_world true)).2) "accountsByUuid" "alice" = None.
Proof.
  destruct (delete_needs_freeze table_backend "cli" "a@example.com" (account_world true)
    (Deleted (mkRevocationCounts 1 0 1 [])) (run sys_handler (delete_account "cli" "a@example.com") (account_world true)).2
    (account_world_ok true) (account_world_plain true) (run_result _ _ _ _ ltac:(vm_compute; reflexivity)))
    as (f & v & cred & Hd & Hc & _ & _ & Hg & _).
  change (doc_at (sw_db (account_world true)) "accounts" "a@example.com") with (Some (alice_doc true, unary 3)) in Hd.
  injection Hd as <- <-. assert (cred = mkCredential "alice" "cred" "x" "y" 7 true) as ->.
  { change (credential_of_doc (alice_doc true)) with (Some (mkCredential "alice" "cred" "x" "y" 7 true)) in Hc. by injection Hc. }
  apply (Hg ("accountsByUuid", "alice")). right. right. left.
Defined.

(** * The one-time challenges *)

Lemma kind_round_trip k : kind_parse (kind_as_str k) = Some k.
Proof. by destruct k. Qed.

Section facts.
Context `{Externals} (B : FsBackend) `{!DocDb B}.

Definition world_after (w : sys_world) (t : Z) : sys_world := mkSysWorld t (sw_uuid w) (sw_rand w) (sw_db w).

Lemma consume_run ch w r w' :
  db_ok (sw_db w) -> run sys_handler (consume_webauthn_challenge ch) w = (Ok r, w') -> token_ok ch = true ->
  db_ok (sw_db w') /\
  r = (d ← doc_at (sw_db w) "webauthnChallenges" ch;
       if expires_at d.1 <? secs_of (sw_clk w) then None else ceremony_of d.1).
Proof.
  intros Hdb Hr Ht. unfold consume_webauthn_challenge in Hr. rewrite Ht in Hr. cbn [negb] in Hr.
  rewrite run_try_bind in Hr. destruct (run _ (fs _) w) as [[d|e] w1] eqn:Hg; [|done].
  destruct (fs_run B _ _ w _ w1 Hdb Hg eq_refl) as (Hdb1 & [Hu Hd] & Hclk). specialize (Hd d eq_refl). subst d.
  destruct (doc_at (sw_db w) "webauthnChallenges" ch) as [[f v]|]; cbn [fmap option_fmap option_map fst] in Hr; [|by injection Hr as <- <-].
  rewrite run_bind in Hr. destruct (run _ (fs _) w1) as [x w2] eqn:Hx.
  destruct (fs_run B _ _ w1 _ w2 Hdb1 Hx eq_refl) as (Hdb2 & _ & Hclk2).
  rewrite run_bind in Hr. unfold challenge_expired in Hr. rewrite run_bind, now_run in Hr. cbn in Hr.
  injection Hr as <- <-. split; [done|]. cbn. by rewrite <- Hclk, <- Hclk2.
Qed.

Lemma webauthn_doc_back now email kind uid account :
  0 <= now -> now + CEREMONY_TTL_SECS < 253402300800 ->
  expires_at (webauthn_doc now email kind uid account) = now + CEREMONY_TTL_SECS /\
  ceremony_of (webauthn_doc now email kind uid account) = Some (email, kind, uid, account).
Proof.
  intros H0 H1. split.
  - unfold expires_at, webauthn_doc. simpl. apply rfc3339_reads_back. unfold CEREMONY_TTL_SECS in *. lia.
  - unfold ceremony_of, webauthn_doc, field_str. simpl. rewrite kind_round_trip. done.
Qed.

Lemma create_run email kind uid account w ch w' :
  db_ok (sw_db w) -> run sys_handler (create_webauthn_challenge email kind uid account) w = (Ok ch, w') ->
  db_ok (sw_db w') /\ ch = b64url_encode (random_32 (sw_rand w)) /\ sw_clk w' = sw_clk w /\
  exists v, doc_at (sw_db w') "webauthnChallenges" ch = Some (webauthn_doc (secs_of (sw_clk w)) email kind uid account, v).
Proof.
  intros Hdb. unfold create_webauthn_challenge, random_token. rewrite !run_bind. cbn [run random_bytes trigger sys_handler].
  cbn [run mret prog_ret]. rewrite run_bind, now_run, run_try_bind.
  set (w0 := mkSysWorld _ _ _ _). destruct (run sys_handler (fs _) w0) as [[u|e] w1] eqn:Hr; [|done].
  destruct (fs_run B _ _ w0 _ w1 Hdb Hr eq_refl) as (Hdb1 & [_ (v & _ & Hd)] & Hclk). intros [= <- <-].
  split; [done|]. split; [done|]. split; [done|]. exists v. exact Hd.
Qed.

(** A ceremony's challenge gives back, for five minutes to the second, exactly the
    address, the kind, the transaction and the account it was created for, and nothing
    afterwards. *)
Theorem ceremony_round_trip email kind uid account w ch w1 w2 r w3 :
  db_ok (sw_db w) -> 0 <= secs_of (sw_clk w) -> secs_of (sw_clk w) + CEREMONY_TTL_SECS < 253402300800 ->
  run sys_handler (create_webauthn_challenge email kind uid account) w = (Ok ch, w1) -> token_ok ch = true ->
  db_ok (sw_db w2) -> doc_at (sw_db w2) "webauthnChallenges" ch = doc_at (sw_db w1) "webauthnChallenges" ch ->
  run sys_handler (consume_webauthn_challenge ch) w2 = (Ok r, w3) ->
  r = if secs_of (sw_clk w2) <=? secs_of (sw_clk w) + CEREMONY_TTL_SECS then Some (email, kind, uid, account) else None.
Proof.
  intros Hdb H0 H1 Hc Ht Hdb2 Hsame Hr.
  destruct (create_run email kind uid account w ch w1 Hdb Hc) as (_ & _ & _ & v & Hd).
  destruct (consume_run ch w2 r w3 Hdb2 Hr Ht) as [_ ->]. rewrite Hsame, Hd. cbn [mbind option_bind fst].
  destruct (webauthn_doc_back (secs_of (sw_clk w)) email kind uid account H0 H1) as [-> ->].
  destruct (Z.ltb_spec (secs_of (sw_clk w) + CEREMONY_TTL_SECS) (secs_of (sw_clk w2)));
    destruct (Z.leb_spec (secs_of (sw_clk w2)) (secs_of (sw_clk w) + CEREMONY_TTL_SECS)); lia || done.
Qed.
End facts.

(** ** On the reference service *)

#[local] Existing Instance table_backend.
Definition long_random : Externals :=
  let e := sample_externals [] in
  with_encodings e (fun s => "challenge-challenge-" +:+ s) (@url_safe_no_pad_decode e) (@signature_from_slice e) (@ecdsa_verify e)
    (@json_from_slice e) (@json_to_string e) (@client_from_json e).
#[local] Existing Instance long_random.

Definition new_world : sys_world := mkSysWorld (1000 * NS) 0 0 empty_table.
Lemma new_world_ok : db_ok (sw_db new_world).
Proof. exact empty_table_ok. Qed.
Definition login_challenge : prog sysE (result string string) := create_webauthn_challenge "a@example.com" Auth "tx" "alice".
Definition challenged_world : sys_world := (run sys_handler login_challenge new_world).2.
Definition one_challenge : string := "challenge-challenge-r".

Lemma ceremony_round_trip_witness :
  (run sys_handler (consume_webauthn_challenge one_challenge) challenged_world).1 = Ok (Some ("a@example.com", Auth, "tx", "alice")).
Proof.
  assert (Hr : run sys_handler (consume_webauthn_challenge one_challenge) challenged_world =
    (Ok (Some ("a@example.com", Auth, "tx", "alice")), (run sys_handler (consume_webauthn_challenge one_challenge) challenged_world).2)).
  { apply run_result. vm_compute. reflexivity. }
  assert (Hc : run sys_handler login_challenge new_world = (Ok one_challenge, challenged_world)).
  { apply run_result. vm_compute. reflexivity. }
  assert (Hdb : db_ok (sw_db challenged_world)).
  { apply (create_run table_backend "a@example.com" Auth "tx" "alice" new_world one_challenge _ new_world_ok Hc). }
  refine (eq_trans (f_equal fst Hr) (f_equal Ok _)).
  refine (ceremony_round_trip table_backend "a@example.com" Auth "tx" "alice" new_world one_challenge challenged_world
    challenged_world _ _ new_world_ok ltac:(vm_compute; discriminate) ltac:(vm_compute; reflexivity) Hc
    ltac:(vm_compute; reflexivity) Hdb eq_refl Hr).
Defined.

(** The consumption is not atomic.  Two requests that present the same challenge and
    whose operations interleave are both given it: the second one has read the
    document before the first one deletes it. *)
Definition after_read (ch : string) (f : Value) : prog sysE (result string (option (string * ChallengeKind * string * string))) :=
  _ ← fs (DeleteDoc "webauthnChallenges" ch); e ← challenge_expired f;
  mret (Ok (if (e : bool) then None else ceremony_of f)).
Theorem challenge_consumed_twice ch f v x w :
  token_ok ch = true -> tb_docs (sw_db w) !! ("webauthnChallenges", ch) = Some (f, v) ->
  secs_of (sw_clk w) <= expires_at f -> ceremony_of f = Some x ->
  exists tr w',
    steps sys_handler sys_env ([consume_webauthn_challenge ch; consume_webauthn_challenge ch], w) tr
      ([Ret (Ok (Some x)); Ret (Ok (Some x))], w').
Proof.
  intros Ht Hd He Hx. unfold consume_webauthn_challenge. rewrite Ht. cbn [negb].
  eexists _, _.
  assert (Hget : sys_handler _ (FsOp (GetDoc "webauthnChallenges" ch)) w = (Ok (Some f), w)).
  { unfold sys_handler. cbn. rewrite Hd. by destruct w. }
  eapply steps_cons; [apply (step_op _ _ 0); [reflexivity | apply Hget]|].
  eapply steps_cons; [apply (step_op _ _ 1); [reflexivity | apply Hget]|].
  refine (_ : steps sys_handler sys_env ([after_read ch f; after_read ch f], w) _ _).
  eapply steps_cons; [apply (step_op _ _ 0); reflexivity|].
  eapply steps_cons; [apply (step_op _ _ 0); reflexivity|].
  eapply steps_cons; [apply (step_op _ _ 1); reflexivity|].
  eapply steps_cons; [apply (step_op _ _ 1); reflexivity|].
  cbn. destruct (Z.ltb_spec (expires_at f) (secs_of (sw_clk w))); [lia|]. rewrite Hx. apply steps_nil.
Qed.
