(* ===== verification/DcrStore.v ===== *)
(** * Persistence of registered clients and of initial access tokens

    [src/src/dcr_store.rs], as programs over the Firestore operations.  The two
    serde codecs of the stored JSON texts are parameters. *)

From S2P Require Import Prelude Prog Json Model Calendar Firestore Externals Es256 Sys Dcr.

#[local] Open Scope Z_scope.

(** [serde_json] on [IatConstraints]. *)
Class IatCodec := {
  constraints_from_json : string -> result string IatConstraints;
  constraints_to_json : IatConstraints -> string
}.

Definition CLIENTS : string := "clients".
Definition DCR_TOKENS : string := "dcrTokens".

Section dcr_store.
Context `{Externals, IatCodec}.

Definition load_client (client_id : string) : prog sysE (option Client) :=
  r ← fs (GetDoc CLIENTS client_id);
  mret match r with
       | Ok (Some fields) => json ← field_str fields "json"; result_ok (client_from_json json)
       | Ok None => None
       | Err _ => None
       end.

Definition save_client (client : Client) : prog sysE (result string unit) :=
  created ←? fs (CreateIfAbsent CLIENTS (cl_client_id client)
                   (Object [("json", fs_s (client_to_json client))]));
  mret (if (created : bool) then Ok tt
        else Err ("client " +:+ cl_client_id client +:+ " already exists")).

Definition load_client_with_version (client_id : string) :
    prog sysE (result string (option (Client * string))) :=
  d ←? fs (GetDocWithUpdateTime CLIENTS client_id);
  mret match d with
       | None => Ok None
       | Some (fields, update_time) =>
           json ← ok_or "client: missing json field" (field_str fields "json");
           client ← map_err (fun e => "client json: " +:+ e) (client_from_json json);
           Ok (Some (client, update_time))
       end.

Definition put_client_if_unchanged (client : Client) (update_time : string) :
    prog sysE (result string bool) :=
  fs (SetDocIfUnchanged CLIENTS (cl_client_id client)
        (Object [("json", fs_s (client_to_json client))]) update_time).

(** Broken documents are skipped. *)
Definition list_clients : prog sysE (result string (list Client)) :=
  rows ←? fs (ListCollection CLIENTS);
  mret (Ok (omap (fun row : string * Value * string =>
                    json ← field_str row.1.2 "json"; result_ok (client_from_json json)) rows)).

Record Iat := mkIat {
  iat_constraints : IatConstraints;
  iat_expires_at : Z;
  iat_update_time : string;
  iat_reusable : bool
}.

Definition put_iat (hash : string) (c : IatConstraints) (expires_at : Z) (reusable : bool) :
    prog sysE (result string unit) :=
  created ←? fs (CreateIfAbsent DCR_TOKENS hash
                   (Object [("constraints", fs_s (constraints_to_json c));
                            ("expires_at", fs_int expires_at); ("reusable", fs_b reusable)]));
  mret (if (created : bool) then Ok tt else Err "initial access token already exists").

Definition parse_iat_fields (fields : Value) : result string (IatConstraints * Z * bool) :=
  cj ← ok_or "iat: missing constraints" (field_str fields "constraints");
  constraints ← map_err (fun e => "iat constraints: " +:+ e) (constraints_from_json cj);
  Ok (constraints, default 0 (field_u64 fields "expires_at"), default false (field_bool fields "reusable")).

Definition peek_iat (hash : string) : prog sysE (result string (option Iat)) :=
  d ←? fs (GetDocWithUpdateTime DCR_TOKENS hash);
  mret match d with
       | None => Ok None
       | Some (fields, update_time) =>
           x ← parse_iat_fields fields;
           Ok (Some (mkIat x.1.1 x.1.2 update_time x.2))
       end.

Definition consume_iat (hash update_time : string) : prog sysE (result string bool) :=
  fs (DeleteDocIfUnchanged DCR_TOKENS hash update_time).

Record PendingIat := mkPendingIat {
  pi_hash : string;
  pi_constraints : IatConstraints;
  pi_expires_at : Z;
  pi_reusable : bool;
  pi_update_time : string
}.
Definition list_pending_iats : prog sysE (result string (list PendingIat)) :=
  rows ←? fs (ListCollection DCR_TOKENS);
  mret (Ok (omap (fun row : string * Value * string =>
                    x ← result_ok (parse_iat_fields row.1.2);
                    Some (mkPendingIat row.1.1 x.1.1 x.1.2 x.2 row.2)) rows)).

Definition revoke_client (client_id : string) : prog sysE (result string bool) :=
  d ←? fs (GetDoc CLIENTS client_id);
  match d with
  | Some _ => _ ←? fs (DeleteDoc CLIENTS client_id); mret (Ok true)
  | None => mret (Ok false)
  end.

(** * Properties *)

(** A stored initial access token is read back with its constraints, its expiry
    and its reusable flag, when the codec reads back what it writes. *)
Theorem iat_round_trip c expires_at reusable :
  constraints_from_json (constraints_to_json c) = Ok c -> in_u64 expires_at ->
  parse_iat_fields (Object [("constraints", fs_s (constraints_to_json c));
                            ("expires_at", fs_int expires_at); ("reusable", fs_b reusable)]) =
    Ok (c, expires_at, reusable).
Proof.
  intros Hc He. unfold parse_iat_fields, field_u64, field_str, field_bool. simpl. rewrite Hc. simpl.
  by rewrite Decimal.parse_u64_to_string.
Qed.
End dcr_store.

(** A codec for the evaluation on concrete inputs. *)
Definition sample_codec (c : IatConstraints) : IatCodec :=
  {| constraints_from_json s := if bool_decide (s = "c") then Ok c else Err "bad"; constraints_to_json _ := "c" |}.
Lemma iat_round_trip_witness :
  @parse_iat_fields (sample_codec sample_constraints)
    (Object [("constraints", fs_s "c"); ("expires_at", fs_int 1700000000); ("reusable", fs_b true)]) =
  Ok (sample_constraints, 1700000000, true).
Proof.
  apply (@iat_round_trip (sample_codec sample_constraints)); [reflexivity | unfold in_u64, u64_max; lia].
Defined.

(** * Pushed requests *)

Definition PAR_TTL_SECS : Z := 60.
Definition PAR_COL : string := "parRequests".
Definition URN_PREFIX : string := "urn:ietf:params:oauth:request_uri:".

Section par.
Context `{Externals}.

Definition par_create (client_id params : string) : prog sysE (result string string) :=
  buf ← random_bytes;
  let id := b64url_encode buf in
  now ← now_secs;
  _ ←? fs (SetDoc PAR_COL id
             (Object [("clientId", fs_s client_id); ("params", fs_s params);
                      ("expiresAt", fs_ts (rfc3339 (now + PAR_TTL_SECS)))]));
  mret (Ok (URN_PREFIX +:+ id)).

(** The identifier of a request URI of acceptable length. *)
Definition request_uri_id (request_uri : string) : option string :=
  id ← strip_prefix URN_PREFIX request_uri;
  if ((20 <=? String.length id) && (String.length id <=? 100))%nat then Some id else None.

Definition par_peek (request_uri : string) : prog sysE (result string (option (string * string))) :=
  match request_uri_id request_uri with
  | None => mret (Ok None)
  | Some id =>
      d ←? fs (GetDoc PAR_COL id);
      match d with
      | None => mret (Ok None)
      | Some fields =>
          let expires := default 0 (field_ts_secs fields "expiresAt") in
          now ← now_secs;
          mret (Ok (if expires <? now then None
                    else Some (default "" (field_str fields "clientId"),
                               default "" (field_str fields "params"))))
      end
  end.

Definition par_delete (request_uri : string) : prog sysE unit :=
  match strip_prefix URN_PREFIX request_uri with
  | Some id => _ ← fs (DeleteDoc PAR_COL id); mret tt
  | None => mret tt
  end.
End par.
