(* ===== verification/Cli.v ===== *)
(** * The administrator's command line

    [src/src/main.rs]: the subcommands as programs over the database with an exit code
    and the lines they print.  The assembly of the server is in [Keys].
    [var] reads the environment. *)

From S2P Require Import Prelude Prog Json Model Decimal Firestore Externals Es256 Sys X509 Dcr Accounts AdminStore AdminFacts DcrStore.

#[local] Open Scope Z_scope.

Record CliResult := mkCliResult { exit_code : Z; stdout : list string; stderr : list string }.
Definition done_with (out : list string) : CliResult := mkCliResult 0 out [].
Definition die (code : Z) (err : list string) : CliResult := mkCliResult code [] err.
(** [fail] of the mint command. *)
Definition fail (msg : string) : CliResult := die 2 ["mint: " +:+ msg].

(** [std::env::var]. *)
Definition Env : Type := string -> option string.
Definition resolve_project (var : Env) : string :=
  match var "GCLOUD_PROJECT" with
  | Some project => project
  | None => default "fido2-8b943" (var "GOOGLE_CLOUD_PROJECT")
  end.

(** The end of a command. *)
Definition conclude (q : prog sysE (result CliResult CliResult)) : prog sysE CliResult :=
  r ← q; mret (match r with Ok a => a | Err a => a end).

(** ** mint *)

Record MintArgs := mkMintArgs {
  ma_hosts : list string;
  ma_grants : list string;
  ma_ttl_hours : Z;
  ma_reusable : bool;
  ma_profile : ClientProfile
}.
Definition profile_debug (p : ClientProfile) : string :=
  match p with Public => "Public" | ConfidentialSecret => "ConfidentialSecret" | ConfidentialKey => "ConfidentialKey" end.
Definition profile_arg (v : option string) : option ClientProfile :=
  s ← v;
  if bool_decide (s = "public") then Some Public
  else if bool_decide (s = "confidential-secret") then Some ConfidentialSecret
  else if bool_decide (s = "confidential-key") then Some ConfidentialKey
  else None.

(** The arguments one by one; the first bad one ends the command. *)
Fixpoint mint_args (m : MintArgs) (args : list string) : result CliResult MintArgs :=
  match args with
  | [] => Ok m
  | a :: rest =>
      if bool_decide (a = "--redirect-host") then
        match rest with
        | v :: rest' =>
            mint_args (mkMintArgs (ma_hosts m ++ [v]) (ma_grants m) (ma_ttl_hours m) (ma_reusable m) (ma_profile m)) rest'
        | [] => Err (fail "--redirect-host needs a value")
        end
      else if bool_decide (a = "--grant") then
        match rest with
        | v :: rest' =>
            mint_args (mkMintArgs (ma_hosts m) (ma_grants m ++ [v]) (ma_ttl_hours m) (ma_reusable m) (ma_profile m)) rest'
        | [] => Err (fail "--grant needs a value")
        end
      else if bool_decide (a = "--profile") then
        match rest with
        | v :: rest' =>
            match profile_arg (Some v) with
            | Some p => mint_args (mkMintArgs (ma_hosts m) (ma_grants m) (ma_ttl_hours m) (ma_reusable m) p) rest'
            | None => Err (fail "--profile needs one of: public, confidential-secret, confidential-key")
            end
        | [] => Err (fail "--profile needs one of: public, confidential-secret, confidential-key")
        end
      else if bool_decide (a = "--ttl-hours") then
        match rest with
        | v :: rest' =>
            match parse_u64 v with
            | Some n => mint_args (mkMintArgs (ma_hosts m) (ma_grants m) n (ma_reusable m) (ma_profile m)) rest'
            | None => Err (fail "--ttl-hours needs a positive integer")
            end
        | [] => Err (fail "--ttl-hours needs a positive integer")
        end
      else if bool_decide (a = "--reusable") then
        mint_args (mkMintArgs (ma_hosts m) (ma_grants m) (ma_ttl_hours m) true (ma_profile m)) rest
      else Err (fail ("unknown arg " +:+ a))
  end.
Definition mint_defaults : MintArgs := mkMintArgs [] [] 24 false ConfidentialKey.
Definition DEFAULT_GRANTS : list string := ["authorization_code"; "refresh_token"].

(** What the arguments ask for. *)
Definition mint_request (args : list string) : result CliResult MintArgs :=
  m ← mint_args mint_defaults args;
  match ma_hosts m with
  | [] => Err (fail "--redirect-host <host> を最低 1 つ指定してください")
  | _ =>
      Ok (match ma_grants m with
          | [] => mkMintArgs (ma_hosts m) DEFAULT_GRANTS (ma_ttl_hours m) (ma_reusable m) (ma_profile m)
          | _ => m
          end)
  end.

(** [--email], normalized as at sign-up. *)
Fixpoint email_arg (args : list string) : option string :=
  match args with
  | a :: rest =>
      if bool_decide (a = "--email") then
        match rest with v :: _ => Some v | [] => None end
      else email_arg rest
  | [] => None
  end.

Section cli.
Context `{Externals, IatCodec, AdminCodec}.

Definition mint_iat (args : list string) : prog sysE CliResult :=
  conclude (
    m ←? mret (mint_request args);
    rnd ← random_bytes;
    let '(raw, hash) := gen_random_token rnd in
    t ← now_secs;
    let expires_at := wrap_u64 (t + wrap_u64 (ma_ttl_hours m * 3600)) in
    let constraints := mkIatConstraints (ma_hosts m) (ma_grants m) (ma_profile m) in
    r ← put_iat hash constraints expires_at (ma_reusable m);
    match r with
    | Err e => mret (Err (die 1 ["mint: IAT 保存に失敗: " +:+ e]))
    | Ok _ =>
        let ttl := u64_to_string (ma_ttl_hours m) in
        _ ← audit_record "cli" "mint_iat" hash
              ("profile=" +:+ profile_debug (ma_profile m) +:+ " hosts=" +:+ join "," (ma_hosts m) +:+ " grants=" +:+
               join "," (ma_grants m) +:+ " ttl_hours=" +:+ ttl +:+ " reusable=" +:+ bool_to_string (ma_reusable m));
        mret (Ok (mkCliResult 0
          ["initial_access_token:   " +:+ raw;
           "token_hash:             " +:+ hash;
           "profile:                " +:+ profile_debug (ma_profile m);
           "allowed_redirect_hosts: " +:+ join ", " (ma_hosts m);
           "allowed_grant_types:    " +:+ join ", " (ma_grants m);
           "expires_at:             " +:+ u64_to_string expires_at +:+ " (epoch, +" +:+ ttl +:+ "h)";
           "reusable:               " +:+ bool_to_string (ma_reusable m)]
          ["注意: 生トークンの表示は一度だけ。この出力は Cloud Logging に残ります。"]))
    end).

(** ** revoke-client *)

Definition revoke_client_cmd (args : list string) : prog sysE CliResult :=
  conclude (
    client_id ←? mret (match args with
                       | id :: _ =>
                           if negb (starts_with "-" id) then Ok id
                           else Err (die 2 ["revoke-client: usage: rust-op revoke-client <client_id>"])
                       | [] => Err (die 2 ["revoke-client: usage: rust-op revoke-client <client_id>"])
                       end);
    r ← revoke_client client_id;
    match r with
    | Ok true =>
        _ ← audit_record "cli" "revoke_client" client_id "";
        mret (Ok (done_with ["revoked: " +:+ client_id +:+ "（新規認可・refresh は即停止、発行済み AT は ≤15 分で失効）"]))
    | Ok false => mret (Err (die 1 ["revoke-client: not found: " +:+ client_id]))
    | Err e => mret (Err (die 1 ["revoke-client: 失敗: " +:+ e]))
    end).

(** ** Administrators *)

Definition parse_email_arg (cmd : string) (args : list string) : result CliResult string :=
  match email_arg args with
  | Some v => Ok (str_to_lowercase (str_trim v))
  | None => Err (die 2 [cmd +:+ ": usage: rust-op " +:+ cmd +:+ " --email <email>"])
  end.

Definition resolve_account_id (cmd email : string) : prog sysE (result CliResult string) :=
  r ← get_credential email;
  match r with
  | Ok (Some c) =>
      if str_is_empty (str_trim (cr_account_id c))
      then mret (Err (die 1 [cmd +:+ ": account record for " +:+ email +:+ " has no accountId (破損データの可能性)"]))
      else mret (Ok (cr_account_id c))
  | Ok None => mret (Err (die 1 [cmd +:+ ": account not found: " +:+ email +:+ "（先に passkey 登録を済ませてください）"]))
  | Err e => mret (Err (die 1 [cmd +:+ ": account lookup failed: " +:+ e]))
  end.

Definition named (verb email account_id : string) : string :=
  verb +:+ ": " +:+ email +:+ " (account_id=" +:+ account_id +:+ ")".
Definition grant_admin_cmd (args : list string) : prog sysE CliResult :=
  conclude (
    email ←? mret (parse_email_arg "grant-admin" args);
    account_id ←? resolve_account_id "grant-admin" email;
    r ← grant_admin account_id "cli";
    match r with
    | Ok Granted =>
        _ ← audit_record "cli" "grant_admin" account_id ("email=" +:+ email);
        mret (Ok (done_with [named "granted" email account_id]))
    | Ok AlreadyAdmin => mret (Ok (done_with [named "already admin" email account_id]))
    | Ok GrantConflict =>
        mret (Err (die 1 ["grant-admin: 他の書き込みと競合しました。もう一度実行してください: " +:+ email]))
    | Err e => mret (Err (die 1 ["grant-admin: 失敗: " +:+ e]))
    end).

Definition revoke_admin_cmd (args : list string) : prog sysE CliResult :=
  conclude (
    email ←? mret (parse_email_arg "revoke-admin" args);
    account_id ←? resolve_account_id "revoke-admin" email;
    r ← revoke_admin account_id;
    match r with
    | Ok Revoked =>
        _ ← audit_record "cli" "revoke_admin" account_id ("email=" +:+ email);
        mret (Ok (done_with [named "revoked" email account_id]))
    | Ok NotAdmin => mret (Err (die 1 ["revoke-admin: not an admin: " +:+ email]))
    | Ok LastAdminGuard => mret (Err (die 1 ["revoke-admin: 拒否: 最後の管理者は剥奪できません: " +:+ email]))
    | Ok RevokeConflict =>
        mret (Err (die 1 ["revoke-admin: 他の書き込みと競合しました。もう一度実行してください: " +:+ email]))
    | Err e => mret (Err (die 1 ["revoke-admin: 失敗: " +:+ e]))
    end).

(** ** Accounts *)

(** What was removed; a failed search ends with 1, although the account is frozen. *)
Definition report (label email : string) (c : RevocationCounts) : CliResult :=
  let line := label +:+ ": " +:+ email +:+ " (sessions=" +:+ usize_to_string (rc_sessions c) +:+ " access_tokens=" +:+
    usize_to_string (rc_access_tokens c) +:+ " refresh_tokens=" +:+ usize_to_string (rc_refresh_tokens c) +:+ ")" in
  match rc_query_errors c with
  | [] => done_with [line]
  | errors =>
      mkCliResult 1 [line]
        ["WARNING: 以下は検索自体に失敗し、失効できたか不明です（存在しない=0件、ではありません）: " +:+ debug_names errors]
  end.
Definition disable_account_cmd (args : list string) : prog sysE CliResult :=
  conclude (
    email ←? mret (parse_email_arg "disable-account" args);
    r ← disable_account "cli" email;
    mret (match r with
          | Ok (Disabled c) => Ok (report "disabled" email c)
          | Ok (AlreadyDisabled c) => Ok (report "already disabled" email c)
          | Ok DisableNotFound => Err (die 1 ["disable-account: account not found: " +:+ email])
          | Err e => Err (die 1 ["disable-account: 失敗: " +:+ e])
          end)).
Definition enable_account_cmd (args : list string) : prog sysE CliResult :=
  conclude (
    email ←? mret (parse_email_arg "enable-account" args);
    r ← enable_account "cli" email;
    mret (match r with
          | Ok Enabled => Ok (done_with ["enabled: " +:+ email])
          | Ok AlreadyEnabled => Ok (done_with ["already enabled: " +:+ email])
          | Ok EnableNotFound => Err (die 1 ["enable-account: account not found: " +:+ email])
          | Err e => Err (die 1 ["enable-account: 失敗: " +:+ e])
          end)).

(** ** migrate-static-clients *)

Definition static_client (id : string) (redirects logouts : list string) (method : string) (secret : option string)
    (grants : list string) (dpop_bound : bool) : Client :=
  mkClient id redirects method secret grants logouts dpop_bound [] None false false None.
Definition static_app_clients (issuer ciba_rp_secret_hash : string) : list Client :=
  [static_client "demo-rp" [issuer +:+ "/callback"] [issuer +:+ "/"] "none" None ["authorization_code"; "refresh_token"] true;
   static_client "mobile-rp" ["jp.co.sonrisa.fido2demo://callback"] ["jp.co.sonrisa.fido2demo://logout"] "none" None
     ["authorization_code"; "refresh_token"] true;
   static_client "ciba-rp" [] [] "client_secret_basic" (Some ciba_rp_secret_hash) ["urn:openid:params:grant-type:ciba"] false].

Definition require_env (var : Env) (name : string) : result CliResult string :=
  match var name with
  | Some v =>
      if negb (str_is_empty (str_trim v)) then Ok v
      else Err (die 2 ["migrate-static-clients: 環境変数 " +:+ name +:+ " が必要です（未設定時のフォールバックは行いません）"])
  | None => Err (die 2 ["migrate-static-clients: 環境変数 " +:+ name +:+ " が必要です（未設定時のフォールバックは行いません）"])
  end.

Definition secret_hash_from_manager_verified (var : Env) (name : string) : prog sysE (result CliResult string) :=
  r ← fs (AccessSecret name);
  raw ←? mret (match r with
               | Ok (Some v) => Ok v
               | Ok None => Err (die 1 ["migrate-static-clients: Secret Manager に " +:+ name +:+ " が見つかりません"])
               | Err e => Err (die 1 ["migrate-static-clients: " +:+ name +:+ " の取得に失敗: " +:+ e])
               end);
  mret (match var name with
        | Some env_val =>
            if negb (bool_decide (env_val = raw))
            then Err (die 1 ["migrate-static-clients: 環境変数 " +:+ name +:+
                             " と Secret Manager の値が一致しません。どちらが正か確認してください。"])
            else Ok (hash_token raw)
        | None => Ok (hash_token raw)
        end).

(** One client written and read back: a line, on stdout when it is there as intended. *)
Definition migrate_client (c : Client) : prog sysE (result string string) :=
  let id := cl_client_id c in
  r ← save_client c;
  match r with
  | Ok _ =>
      saved ← load_client id;
      mret (match saved with
            | Some saved =>
                if bool_decide (client_to_json saved = client_to_json c) then Ok ("migrated (verified): " +:+ id)
                else Err ("migrate-static-clients: " +:+ id +:+ ": 書き込み後の読み戻しが一致しません")
            | None => Err ("migrate-static-clients: " +:+ id +:+ ": 書き込み後に読み戻せません")
            end)
  | Err e => mret (Err ("migrate-static-clients: " +:+ id +:+ ": " +:+ e))
  end.
Fixpoint migrate_clients (out err : list string) (clients : list Client) : prog sysE (list string * list string) :=
  match clients with
  | [] => mret (out, err)
  | c :: rest =>
      r ← migrate_client c;
      match r with
      | Ok line => migrate_clients (out ++ [line]) err rest
      | Err line => migrate_clients out (err ++ [line]) rest
      end
  end.

Fixpoint dry_run (out ids : list string) : prog sysE CliResult :=
  match ids with
  | [] => mret (done_with out)
  | id :: rest =>
      c ← load_client id;
      dry_run (out ++ ["  " +:+ id +:+ ": " +:+
        match c with
        | Some _ => "既にFirestoreに存在（--apply はこの client_id をエラーにします）"
        | None => "未移行（--apply で移行されます）"
        end]) rest
  end.

Definition migrate_static_clients_cmd (var : Env) (args : list string) : prog sysE CliResult :=
  if negb (list_any (fun a => bool_decide (a = "--apply")) args)
  then dry_run ["[dry-run] project=" +:+ resolve_project var] ["demo-rp"; "mobile-rp"; "ciba-rp"]
  else
    conclude (
      origin ←? mret (require_env var "ORIGIN");
      let base_path := default "" (var "BASE_PATH") in
      let issuer := origin +:+ base_path in
      ciba_rp_secret_hash ←? secret_hash_from_manager_verified var "CIBA_RP_SECRET";
      r ← migrate_clients [] [] (static_app_clients issuer ciba_rp_secret_hash);
      match r.2 with
      | [] => mret (Ok (done_with r.1))
      | err =>
          mret (Ok (mkCliResult 1 r.1
            (err ++ ["migrate-static-clients: 一部のクライアントで失敗しました。上記を確認してください。"])))
      end).

(** The subcommand of an argument vector, [None] to serve. *)
Definition subcommand (var : Env) (argv : list string) : option (prog sysE CliResult) :=
  match argv with
  | _ :: cmd :: args =>
      if bool_decide (cmd = "mint") then Some (mint_iat args)
      else if bool_decide (cmd = "revoke-client") then Some (revoke_client_cmd args)
      else if bool_decide (cmd = "grant-admin") then Some (grant_admin_cmd args)
      else if bool_decide (cmd = "revoke-admin") then Some (revoke_admin_cmd args)
      else if bool_decide (cmd = "disable-account") then Some (disable_account_cmd args)
      else if bool_decide (cmd = "enable-account") then Some (enable_account_cmd args)
      else if bool_decide (cmd = "migrate-static-clients") then Some (migrate_static_clients_cmd var args)
      else None
  | _ => None
  end.
End cli.

(** * Properties *)

Section cli_facts.
Context `{Externals, IatCodec, AdminCodec}.

(** This run wrote the client, and then read back a client with the same text. *)
Definition written_and_read (tr : list (event sysE)) (c : Client) : Prop :=
  exists i doc j fields json saved,
    Ev i (FsOp (CreateIfAbsent CLIENTS (cl_client_id c) doc)) (Ok true) ∈ tr /\
    Ev j (FsOp (GetDoc CLIENTS (cl_client_id c))) (Ok (Some fields)) ∈ tr /\
    field_str fields "json" = Some json /\ client_from_json json = Ok saved /\ client_to_json saved = client_to_json c.
Lemma written_and_read_mono tr tr' c : written_and_read tr c -> (forall ev, ev ∈ tr -> ev ∈ tr') -> written_and_read tr' c.
Proof. intros (i & doc & j & fields & json & saved & ? & ? & ?) Hs. exists i, doc, j, fields, json, saved. auto. Qed.

Lemma migrate_client_verified c : always (fun tr r => is_ok r = true -> written_and_read tr c) (migrate_client c).
Proof.
  apply always_vis. intros i [[]|e]; [|by apply always_ret..]. apply always_vis. intros j r. apply always_ret.
  destruct r as [[fields|]|e]; [|done..]. destruct (field_str fields "json") as [json|] eqn:Hf; [|done]. cbn.
  destruct (client_from_json json) as [saved|] eqn:Hc; [|done]. cbn. case_bool_decide; [|done]. intros _.
  exists i, (Object [("json", fs_s (client_to_json c))]), j, fields, json, saved.
  split; [by left|]. split; [right; by left|]. done.
Qed.
(** No line on stderr: every client of the list is there. *)
Lemma migrate_clients_verified out err cs :
  always (fun tr r => r.2 = [] -> err = [] /\ Forall (written_and_read tr) cs) (migrate_clients out err cs).
Proof.
  revert out err. induction cs as [|c cs IH]; intros out err; [by apply always_ret|].
  eapply always_bind; [apply migrate_client_verified|]. intros tr1 [line|line] Hc.
  - eapply always_mono; [|apply IH]. intros tr r Hr Hn. destruct (Hr Hn) as [-> Hall]. split; [done|].
    constructor; [eapply written_and_read_mono; [by apply Hc|] | eapply Forall_impl; [exact Hall|]; intros c' Hc'; eapply written_and_read_mono; [exact Hc'|]];
      intros ev Hev; apply elem_of_app; auto.
  - eapply always_mono; [|apply IH]. intros tr r Hr Hn. destruct (Hr Hn) as [Hnil _]. by destruct err.
Qed.

(** The secret of the manager, equal to the environment's if that has one. *)
Definition verified_secret (var : Env) (tr : list (event sysE)) (secret : string) : Prop :=
  (exists j, Ev j (FsOp (AccessSecret "CIBA_RP_SECRET")) (Ok (Some secret)) ∈ tr) /\
  forall v, var "CIBA_RP_SECRET" = Some v -> v = secret.
Lemma secret_verified var :
  always (fun tr r => match r with
                      | Ok h => exists secret, h = hash_token secret /\ verified_secret var tr secret
                      | Err a => exit_code a <> 0
                      end) (secret_hash_from_manager_verified var "CIBA_RP_SECRET").
Proof.
  apply always_vis. intros j [[secret|]|e]; try by apply always_ret. apply always_ret.
  unfold verified_secret. destruct (var "CIBA_RP_SECRET") as [v|] eqn:Hv; rewrite ?Hv.
  - case_bool_decide; [|done]. cbn. exists secret. split; [done|]. split; [exists j; by left | by intros ? [= <-]].
  - exists secret. split; [done|]. split; [exists j; by left | done].
Qed.

Lemma conclude_always (P : list (event sysE) -> CliResult -> Prop) q :
  always (fun tr r => P tr (match r with Ok a => a | Err a => a end)) q -> always P (conclude q).
Proof. intros Hq. eapply always_bind; [exact Hq|]. intros tr r Hr. apply always_ret. by rewrite app_nil_r. Qed.
Lemma require_env_Err var name a : require_env var name = Err a -> exit_code a = 2.
Proof. unfold require_env. destruct (var name); [|by intros [= <-]]. by destruct (negb _); [|intros [= <-]]. Qed.
Lemma require_env_Ok var name v : require_env var name = Ok v -> var name = Some v.
Proof. unfold require_env. destruct (var name); [|done]. by destruct (negb _); [intros [= ->]|]. Qed.

(** What an exit code of 0 means. *)
Definition migrated (var : Env) (tr : list (event sysE)) (r : CliResult) : Prop :=
  exit_code r = 0 -> exists origin secret, var "ORIGIN" = Some origin /\ verified_secret var tr secret /\
    Forall (written_and_read tr) (static_app_clients (origin +:+ default "" (var "BASE_PATH")) (hash_token secret)).

(** C36: the migration with --apply ends with the exit code 0 only when the issuer was given in
    the environment, the secret came from the secret manager and agrees with the
    environment, and every static client was newly written by this run and read back with
    the same text; after any failure the exit code is another one. *)
Theorem migration_verified var args tr r :
  list_any (fun a => bool_decide (a = "--apply")) args = true ->
  thread_path (migrate_static_clients_cmd var args) tr (Ret r) -> migrated var tr r.
Proof.
  unfold migrate_static_clients_cmd. intros ->. cbn [negb]. revert tr r. apply conclude_always, always_check.
  { intros a Ha%require_env_Err Hz. by rewrite Ha in Hz. }
  intros origin Ho%require_env_Ok. eapply always_bind; [apply secret_verified|]. intros tr1 [h|a] Hh; cbv beta iota zeta.
  2:{ apply always_ret. by intros ?%Hh. }
  destruct Hh as (secret & -> & Hsec). eapply always_bind; [apply migrate_clients_verified|]. intros tr2 [out err] Hall.
  cbn [snd fst] in *. destruct err as [|e err]; apply always_ret; [|done]. intros _. rewrite app_nil_r.
  destruct (Hall eq_refl) as [_ Hcs]. exists origin, secret. split; [done|]. split.
  - destruct Hsec as [[j Hj] Hv]. split; [|done]. exists j. apply elem_of_app. by left.
  - eapply Forall_impl; [exact Hcs|]. intros c Hc. eapply written_and_read_mono; [exact Hc|].
    intros ev Hev. apply elem_of_app. by right.
Qed.
End cli_facts.

(** ** A migration

    On a database that keeps the created documents, with the secret in the manager. *)
Section migration_witness.
(** The text of a client is its identifier. *)
#[local] Instance migration_externals : Externals :=
  let e := sample_externals [] in
  with_encodings e (@url_safe_no_pad_encode e) (@url_safe_no_pad_decode e) (@signature_from_slice e) (@ecdsa_verify e)
    (@json_from_slice e) (@json_to_string e) (fun s => Ok (mkClient s [] "" None [] [] false [] None false false None)).
Definition migration_variables : Env := fun name =>
  if bool_decide (name = "ORIGIN") then Some "https://op.example" else None.
Definition migration_answer {X} (o : fsE X) (db : gmap string Value) : X * gmap string Value :=
  match o in fsE X return X * gmap string Value with
  | CreateIfAbsent _ id doc => (Ok true, <[id := doc]> db)
  | GetDoc _ id => (Ok (db !! id), db)
  | AccessSecret _ => (Ok (Some "secret"), db)
  | o => ((@fs_handle no_database _ o ()).1, db)
  end.
Definition migration_handler : handler sysE (gmap string Value) := fun X e db =>
  match e in sysE X return X * gmap string Value with
  | NowSecs => (1000, db)
  | UuidV4 => ("id", db)
  | Random32 => ("r", db)
  | FsOp o => migration_answer o db
  end.
#[local] Existing Instance binary_codec.
#[local] Instance migration_iats : IatCodec := sample_codec sample_constraints.
Definition migration := migrate_static_clients_cmd migration_variables ["--apply"].
Lemma migration_run : exit_code (run migration_handler migration ∅).1 = 0.
Proof. vm_compute. reflexivity. Qed.

Lemma migration_verified_witness : exists tr r, exit_code r = 0 /\ migrated migration_variables tr r.
Proof.
  eexists _, _. split; [exact migration_run|].
  exact (migration_verified migration_variables ["--apply"] _ _ eq_refl
           (run_trace_path migration_handler 0 migration ∅)).
Defined.
End migration_witness.
