(* ===== verification/FirestoreStore.v ===== *)
(** * The Store trait on Firestore

    [src/src/firestore_store.rs]: the documents of every record and the methods as
    programs over the Firestore operations, with the compare-and-set writes that make
    the single-use operations atomic across instances. *)

From S2P Require Import Prelude Prog Json Model Decimal Calendar Firestore Externals Sys Store.
From S2P Require Import Claims.

#[local] Open Scope Z_scope.

(** [if let Some(v) = v { f[k] = v }]. *)
Definition set_opt (k : string) (v : option Value) (f : Value) : Value :=
  match v with Some x => set_field f k x | None => f end.
Definition field_string (f : Value) (k : string) : string := default "" (field_str f k).

(** ** Documents *)

Definition doc_expired (now : Z) (fields : Value) : bool :=
  default 0 (field_ts_secs fields "expiresAt") <? now.

Definition interaction_doc (now : Z) (i : Interaction) : Value :=
  set_opt "requestUri" (fs_s <$> in_request_uri i)
    (set_opt "authTime" (fs_int <$> in_auth_time i)
       (set_opt "accountId" (fs_s <$> in_account_id i)
          (Object [("rawQuery", fs_s (in_raw_query i));
                   ("expiresAt", fs_ts (rfc3339 (now + INTERACTION_TTL_SECS)))]))).
Definition interaction_of_doc (uid : string) (f : Value) : Interaction :=
  mkInteraction uid (field_string f "rawQuery") (field_str f "accountId") (field_u64 f "authTime")
    (field_str f "requestUri").

Definition session_doc (now : Z) (s : Session) : Value :=
  Object [("accountId", fs_s (se_account_id s)); ("authTime", fs_int (se_auth_time s));
          ("expiresAt", fs_ts (rfc3339 (now + SESSION_TTL_SECS)))].
Definition session_of_doc (sid : string) (f : Value) : Session :=
  mkSession sid (field_string f "accountId") (default 0 (field_u64 f "authTime")).

Definition code_doc (c : AuthorizationCode) : Value :=
  set_opt "resource" (fs_s <$> ac_resource c)
  (set_opt "dpopJkt" (fs_s <$> ac_dpop_jkt c)
  (set_opt "acr" (fs_s <$> ac_acr c)
  (set_opt "codeChallengeMethod" (fs_s <$> ac_code_challenge_method c)
  (set_opt "codeChallenge" (fs_s <$> ac_code_challenge c)
  (set_opt "nonce" (fs_s <$> ac_nonce c)
     (Object [("clientId", fs_s (ac_client_id c)); ("accountId", fs_s (ac_account_id c));
              ("redirectUri", fs_s (ac_redirect_uri c)); ("scope", fs_s (ac_scope c));
              ("authTime", fs_int (ac_auth_time c)); ("expiresAt", fs_ts (rfc3339 (ac_expires_at c)));
              ("used", fs_b false)])))))).
Definition code_of_doc (code : string) (f : Value) : AuthorizationCode :=
  mkAuthorizationCode code (field_string f "clientId") (field_string f "accountId")
    (field_string f "redirectUri") (field_string f "scope") (field_str f "nonce")
    (field_str f "codeChallenge") (field_str f "codeChallengeMethod")
    (default 0 (field_u64 f "authTime")) (field_str f "acr") (field_str f "dpopJkt")
    (field_str f "resource") (default 0 (field_ts_secs f "expiresAt")).

Definition access_doc (now : Z) (t : AccessToken) : Value :=
  set_opt "mandateConsumed" (if at_mandate_consumed t then Some (fs_b true) else None)
  (set_opt "authorizationDetails" (fs_s <$> at_authorization_details t)
  (set_opt "authTime" (fs_int <$> at_auth_time t)
  (set_opt "acr" (fs_s <$> at_acr t)
  (set_opt "aud" (fs_s <$> at_aud t)
  (set_opt "jkt" (fs_s <$> at_jkt t)
     (Object [("clientId", fs_s (at_client_id t)); ("accountId", fs_s (at_account_id t));
              ("scope", fs_s (at_scope t));
              ("expiresAt", fs_ts (rfc3339 (now + ACCESS_TTL_SECS)))])))))).
Definition nonempty_field (f : Value) (k : string) : option string :=
  s ← field_str f k; if str_is_empty s then None else Some s.
Definition access_of_doc (token : string) (f : Value) : AccessToken :=
  mkAccessToken token (field_string f "clientId") (field_string f "accountId") (field_string f "scope")
    (field_str f "jkt") (field_str f "aud") (field_str f "acr") (field_u64 f "authTime")
    (nonempty_field f "authorizationDetails") (default false (field_bool f "mandateConsumed")).

Definition refresh_doc (now : Z) (t : RefreshToken) : Value :=
  set_opt "replacedBy" (fs_s <$> rt_replaced_by t)
  (set_field (set_field
    (set_opt "authTime" (fs_int <$> rt_auth_time t)
    (set_opt "acr" (fs_s <$> rt_acr t)
    (set_opt "jkt" (fs_s <$> rt_jkt t)
    (set_opt "resource" (fs_s <$> rt_resource t)
       (Object [("clientId", fs_s (rt_client_id t)); ("accountId", fs_s (rt_account_id t));
                ("scope", fs_s (rt_scope t));
                ("expiresAt", fs_ts (rfc3339 (now + REFRESH_TTL_SECS)))])))))
    "familyId" (fs_s (rt_family_id t))) "used" (fs_b (rt_used t))).
Definition rt_from_fields (token : string) (f : Value) : RefreshToken :=
  mkRefreshToken token (field_string f "clientId") (field_string f "accountId") (field_string f "scope")
    (field_str f "resource") (field_str f "jkt") (field_str f "acr") (field_u64 f "authTime")
    (field_string f "familyId") (default false (field_bool f "used")) (field_str f "replacedBy").

(** ** The methods *)

(** [get_doc(..).await.ok()?? ] and an answer for an expired document. *)
Definition fs_get_live {T} (col id : string) (of_doc : Value -> T) : prog sysE (option T) :=
  r ← fs (GetDoc col id);
  match r with
  | Ok (Some f) => now ← now_secs; mret (if doc_expired now f then None else Some (of_doc f))
  | _ => mret None
  end.
Definition ignore_result {X} (p : prog sysE (result string X)) : prog sysE unit := _ ← p; mret tt.

Definition cas_take (col id : string) : prog sysE (option Value) :=
  r ← fs (GetDocWithUpdateTime col id);
  match r with
  | Ok (Some (f, update_time)) =>
      d ← fs (DeleteDocIfUnchanged col id update_time);
      mret match d with Ok true => Some f | _ => None end
  | _ => mret None
  end.

Definition fss_save_interaction (i : Interaction) : prog sysE unit :=
  now ← now_secs; ignore_result (fs (SetDoc "interactions" (in_uid i) (interaction_doc now i))).
Definition fss_get_interaction (uid : string) : prog sysE (option Interaction) :=
  fs_get_live "interactions" uid (interaction_of_doc uid).
Definition fss_consume_interaction (uid : string) : prog sysE bool :=
  r ← cas_take "interactions" uid; mret match r with Some _ => true | None => false end.
Definition fss_save_session (s : Session) : prog sysE unit :=
  now ← now_secs; ignore_result (fs (SetDoc "sessions" (se_sid s) (session_doc now s))).
Definition fss_get_session (sid : string) : prog sysE (option Session) :=
  fs_get_live "sessions" sid (session_of_doc sid).
Definition fss_delete_session (sid : string) : prog sysE unit :=
  ignore_result (fs (DeleteDoc "sessions" sid)).
Definition fss_save_code (c : AuthorizationCode) : prog sysE unit :=
  ignore_result (fs (SetDoc "authCodes" (ac_code c) (code_doc c))).

Definition delete_if_some (col : string) (id : option string) : prog sysE unit :=
  match id with Some i => ignore_result (fs (DeleteDoc col i)) | None => mret tt end.
Definition fss_take_code (code : string) : prog sysE (option AuthorizationCode) :=
  r ← fs (GetDocWithUpdateTime "authCodes" code);
  match r with
  | Ok (Some (f, update_time)) =>
      if default false (field_bool f "used") then
        _ ← delete_if_some "accessTokens" (field_str f "issuedAccessToken");
        _ ← delete_if_some "refreshTokens" (field_str f "issuedRefreshToken");
        mret None
      else
        let f' := set_field f "used" (fs_b true) in
        won ← fs (SetDocIfUnchanged "authCodes" code f' update_time);
        mret match won with Ok true => Some (code_of_doc code f') | _ => None end
  | _ => mret None
  end.
Definition fss_link_issued_tokens (code access_token : string) (refresh_token : option string) :
    prog sysE unit :=
  ignore_result (fs (MergeDoc "authCodes" code
    (set_opt "issuedRefreshToken" (fs_s <$> refresh_token)
       (Object [("issuedAccessToken", fs_s access_token)])))).

Definition fss_save_access_token (t : AccessToken) : prog sysE unit :=
  now ← now_secs; ignore_result (fs (SetDoc "accessTokens" (at_token t) (access_doc now t))).
Definition fss_get_access_token (token : string) : prog sysE (option AccessToken) :=
  fs_get_live "accessTokens" token (access_of_doc token).
Definition fss_revoke_access_token (token : string) : prog sysE unit :=
  ignore_result (fs (DeleteDoc "accessTokens" token)).
Definition fss_consume_mandate_if_unused (token : string) : prog sysE (result string bool) :=
  d ←? fs (GetDocWithUpdateTime "accessTokens" token);
  match d with
  | None => mret (Ok false)
  | Some (f, update_time) =>
      now ← now_secs;
      if doc_expired now f then mret (Ok false)
      else if default false (field_bool f "mandateConsumed") then mret (Ok false)
      else fs (SetDocIfUnchanged "accessTokens" token (set_field f "mandateConsumed" (fs_b true)) update_time)
  end.

Definition fss_save_refresh_token (t : RefreshToken) : prog sysE unit :=
  now ← now_secs; ignore_result (fs (SetDoc "refreshTokens" (rt_token t) (refresh_doc now t))).
Definition fss_get_refresh_token (token : string) : prog sysE (option RefreshToken) :=
  fs_get_live "refreshTokens" token (rt_from_fields token).
Definition fss_mark_refresh_used (token : string) (replaced_by : option string) : prog sysE bool :=
  r ← fs (GetDocWithUpdateTime "refreshTokens" token);
  match r with
  | Ok (Some (f, ut)) =>
      if default false (field_bool f "used") then mret false
      else
        let f' := set_opt "replacedBy" (fs_s <$> replaced_by) (set_field f "used" (fs_b true)) in
        won ← fs (SetDocIfUnchanged "refreshTokens" token f' ut);
        mret (default false (result_ok won))
  | _ => mret false
  end.
(** The loop allows 64 iterations. *)
Fixpoint fss_revoke_loop (guard : nat) (cur : option string) : prog sysE unit :=
  match guard, cur with
  | S guard', Some t =>
      r ← fs (GetDoc "refreshTokens" t);
      let next := match r with Ok (Some f) => field_str f "replacedBy" | _ => None end in
      _ ← fs (DeleteDoc "refreshTokens" t);
      fss_revoke_loop guard' next
  | _, _ => mret tt
  end.
Definition fss_revoke_refresh_family (start_token : string) : prog sysE unit :=
  fss_revoke_loop FAMILY_GUARD (Some start_token).
Definition fss_revoke_refresh_token (token : string) : prog sysE unit :=
  ignore_result (fs (DeleteDoc "refreshTokens" token)).

(** The claims of an account: what was verified, then the editable profile. *)
Definition account_claims (sub : string) (email : option string) (saved : gmap string string) :
    gmap string Value :=
  (Str <$> saved) ∪
  match email with
  | Some e => <["email_verified" := Bool true]> (<["email" := Str e]> (<["sub" := Str sub]> ∅))
  | None => <["sub" := Str sub]> ∅
  end.
Definition fss_find_account (sub : string) : prog sysE Account :=
  saved ← get_profile sub;
  email ← find_email_by_account_id sub;
  mret (mkAccount sub (account_claims sub (result_ok email ≫= id) (default ∅ (result_ok saved)))).

(** [impl Store for FirestoreStore]. *)
Definition firestore_store_op X (o : storeE X) : prog sysE X :=
  match o in storeE X return prog sysE X with
  | SaveInteraction i => fss_save_interaction i
  | GetInteraction uid => fss_get_interaction uid
  | ConsumeInteraction uid => fss_consume_interaction uid
  | SaveSession se => fss_save_session se
  | GetSession sid => fss_get_session sid
  | DeleteSession sid => fss_delete_session sid
  | SaveCode c => fss_save_code c
  | TakeCode c => fss_take_code c
  | LinkIssuedTokens c a r => fss_link_issued_tokens c a r
  | SaveAccessToken t => fss_save_access_token t
  | GetAccessToken t => fss_get_access_token t
  | RevokeAccessToken t => fss_revoke_access_token t
  | ConsumeMandateIfUnused t => fss_consume_mandate_if_unused t
  | SaveRefreshToken t => fss_save_refresh_token t
  | GetRefreshToken t => fss_get_refresh_token t
  | RevokeRefreshToken t => fss_revoke_refresh_token t
  | MarkRefreshUsed t r => fss_mark_refresh_used t r
  | RevokeRefreshFamily t => fss_revoke_refresh_family t
  | FindAccount sub => fss_find_account sub
  end.

(** * Properties *)

(** ** Reading back documents *)

Lemma set_field_object k x f : is_object f -> is_object (set_field f k x).
Proof. intros [m ->]. by eexists. Qed.
Lemma set_opt_object k v f : is_object f -> is_object (set_opt k v f).
Proof. destruct v; [apply set_field_object | done]. Qed.
Lemma object_object m : is_object (Object m).
Proof. by eexists. Qed.
#[export] Hint Resolve set_field_object set_opt_object object_object : oidc.

Lemma get_set_opt_ne k k' v f : k <> k' -> get (set_opt k v f) k' = get f k'.
Proof. intros Hne. destruct v; [by apply get_set_field_ne | done]. Qed.
Lemma get_set_opt_eq k v f : is_object f -> get f k = None -> get (set_opt k v f) k = v.
Proof. intros [m ->] Hk. destruct v; [|done]. apply get_set_field_eq. eauto. Qed.
Lemma get_set_field_same k x f : is_object f -> get (set_field f k x) k = Some x.
Proof. intros [m ->]. apply get_set_field_eq. eauto. Qed.

(** Reads the fields of a document built by [set_opt] and [set_field]. *)
Ltac read_step :=
  match goal with
  | |- context [get (set_opt ?k ?v ?f) ?k'] =>
      first [ rewrite (get_set_opt_ne k k' v f) by discriminate
            | rewrite (get_set_opt_eq k v f) by
                (first [solve [eauto 10 with oidc] | solve [repeat read_step; reflexivity]]) ]
  | |- context [get (set_field ?f ?k ?x) ?k'] =>
      first [ rewrite (get_set_field_ne f k k' x) by discriminate
            | rewrite (get_set_field_same k x f) by eauto 10 with oidc ]
  | |- context [get (Object _) _] => cbn [get assoc]
  | |- context [decide (?a = ?b)] =>
      first [ rewrite (decide_True (P := a = b)) by reflexivity
            | rewrite (decide_False (P := a = b)) by discriminate ]
  end.

Lemma as_str_fs_s v : (get (fs_s v) "stringValue" ≫= as_str) = Some v.
Proof. done. Qed.
Lemma opt_str_fs v : (v' ← fs_s <$> v; w ← get v' "stringValue"; as_str w) = v.
Proof. by destruct v. Qed.
Lemma u64_fs z : in_u64 z -> (w ← get (fs_int z) "integerValue"; t ← as_str w; parse_u64 t) = Some z.
Proof. intros Hz. cbn [fs_int get assoc]. rewrite decide_True by done. cbn [mbind option_bind as_str].
  by apply parse_u64_to_string. Qed.
Lemma opt_u64_fs v :
  (forall z, v = Some z -> in_u64 z) ->
  (v' ← fs_int <$> v; w ← get v' "integerValue"; t ← as_str w; parse_u64 t) = v.
Proof. destruct v as [z|]; intros Hz; [|done]. cbn [fmap option_fmap option_map mbind option_bind]. by rewrite u64_fs by auto. Qed.
Lemma ts_fs t :
  0 <= t < 253402300800 ->
  (w ← get (fs_ts (rfc3339 t)) "timestampValue"; s ← as_str w; Some (parse_rfc3339_secs s)) = Some t.
Proof. intros Ht. cbn [fs_ts get assoc]. rewrite decide_True by done. cbn [mbind option_bind as_str].
  by rewrite rfc3339_reads_back. Qed.

(** The value of one field of a document. *)
Ltac read_field :=
  unfold field_string, nonempty_field, field_str, field_u64, field_bool, field_ts_secs;
  repeat read_step;
  first [ reflexivity | rewrite opt_str_fs; reflexivity | rewrite opt_u64_fs by assumption; reflexivity
        
        | change (Some ?x ≫= ?f) with (f x); cbv beta; rewrite u64_fs by assumption; reflexivity
        | change (Some ?x ≫= ?f) with (f x); cbv beta; rewrite ts_fs by assumption; reflexivity | idtac ].

Definition u64_opt (o : option Z) : Prop := forall z, o = Some z -> in_u64 z.
Definition second_ok (t : Z) : Prop := 0 <= t < 253402300800.

Lemma interaction_read now i :
  u64_opt (in_auth_time i) -> interaction_of_doc (in_uid i) (interaction_doc now i) = i.
Proof.
  intros Ht. destruct i as [u q a t r]. unfold interaction_of_doc, interaction_doc.
  cbn [in_uid in_raw_query in_account_id in_auth_time in_request_uri] in *. f_equal; read_field.
Qed.
Lemma session_read now se :
  in_u64 (se_auth_time se) -> session_of_doc (se_sid se) (session_doc now se) = se.
Proof.
  intros Ht. destruct se as [i a t]. unfold session_of_doc, session_doc.
  cbn [se_sid se_account_id se_auth_time] in *. f_equal; read_field.
Qed.
Lemma code_read c :
  in_u64 (ac_auth_time c) -> second_ok (ac_expires_at c) -> code_of_doc (ac_code c) (code_doc c) = c.
Proof.
  intros Ht He. destruct c as [co cl acc ru sc no cc cm t acr jkt res ex]. unfold code_of_doc, code_doc.
  cbn [ac_code ac_client_id ac_account_id ac_redirect_uri ac_scope ac_nonce ac_code_challenge
    ac_code_challenge_method ac_auth_time ac_acr ac_dpop_jkt ac_resource ac_expires_at] in *.
  f_equal; read_field.
Qed.
Lemma access_read now t :
  u64_opt (at_auth_time t) -> at_authorization_details t <> Some "" ->
  access_of_doc (at_token t) (access_doc now t) = t.
Proof.
  intros Ht Hd. destruct t as [tok cl acc sc jkt aud acr t ad mc]. unfold access_of_doc, access_doc.
  cbn [at_token at_client_id at_account_id at_scope at_jkt at_aud at_acr at_auth_time
    at_authorization_details at_mandate_consumed] in *.
  f_equal; read_field.
  - rewrite opt_str_fs. destruct ad as [[|? ?]|]; done.
  - by destruct mc.
Qed.
Lemma refresh_read now t :
  u64_opt (rt_auth_time t) -> rt_from_fields (rt_token t) (refresh_doc now t) = t.
Proof.
  intros Ht. destruct t as [tok cl acc sc res jkt acr t fam used rb]. unfold rt_from_fields, refresh_doc.
  cbn [rt_token rt_client_id rt_account_id rt_scope rt_resource rt_jkt rt_acr rt_auth_time rt_family_id
    rt_used rt_replaced_by] in *.
  f_equal; read_field.
Qed.

Lemma doc_expired_at now' f t :
  get f "expiresAt" = Some (fs_ts (rfc3339 t)) -> second_ok t -> doc_expired now' f = (t <? now').
Proof.
  intros Hf Ht. unfold doc_expired, field_ts_secs. rewrite Hf.
  change (Some ?x ≫= ?f) with (f x). cbv beta. by rewrite ts_fs.
Qed.

(** A record written as a Firestore document is read back exactly as it was, and
    its document counts as expired exactly after the retention limit that the
    in-memory store uses (the limit itself still counts as alive). *)
Theorem firestore_records_read_back now now' i se c t r :
  second_ok now -> second_ok (now + REFRESH_TTL_SECS) ->
  u64_opt (in_auth_time i) -> in_u64 (se_auth_time se) -> in_u64 (ac_auth_time c) ->
  second_ok (ac_expires_at c) -> u64_opt (at_auth_time t) -> at_authorization_details t <> Some "" ->
  u64_opt (rt_auth_time r) ->
  interaction_of_doc (in_uid i) (interaction_doc now i) = i /\
  session_of_doc (se_sid se) (session_doc now se) = se /\
  code_of_doc (ac_code c) (code_doc c) = c /\
  access_of_doc (at_token t) (access_doc now t) = t /\
  rt_from_fields (rt_token r) (refresh_doc now r) = r /\
  doc_expired now' (interaction_doc now i) = (now + INTERACTION_TTL_SECS <? now') /\
  doc_expired now' (session_doc now se) = (now + SESSION_TTL_SECS <? now') /\
  doc_expired now' (access_doc now t) = (now + ACCESS_TTL_SECS <? now') /\
  doc_expired now' (refresh_doc now r) = (now + REFRESH_TTL_SECS <? now').
Proof.
  intros Hn Hr Hi Hs Hc Hce Ht Htd Hrt.
  split; [by apply interaction_read|]. split; [by apply session_read|]. split; [by apply code_read|].
  split; [by apply access_read|]. split; [by apply refresh_read|].
  unfold second_ok, REFRESH_TTL_SECS in Hn, Hr.
  assert (Hlim : forall ttl, 0 <= ttl <= 14 * 24 * 3600 -> second_ok (now + ttl))
    by (unfold second_ok; lia).
  split; [|split; [|split]]; (apply doc_expired_at; [|apply Hlim; by vm_compute]).
  - unfold interaction_doc. repeat read_step. reflexivity.
  - unfold session_doc. repeat read_step. reflexivity.
  - unfold access_doc. repeat read_step. reflexivity.
  - unfold refresh_doc. repeat read_step. reflexivity.
Qed.

Definition sample_doc_code : AuthorizationCode :=
  mkAuthorizationCode "code" "rp" "u1" "https://rp.example/cb" "openid" (Some "n") (Some "ch")
    (Some "S256") 1000 None None (Some "https://rs.example") 1060.
Definition sample_doc_access : AccessToken :=
  mkAccessToken "at" "rp" "u1" "openid" (Some "jkt") None None (Some 1000) (Some "[]") true.
Definition sample_doc_refresh : RefreshToken :=
  mkRefreshToken "rt" "rp" "u1" "openid" None (Some "jkt") None (Some 1000) "fam" true (Some "rt2").
Lemma firestore_records_read_back_witness :
  code_of_doc "code" (code_doc sample_doc_code) = sample_doc_code /\
  access_of_doc "at" (access_doc 1000 sample_doc_access) = sample_doc_access /\
  doc_expired 1900 (access_doc 1000 sample_doc_access) = false.
Proof.
  assert (Hu : in_u64 1000) by (unfold in_u64, u64_max; lia).
  assert (Ho : u64_opt (Some 1000)) by (intros z [= <-]; exact Hu).
  assert (Hs : second_ok 1000 /\ second_ok (1000 + REFRESH_TTL_SECS) /\ second_ok 1060)
    by (unfold second_ok, REFRESH_TTL_SECS; lia).
  destruct Hs as (Hs1 & Hs2 & Hs3).
  destruct (firestore_records_read_back 1000 1900 (mkInteraction "u" "q" None (Some 1000) None)
    (mkSession "sid" "u1" 1000) sample_doc_code sample_doc_access sample_doc_refresh
    Hs1 Hs2 Ho Hu Hu Hs3 Ho ltac:(discriminate) Ho) as (_ & _ & H1 & H2 & _ & _ & _ & H3 & _).
  split; [exact H1 | split; [exact H2 | exact H3]].
Defined.

(** Whatever the profile document holds, only editable names are read from it. *)
Lemma profile_fold_editable fields l (m : gmap string string) :
  (forall k, is_Some (m !! k) -> k ∈ EDITABLE) -> (forall k, k ∈ l -> k ∈ EDITABLE) ->
  forall k, is_Some (foldl (fun out k => match field_str fields k with Some v => <[k := v]> out | None => out end)
    m l !! k) -> k ∈ EDITABLE.
Proof.
  revert m. induction l as [|x l IH]; intros m Hm Hl k; simpl; [apply Hm|].
  apply IH; [|intros ? ?; apply Hl; by right].
  intros k' Hk'. destruct (field_str fields x) as [v|]; [|by apply Hm].
  destruct (decide (x = k')) as [<-|Hne]; [apply Hl; left|].
  rewrite lookup_insert_ne in Hk' by done. by apply Hm.
Qed.
Lemma get_profile_editable {S} (h : handler sysE S) email w m w' k :
  run h (get_profile email) w = (Ok m, w') -> is_Some (m !! k) -> k ∈ EDITABLE.
Proof.
  unfold get_profile. rewrite run_try_bind. destruct (run h _ w) as [[[fields|]|e] w1]; simpl; [| |done].
  - intros [= <- <-]. apply profile_fold_editable; [|done]. intros k'. rewrite lookup_empty. by intros [].
  - intros [= <- <-]. rewrite lookup_empty. by intros [].
Qed.

(** An account takes its subject, its e-mail address and the verification of it
    only from the account's own identifier and the verified registration, never from
    the profile document the user can edit. *)
Theorem profile_cannot_forge_identity {S} (h : handler sysE S) sub w k :
  k = "sub" \/ k = "email" \/ k = "email_verified" ->
  let w1 := (run h (get_profile sub) w).2 in
  let '(email, w2) := run h (find_email_by_account_id sub) w1 in
  let '(acct, w3) := run h (fss_find_account sub) w in
  w3 = w2 /\ acct_sub acct = sub /\
  acct_claims acct !! k = account_claims sub (result_ok email ≫= id) ∅ !! k.
Proof.
  intros Hk. unfold fss_find_account. rewrite run_bind.
  destruct (run h (get_profile sub) w) as [saved w1] eqn:Hp. cbn [fst snd]. rewrite run_bind.
  destruct (run h (find_email_by_account_id sub) w1) as [email w2]. cbn [run mret prog_ret acct_sub acct_claims].
  split; [done|]. split; [done|]. unfold account_claims. rewrite fmap_empty, (left_id_L ∅ (∪)).
  apply lookup_union_r. rewrite lookup_fmap. apply fmap_None.
  destruct saved as [m|]; [|done]. simpl. destruct (m !! k) as [v|] eqn:Hm; [|done]. exfalso.
  pose proof (get_profile_editable h sub w m w1 k Hp ltac:(eauto)) as He. revert He.
  destruct Hk as [->|[->| ->]]; apply (bool_decide_unpack _); by vm_compute.
Qed.

Lemma profile_cannot_forge_identity_witness :
  let h := @sys_handler no_database (sample_externals []) in
  let w := @mkSysWorld no_database 0 0 0 tt in
  let w1 := (run h (get_profile "u1") w).2 in
  let '(email, w2) := run h (find_email_by_account_id "u1") w1 in
  let '(acct, w3) := run h (fss_find_account "u1") w in
  w3 = w2 /\ acct_sub acct = "u1" /\
  acct_claims acct !! "email" = account_claims "u1" (result_ok email ≫= id) ∅ !! "email".
Proof. intros h w. apply (profile_cannot_forge_identity h "u1" w "email"). auto. Defined.
