(* ===== verification/Refinement.v ===== *)
(** * The stores on Firestore refine the in-memory ones

    [FirestoreCibaStore] and [FirestoreStore] over any database that keeps the contract
    of [DocStore], against [MemoryCibaStore] and [MemoryStore]: the documents stand for
    the records of the in-memory store, and every operation that the database answers
    does to them what the in-memory store does. *)

From S2P Require Import Prelude Prog Json Calendar Firestore Externals Sys DocStore DocTable CasFacts Ciba CibaFacts.
From S2P Require Import Model Store StoreFacts FirestoreStore.

#[local] Open Scope Z_scope.

(** ** One database operation *)

Section operation.
Context `{Externals} {B : FsBackend}.

Definition clock (w : sys_world) : Z := secs_of (sw_clk w).
Definition with_db (w : sys_world) (db : fs_db) : sys_world := mkSysWorld (sw_clk w) (sw_uuid w) (sw_rand w) db.
Lemma run_fs {X A} (o : fsE X) (k : X -> prog sysE A) w :
  run sys_handler (fs o ≫= k) w =
    run sys_handler (k (fs_handle _ o (sw_db w)).1) (with_db w (fs_handle _ o (sw_db w)).2).
Proof. unfold fs. rewrite run_bind, run_trigger. cbn [sys_handler]. by destruct (fs_handle X o (sw_db w)). Qed.
End operation.

(** ** The back-channel store *)

Section refinement.
Context `{Externals} (B : FsBackend) `{!DocDb B}.

(** A request that a document holds exactly, under an identifier without slash. *)
Definition storable (id : string) (r : BackchannelAuthRequest) : Prop :=
  br_auth_req_id r = id /\ str_contains "/"%char id = false /\
  0 <= br_expires_at r < 253402300800 /\ br_authorization_details r <> Some "".

(** The abstraction: what the documents of the collection say. *)
Definition requests_of (db : fs_db) (m : MemoryCibaStore) : Prop :=
  (forall id, (fun d => br_from_fields id d.1) <$> doc_at db CIBA_COL id = mc_map m !! id) /\
  map_Forall storable (mc_map m).

(** The operations on requests; histories and sweeps have other keys. *)
Definition on_requests {X} (o : cibaE X) : bool :=
  match o with RecordHistory _ | ListHistory _ _ | CibaSweepExpired _ => false | _ => true end.
(** An answer of the database, and its agreement with an answer of the memory store:
    a listing has no order. *)
Definition answered {X} (o : cibaE X) (x : X) : Prop :=
  match o in cibaE X return X -> Prop with
  | CibaCreate _ _ _ _ _ => fun r => is_ok r = true
  | CibaGet _ => fun r => is_ok r = true
  | TransitionIfPending _ _ => fun r => is_ok r = true
  | ConsumeIfApproved _ => fun r => is_ok r = true
  | CibaDelete _ => fun r => is_ok r = true
  | ListPending _ => fun r => is_ok r = true
  | RecordHistory _ => fun r => is_ok r = true
  | ListHistory _ _ => fun r => is_ok r = true
  | CibaSweepExpired _ => fun r => is_ok r = true
  end x.
Definition agree {X} (o : cibaE X) (x y : X) : Prop :=
  match o in cibaE X return X -> X -> Prop with
  | ListPending _ => fun x y => match x, y with Ok l, Ok l' => l ≡ₚ l' | _, _ => x = y end
  | _ => fun x y => x = y
  end x y.
(** What a creation needs: an identifier without slash, an expiry before the year
    10000, and no empty [authorization_details]; a listing is of some account. *)
Definition creatable {X} (o : cibaE X) (w : sys_world) : Prop :=
  match o with
  | CibaCreate _ _ _ _ ad =>
      str_contains "/"%char (uuid_v4 (sw_uuid w)) = false /\
      0 <= secs_of (sw_clk w) + CIBA_TTL_SECS < 253402300800 /\ ad <> Some ""
  | ListPending account => account <> ""
  | _ => True
  end.

Lemma requests_lookup db m id f v :
  requests_of db m -> doc_at db CIBA_COL id = Some (f, v) -> mc_map m !! id = Some (br_from_fields id f).
Proof. intros [Hr _] Hd. by rewrite <- Hr, Hd. Qed.
Lemma requests_none db m id : requests_of db m -> doc_at db CIBA_COL id = None -> mc_map m !! id = None.
Proof. intros [Hr _] Hd. by rewrite <- Hr, Hd. Qed.
Lemma requests_unchanged db db' m : unchanged doc_at seen db db' -> requests_of db m -> requests_of db' m.
Proof. intros [Hd _] [Hr Hs]. split; [|done]. intros id. by rewrite Hd. Qed.

Lemma requests_put db db' m id r h :
  put doc_at seen CIBA_COL id (br_fields r) db db' -> storable id r -> requests_of db m ->
  requests_of db' (mkMemoryCibaStore (<[id := r]> (mc_map m)) h).
Proof.
  intros [[Hf _] (v & _ & Hd)] Hst [Hr Hs]. split.
  - intros id'. simpl. destruct (decide (id' = id)) as [->|Hne].
    + rewrite Hd, lookup_insert_eq. simpl. f_equal. destruct Hst as (<- & _ & He & Ha). by apply ciba_request_round_trip.
    + rewrite lookup_insert_ne by done. rewrite Hf by congruence. apply Hr.
  - by apply map_Forall_insert_2.
Qed.
Lemma requests_removed db db' m id h :
  removed doc_at seen CIBA_COL id db db' -> requests_of db m ->
  requests_of db' (mkMemoryCibaStore (delete id (mc_map m)) h).
Proof.
  intros [[Hf _] Hd] [Hr Hs]. split.
  - intros id'. simpl. destruct (decide (id' = id)) as [->|Hne].
    + by rewrite Hd, lookup_delete_eq.
    + rewrite lookup_delete_ne by done. rewrite Hf by congruence. apply Hr.
  - simpl. by apply map_Forall_delete.
Qed.
Lemma requests_plain db m : requests_of db m -> plain_ids doc_at db CIBA_COL.
Proof.
  intros [Hr Hs] i [[f v] Hd]. specialize (Hr i). rewrite Hd in Hr. simpl in Hr. symmetry in Hr.
  by apply (Hs _ _ Hr).
Qed.

(** *** The operations *)

Definition simulated {X} (o : cibaE X) (w : sys_world) (m : MemoryCibaStore) : Prop :=
  forall x w', run sys_handler (firestore_ciba_op X o) w = (x, w') -> answered o x ->
  let '(y, m') := mem_ciba_op (clock w) (uuid_v4 (sw_uuid w)) o m in
  agree o x y /\ requests_of (sw_db w') m' /\ db_ok (sw_db w').

Section op.
Context (w : sys_world) (m : MemoryCibaStore) (Hdb : db_ok (sw_db w)) (Hrel : requests_of (sw_db w) m).

Ltac fs_step Hl :=
  match goal with
  | |- context [fs_handle ?X ?o ?db] =>
      let x := fresh "x" in let db' := fresh "db" in let E := fresh "E" in
      destruct (fs_handle X o db) as [x db'] eqn:E; cbn [fst snd];
      let Hok := fresh "Hok" in
      match goal with
      | Hd : db_ok db |- _ => destruct (doc_law X o db x db' Hd eq_refl E) as [Hok Hl]; cbn [doc_step] in Hl
      end
  end.

Lemma sim_get id : simulated (CibaGet id) w m.
Proof.
  intros x w'. cbn [firestore_ciba_op mem_ciba_op]. unfold fsc_get, try_bind. rewrite run_fs. fs_step Hl.
  destruct Hl as [Hu Hr]. destruct x0 as [d|e]; cbn [run]; intros [= <- <-] Ha; [|done].
  split; [|split; [by eapply requests_unchanged | done]]. simpl. rewrite (Hr d eq_refl).
  destruct Hrel as [Hq _]. rewrite <- Hq. by destruct (doc_at (sw_db w) CIBA_COL id) as [[f v]|].
Qed.

Lemma sim_delete id : simulated (CibaDelete id) w m.
Proof.
  intros x w'. cbn [firestore_ciba_op mem_ciba_op]. unfold fsc_delete. cbn [run fs trigger sys_handler].
  fs_step Hl. intros [= <- <-] Ha. destruct x0 as [[]|e]; [|done]. split; [done|].
  split; [|done]. by eapply requests_removed.
Qed.
Lemma sim_transition id st : simulated (TransitionIfPending id st) w m.
Proof.
  intros x w'. cbn [firestore_ciba_op mem_ciba_op]. unfold fsc_transition, try_bind. rewrite run_fs. fs_step Hl.
  destruct Hl as [Hu Hr]. destruct x0 as [[[f v]|]|e]; [..|by intros [= <- <-] ?].
  - specialize (Hr _ eq_refl). symmetry in Hr. pose proof (requests_lookup _ _ _ _ _ Hrel Hr) as Hm.
    unfold ciba_transition. rewrite Hm. case_bool_decide as Hp; cbn [negb].
    + cbn [run fs trigger sys_handler with_db sw_db sw_clk sw_uuid sw_rand]. fs_step Hc.
      intros [= <- <-] Ha. destruct x0 as [[]|e]; [..|done]; simpl in Hc.
      * destruct Hc as [_ Hput]. split; [done|]. split; [|done].
        eapply requests_put; [exact Hput | | by eapply requests_unchanged].
        destruct Hrel as [_ Hs]. exact (Hs _ _ Hm).
      * destruct Hc as [Hn _]. destruct Hn. exists f. by rewrite (proj1 Hu).
    + intros [= <- <-] Ha. split; [done|]. split; [by eapply requests_unchanged | done].
  - specialize (Hr _ eq_refl). symmetry in Hr. intros [= <- <-] Ha. unfold ciba_transition.
    rewrite (requests_none _ _ _ Hrel Hr). split; [done|]. split; [by eapply requests_unchanged | done].
Qed.

Lemma sim_consume id : simulated (ConsumeIfApproved id) w m.
Proof.
  intros x w'. cbn [firestore_ciba_op mem_ciba_op]. unfold fsc_consume, try_bind. rewrite run_fs. fs_step Hl.
  destruct Hl as [Hu Hr]. destruct x0 as [[[f v]|]|e]; [..|by intros [= <- <-] ?].
  - specialize (Hr _ eq_refl). symmetry in Hr. pose proof (requests_lookup _ _ _ _ _ Hrel Hr) as Hm.
    unfold ciba_consume. rewrite Hm. case_bool_decide as Hp; cbn [negb].
    + rewrite run_fs. cbn [with_db sw_db sw_clk sw_uuid sw_rand]. fs_step Hc.
      destruct x0 as [[]|e]; [..|by intros [= <- <-] ?]; simpl in Hc; intros [= <- <-] Ha.
      * destruct Hc as [_ Hrem]. split; [done|]. split; [|done].
        eapply requests_removed; [exact Hrem | by eapply requests_unchanged].
      * destruct Hc as [Hn _]. destruct Hn. exists f. by rewrite (proj1 Hu).
    + intros [= <- <-] Ha. split; [done|]. split; [by eapply requests_unchanged | done].
  - specialize (Hr _ eq_refl). symmetry in Hr. intros [= <- <-] Ha. unfold ciba_consume.
    rewrite (requests_none _ _ _ Hrel Hr). split; [done|]. split; [by eapply requests_unchanged | done].
Qed.

Lemma sim_create cl ac sc bm ad :
  creatable (CibaCreate cl ac sc bm ad) w -> simulated (CibaCreate cl ac sc bm ad) w m.
Proof.
  intros (Hsl & Hex & Had) x w'. cbn [firestore_ciba_op mem_ciba_op]. unfold fsc_create, opaque, now_secs.
  rewrite run_bind, run_trigger. cbn [sys_handler]. rewrite run_bind, run_trigger. cbn [sys_handler].
  unfold try_bind. rewrite run_fs. cbn [sw_clk sw_uuid sw_rand sw_db]. fs_step Hl.
  destruct x0 as [[]|e]; [|by intros [= <- <-] ?]. intros [= <- <-] Ha. split; [done|]. split; [|done].
  simpl in Hl. eapply requests_put; [exact Hl | exact (conj eq_refl (conj Hsl (conj Hex Had))) | done].
Qed.
(** The rows of a query, with the requests they hold. *)
Definition live (t : Z) (r : BackchannelAuthRequest) : bool :=
  bool_decide (br_status r = Pending) && negb (br_expired t r).
Lemma run_live_rows rows w0 :
  run sys_handler (fsc_live_rows rows) w0 =
    (List.filter (live (clock w0)) (map (fun row => br_from_fields row.1 row.2) rows), w0).
Proof.
  induction rows as [|[id f] rows IH]; [done|]. cbn [fsc_live_rows map List.filter fst snd].
  unfold live at 1. destruct (bool_decide (_ = Pending)); [|exact IH].
  unfold now_secs. rewrite run_bind, run_trigger. cbn [sys_handler]. rewrite run_bind, IH.
  cbn [run mret prog_ret andb]. by destruct (br_expired _ _).
Qed.

Lemma requests_NoDup : NoDup (ciba_values m).
Proof.
  unfold ciba_values. apply NoDup_fmap_2_strong; [|apply NoDup_map_to_list].
  intros [i r] [j r'] Hi Hj. simpl. intros <-. apply elem_of_map_to_list in Hi, Hj. destruct Hrel as [_ Hs].
  destruct (Hs _ _ Hi) as [<- _]. destruct (Hs _ _ Hj) as [<- _]. done.
Qed.

Lemma row_account id f account :
  account <> "" -> br_account (br_from_fields id f) = account <-> field_str f "account" = Some account.
Proof.
  intros Hne. cbn [br_from_fields br_account]. unfold str_or_empty. destruct (field_str f "account"); simpl.
  - split; congruence.
  - split; [by intros <- | done].
Qed.

Lemma sim_list account : creatable (ListPending account) w -> simulated (ListPending account) w m.
Proof.
  intros Hne x w'. cbn [firestore_ciba_op mem_ciba_op]. unfold fsc_list_pending, try_bind. rewrite run_fs. fs_step Hl.
  destruct Hl as [Hu Hr]. destruct x0 as [rows|e]; [|by intros [= <- <-] ?].
  rewrite run_bind, run_live_rows. cbn [run mret prog_ret]. intros [= <- <-] _.
  split; [|split; [by eapply requests_unchanged | done]]. cbn [agree].
  destruct (Hr rows eq_refl (requests_plain _ _ Hrel)) as [Hnd Hrows]. clear Hr.
  apply NoDup_Permutation.
  - apply NoDup_ListNoDup, List.NoDup_filter, NoDup_ListNoDup.
    apply (NoDup_fmap_1 br_auth_req_id). by rewrite <- list_fmap_compose.
  - apply NoDup_ListNoDup, List.NoDup_filter, NoDup_ListNoDup, requests_NoDup.
  - intros r. rewrite !list_elem_of_In, !filter_In, <- !list_elem_of_In. rewrite list_elem_of_fmap.
    unfold ciba_values. rewrite list_elem_of_fmap. split.
    + intros [([id f] & -> & Hin) Hlive]. apply Hrows in Hin as [Hacc [v Hd]].
      split; [exists (id, br_from_fields id f); split; [done|]; apply elem_of_map_to_list; by eapply requests_lookup|].
      apply (row_account id f account Hne) in Hacc. unfold pending_of. cbn [fst snd] in *. rewrite Hacc.
      rewrite bool_decide_eq_true_2 by done. exact Hlive.
    + intros [([id r'] & -> & Hin) Hlive]. apply elem_of_map_to_list in Hin. cbn [snd] in *.
      pose proof (proj1 Hrel id) as Hd. rewrite Hin in Hd.
      destruct (doc_at (sw_db w) CIBA_COL id) as [[f v]|] eqn:Hdoc; [|done]. injection Hd as <-.
      unfold pending_of in Hlive. apply andb_prop in Hlive as [[Ha%bool_decide_eq_true Hp]%andb_prop Hx].
      split; [|unfold live; by rewrite Hp].
      exists (id, f). split; [done|]. apply Hrows. split; [by apply (row_account id f account Hne) | eauto].
Qed.
End op.

End refinement.

(** C12: on back-channel requests the Firestore store stands in for the in-memory store.
    Over any database that keeps its contract, each of the six operations on requests
    (create, get, decide while pending, consume when approved, delete, list what is
    pending), when the database answers it without an error, gives the answer of the
    in-memory store, a listing up to its order, and leaves the requests that the in-memory
    store leaves.  A request is created under an identifier without a slash, with an expiry
    before the year 10000 and without empty details, and a listing is of a named account.
    The history of requests and the sweep of an account are not compared. *)
Theorem firestore_ciba_refines `{Externals} (B : FsBackend) `{!DocDb B} X (o : cibaE X) w m x w' :
  db_ok (sw_db w) -> requests_of B (sw_db w) m -> on_requests o = true -> creatable B o w ->
  run sys_handler (firestore_ciba_op X o) w = (x, w') -> answered o x ->
  exists y m', mem_ciba_op (secs_of (sw_clk w)) (uuid_v4 (sw_uuid w)) o m = (y, m') /\
    agree o x y /\ requests_of B (sw_db w') m' /\ db_ok (sw_db w').
Proof.
  intros Hdb Hrel Hon Hc Hrun Ha.
  assert (Hs : simulated B o w m).
  { destruct o; try done; [by apply sim_create | by apply sim_get | by apply sim_transition | by apply sim_consume
      | by apply sim_delete | by apply sim_list]. }
  specialize (Hs x w' Hrun Ha). unfold clock in Hs. destruct (mem_ciba_op _ _ o m) as [y m']. eauto.
Qed.

(** ** The store of the server *)

Section store_refinement.
Context `{Externals} (B : FsBackend) `{!DocDb B}.

(** *** The records in the documents *)

(** The second up to which a document lives, and the entry a document stands for. *)
Definition until (f : Value) : Z := default 0 (field_ts_secs f "expiresAt").
Definition entry_of {T} (of_doc : string -> Value -> T) (id : string) (f : Value) : Expiring T :=
  mkExpiring (of_doc id f) (until f).
Definition holds {T} (of_doc : string -> Value -> T) (db : fs_db) (col : string) (m : gmap string (Expiring T)) : Prop :=
  forall id, (fun d => entry_of of_doc id d.1) <$> doc_at db col id = m !! id.

(** The token a code was linked to.  A replay takes it out of the record in memory,
    while the document keeps naming the token that is gone. *)
Definition link_held {T} (f : Value) (k : string) (issued : option string) (tokens : gmap string T) : Prop :=
  field_str f k = issued \/ issued = None /\ forall t, field_str f k = Some t -> tokens !! t = None.
Definition code_held (s : MemoryStore) (id : string) (d : Value * string) (e : Expiring CodeRecord) : Prop :=
  ex_expires_at e = until d.1 /\ cr_code (ex_value e) = code_of_doc id d.1 /\
  cr_used (ex_value e) = default false (field_bool d.1 "used") /\
  link_held d.1 "issuedAccessToken" (cr_issued_access (ex_value e)) (ms_access_tokens s) /\
  link_held d.1 "issuedRefreshToken" (cr_issued_refresh (ex_value e)) (ms_refresh_tokens s).
Definition codes_held (db : fs_db) (s : MemoryStore) : Prop :=
  forall id, option_Forall2 (code_held s id) (doc_at db "authCodes" id) (ms_codes s !! id).

Definition documents_of (db : fs_db) (s : MemoryStore) : Prop :=
  holds interaction_of_doc db "interactions" (ms_interactions s) /\
  holds session_of_doc db "sessions" (ms_sessions s) /\
  codes_held db s /\
  holds access_of_doc db "accessTokens" (ms_access_tokens s) /\
  holds rt_from_fields db "refreshTokens" (ms_refresh_tokens s).

(** The documents stand for a store with the same live entries. *)
Definition represents (now : Z) (db : fs_db) (s : MemoryStore) : Prop :=
  exists s0, documents_of db s0 /\ live_eq now s0 s.

(** *** What an operation needs *)

Definition where_doc (db : fs_db) (col id : string) (P : Value -> Prop) : Prop :=
  forall f v, doc_at db col id = Some (f, v) -> P f.
(** Not in the second of its expiry, in which a record is alive on Firestore only. *)
Definition settled (now : Z) (f : Value) : Prop := until f <> now.
Definition current (now : Z) (f : Value) : Prop := now < until f.
(** The tokens of a series are current, or gone on both sides. *)
Fixpoint series_current (now : Z) (db : fs_db) (m : gmap string (Expiring RefreshToken))
    (guard : nat) (cur : option string) : Prop :=
  match guard, cur with
  | S guard', Some t =>
      match doc_at db "refreshTokens" t with
      | Some (f, _) => current now f /\ series_current now db m guard' (field_str f "replacedBy")
      | None => m !! t = None
      end
  | _, _ => True
  end.
Definition unlinked (db : fs_db) (k t : string) : Prop :=
  forall id, where_doc db "authCodes" id (fun f => field_str f k <> Some t).

(** Records that the documents can express; reads outside the second of the expiry; the
    operations that spend or revoke, which on Firestore do not look at the expiry, on
    records that have not expired; tokens linked to a code that exists, once. *)
Definition fits (now : Z) (db : fs_db) (s : MemoryStore) {X} (o : storeE X) : Prop :=
  match o with
  | SaveInteraction i => second_ok (now + INTERACTION_TTL_SECS) /\ u64_opt (in_auth_time i)
  | SaveSession se => second_ok (now + SESSION_TTL_SECS) /\ in_u64 (se_auth_time se)
  | SaveCode c => second_ok (ac_expires_at c) /\ in_u64 (ac_auth_time c)
  | SaveAccessToken t =>
      second_ok (now + ACCESS_TTL_SECS) /\ u64_opt (at_auth_time t) /\ at_authorization_details t <> Some "" /\
      unlinked db "issuedAccessToken" (at_token t)
  | SaveRefreshToken t =>
      second_ok (now + REFRESH_TTL_SECS) /\ u64_opt (rt_auth_time t) /\ unlinked db "issuedRefreshToken" (rt_token t)
  | GetInteraction uid => where_doc db "interactions" uid (settled now)
  | GetSession sid => where_doc db "sessions" sid (settled now)
  | GetAccessToken t => where_doc db "accessTokens" t (settled now)
  | GetRefreshToken t => where_doc db "refreshTokens" t (settled now)
  | ConsumeMandateIfUnused t => where_doc db "accessTokens" t (settled now)
  | ConsumeInteraction uid => where_doc db "interactions" uid (current now)
  | TakeCode c => where_doc db "authCodes" c (current now)
  | LinkIssuedTokens c a r =>
      is_Some (doc_at db "authCodes" c) /\
      (r = None -> where_doc db "authCodes" c (fun f => field_str f "issuedRefreshToken" = None))
  | MarkRefreshUsed t r =>
      where_doc db "refreshTokens" t (fun f => current now f /\ (r = None -> field_str f "replacedBy" = None))
  | RevokeRefreshFamily t => series_current now db (ms_refresh_tokens s) FAMILY_GUARD (Some t)
  | DeleteSession _ | RevokeAccessToken _ | RevokeRefreshToken _ => True
  | FindAccount _ => False
  end.

(** A run in which the database answers every operation. *)
Definition fs_answered {X} (o : fsE X) : X -> Prop :=
  match o in fsE X return X -> Prop with
  | SetDoc _ _ _ => fun r => is_ok r = true
  | UpdateField _ _ _ _ => fun r => is_ok r = true
  | GetDoc _ _ => fun r => is_ok r = true
  | GetDocWithUpdateTime _ _ => fun r => is_ok r = true
  | SetDocIfUnchanged _ _ _ _ => fun r => is_ok r = true
  | CreateIfAbsent _ _ _ => fun r => is_ok r = true
  | DeleteDocIfUnchanged _ _ _ => fun r => is_ok r = true
  | QueryEq _ _ _ => fun r => is_ok r = true
  | ListRecentOrdered _ _ _ => fun r => is_ok r = true
  | ListCollection _ => fun r => is_ok r = true
  | DeleteDoc _ _ => fun r => is_ok r = true
  | MergeDoc _ _ _ => fun r => is_ok r = true
  | AccessSecret _ => fun r => is_ok r = true
  | FcmSend _ => fun r => is_ok r = true
  end.
Definition sys_answered {X} (e : sysE X) : X -> Prop :=
  match e in sysE X return X -> Prop with FsOp o => fs_answered o | _ => fun _ => True end.
Fixpoint served {A} (p : prog sysE A) (w : sys_world) : Prop :=
  match p with
  | Ret _ => True
  | Vis e k => let '(x, w') := sys_handler _ e w in sys_answered e x /\ served (k x) w'
  end.

(** *** One operation of the database *)

Lemma served_fs {X A} (o : fsE X) (k : X -> prog sysE A) w :
  named o = true -> db_ok (sw_db w) -> served (fs o ≫= k) w ->
  exists x db', run sys_handler (fs o ≫= k) w = run sys_handler (k x) (with_db w db') /\
    served (k x) (with_db w db') /\ fs_answered o x /\ db_ok db' /\ doc_step doc_at seen o (sw_db w) x db'.
Proof.
  intros Hn Hdb Hs. rewrite run_fs. cbn [served prog_bind prog_bind_go mbind fs trigger sys_handler sys_answered] in Hs.
  destruct (fs_handle X o (sw_db w)) as [x db'] eqn:E. destruct Hs as [Ha Hs].
  destruct (doc_law X o _ x db' Hdb Hn E). exists x, db'. done.
Qed.

Lemma served_bind {A C} (p : prog sysE A) (f : A -> prog sysE C) w :
  served (p ≫= f) w -> served p w /\ served (f (run sys_handler p w).1) (run sys_handler p w).2.
Proof.
  revert w. induction p as [a | X e k IH]; intros w Hs; [done|]. cbn [served run mbind prog_bind prog_bind_go] in *.
  destruct (sys_handler X e w) as [x w']. destruct Hs as [Ha Hs]. by destruct (IH x w' Hs).
Qed.
Lemma served_now {A} (k : Z -> prog sysE A) w : served (now_secs ≫= k) w -> served (k (clock w)) w.
Proof. by intros [_ Hs]. Qed.
Lemma run_clock {A} (k : Z -> prog sysE A) w : run sys_handler (now_secs ≫= k) w = run sys_handler (k (clock w)) w.
Proof. done. Qed.

(** *** One collection *)

Definition same_docs (col : string) (db db' : fs_db) : Prop := forall id, doc_at db' col id = doc_at db col id.
Lemma unchanged_same db db' col : unchanged doc_at seen db db' -> same_docs col db db'.
Proof. intros [Hd _] id. apply Hd. Qed.
Lemma only_same db db' c i col : only doc_at seen c i db db' -> c <> col -> same_docs col db db'.
Proof. intros [Hd _] Hne id. apply Hd. congruence. Qed.

Lemma holds_same {T} (of_doc : string -> Value -> T) db db' col m :
  same_docs col db db' -> holds of_doc db col m -> holds of_doc db' col m.
Proof. intros Hs Hm id. by rewrite Hs. Qed.
Lemma holds_put {T} (of_doc : string -> Value -> T) db db' col i f m :
  put doc_at seen col i f db db' -> holds of_doc db col m -> holds of_doc db' col (<[i := entry_of of_doc i f]> m).
Proof.
  intros [[Hf _] (v & _ & Hd)] Hm id. destruct (decide (id = i)) as [->|Hne].
  - by rewrite Hd, lookup_insert_eq.
  - rewrite lookup_insert_ne by done. rewrite Hf by congruence. apply Hm.
Qed.
Lemma holds_removed {T} (of_doc : string -> Value -> T) db db' col i m :
  removed doc_at seen col i db db' -> holds of_doc db col m -> holds of_doc db' col (delete i m).
Proof.
  intros [[Hf _] Hd] Hm id. destruct (decide (id = i)) as [->|Hne].
  - by rewrite Hd, lookup_delete_eq.
  - rewrite lookup_delete_ne by done. rewrite Hf by congruence. apply Hm.
Qed.
Lemma holds_Some {T} (of_doc : string -> Value -> T) db col m id f v :
  holds of_doc db col m -> doc_at db col id = Some (f, v) -> m !! id = Some (entry_of of_doc id f).
Proof. intros Hm Hd. by rewrite <- Hm, Hd. Qed.
Lemma holds_None {T} (of_doc : string -> Value -> T) db col m id :
  holds of_doc db col m -> doc_at db col id = None -> m !! id = None.
Proof. intros Hm Hd. by rewrite <- Hm, Hd. Qed.

(** The answers of the codes to a change of the token maps. *)
Definition spares {T} (db : fs_db) (k : string) (m m' : gmap string T) : Prop :=
  forall t, m !! t = None -> m' !! t = None \/ unlinked db k t.
Lemma spares_refl {T} db k (m : gmap string T) : spares db k m m.
Proof. intros t Ht. by left. Qed.
Lemma spares_delete {T} db k i (m : gmap string T) : spares db k m (delete i m).
Proof. intros t Ht. left. apply lookup_delete_None. by right. Qed.
Lemma spares_remove {T} db k i (m : gmap string T) : spares db k m (remove_opt i m).
Proof. destruct i; [apply spares_delete | apply spares_refl]. Qed.
Lemma spares_insert {T} db k i e (m : gmap string T) :
  is_Some (m !! i) \/ unlinked db k i -> spares db k m (<[i := e]> m).
Proof.
  intros Hi t Ht. destruct (decide (t = i)) as [->|Hne].
  - right. destruct Hi as [[x Hx]|Hi]; [congruence | done].
  - left. by rewrite lookup_insert_ne.
Qed.
Lemma link_spared {T} db id f v k issued (m m' : gmap string T) :
  doc_at db "authCodes" id = Some (f, v) -> spares db k m m' -> link_held f k issued m -> link_held f k issued m'.
Proof.
  intros Hd Hs [Hl|[-> Hl]]; [by left|]. right. split; [done|]. intros t Ht.
  destruct (Hs t (Hl t Ht)) as [?|Hu]; [done|]. by destruct (Hu id f v Hd).
Qed.
Lemma codes_spared db db' s s' :
  same_docs "authCodes" db db' -> ms_codes s' = ms_codes s ->
  spares db "issuedAccessToken" (ms_access_tokens s) (ms_access_tokens s') ->
  spares db "issuedRefreshToken" (ms_refresh_tokens s) (ms_refresh_tokens s') ->
  codes_held db s -> codes_held db' s'.
Proof.
  intros Hd Hc Ha Hr Hs id. rewrite Hd, Hc. specialize (Hs id). destruct (doc_at db "authCodes" id) as [[f v]|] eqn:Hdoc.
  - inversion Hs as [? e (He & Hco & Hu & Hla & Hlr) Heq Heq2|]; subst. constructor.
    split; [done|]. split; [done|]. split; [done|]. split; by eapply link_spared.
  - inversion Hs; subst. constructor.
Qed.

(** *** All collections *)

Lemma documents_unchanged db db' s : unchanged doc_at seen db db' -> documents_of db s -> documents_of db' s.
Proof.
  intros Hu (Hi & Hs & Hc & Ha & Hr). pose proof (fun col => unchanged_same db db' col Hu) as Hd.
  split; [by eapply holds_same|]. split; [by eapply holds_same|]. split; [|split; by eapply holds_same].
  eapply codes_spared; [done | done | apply spares_refl..|done].
Qed.
(** The collections that a step leaves alone. *)
Ltac others :=
  lazymatch goal with
  | |- holds _ _ _ _ => eapply holds_same; [eapply only_same; [eassumption | discriminate] | assumption]
  | Hc : codes_held ?db ?s |- codes_held _ _ =>
      eapply (codes_spared db _ s);
        [eapply only_same; [eassumption | discriminate] | reflexivity | first [assumption | apply spares_refl]..|assumption]
  end.
Lemma interactions_step db db' s i m :
  only doc_at seen "interactions" i db db' -> documents_of db s -> holds interaction_of_doc db' "interactions" m ->
  documents_of db' (with_interactions m s).
Proof. intros Ho (Hi & Hs & Hc & Ha & Hr) Hm. split; [exact Hm|]. split; [others|]. split; [others|]. split; others. Qed.
Lemma sessions_step db db' s i m :
  only doc_at seen "sessions" i db db' -> documents_of db s -> holds session_of_doc db' "sessions" m ->
  documents_of db' (with_sessions m s).
Proof. intros Ho (Hi & Hs & Hc & Ha & Hr) Hm. split; [others|]. split; [exact Hm|]. split; [others|]. split; others. Qed.
Lemma codes_step db db' s i m :
  only doc_at seen "authCodes" i db db' -> documents_of db s -> codes_held db' (with_codes m s) ->
  documents_of db' (with_codes m s).
Proof.
  intros Ho (Hi & Hs & Hc & Ha & Hr) Hm. split; [others|]. split; [others|]. split; [exact Hm|]. split; others.
Qed.
Lemma access_step db db' s i m :
  only doc_at seen "accessTokens" i db db' -> documents_of db s -> holds access_of_doc db' "accessTokens" m ->
  spares db "issuedAccessToken" (ms_access_tokens s) m -> documents_of db' (with_access_tokens m s).
Proof.
  intros Ho (Hi & Hs & Hc & Ha & Hr) Hm Hsp. split; [others|]. split; [others|]. split; [others|].
  split; [exact Hm | others].
Qed.
Lemma refresh_step db db' s i m :
  only doc_at seen "refreshTokens" i db db' -> documents_of db s -> holds rt_from_fields db' "refreshTokens" m ->
  spares db "issuedRefreshToken" (ms_refresh_tokens s) m -> documents_of db' (with_refresh_tokens m s).
Proof.
  intros Ho (Hi & Hs & Hc & Ha & Hr) Hm Hsp. split; [others|]. split; [others|]. split; [others|].
  split; [others | exact Hm].
Qed.

(** *** The operations *)

Definition store_simulated {X} (o : storeE X) (w : sys_world) (s : MemoryStore) : Prop :=
  let now := clock w in
  let '(x, w') := run sys_handler (firestore_store_op X o) w in
  x = (mem_op now o s).1 /\ db_ok (sw_db w') /\
  exists s', documents_of (sw_db w') s' /\ live_eq now s' (mem_op now o s).2.

Lemma until_at f t : get f "expiresAt" = Some (fs_ts (rfc3339 t)) -> second_ok t -> until f = t.
Proof.
  intros Hf Ht. unfold until, field_ts_secs. rewrite Hf. change (Some ?x ≫= ?f) with (f x). cbv beta. by rewrite ts_fs.
Qed.
Lemma interaction_entry now i :
  second_ok (now + INTERACTION_TTL_SECS) -> u64_opt (in_auth_time i) ->
  entry_of interaction_of_doc (in_uid i) (interaction_doc now i) = mkExpiring i (now + INTERACTION_TTL_SECS).
Proof.
  intros Ht Hi. unfold entry_of. rewrite interaction_read by done. f_equal. apply until_at; [|done].
  unfold interaction_doc. by repeat read_step.
Qed.
Lemma session_entry now se :
  second_ok (now + SESSION_TTL_SECS) -> in_u64 (se_auth_time se) ->
  entry_of session_of_doc (se_sid se) (session_doc now se) = mkExpiring se (now + SESSION_TTL_SECS).
Proof. intros Ht Hi. unfold entry_of. rewrite session_read by done. f_equal. by apply until_at. Qed.
Lemma access_entry now t :
  second_ok (now + ACCESS_TTL_SECS) -> u64_opt (at_auth_time t) -> at_authorization_details t <> Some "" ->
  entry_of access_of_doc (at_token t) (access_doc now t) = mkExpiring t (now + ACCESS_TTL_SECS).
Proof.
  intros Ht Hi Ha. unfold entry_of. rewrite access_read by done. f_equal. apply until_at; [|done].
  unfold access_doc. by repeat read_step.
Qed.
Lemma refresh_entry now t :
  second_ok (now + REFRESH_TTL_SECS) -> u64_opt (rt_auth_time t) ->
  entry_of rt_from_fields (rt_token t) (refresh_doc now t) = mkExpiring t (now + REFRESH_TTL_SECS).
Proof.
  intros Ht Hi. unfold entry_of. rewrite refresh_read by done. f_equal. apply until_at; [|done].
  unfold refresh_doc. by repeat read_step.
Qed.

(** Takes the next database operation of the run, whose answer is not an error. *)
Ltac db_go Hn :=
  lazymatch goal with Hs : served _ _ |- _ => cbv beta iota in Hs |- * end;
  lazymatch goal with
  | Hs : served (fs ?o ≫= ?k) ?w0, Hd : db_ok _ |- _ =>
      let x := fresh "x" in let db := fresh "db" in let Hrun := fresh "Hrun" in let Hs' := fresh "Hs" in
      let Ha := fresh "Ha" in let Hd' := fresh "Hdb" in let Hl := fresh "Hl" in
      destruct (served_fs o k w0 Hn Hd Hs) as (x & db & Hrun & Hs' & Ha & Hd' & Hl);
      rewrite Hrun; clear Hrun Hs; destruct x as [x|x]; [cbn [doc_step plain_write plain_read conditional] in Hl | done]
  end.

(** *** The codes *)

(** A document with the same fields, the ones that are not part of the code apart. *)
Lemma code_fields id f f' :
  (forall k, k ∉ ["used"; "issuedAccessToken"; "issuedRefreshToken"] -> get f' k = get f k) ->
  code_of_doc id f' = code_of_doc id f /\ until f' = until f.
Proof.
  intros Hk. unfold code_of_doc, until, field_string, field_str, field_u64, field_ts_secs.
  by rewrite !Hk by (apply (bool_decide_unpack _); by vm_compute).
Qed.
Lemma codes_put db db' id f e s :
  put doc_at seen "authCodes" id f db db' -> (forall v, code_held s id (f, v) e) -> codes_held db s ->
  codes_held db' (with_codes (<[id := e]> (ms_codes s)) s).
Proof.
  intros [[Hf _] (v & _ & Hd)] He Hc i. cbn [with_codes ms_codes]. destruct (decide (i = id)) as [->|Hne].
  - rewrite Hd, lookup_insert_eq. constructor. exact (He v).
  - rewrite lookup_insert_ne by done. rewrite Hf by congruence. exact (Hc i).
Qed.
Lemma codes_Some db s id d :
  codes_held db s -> doc_at db "authCodes" id = Some d -> exists e, ms_codes s !! id = Some e /\ code_held s id d e.
Proof. intros Hc Hd. specialize (Hc id). rewrite Hd in Hc. inversion Hc; subst. eauto. Qed.
Lemma codes_None db s id : codes_held db s -> doc_at db "authCodes" id = None -> ms_codes s !! id = None.
Proof. intros Hc Hd. specialize (Hc id). rewrite Hd in Hc. by inversion Hc. Qed.

(** The revocation of the token a code names. *)
Lemma drop_linked {T} (of_doc : string -> Value -> T) col f k issued m w :
  collection_name col = true -> db_ok (sw_db w) -> served (delete_if_some col (field_str f k)) w ->
  holds of_doc (sw_db w) col m -> link_held f k issued m ->
  exists db i, run sys_handler (delete_if_some col (field_str f k)) w = (tt, with_db w db) /\ db_ok db /\
    only doc_at seen col i (sw_db w) db /\ holds of_doc db col (remove_opt issued m) /\
    (forall t, field_str f k = Some t -> remove_opt issued m !! t = None).
Proof.
  intros Hc Hdb Hs Hm Hl. unfold link_held in Hl. destruct (field_str f k) as [t|]; cbn [delete_if_some] in *.
  - unfold ignore_result in *. db_go (ltac:(unfold named; simpl; by rewrite Hc) : named (DeleteDoc col t) = true).
    exists db, t. split; [by destruct x|]. split; [done|]. split; [apply Hl0|].
    pose proof (holds_removed of_doc _ _ _ _ _ Hl0 Hm) as Hm'. destruct Hl as [<-|[-> Hn]]; cbn [remove_opt].
    + split; [done|]. intros t' [= <-]. apply lookup_delete_eq.
    + rewrite delete_id in Hm' by auto. split; [done|]. intros t' [= <-]. auto.
  - exists (sw_db w), "". split; [by destruct w|]. split; [done|]. split; [by apply unchanged_only|].
    split; [|done]. destruct Hl as [<-|[-> _]]; done.
Qed.

Section op.
Context (w : sys_world) (s : MemoryStore) (Hdb : db_ok (sw_db w)) (Hrel : documents_of (sw_db w) s).

Lemma sim_save_interaction i :
  served (fss_save_interaction i) w -> fits (clock w) (sw_db w) s (SaveInteraction i) -> store_simulated (SaveInteraction i) w s.
Proof.
  intros Hs [Ht Hi]. unfold store_simulated. cbn [firestore_store_op mem_op fst snd].
  unfold fss_save_interaction, ignore_result in *. rewrite run_clock. apply served_now in Hs.
  db_go (named_set "interactions" (in_uid i) (interaction_doc (clock w) i) eq_refl ltac:(unfold interaction_doc; auto with oidc)).
  cbn [run mret prog_ret with_db sw_db]. split; [by destruct x|]. split; [done|].
  eexists. split; [|reflexivity]. eapply interactions_step; [apply Hl | done|].
  rewrite <- interaction_entry by done. eapply holds_put; [exact Hl | apply Hrel].
Qed.
Lemma sim_save_session se :
  served (fss_save_session se) w -> fits (clock w) (sw_db w) s (SaveSession se) -> store_simulated (SaveSession se) w s.
Proof.
  intros Hs [Ht Hi]. unfold store_simulated. cbn [firestore_store_op mem_op fst snd].
  unfold fss_save_session, ignore_result in *. rewrite run_clock. apply served_now in Hs.
  db_go (named_set "sessions" (se_sid se) (session_doc (clock w) se) eq_refl ltac:(unfold session_doc; auto with oidc)).
  cbn [run mret prog_ret with_db sw_db]. split; [by destruct x|]. split; [done|].
  eexists. split; [|reflexivity]. eapply sessions_step; [apply Hl | done|].
  rewrite <- session_entry by done. eapply holds_put; [exact Hl | apply Hrel].
Qed.
Lemma sim_save_access t :
  served (fss_save_access_token t) w -> fits (clock w) (sw_db w) s (SaveAccessToken t) -> store_simulated (SaveAccessToken t) w s.
Proof.
  intros Hs (Ht & Hi & Had & Hul). unfold store_simulated. cbn [firestore_store_op mem_op fst snd].
  unfold fss_save_access_token, ignore_result in *. rewrite run_clock. apply served_now in Hs.
  db_go (named_set "accessTokens" (at_token t) (access_doc (clock w) t) eq_refl ltac:(unfold access_doc; auto 10 with oidc)).
  cbn [run mret prog_ret with_db sw_db]. split; [by destruct x|]. split; [done|].
  eexists. split; [|reflexivity]. eapply access_step; [apply Hl | done| |apply spares_insert; by right].
  rewrite <- access_entry by done. eapply holds_put; [exact Hl | apply Hrel].
Qed.
Lemma sim_save_refresh t :
  served (fss_save_refresh_token t) w -> fits (clock w) (sw_db w) s (SaveRefreshToken t) -> store_simulated (SaveRefreshToken t) w s.
Proof.
  intros Hs (Ht & Hi & Hul). unfold store_simulated. cbn [firestore_store_op mem_op fst snd].
  unfold fss_save_refresh_token, ignore_result in *. rewrite run_clock. apply served_now in Hs.
  db_go (named_set "refreshTokens" (rt_token t) (refresh_doc (clock w) t) eq_refl ltac:(unfold refresh_doc; auto 12 with oidc)).
  cbn [run mret prog_ret with_db sw_db]. split; [by destruct x|]. split; [done|].
  eexists. split; [|reflexivity]. eapply refresh_step; [apply Hl | done| |apply spares_insert; by right].
  rewrite <- refresh_entry by done. eapply holds_put; [exact Hl | apply Hrel].
Qed.

Lemma sim_delete_session sid : served (fss_delete_session sid) w -> store_simulated (DeleteSession sid) w s.
Proof.
  intros Hs. unfold store_simulated. cbn [firestore_store_op mem_op fst snd].
  unfold fss_delete_session, ignore_result in *. db_go (eq_refl (x := true)).
  cbn [run mret prog_ret with_db sw_db]. split; [by destruct x|]. split; [done|].
  eexists. split; [|reflexivity]. eapply sessions_step; [apply Hl | done|]. eapply holds_removed; [exact Hl | apply Hrel].
Qed.
Lemma sim_revoke_access t : served (fss_revoke_access_token t) w -> store_simulated (RevokeAccessToken t) w s.
Proof.
  intros Hs. unfold store_simulated. cbn [firestore_store_op mem_op fst snd].
  unfold fss_revoke_access_token, ignore_result in *. db_go (eq_refl (x := true)).
  cbn [run mret prog_ret with_db sw_db]. split; [by destruct x|]. split; [done|].
  eexists. split; [|reflexivity]. eapply access_step; [apply Hl | done| |apply spares_delete].
  eapply holds_removed; [exact Hl | apply Hrel].
Qed.
Lemma sim_revoke_refresh t : served (fss_revoke_refresh_token t) w -> store_simulated (RevokeRefreshToken t) w s.
Proof.
  intros Hs. unfold store_simulated. cbn [firestore_store_op mem_op fst snd].
  unfold fss_revoke_refresh_token, ignore_result in *. db_go (eq_refl (x := true)).
  cbn [run mret prog_ret with_db sw_db]. split; [by destruct x|]. split; [done|].
  eexists. split; [|reflexivity]. eapply refresh_step; [apply Hl | done| |apply spares_delete].
  eapply holds_removed; [exact Hl | apply Hrel].
Qed.

(** A read: the live entry of the memory store, or nothing. *)
Lemma until_expired now f : doc_expired now f = (until f <? now).
Proof. done. Qed.
Lemma get_live_read {T} (of_doc : string -> Value -> T) col id m :
  collection_name col = true -> served (fs_get_live col id (of_doc id)) w -> holds of_doc (sw_db w) col m ->
  where_doc (sw_db w) col id (settled (clock w)) ->
  exists db, run sys_handler (fs_get_live col id (of_doc id)) w = ((get_live (clock w) id m).1, with_db w db) /\
    unchanged doc_at seen (sw_db w) db /\ db_ok db.
Proof.
  intros Hc Hs Hm Hset. unfold fs_get_live in *. db_go (ltac:(unfold named; simpl; by rewrite Hc) : named (GetDoc col id) = true).
  destruct Hl as [Hu Hr]. specialize (Hr x eq_refl). subst x. exists db. split; [|done]. unfold get_live.
  destruct (doc_at (sw_db w) col id) as [[f v]|] eqn:Hd; simpl.
  - rewrite (holds_Some of_doc _ _ _ _ _ _ Hm Hd). unfold alive, entry_of. cbn [ex_expires_at ex_value].
    specialize (Hset f v Hd). unfold settled in Hset. rewrite until_expired. unfold clock in *. simpl.
    destruct (Z.ltb_spec (until f) (secs_of (sw_clk w))), (Z.ltb_spec (secs_of (sw_clk w)) (until f)); try done; lia.
  - by rewrite (holds_None of_doc _ _ _ _ Hm Hd).
Qed.

Ltac read_live of_doc :=
  let db := fresh "db" in let Hrun := fresh "Hrun" in let Hu := fresh "Hu" in let Hdb' := fresh "Hdb" in
  match goal with
  | Hs : served (fs_get_live ?col ?id _) w, Hf : where_doc _ _ _ _, Hm : holds _ _ ?col ?m |- _ =>
      destruct (get_live_read of_doc col id m eq_refl Hs Hm Hf) as (db & Hrun & Hu & Hdb');
      cbv beta iota zeta; rewrite Hrun; split; [|split; [done|]];
      [|exists s; split; [by eapply documents_unchanged|]]
  end.
Lemma live_eq_interactions now uid : live_eq now s (mem_op now (GetInteraction uid) s).2.
Proof. simpl. rewrite get_interaction_state. split; [symmetry; apply get_live_spec|]. by repeat split. Qed.
Lemma live_eq_sessions now sid : live_eq now s (mem_op now (GetSession sid) s).2.
Proof. simpl. rewrite get_session_state. split; [done|]. split; [symmetry; apply get_live_spec|]. by repeat split. Qed.
Lemma live_eq_access now t : live_eq now s (mem_op now (GetAccessToken t) s).2.
Proof. simpl. rewrite get_access_token_state. do 3 (split; [done|]). split; [symmetry; apply get_live_spec | done]. Qed.
Lemma live_eq_refresh now t : live_eq now s (mem_op now (GetRefreshToken t) s).2.
Proof. simpl. rewrite get_refresh_token_state. do 4 (split; [done|]). symmetry; apply get_live_spec. Qed.

Lemma sim_get_interaction uid :
  served (fss_get_interaction uid) w -> fits (clock w) (sw_db w) s (GetInteraction uid) -> store_simulated (GetInteraction uid) w s.
Proof.
  intros Hs Hf. destruct Hrel as (Hi & _). unfold store_simulated. cbn [firestore_store_op].
  unfold fss_get_interaction in *. cbn [fits] in Hf. read_live interaction_of_doc; [|apply live_eq_interactions].
  cbn [mem_op]. unfold get_interaction. by destruct (get_live _ _ _).
Qed.
Lemma sim_get_session sid :
  served (fss_get_session sid) w -> fits (clock w) (sw_db w) s (GetSession sid) -> store_simulated (GetSession sid) w s.
Proof.
  intros Hs Hf. destruct Hrel as (_ & Hi & _). unfold store_simulated. cbn [firestore_store_op].
  unfold fss_get_session in *. cbn [fits] in Hf. read_live session_of_doc; [|apply live_eq_sessions].
  cbn [mem_op]. unfold get_session. by destruct (get_live _ _ _).
Qed.
Lemma sim_get_access t :
  served (fss_get_access_token t) w -> fits (clock w) (sw_db w) s (GetAccessToken t) -> store_simulated (GetAccessToken t) w s.
Proof.
  intros Hs Hf. destruct Hrel as (_ & _ & _ & Hi & _). unfold store_simulated. cbn [firestore_store_op].
  unfold fss_get_access_token in *. cbn [fits] in Hf. read_live access_of_doc; [|apply live_eq_access].
  cbn [mem_op]. unfold get_access_token. by destruct (get_live _ _ _).
Qed.
Lemma sim_get_refresh t :
  served (fss_get_refresh_token t) w -> fits (clock w) (sw_db w) s (GetRefreshToken t) -> store_simulated (GetRefreshToken t) w s.
Proof.
  intros Hs Hf. destruct Hrel as (_ & _ & _ & _ & Hi). unfold store_simulated. cbn [firestore_store_op].
  unfold fss_get_refresh_token in *. cbn [fits] in Hf. read_live rt_from_fields; [|apply live_eq_refresh].
  cbn [mem_op]. unfold get_refresh_token. by destruct (get_live _ _ _).
Qed.

Lemma named_read c i : collection_name c = true -> named (GetDocWithUpdateTime c i) = true.
Proof. intros Hc. unfold named. simpl. by rewrite Hc. Qed.
Lemma named_delete_if c i v : collection_name c = true -> named (DeleteDocIfUnchanged c i v) = true.
Proof. intros Hc. unfold named. simpl. by rewrite Hc. Qed.

(** A document read and then removed under its version. *)
Lemma cas_take_run col id :
  collection_name col = true -> served (cas_take col id) w ->
  exists db, run sys_handler (cas_take col id) w = (fst <$> doc_at (sw_db w) col id, with_db w db) /\
    db_ok db /\ removed doc_at seen col id (sw_db w) db.
Proof.
  intros Hc Hs. unfold cas_take in *. db_go (named_read col id Hc). destruct Hl as [Hu Hr]. specialize (Hr x eq_refl).
  destruct x as [[f v]|].
  - db_go (named_delete_if col id v Hc). destruct x; cbn [conditional] in Hl.
    + destruct Hl as [_ [Ho Hn]]. exists db0. rewrite <- Hr. split; [done|]. split; [done|]. split; [|done].
      destruct Hu as [Hu1 Hu2]. destruct Ho as [Ho1 Ho2]. split; [|by auto]. intros c' i' Hne. by rewrite Ho1, Hu1.
    + destruct Hl as [Hn _]. destruct Hn. exists f. by rewrite (proj1 Hu).
  - exists db. rewrite <- Hr. split; [done|]. split; [done|]. split; [by apply unchanged_only|]. by rewrite (proj1 Hu).
Qed.
Lemma sim_consume_interaction uid :
  served (fss_consume_interaction uid) w -> fits (clock w) (sw_db w) s (ConsumeInteraction uid) ->
  store_simulated (ConsumeInteraction uid) w s.
Proof.
  intros Hs Hf. unfold store_simulated. cbn [firestore_store_op mem_op fst snd consume_interaction fits] in *.
  unfold fss_consume_interaction in *. apply served_bind in Hs as [Hs _].
  destruct (cas_take_run "interactions" uid eq_refl Hs) as (db & Hrun & Hok & Hrem).
  rewrite run_bind, Hrun. cbn [run mret prog_ret with_db sw_db]. pose proof Hrel as (Hi & _). split; [|split; [done|]].
  - destruct (doc_at (sw_db w) "interactions" uid) as [[f v]|] eqn:Hd; simpl.
    + rewrite (holds_Some interaction_of_doc _ _ _ _ _ _ Hi Hd). symmetry. apply Z.ltb_lt. exact (Hf f v Hd).
    + by rewrite (holds_None interaction_of_doc _ _ _ _ Hi Hd).
  - eexists. split; [|reflexivity]. eapply interactions_step; [apply Hrem | done|]. by eapply holds_removed.
Qed.

(** *** The tokens spent by a mark *)

Lemma until_marked f k x : k <> "expiresAt" -> until (set_field f k x) = until f.
Proof. intros Hk. unfold until, field_ts_secs. by rewrite get_set_field_ne. Qed.
Lemma access_marked id f :
  is_object f -> entry_of access_of_doc id (set_field f "mandateConsumed" (fs_b true)) =
    mkExpiring (at_set_mandate_consumed true (access_of_doc id f)) (until f).
Proof.
  intros Hf. unfold entry_of. rewrite until_marked by done. f_equal.
  unfold access_of_doc, at_set_mandate_consumed. simpl.
  unfold field_string, nonempty_field, field_str, field_u64, field_bool. by repeat read_step.
Qed.
Lemma sim_consume_mandate t :
  served (fss_consume_mandate_if_unused t) w -> fits (clock w) (sw_db w) s (ConsumeMandateIfUnused t) ->
  store_simulated (ConsumeMandateIfUnused t) w s.
Proof.
  intros Hs Hf. unfold store_simulated. cbn [firestore_store_op mem_op fits] in *.
  unfold fss_consume_mandate_if_unused, try_bind, consume_mandate_if_unused in *. pose proof Hrel as (_ & _ & _ & Hi & _).
  db_go (named_read "accessTokens" t eq_refl). destruct Hl as [Hu Hr]. specialize (Hr x eq_refl).
  assert (Hsame : documents_of db s) by by eapply documents_unchanged.
  destruct x as [[f v]|]; symmetry in Hr.
  2:{ rewrite (holds_None access_of_doc _ _ _ _ Hi Hr). split; [done|]. split; [done|]. by exists s. }
  rewrite (holds_Some access_of_doc _ _ _ _ _ _ Hi Hr). specialize (Hf f v Hr). unfold settled in Hf.
  pose proof (doc_object _ _ _ _ _ Hdb Hr) as Hobj.
  rewrite run_clock. apply served_now in Hs0. rewrite until_expired in *. unfold alive, entry_of. cbn [ex_expires_at ex_value].
  assert (Hclk : clock (with_db w db) = clock w) by done. rewrite Hclk in *.
  destruct (Z.ltb_spec (until f) (clock w)), (Z.ltb_spec (clock w) (until f)); try lia; cbn [andb].
  { split; [done|]. split; [done|]. by exists s. }
  change (at_mandate_consumed (access_of_doc t f)) with (default false (field_bool f "mandateConsumed")).
  destruct (default false (field_bool f "mandateConsumed")); cbn [negb].
  { split; [done|]. split; [done|]. by exists s. }
  change (fs ?o) with (fs o ≫= Ret) in *.
  db_go (named_set_if "accessTokens" t (set_field f "mandateConsumed" (fs_b true)) v eq_refl ltac:(auto with oidc)).
  destruct x; cbn [conditional] in Hl; [|destruct Hl as [Hn _]; destruct Hn; exists f; by rewrite (proj1 Hu)].
  cbn [run with_db sw_db]. split; [done|]. split; [done|]. eexists. split; [|reflexivity].
  destruct Hl as [_ Hput]. eapply access_step; [apply Hput | done | |].
  - rewrite <- access_marked by done. eapply holds_put; [exact Hput | apply Hsame].
  - apply spares_insert. left. rewrite (holds_Some access_of_doc _ _ _ _ _ _ Hi Hr). eauto.
Qed.

Lemma refresh_marked id f r :
  is_object f -> (r = None -> field_str f "replacedBy" = None) ->
  entry_of rt_from_fields id (set_opt "replacedBy" (fs_s <$> r) (set_field f "used" (fs_b true))) =
    mkExpiring (rt_mark_used r (rt_from_fields id f)) (until f).
Proof.
  intros Hf Hr. unfold entry_of. f_equal.
  - unfold rt_from_fields, rt_mark_used. simpl. unfold field_string, field_str, field_u64, field_bool.
    destruct r as [r|]; cbn [set_opt fmap option_fmap option_map]; repeat read_step; [done|].
    specialize (Hr eq_refl). unfold field_str in Hr. by rewrite Hr.
  - destruct r; cbn [set_opt fmap option_fmap option_map]; by rewrite !until_marked.
Qed.
Lemma sim_mark_refresh t r :
  served (fss_mark_refresh_used t r) w -> fits (clock w) (sw_db w) s (MarkRefreshUsed t r) ->
  store_simulated (MarkRefreshUsed t r) w s.
Proof.
  intros Hs Hf. unfold store_simulated. cbn [firestore_store_op mem_op fits] in *.
  unfold fss_mark_refresh_used, mark_refresh_used in *. pose proof Hrel as (_ & _ & _ & _ & Hi).
  db_go (named_read "refreshTokens" t eq_refl). destruct Hl as [Hu Hr]. specialize (Hr x eq_refl).
  assert (Hsame : documents_of db s) by by eapply documents_unchanged.
  destruct x as [[f v]|]; symmetry in Hr.
  2:{ rewrite (holds_None rt_from_fields _ _ _ _ Hi Hr). split; [done|]. split; [done|]. by exists s. }
  rewrite (holds_Some rt_from_fields _ _ _ _ _ _ Hi Hr). destruct (Hf f v Hr) as [Hcur Hrep].
  pose proof (doc_object _ _ _ _ _ Hdb Hr) as Hobj. unfold alive, entry_of. cbn [ex_expires_at ex_value].
  rewrite (proj2 (Z.ltb_lt _ _) Hcur). cbn [andb].
  change (rt_used (rt_from_fields t f)) with (default false (field_bool f "used")).
  destruct (default false (field_bool f "used")); cbn [negb].
  { split; [done|]. split; [done|]. by exists s. }
  cbv zeta in *. db_go (named_set_if "refreshTokens" t _ v eq_refl
    (set_opt_object "replacedBy" (fs_s <$> r) _ (set_field_object "used" (fs_b true) f Hobj))).
  destruct x; cbn [conditional] in Hl; [|destruct Hl as [Hn _]; destruct Hn; exists f; by rewrite (proj1 Hu)].
  cbn [run mret prog_ret with_db sw_db]. split; [done|]. split; [done|]. eexists. split; [|reflexivity].
  destruct Hl as [_ Hput]. eapply refresh_step; [apply Hput | done | |].
  - rewrite <- refresh_marked by done. eapply holds_put; [exact Hput | apply Hsame].
  - apply spares_insert. left. rewrite (holds_Some rt_from_fields _ _ _ _ _ _ Hi Hr). eauto.
Qed.

(** *** The codes *)

Lemma sim_save_code c :
  served (fss_save_code c) w -> fits (clock w) (sw_db w) s (SaveCode c) -> store_simulated (SaveCode c) w s.
Proof.
  intros Hs [Ht Hi]. unfold store_simulated. cbn [firestore_store_op mem_op fst snd].
  unfold fss_save_code, ignore_result in *.
  db_go (named_set "authCodes" (ac_code c) (code_doc c) eq_refl ltac:(unfold code_doc; auto 10 with oidc)).
  cbn [run mret prog_ret with_db sw_db]. split; [by destruct x|]. split; [done|].
  eexists. split; [|reflexivity]. eapply codes_step; [apply Hl | done|].
  eapply codes_put; [exact Hl | | apply Hrel]. intros v. unfold code_held. cbn [fst ex_expires_at ex_value cr_code cr_used cr_issued_access cr_issued_refresh].
  split; [symmetry; apply until_at; [unfold code_doc; by repeat read_step | done]|].
  split; [by rewrite code_read|]. unfold link_held, field_bool, field_str, code_doc.
  split; [by repeat read_step|]. split; left; by repeat read_step.
Qed.

Lemma sim_link c a r :
  served (fss_link_issued_tokens c a r) w -> fits (clock w) (sw_db w) s (LinkIssuedTokens c a r) ->
  store_simulated (LinkIssuedTokens c a r) w s.
Proof.
  intros Hs [[[f v] Hd] Hr]. unfold store_simulated. cbn [firestore_store_op mem_op fst snd].
  unfold fss_link_issued_tokens, ignore_result in *. set (new := set_opt _ _ _) in *.
  assert (Hnew : is_object new) by (unfold new; auto with oidc).
  db_go (named_merge "authCodes" c new eq_refl Hnew). destruct Hl as (f' & Hput & Hov).
  assert (Hne : new <> Object []) by (unfold new; destruct r; discriminate). specialize (Hov Hne). rewrite Hd in Hov. cbn in Hov.
  destruct (codes_Some _ s c _ ltac:(apply Hrel) Hd) as (e & He & Hex & Hco & Hu & _ & _). cbn [fst] in *.
  unfold link_issued_tokens. rewrite He. cbn [run mret prog_ret with_db sw_db]. split; [by destruct x|]. split; [done|].
  eexists. split; [|reflexivity]. eapply codes_step; [apply Hput | done|]. eapply codes_put; [exact Hput | | apply Hrel].
  intros v'. unfold code_held. cbn [fst ex_expires_at ex_value cr_code cr_used cr_issued_access cr_issued_refresh].
  assert (Hother : forall k, k ∉ ["issuedAccessToken"; "issuedRefreshToken"] -> get f' k = get f k).
  { intros k Hk. rewrite Hov. unfold new. rewrite get_set_opt_ne by set_solver. simpl. by rewrite decide_False by set_solver. }
  destruct (code_fields c f f') as [-> ->]; [intros k Hk; apply Hother; intros Hin; apply Hk; by right|]. split; [done|]. split; [done|].
  split; [unfold field_bool in *; by rewrite Hother by (apply (bool_decide_unpack _); by vm_compute)|].
  split; left; unfold field_str; rewrite Hov; unfold new.
  - by repeat read_step.
  - destruct r as [r|]; cbn [set_opt fmap option_fmap option_map]; repeat read_step; [done|].
    exact (Hr eq_refl f v Hd).
Qed.

Lemma take_code_marked code f v e :
  code_held s code (f, v) e -> is_object f -> forall v',
  code_held s code (set_field f "used" (fs_b true), v')
    (mkExpiring (mkCodeRecord (cr_code (ex_value e)) true (cr_issued_access (ex_value e)) (cr_issued_refresh (ex_value e)))
       (ex_expires_at e)).
Proof.
  intros (Hex & Hco & Hu & Hla & Hlr) Hf v'. unfold code_held. cbn [fst ex_expires_at ex_value cr_code cr_used cr_issued_access cr_issued_refresh] in *.
  destruct (code_fields code f (set_field f "used" (fs_b true))) as [-> ->];
    [intros k Hk; apply get_set_field_ne; set_solver|].
  split; [done|]. split; [done|]. split; [unfold field_bool; by rewrite get_set_field_same|].
  unfold link_held, field_str in *. by rewrite !get_set_field_ne by discriminate.
Qed.
(** A replay: the tokens go, and the record forgets them. *)
Lemma take_code_replayed code f v e w1 :
  same_docs "authCodes" (sw_db w) (sw_db w1) -> documents_of (sw_db w1) s ->
  doc_at (sw_db w) "authCodes" code = Some (f, v) -> ms_codes s !! code = Some e -> code_held s code (f, v) e ->
  cr_used (ex_value e) = true -> db_ok (sw_db w1) ->
  served (_ ← delete_if_some "accessTokens" (field_str f "issuedAccessToken");
          _ ← delete_if_some "refreshTokens" (field_str f "issuedRefreshToken"); mret (@None AuthorizationCode)) w1 ->
  let '(x, w') := run sys_handler (_ ← delete_if_some "accessTokens" (field_str f "issuedAccessToken");
          _ ← delete_if_some "refreshTokens" (field_str f "issuedRefreshToken"); mret (@None AuthorizationCode)) w1 in
  x = None /\ db_ok (sw_db w') /\
  documents_of (sw_db w') (mkMemoryStore (ms_interactions s) (ms_sessions s)
    (<[code := mkExpiring (mkCodeRecord (cr_code (ex_value e)) true None None) (ex_expires_at e)]> (ms_codes s))
    (remove_opt (cr_issued_access (ex_value e)) (ms_access_tokens s))
    (remove_opt (cr_issued_refresh (ex_value e)) (ms_refresh_tokens s))).
Proof.
  intros Hsame Hdocs Hd He (Hex & Hco & Hu & Hla & Hlr) Hused Hdb1 Hs. cbn [fst] in *.
  apply served_bind in Hs as [Hs1 Hs].
  destruct (drop_linked access_of_doc "accessTokens" f _ _ _ w1 eq_refl Hdb1 Hs1 ltac:(apply Hdocs) Hla)
    as (db2 & i & Hrun & Hdb2 & Ho & Ha & Hna).
  rewrite run_bind, Hrun in *. cbn [fst snd] in Hs. apply served_bind in Hs as [Hs2 _].
  pose proof (access_step _ _ _ _ _ Ho Hdocs Ha (spares_remove _ _ _ _)) as Hdocs2.
  destruct (drop_linked rt_from_fields "refreshTokens" f _ _ _ (with_db w1 db2) eq_refl Hdb2 Hs2 ltac:(apply Hdocs2) Hlr)
    as (db3 & i' & Hrun' & Hdb3 & Ho' & Hr & Hnr).
  rewrite run_bind, Hrun'. cbn [run mret prog_ret with_db sw_db]. split; [done|]. split; [done|].
  pose proof (refresh_step _ _ _ _ _ Ho' Hdocs2 Hr (spares_remove _ _ _ _)) as Hdocs3.
  eapply (codes_step db3 db3 _ code) in Hdocs3; [exact Hdocs3 | done|]. destruct Hdocs3 as (_ & _ & Hc & _).
  intros id. cbn [with_codes ms_codes]. destruct (decide (id = code)) as [->|Hne].
  - rewrite lookup_insert_eq. rewrite (only_same _ _ _ _ "authCodes" Ho' ltac:(discriminate) code).
    cbn [with_db sw_db]. rewrite (only_same _ _ _ _ "authCodes" Ho ltac:(discriminate) code), Hsame, Hd. constructor.
    unfold code_held. cbn [fst ex_expires_at ex_value cr_code cr_used cr_issued_access cr_issued_refresh].
    split; [done|]. split; [done|]. split; [congruence|]. split; right; (split; [done|]); intros t Ht.
    + exact (Hna t Ht).
    + exact (Hnr t Ht).
  - rewrite lookup_insert_ne by done. exact (Hc id).
Qed.
Lemma sim_take_code code :
  served (fss_take_code code) w -> fits (clock w) (sw_db w) s (TakeCode code) -> store_simulated (TakeCode code) w s.
Proof.
  intros Hs Hf. unfold store_simulated. cbn [firestore_store_op mem_op fits] in *. unfold fss_take_code, take_code in *.
  db_go (named_read "authCodes" code eq_refl). destruct Hl as [Hu Hr]. specialize (Hr x eq_refl).
  assert (Hsame : documents_of db s) by by eapply documents_unchanged.
  destruct x as [[f v]|]; symmetry in Hr.
  2:{ rewrite (codes_None _ s code ltac:(apply Hrel) Hr). split; [done|]. split; [done|]. by exists s. }
  destruct (codes_Some _ s code _ ltac:(apply Hrel) Hr) as (e & He & Hheld). rewrite He.
  pose proof Hheld as (Hex & Hco & Hused & _). cbn [fst] in *. unfold alive. rewrite Hex.
  rewrite (proj2 (Z.ltb_lt _ _) (Hf f v Hr)). cbn [negb]. rewrite Hused.
  pose proof (doc_object _ _ _ _ _ Hdb Hr) as Hobj. cbv zeta in *.
  destruct (default false (field_bool f "used")).
  - pose proof (take_code_replayed code f v e (with_db w db) (unchanged_same _ _ _ Hu) Hsame Hr He Hheld Hused Hdb0 Hs0) as Hrep.
    destruct (run _ _ _) as [x w']. destruct Hrep as (-> & Hdb' & Hdocs). rewrite Hex in Hdocs.
    split; [done|]. split; [done|]. eexists. split; [exact Hdocs | reflexivity].
  - db_go (named_set_if "authCodes" code _ v eq_refl (set_field_object "used" (fs_b true) f Hobj)).
    destruct x; cbn [conditional] in Hl; [|destruct Hl as [Hn _]; destruct Hn; exists f; by rewrite (proj1 Hu)].
    destruct Hl as [_ Hput]. cbn [run mret prog_ret with_db sw_db fst snd]. split; [|split; [done|]].
    + f_equal. rewrite Hco. apply code_fields. intros k Hk. apply get_set_field_ne. set_solver.
    + eexists. split; [|reflexivity]. eapply codes_step; [apply Hput | done|]. eapply codes_put; [exact Hput | | apply Hsame].
      rewrite <- Hex. by eapply take_code_marked.
Qed.
End op.

(** *** The series of a refresh token *)

Lemma revoke_loop_run guard cur w s :
  db_ok (sw_db w) -> documents_of (sw_db w) s -> served (fss_revoke_loop guard cur) w ->
  exists db, run sys_handler (fss_revoke_loop guard cur) w = (tt, with_db w db) /\ db_ok db /\
    documents_of db (with_refresh_tokens (revoke_family_loop guard cur (ms_refresh_tokens s)) s).
Proof.
  revert cur w s. induction guard as [|guard IH]; intros [t|] w s Hdb Hdocs Hs.
  1,2,4: (exists (sw_db w); split; [by destruct w|]; split; [done|]; by destruct s).
  cbn [fss_revoke_loop] in *. db_go (eq_refl (x := true)). destruct Hl as [Hu Hr]. specialize (Hr x eq_refl).
  cbv zeta in *. db_go (eq_refl (x := true)).
  rewrite revoke_family_loop_S. pose proof (documents_unchanged _ _ _ Hu Hdocs) as Hdocs1.
  assert (Hnext : match x with Some f => field_str f "replacedBy" | None => None end =
                  ms_refresh_tokens s !! t ≫= fun e => rt_replaced_by (ex_value e)).
  { destruct Hdocs as (_ & _ & _ & _ & Hr'). rewrite <- Hr'. subst x. by destruct (doc_at (sw_db w) "refreshTokens" t) as [[f v]|]. }
  change (match Ok x with Ok (Some f) => field_str f "replacedBy" | _ => None end)
    with (match x with Some f => field_str f "replacedBy" | None => None end) in *. rewrite Hnext in *.
  pose proof (refresh_step _ _ _ _ (delete t (ms_refresh_tokens s)) (proj1 Hl) Hdocs1
    ltac:(eapply holds_removed; [exact Hl | apply Hdocs1]) (spares_delete _ _ _ _)) as Hdocs2.
  destruct (IH _ (with_db (with_db w db) db0) _ Hdb1 Hdocs2 Hs) as (db' & Hrun & Hok & Hfin). exists db'. split; [exact Hrun|]. by split.
Qed.
Lemma sim_revoke_family t w s :
  db_ok (sw_db w) -> documents_of (sw_db w) s -> served (fss_revoke_refresh_family t) w ->
  store_simulated (RevokeRefreshFamily t) w s.
Proof.
  intros Hdb Hdocs Hs. unfold store_simulated. cbn [firestore_store_op mem_op fst snd].
  unfold fss_revoke_refresh_family in *. destruct (revoke_loop_run _ _ _ _ Hdb Hdocs Hs) as (db & Hrun & Hok & Hfin).
  rewrite Hrun. split; [done|]. split; [done|]. eexists. split; [exact Hfin | done].
Qed.

Lemma series_of_docs now db m1 m2 guard cur :
  holds rt_from_fields db "refreshTokens" m1 -> series_current now db m2 guard cur -> series_alive now m1 m2 guard cur.
Proof.
  intros Hm. revert cur. induction guard as [|guard IH]; intros [t|]; try done. cbn [series_current series_alive].
  rewrite <- Hm. destruct (doc_at db "refreshTokens" t) as [[f v]|]; [|done]. simpl.
  intros [Hc Hn]. split; [by apply Z.ltb_lt | by apply IH].
Qed.

(** *** Every operation *)

Lemma store_simulated_all {X} (o : storeE X) w s s2 :
  db_ok (sw_db w) -> documents_of (sw_db w) s -> served (firestore_store_op X o) w -> fits (clock w) (sw_db w) s2 o ->
  store_simulated o w s.
Proof.
  intros Hdb Hdocs Hs Hf. destruct o; cbn [firestore_store_op] in Hs;
    first [by apply sim_save_interaction | by apply sim_get_interaction | by apply sim_consume_interaction
      | by apply sim_save_session | by apply sim_get_session | by apply sim_delete_session
      | by apply sim_save_code | by apply sim_take_code | by apply sim_link
      | by apply sim_save_access | by apply sim_get_access | by apply sim_revoke_access | by apply sim_consume_mandate
      | by apply sim_save_refresh | by apply sim_get_refresh | by apply sim_revoke_refresh | by apply sim_mark_refresh
      | by apply sim_revoke_family | done].
Qed.
Lemma mem_op_alike {X} (o : storeE X) now db s1 s2 :
  documents_of db s1 -> live_eq now s1 s2 -> fits now db s2 o ->
  (mem_op now o s1).1 = (mem_op now o s2).1 /\ live_eq now (mem_op now o s1).2 (mem_op now o s2).2.
Proof.
  intros Hdocs Hl Hf. destruct (is_family_revocation o) eqn:Ho; [|by apply mem_op_live].
  destruct o; try done. cbn [mem_op fst snd fits] in *. split; [done|]. destruct Hl as (Hi & Hs & Hc & Ha & Hr).
  do 4 (split; [done|]). simpl. apply revoke_family_live; [done|]. eapply series_of_docs; [|done]. apply Hdocs.
Qed.

(** One operation, answered alike, now and at every later time. *)
Lemma store_op_refines {X} (o : storeE X) w s :
  db_ok (sw_db w) -> represents (clock w) (sw_db w) s -> fits (clock w) (sw_db w) s o -> served (firestore_store_op X o) w ->
  let '(x, w') := run sys_handler (firestore_store_op X o) w in
  let '(y, s') := mem_op (clock w) o s in
  x = y /\ db_ok (sw_db w') /\ represents (clock w) (sw_db w') s'.
Proof.
  intros Hdb (s0 & Hdocs & Hl) Hf Hs.
  pose proof (store_simulated_all o w s0 s Hdb Hdocs Hs Hf) as Hsim. unfold store_simulated in Hsim.
  destruct (mem_op_alike o _ _ _ _ Hdocs Hl Hf) as [Hans Hst].
  destruct (run sys_handler _ w) as [x w'], (mem_op (clock w) o s) as [y s']. destruct Hsim as (-> & Hok & s1 & Hdocs1 & Hl1).
  split; [done|]. split; [done|]. exists s1. split; [done|]. by etransitivity.
Qed.
Lemma represents_later now later db s : now <= later -> represents now db s -> represents later db s.
Proof. intros Hle (s0 & Hdocs & Hl). exists s0. split; [done | by eapply live_eq_mono]. Qed.
Lemma sys_clock {A} (p : prog sysE A) w : sw_clk (run sys_handler p w).2 = sw_clk w.
Proof.
  revert w. induction p as [a | X e k IH]; intros w; [done|]. cbn [run].
  destruct e as [| | |Y o]; cbn [sys_handler]; [by rewrite IH..|]. destruct (fs_handle Y o (sw_db w)). by rewrite IH.
Qed.

(** *** Clients of the store *)

(** A client calls operations and lets time pass, in nanoseconds. *)
Inductive clientE : Type -> Type :=
| Call {X} (o : storeE X) : clientE X
| Wait (ns : N) : clientE unit.
Definition on_firestore : handler clientE sys_world :=
  fun X e w =>
    match e in clientE X return X * sys_world with
    | Call o => run sys_handler (firestore_store_op _ o) w
    | Wait ns => (tt, mkSysWorld (sw_clk w + Z.of_N ns) (sw_uuid w) (sw_rand w) (sw_db w))
    end.
Definition in_memory : handler clientE mem_world :=
  fun X e w =>
    match e in clientE X return X * mem_world with
    | Call o => let '(x, s) := mem_op (secs_of w.1) o w.2 in (x, (w.1, s))
    | Wait ns => (tt, (w.1 + Z.of_N ns, w.2))
    end.
(** Every call of a run fits, and the database answers it. *)
Fixpoint client_fits {A} (p : prog clientE A) (w : sys_world) (s : MemoryStore) : Prop :=
  match p with
  | Ret _ => True
  | Vis e k =>
      match e in clientE X return (X -> prog clientE A) -> Prop with
      | Call o => fun _ => fits (clock w) (sw_db w) s o /\ served (firestore_store_op _ o) w
      | Wait _ => fun _ => True
      end k /\
      client_fits (k (on_firestore _ e w).1) (on_firestore _ e w).2 (in_memory _ e (sw_clk w, s)).2.2
  end.

Lemma client_refines {A} (p : prog clientE A) w s :
  db_ok (sw_db w) -> represents (clock w) (sw_db w) s -> client_fits p w s ->
  exists s', run in_memory p (sw_clk w, s) = ((run on_firestore p w).1, (sw_clk (run on_firestore p w).2, s')) /\
    db_ok (sw_db (run on_firestore p w).2) /\
    represents (clock (run on_firestore p w).2) (sw_db (run on_firestore p w).2) s'.
Proof.
  revert w s. induction p as [a | X e k IH]; intros w s Hdb Hrep Hf; [by exists s|].
  cbn [client_fits run] in *. destruct Hf as [Hf Hk]. destruct e as [X o | ns].
  - destruct Hf as [Hf Hs]. pose proof (store_op_refines o w s Hdb Hrep Hf Hs) as Hop.
    pose proof (sys_clock (firestore_store_op X o) w) as Hclk. cbn [on_firestore in_memory fst snd] in *.
    change (secs_of (sw_clk w)) with (clock w) in *.
    destruct (run sys_handler _ w) as [x w'], (mem_op (clock w) o s) as [y s']. destruct Hop as (-> & Hdb' & Hrep').
    cbn [fst snd] in *. rewrite <- Hclk. apply IH; [done | | done]. unfold clock in *. by rewrite Hclk.
  - cbn [on_firestore in_memory fst snd] in *. apply (IH tt (mkSysWorld _ _ _ _)); [done | | done].
    apply (represents_later (clock w)); [apply Z.div_le_mono; [done|] | done].
    change (sw_clk w <= sw_clk w + Z.of_N ns). pose proof (N2Z.is_nonneg ns). lia.
Qed.
End store_refinement.

Lemma table_unlinked `{Externals} t k x :
  forallb (fun kd : (string * string) * (Value * string) => negb (bool_decide (field_str kd.2.1 k = Some x)))
    (map_to_list (tb_docs t)) = true ->
  unlinked table_backend t k x.
Proof.
  intros Hf id f v Hd Hx. pose proof (proj1 (forallb_forall _ _) Hf (("authCodes", id), (f, v))) as Hn.
  cbv beta in Hn. cbn [fst snd] in Hn. rewrite bool_decide_eq_true_2 in Hn by done. discriminate Hn.
  apply list_elem_of_In, elem_of_map_to_list. exact Hd.
Qed.
Lemma empty_represents `{Externals} now : represents table_backend now empty_table MemoryStore_default.
Proof. exists MemoryStore_default. split; [|done]. split; [done|]. split; [done|]. split; [|by split]. intros id. constructor. Qed.

(** C11: on records that have not expired the Firestore store stands in for the in-memory
    store.  Over any database that keeps its contract and answers every operation, a client
    that calls the store and waits, as often and as long as it likes, gets the same answers
    from both, and afterwards the documents still stand for the live records of the
    in-memory store.  Every call must fit ([fits]), since outside of that the stores do
    differ.  A record is not read in the very second of its expiry, in which only Firestore
    has it.  An interaction is consumed, a code taken, a refresh token marked and a series
    revoked only while the record has not expired: on Firestore these operations leave the
    expiry to their caller.  What is saved can be expressed (expiries before the year
    10000, times of 64 bits, no empty details), tokens have new identifiers and are linked
    once, to a code that exists; and no account is looked up, which the in-memory store
    makes up. *)
Theorem firestore_store_refines `{Externals} (B : FsBackend) `{!DocDb B} {A} (p : prog clientE A) w s a w' :
  db_ok (sw_db w) -> represents B (clock w) (sw_db w) s -> client_fits B p w s ->
  run (on_firestore B) p w = (a, w') ->
  exists s', run in_memory p (sw_clk w, s) = (a, (sw_clk w', s')) /\
    represents B (clock w') (sw_db w') s'.
Proof.
  intros Hdb Hrep Hf Hrun. destruct (client_refines B p w s Hdb Hrep Hf) as (s' & Hmem & _ & Hrep').
  rewrite Hrun in *. eauto.
Qed.

(** A login, a code, its tokens, the code presented again, and the session a week later. *)
Definition demo_session : Session := mkSession "sid" "u1" 1000.
Definition demo_code : AuthorizationCode :=
  mkAuthorizationCode "code" "rp" "u1" "https://rp.example/cb" "openid" None None None 1000 None None None 1060.
Definition demo_token : AccessToken := mkAccessToken "at" "rp" "u1" "openid" None None None (Some 1000) None false.
Definition demo_client : prog clientE (option Session * option AuthorizationCode * option AuthorizationCode *
    option AccessToken * option Session) :=
  _ ← trigger (Call (SaveSession demo_session));
  _ ← trigger (Wait 10000000000);
  login ← trigger (Call (GetSession "sid"));
  _ ← trigger (Call (SaveCode demo_code));
  won ← trigger (Call (TakeCode "code"));
  _ ← trigger (Call (SaveAccessToken demo_token));
  _ ← trigger (Call (LinkIssuedTokens "code" "at" None));
  again ← trigger (Call (TakeCode "code"));
  token ← trigger (Call (GetAccessToken "at"));
  _ ← trigger (Wait 604800000000000);
  later ← trigger (Call (GetSession "sid"));
  mret (login, won, again, token, later).

Ltac demo_fits :=
  lazymatch goal with
  | |- True => exact I
  | |- _ /\ _ => split; demo_fits
  | |- second_ok _ => vm_compute; split; [discriminate | reflexivity]
  | |- in_u64 _ => vm_compute; split; discriminate
  | |- u64_opt _ => intros ? [= <-]; vm_compute; split; discriminate
  | |- unlinked _ _ _ _ => apply table_unlinked; vm_compute; reflexivity
  | |- is_Some _ => vm_compute; eauto
  | |- where_doc _ _ _ _ _ =>
      let Hd := fresh in intros ? ? Hd; vm_compute in Hd; first [discriminate Hd | injection Hd as <- <-; vm_compute; congruence]
  | |- _ = _ -> where_doc _ _ _ _ _ =>
      let Hd := fresh in intros _ ? ? Hd; vm_compute in Hd; first [discriminate Hd | injection Hd as <- <-; vm_compute; congruence]
  | |- _ <> _ => discriminate
  end.
Ltac demo_step :=
  split; [lazymatch goal with
          | |- True => exact I
          | |- _ => split; [cbn [fits]; demo_fits | vm_compute; by repeat split]
          end|].
#[local] Instance demo_externals : Externals := sample_externals [].
Definition demo_world : @sys_world table_backend := @mkSysWorld table_backend 1000000000000 0 0 empty_table.
Definition demo_answers : option Session * option AuthorizationCode * option AuthorizationCode * option AccessToken *
    option Session := (Some demo_session, Some demo_code, None, None, None).
Lemma firestore_store_refines_witness :
  exists w' s', run (on_firestore table_backend) demo_client demo_world = (demo_answers, w') /\
    run in_memory demo_client (sw_clk demo_world, MemoryStore_default) = (demo_answers, (sw_clk w', s')) /\
    represents table_backend (clock w') (sw_db w') s'.
Proof.
  destruct (run (on_firestore table_backend) demo_client demo_world) as [a w'] eqn:Hrun.
  assert (Ha : a = demo_answers) by (apply (f_equal fst) in Hrun; vm_compute in Hrun; by rewrite <- Hrun).
  destruct (firestore_store_refines table_backend demo_client demo_world MemoryStore_default a w'
    (empty_table_ok : @db_ok table_backend table_docs (sw_db demo_world)) (empty_represents _)) as (s' & Hm & Hr); [|exact Hrun|].
  - unfold demo_client. cbn [mbind prog_bind prog_bind_go trigger client_fits]. repeat demo_step. exact I.
  - rewrite Ha in Hm. exists w', s'. split; [by rewrite Ha | by split].
Defined.
