(* ===== verification/SharedUse.v ===== *)
(** * Single use across processes

    The operations of the back-channel store and of the Firestore store that spend a
    document, as clients of the contract of [DocStore]. *)

From S2P Require Import Prelude Prog Json Calendar Firestore Externals Sys DocStore CasFacts.
From S2P Require Import Nonce Ciba CibaFacts Model Store FirestoreStore Claims.

#[local] Open Scope Z_scope.

(** An attempt to spend something, in one of the processes. *)
Inductive attempt : Type :=
| Decide (auth_req_id : string) (status : CibaStatus)
| PollApproved (auth_req_id : string)
| RedeemCode (code : string)
| RotateRefresh (token : string) (replaced_by : option string)
| ConsumeMandate (token : string)
| ResumeInteraction (uid : string).

(** What is spent: the document, when it is still open, and how it is spent. *)
Record resource := mkResource { rc_col : string; rc_id : string; rc_open : Value -> bool; rc_ends : ending }.

Definition not_marked (k : string) (f : Value) : bool := negb (default false (field_bool f k)).
Definition request_is (st : CibaStatus) (f : Value) : bool :=
  bool_decide (status_parse (default "pending" (field_str f "status")) = st).

Definition resource_of (a : attempt) : resource :=
  match a with
  | Decide id _ => mkResource CIBA_COL id (request_is Pending) MarkedOrDeleted
  | PollApproved id => mkResource CIBA_COL id (request_is Approved) Deleted
  | RedeemCode code => mkResource "authCodes" code (not_marked "used") Marked
  | RotateRefresh token _ => mkResource "refreshTokens" token (not_marked "used") MarkedOrDeleted
  | ConsumeMandate token => mkResource "accessTokens" token (not_marked "mandateConsumed") MarkedOrDeleted
  | ResumeInteraction uid => mkResource "interactions" uid (fun _ => true) Deleted
  end.

Definition won (r : result string bool) : bool := match r with Ok true => true | _ => false end.

(** Whether the attempt succeeds. *)
Definition run_attempt `{Externals} (a : attempt) : prog sysE bool :=
  match a with
  | Decide id st => r ← fsc_transition id st; mret (won r)
  | PollApproved id => r ← fsc_consume id; mret (match r with Ok (Some _) => true | _ => false end)
  | RedeemCode code => r ← fss_take_code code; mret (bool_decide (is_Some r))
  | RotateRefresh token rep => fss_mark_refresh_used token rep
  | ConsumeMandate token => r ← fss_consume_mandate_if_unused token; mret (won r)
  | ResumeInteraction uid => fss_consume_interaction uid
  end.
(** A decision is final. *)
Definition decisive (a : attempt) : bool :=
  match a with Decide _ st => bool_decide (st <> Pending) | _ => true end.

Section facts.
Context `{Externals}.

Lemma marked_closed k f : is_object f -> not_marked k (set_field f k (fs_b true)) = false.
Proof.
  intros Hf. unfold not_marked, field_bool. rewrite get_set_field_same by done. done.
Qed.
Lemma set_opt_marked k k' v f : k' <> k -> not_marked k (set_opt k' v f) = not_marked k f.
Proof. intros Hne. unfold not_marked, field_bool. by rewrite get_set_opt_ne. Qed.

Lemma status_of_fields r : field_str (br_fields r) "status" = Some (status_as_str (br_status r)).
Proof. unfold field_str, br_fields. destruct (br_authorization_details r); reflexivity. Qed.

Lemma decided_closed id f st :
  st <> Pending -> request_is Pending (br_fields (br_set_status st (br_from_fields id f))) = false.
Proof.
  intros Hst. unfold request_is. rewrite status_of_fields. simpl. rewrite status_round_trip.
  by apply bool_decide_eq_false_2.
Qed.

(** Every attempt spends its resource when it succeeds: it reads it, and each answer
    leads to failure or to a conditional write under the version read. *)
Section attempts.
Context (c i : string) (open : Value -> bool) (ends : ending).

(** What is left of an attempt after the read of [(f, v)]. *)
Definition finishes (f : Value) (v : string) (p : prog sysE bool) : Prop :=
  forall tr, thread_path p tr (Ret true) ->
    open f = true /\ exists tr1 es tr2, tr = tr1 ++ es :: tr2 /\ (is_object f -> spends c i open ends v es).

Lemma finishes_fails f v : finishes f v (Ret false).
Proof. by intros tr [_ [=]]. Qed.
Lemma finishes_step f v X (e : sysE X) k : (forall x, finishes f v (k x)) -> finishes f v (Vis e k).
Proof.
  intros Hk tr [[_ ?]|(j & x & tr' & -> & Hp)]; [done|].
  destruct (Hk x tr' Hp) as (Ho & tr1 & es & tr2 & -> & Hs). split; [done|].
  by exists (Ev j e x :: tr1), es, tr2.
Qed.
Lemma finishes_write f v f' k :
  open f = true -> ends <> Deleted -> (is_object f -> open f' = false) -> (forall x, x <> Ok true -> finishes f v (k x)) ->
  finishes f v (Vis (FsOp (SetDocIfUnchanged c i f' v)) k).
Proof.
  intros Ho He Hf Hk tr [[_ ?]|(j & x & tr' & -> & Hp)]; [done|]. destruct (decide (x = Ok true)) as [->|Hne].
  - split; [done|]. exists [], (Ev j (FsOp (SetDocIfUnchanged c i f' v)) (Ok true)), tr'. split; [done|].
    intros Hobj. simpl. split_and!; auto.
  - destruct (Hk x Hne tr' Hp) as (_ & tr1 & es & tr2 & -> & Hs). split; [done|].
    by eexists (_ :: tr1), es, tr2.
Qed.
Lemma finishes_delete f v k :
  open f = true -> ends <> Marked -> (forall x, x <> Ok true -> finishes f v (k x)) ->
  finishes f v (Vis (FsOp (DeleteDocIfUnchanged c i v)) k).
Proof.
  intros Ho Hf Hk tr [[_ ?]|(j & x & tr' & -> & Hp)]; [done|]. destruct (decide (x = Ok true)) as [->|Hne].
  - split; [done|]. exists [], (Ev j (FsOp (DeleteDocIfUnchanged c i v)) (Ok true)), tr'. split; [done|].
    intros Hobj. simpl. split_and!; auto.
  - destruct (Hk x Hne tr' Hp) as (_ & tr1 & es & tr2 & -> & Hs). split; [done|].
    by eexists (_ :: tr1), es, tr2.
Qed.
Lemma spender_read k :
  (forall f v, finishes f v (k (Ok (Some (f, v))))) ->
  (forall r, (forall fv, r <> Ok (Some fv)) -> returns (fun b => b = false) (k r)) ->
  spender c i open ends (fun b => b = true) (Vis (FsOp (GetDocWithUpdateTime c i)) k).
Proof.
  intros Hk Hn tr b [[_ ?]|(j & x & tr' & -> & Hp)] ->; [done|].
  assert (Hbad : (forall fv, x <> Ok (Some fv)) -> spent_by c i open ends (Ev j (FsOp (GetDocWithUpdateTime c i)) x :: tr')).
  { intros Hx. by apply (returns_path (fun b => b = false) _ _ _ (Hn x Hx)) in Hp. }
  destruct x as [[[f v]|]|er]; [|by apply Hbad..].
  destruct (Hk f v tr' Hp) as (Ho & tr1 & es & tr2 & -> & Hs).
  exists [], (Ev j (FsOp (GetDocWithUpdateTime c i)) (Ok (Some (f, v)))), tr1, es, tr2, f, v.
  split; [done|]. split; [by simpl; split_and!|]. done.
Qed.
End attempts.

Ltac read_failed := intros [[[? ?]|]|?] Hr; [by destruct (Hr _ eq_refl) | done | done].
Ltac write_failed := intros [[]|?] Hx; [done | by apply finishes_fails..].

Lemma attempt_spends a :
  decisive a = true ->
  spender (rc_col (resource_of a)) (rc_id (resource_of a)) (rc_open (resource_of a)) (rc_ends (resource_of a))
    (fun b => b = true) (run_attempt a).
Proof.
  intros Hdec. destruct a as [id st|id|code|token rep|token|uid]; apply spender_read; try read_failed; intros f v;
    cbn [decisive resource_of rc_col rc_id rc_open rc_ends] in *.
  - apply bool_decide_eq_true in Hdec. simpl. destruct (bool_decide (_ = Pending)) eqn:Hp; simpl.
    + apply finishes_write; [done | done | intros _; by apply decided_closed | write_failed].
    + apply finishes_fails.
  - simpl. destruct (bool_decide (_ = Approved)) eqn:Hp; simpl; [|apply finishes_fails].
    apply finishes_delete; [done | done | write_failed].
  - simpl. destruct (default false (field_bool f "used")) eqn:Hu; simpl.
    + destruct (field_str f "issuedAccessToken"), (field_str f "issuedRefreshToken"); simpl;
        repeat (apply finishes_step; intros ?); apply finishes_fails.
    + apply finishes_write; [by unfold not_marked; rewrite Hu | done | by apply marked_closed | write_failed].
  - simpl. destruct (default false (field_bool f "used")) eqn:Hu; simpl; [apply finishes_fails|].
    apply finishes_write; [by unfold not_marked; rewrite Hu | done | | write_failed].
    intros Hobj. rewrite set_opt_marked by done. by apply marked_closed.
  - simpl. apply finishes_step. intros t. destruct (doc_expired t f); simpl; [apply finishes_fails|].
    destruct (default false (field_bool f "mandateConsumed")) eqn:Hu; simpl; [apply finishes_fails|].
    apply finishes_write; [by unfold not_marked; rewrite Hu | done | by apply marked_closed | write_failed].
  - simpl. apply finishes_delete; [done | done | write_failed].
Qed.

(** ** What a resource is safe from

    The work of the processes: attempts, any other operation of the two stores, and
    work outside of the stores. *)

Inductive work : Type :=
| Attempt (a : attempt)
| StoreWork {X} (o : storeE X)
| CibaWork {X} (o : cibaE X)
| OtherWork (q : prog sysE bool).
Definition perform (wk : work) : prog sysE bool :=
  match wk with
  | Attempt a => run_attempt a
  | StoreWork o => _ ← firestore_store_op _ o; mret false
  | CibaWork o => _ ← firestore_ciba_op _ o; mret false
  | OtherWork q => q
  end.
(** Work that opens the resource: saving a record under the same identifier, or
    deciding a request as pending. *)
Definition renews (r : resource) (wk : work) : Prop :=
  match wk with
  | Attempt a => decisive a = false
  | StoreWork (SaveInteraction i) => ("interactions", in_uid i) = (rc_col r, rc_id r)
  | StoreWork (SaveCode c) => ("authCodes", ac_code c) = (rc_col r, rc_id r)
  | StoreWork (SaveAccessToken t) => ("accessTokens", at_token t) = (rc_col r, rc_id r)
  | StoreWork (SaveRefreshToken t) => ("refreshTokens", rt_token t) = (rc_col r, rc_id r)
  | CibaWork (TransitionIfPending _ st) => st = Pending
  | _ => False
  end.
Definition other_thread (pool : list work) (j : nat) : Prop := exists q, pool !! j = Some (OtherWork q).

Section tame.
Context (r : resource).
Abbreviation quiet := (quiet_event (rc_col r) (rc_id r) (rc_open r) (rc_ends r)).

(** An operation that never opens the resource, whatever it is answered. *)
Definition quiet_op {X} (e : sysE X) : Prop :=
  match e with FsOp o => named o = true /\ forall x, not_reopening (rc_col r) (rc_id r) (rc_open r) (rc_ends r) _ o x | _ => True end.
(** Answers of a service whose documents are objects, and of a source of identifiers
    that does not draw the one of the resource again. *)
Definition answer_fits {X} (e : sysE X) : X -> Prop :=
  match e in sysE X return X -> Prop with
  | FsOp o =>
      match o in fsE X return X -> Prop with
      | GetDocWithUpdateTime _ _ => fun x => forall f v, x = Ok (Some (f, v)) -> is_object f
      | _ => fun _ => True
      end
  | UuidV4 => fun x => x <> rc_id r
  | _ => fun _ => True
  end.
Fixpoint tame {A} (p : prog sysE A) : Prop :=
  match p with
  | Ret _ => True
  | Vis e k => quiet_op e /\ forall x, answer_fits e x -> tame (k x)
  end.
Lemma tame_bind {A B} (p : prog sysE A) (f : A -> prog sysE B) : tame p -> (forall a, tame (f a)) -> tame (p ≫= f).
Proof.
  induction p as [a|X e k IH]; cbn [tame mbind prog_bind prog_bind_go]; intros Hp Hf; [apply Hf|].
  destruct Hp as [Hq Hk]. split; [done|]. intros x Hx. apply IH; [by apply Hk | done].
Qed.

(** The events of a tame thread are quiet, and so is a run of tame threads. *)
Lemma quiet_op_event j X (e : sysE X) x : quiet_op e -> quiet (Ev j e x).
Proof. destruct e as [| | | X o]; [done..|]. intros [Hn Hr]. split; [exact Hn | apply Hr]. Qed.
Lemma steps_quiet (B : FsBackend) `{!DocDb B} (other : nat -> Prop) (cf cf' : cfg sysE sys_world bool) tr :
  steps sys_handler sys_env cf tr cf' -> db_ok (sw_db cf.2) ->
  (forall j p, cf.1 !! j = Some p -> other j \/ tame p) ->
  (forall j ev, ev ∈ tr -> of_thread j ev -> other j -> quiet ev) ->
  (forall j, Ev j UuidV4 (rc_id r) ∉ tr) -> Forall quiet tr.
Proof.
  induction 1 as [c | c ev c' tr c'' Hstep _ IH]; intros Hdb Hall Hother Hid; [constructor|].
  assert (Hother' : forall j ev', ev' ∈ tr -> of_thread j ev' -> other j -> quiet ev') by (intros; eapply Hother; [by right|done..]).
  assert (Hid' : forall j, Ev j UuidV4 (rc_id r) ∉ tr) by (intros j Hin; apply (Hid j); by right).
  destruct Hstep as [j X e k ps s x s' Hj Hh | ps s s' Henv]; cbn [fst snd] in *.
  2:{ constructor; [done|]. apply IH; [|done..]. by destruct Henv. }
  assert (Hq : quiet (Ev j e x)).
  { destruct (Hall j _ Hj) as [Ho|[Hq _]]; [by apply (Hother j (Ev j e x)); [left|..] | by apply quiet_op_event]. }
  constructor; [exact Hq|].
  assert (Hnext : db_ok (sw_db s') /\ answer_fits e x).
  { destruct e as [| | | Y o]; try (simpl in Hh; injection Hh as <- <-; split; [exact Hdb | done]).
    - split; [by simpl in Hh; injection Hh as _ <-|]. simpl. intros ->. apply (Hid j). by left.
    - pose proof (sys_step_db B Y o s x s' Hh) as Hd. destruct (doc_law Y o _ x _ Hdb (proj1 Hq) Hd) as [Hok Hs].
      split; [done|]. destruct o; try done. simpl. intros f v ->. simpl in Hs. destruct Hs as [_ Hr].
      exact (doc_object _ _ _ _ _ Hdb (eq_sym (Hr _ eq_refl))). }
  destruct Hnext as [Hdb' Hx]. apply IH; [done | | done | done].
  intros j' p Hp. destruct (decide (j' = j)) as [->|Hne].
  - rewrite list_lookup_insert_eq in Hp; [|exact (lookup_lt_Some _ _ _ Hj)]. injection Hp as <-.
    destruct (Hall j _ Hj) as [Ho|[_ Hk]]; [by left | right; by apply Hk].
  - rewrite list_lookup_insert_ne in Hp by done. by apply Hall.
Qed.
End tame.

Lemma ciba_fields_object q : is_object (br_fields q).
Proof. unfold br_fields. destruct (br_authorization_details q); by eexists. Qed.

Section operations.
Context (b : attempt).
Abbreviation quiet_op := (quiet_op (resource_of b)).
Abbreviation tame := (tame (resource_of b)).

Lemma quiet_set c i f :
  collection_name c = true -> is_object f ->
  ((c, i) = (rc_col (resource_of b), rc_id (resource_of b)) ->
     rc_ends (resource_of b) <> Deleted /\ rc_open (resource_of b) f = false) -> quiet_op (FsOp (SetDoc c i f)).
Proof. intros Hc Hf Ho. split; [by apply named_set|]. intros x. exact Ho. Qed.
Lemma quiet_set_if c i f v :
  collection_name c = true -> is_object f ->
  ((c, i) = (rc_col (resource_of b), rc_id (resource_of b)) ->
     rc_ends (resource_of b) = Deleted \/ rc_open (resource_of b) f = false) ->
  quiet_op (FsOp (SetDocIfUnchanged c i f v)).
Proof. intros Hc Hf Ho. split; [by apply named_set_if|]. intros x. exact Ho. Qed.
Lemma codes_marked id : ("authCodes", id) = (rc_col (resource_of b), rc_id (resource_of b)) ->
  rc_ends (resource_of b) = Marked /\ rc_open (resource_of b) = not_marked "used".
Proof. by destruct b. Qed.
Lemma quiet_delete c i : collection_name c = true -> c <> "authCodes" -> quiet_op (FsOp (DeleteDoc c i)).
Proof. intros Hc Hne. split; [unfold named; simpl; by rewrite Hc|]. intros x. simpl. by destruct b; intros [= Heq]. Qed.
Lemma quiet_delete_if c i v : collection_name c = true -> c <> "authCodes" -> quiet_op (FsOp (DeleteDocIfUnchanged c i v)).
Proof. intros Hc Hne. split; [unfold named; simpl; by rewrite Hc|]. intros x. simpl. by destruct b; intros [= Heq]. Qed.

(** A conditional write of the document just read. *)
Lemma tame_update {A} c i (k : result string (option (Value * string)) -> prog sysE A) :
  collection_name c = true -> (forall x, (forall f v, x = Ok (Some (f, v)) -> is_object f) -> tame (k x)) ->
  tame (Vis (FsOp (GetDocWithUpdateTime c i)) k).
Proof. intros Hc Hk. split; [by split; [unfold named; simpl; rewrite Hc|]|]. intros x Hx. by apply Hk. Qed.

Lemma tame_consume_request id : tame (fsc_consume id).
Proof.
  apply tame_update; [done|]. intros [[[f v]|]|e] Hf; [|done..]. cbn. destruct (bool_decide _); cbn; [|done].
  split; [by apply quiet_delete_if|]. by intros [[]|] _.
Qed.
Lemma tame_transition id st : st <> Pending -> decisive b = true -> tame (fsc_transition id st).
Proof.
  intros Hst Hb. apply tame_update; [done|]. intros [[[f v]|]|e] Hf; [|done..]. cbn. destruct (bool_decide _); cbn; [|done].
  split; [|done]. apply quiet_set_if; [done | apply ciba_fields_object|].
  destruct b; cbn; try by intros [= ?]. 1: intros _; right; by apply decided_closed. by left.
Qed.
Lemma tame_take_code code : tame (fss_take_code code).
Proof.
  apply tame_update; [done|]. intros [[[f v]|]|e] Hf; [|done..]. specialize (Hf f v eq_refl). cbn.
  destruct (default false (field_bool f "used")); cbn.
  - assert (Hd : forall c o, collection_name c = true -> c <> "authCodes" -> tame (delete_if_some c o)).
    { intros c [o|] Hc Hne; [|done]. split; [by apply quiet_delete | done]. }
    apply (tame_bind _ (delete_if_some _ _)); [by apply Hd|]. intros _. apply (tame_bind _ (delete_if_some _ _)); [by apply Hd | done].
  - split; [|done]. apply quiet_set_if; [done | auto with oidc|]. intros Heq. right.
    destruct (codes_marked _ Heq) as [_ ->]. by apply marked_closed.
Qed.
Lemma tame_mark_refresh token rep : tame (fss_mark_refresh_used token rep).
Proof.
  apply tame_update; [done|]. intros [[[f v]|]|e] Hf; [|done..]. specialize (Hf f v eq_refl). cbn.
  destruct (default false (field_bool f "used")); cbn; [done|]. split; [|done].
  apply quiet_set_if; [done | auto with oidc|]. destruct b; cbn; try by intros [= ?]. intros _. right.
  rewrite set_opt_marked by done. by apply marked_closed.
Qed.
Lemma tame_consume_mandate token : tame (fss_consume_mandate_if_unused token).
Proof.
  apply tame_update; [done|]. intros [[[f v]|]|e] Hf; [|done..]. specialize (Hf f v eq_refl). split; [done|]. intros t _.
  cbn [prog_bind prog_bind_go]. destruct (doc_expired t f); [exact I|]. destruct (default false (field_bool f "mandateConsumed")); [exact I|]. split; [|done].
  apply quiet_set_if; [done | auto with oidc|]. destruct b; cbn; try by intros [= ?]. intros _. right. by apply marked_closed.
Qed.
Lemma tame_consume_interaction uid : tame (fss_consume_interaction uid).
Proof.
  apply tame_update; [done|]. intros [[[f v]|]|e] Hf; [|done..]. split; [by apply quiet_delete_if|]. by intros [[]|] _.
Qed.
Lemma attempt_tame a : decisive a = true -> decisive b = true -> tame (run_attempt a).
Proof.
  intros Ha Hb. destruct a; cbn [run_attempt decisive] in *.
  - apply bool_decide_eq_true in Ha. apply tame_bind; [by apply tame_transition | done].
  - apply tame_bind; [apply tame_consume_request | by intros [[?|]|]].
  - apply tame_bind; [apply tame_take_code | done].
  - apply tame_mark_refresh.
  - apply tame_bind; [apply tame_consume_mandate | done].
  - apply tame_consume_interaction.
Qed.

(** *** The stores *)

Lemma tame_get_live {T} col id (of_doc : Value -> T) : collection_name col = true -> tame (fs_get_live col id of_doc).
Proof.
  intros Hc. split; [by split; [unfold named; simpl; rewrite Hc|]|]. intros [[f|]|] _; [by split|done..].
Qed.
Lemma tame_revoke_loop guard cur : tame (fss_revoke_loop guard cur).
Proof.
  revert cur. induction guard as [|guard IH]; intros [t|]; [done..| |done].
  split; [done|]. intros x _. split; [by apply quiet_delete|]. intros y _. apply IH.
Qed.
Lemma tame_link c a r : tame (fss_link_issued_tokens c a r).
Proof.
  split; [|done]. split; [by apply named_merge; auto with oidc|]. intros x Heq. destruct (codes_marked _ Heq) as [-> ->].
  split; [done|]. split; [by destruct r|]. intros f0 f' Hf Hov. unfold not_marked, field_bool in *.
  rewrite Hov, get_set_opt_ne by done. exact Hf.
Qed.
Lemma tame_find_account sub : tame (fss_find_account sub).
Proof.
  unfold fss_find_account, get_profile, find_email_by_account_id. apply tame_bind.
  - apply tame_bind; [|by intros [[?|]|]]. by split.
  - intros s. apply tame_bind; [|done]. apply tame_bind; [by split | by intros [?|]].
Qed.
Lemma tame_store {X} (o : storeE X) : ~ renews (resource_of b) (StoreWork o) -> tame (firestore_store_op X o).
Proof.
  intros Hr. destruct o; cbn [firestore_store_op renews] in *.
  all: first [ by apply tame_get_live | apply tame_consume_interaction | apply tame_take_code | apply tame_link
    | apply tame_consume_mandate | apply tame_mark_refresh | apply tame_revoke_loop | apply tame_find_account
    | by split; [by apply quiet_delete|] | idtac ].
  1,2,4,5: split; [done|]; intros now _; cbn [prog_bind prog_bind_go].
  all: split; [|done]; apply quiet_set; [done | |].
  all: try (unfold interaction_doc, session_doc, code_doc, access_doc, refresh_doc; auto 20 with oidc; fail).
  all: try (intros Heq; by destruct (Hr Heq)).
  intros Heq. by destruct b.
Qed.
Lemma tame_create cl ac sc bm ad : tame (fsc_create cl ac sc bm ad).
Proof.
  split; [done|]. intros id Hid. split; [done|]. intros now _. split; [|by intros [[]|]].
  apply quiet_set; [done | apply ciba_fields_object|]. intros [= _ Heq]. by destruct Hid.
Qed.
Lemma tame_live_rows rows : tame (fsc_live_rows rows).
Proof.
  induction rows as [|[id f] rows IH]; [done|]. cbn [fsc_live_rows]. destruct (bool_decide _); [|done].
  split; [done|]. intros t _. by apply (tame_bind _ (fsc_live_rows rows)).
Qed.
Lemma tame_history e : tame (fsc_record_history e).
Proof. split; [|done]. apply quiet_set; [done | by eexists|]. by destruct b. Qed.
Lemma tame_sweep_rows t n rows : tame (fsc_sweep_rows t n rows).
Proof.
  revert n. induction rows as [|[id f] rows IH]; intros n; [done|]. cbn [fsc_sweep_rows].
  destruct (bool_decide _); [|done]. split; [done|]. intros t' _. cbn [prog_bind prog_bind_go].
  destruct (br_expired t' _); [|apply IH]. apply (tame_bind _ (fsc_record_history _)); [apply tame_history|]. intros _.
  apply (tame_bind _ (fsc_delete _)); [by split; [apply quiet_delete|]|]. intros _. apply IH.
Qed.
Lemma tame_ciba {X} (o : cibaE X) :
  decisive b = true -> ~ renews (resource_of b) (CibaWork o) -> tame (firestore_ciba_op X o).
Proof.
  intros Hb Hr. destruct o; cbn [firestore_ciba_op renews] in *.
  - apply tame_create.
  - split; [done|]. by intros [?|] _.
  - by apply tame_transition.
  - apply tame_consume_request.
  - by split; [apply quiet_delete|].
  - split; [done|]. intros [rows|] _; [|done]. apply (tame_bind _ (fsc_live_rows _)); [apply tame_live_rows | done].
  - apply tame_history.
  - split; [done|]. by intros [?|] _.
  - split; [done|]. intros [rows|] _; [|done]. split; [done|]. intros t _.
    apply (tame_bind _ (fsc_sweep_rows _ _ _)); [apply tame_sweep_rows | done].
Qed.
Lemma work_tame wk :
  decisive b = true -> ~ renews (resource_of b) wk -> (exists q, wk = OtherWork q) \/ tame (perform wk).
Proof.
  intros Hb Hr. destruct wk as [a|X o|X o|q]; cbn [perform]; [right..|left; eauto].
  - apply attempt_tame; [|done]. cbn [renews] in Hr. by destruct (decisive a).
  - apply tame_bind; [by apply tame_store | done].
  - apply tame_bind; [by apply tame_ciba | done].
Qed.
End operations.
End facts.

(** C6: whatever the processes do and in whatever order their operations happen, of two attempts to
    spend the same request, code, refresh token, mandate or interaction in the shared
    database at most one succeeds.  Any number of other attempts and of any other
    operations of the two stores may run meanwhile, as long as none saves a record under
    the same identifier; what runs outside of the stores must leave the document alone. *)
Theorem single_use_across_processes `{Externals} (B : FsBackend) `{!DocDb B} (pool : list work) ps' s tr s' i1 i2 a1 a2 b :
  db_ok (sw_db s) -> steps sys_handler sys_env (map perform pool, s) tr (ps', s') ->
  Forall (fun wk => ~ renews (resource_of a1) wk) pool -> (forall j, Ev j UuidV4 (rc_id (resource_of a1)) ∉ tr) ->
  (forall j ev, other_thread pool j -> ev ∈ tr -> of_thread j ev ->
     quiet_event (rc_col (resource_of a1)) (rc_id (resource_of a1)) (rc_open (resource_of a1)) (rc_ends (resource_of a1)) ev) ->
  i1 <> i2 -> pool !! i1 = Some (Attempt a1) -> pool !! i2 = Some (Attempt a2) -> resource_of a1 = resource_of a2 ->
  ps' !! i1 = Some (Ret true) -> ps' !! i2 = Some (Ret b) -> b = false.
Proof.
  intros Hdb Hst Hren Hid Hother Hne H1 H2 Heq Hr1 Hr2.
  assert (Hdec : forall i a, pool !! i = Some (Attempt a) -> decisive a = true).
  { intros i a Hi. pose proof (proj1 (Forall_lookup _ _) Hren i _ Hi) as Hn. cbn [renews] in Hn. by destruct (decisive a). }
  pose proof (Hdec _ _ H1) as Hd1. pose proof (Hdec _ _ H2) as Hd2.
  assert (Hq : Forall (quiet_event (rc_col (resource_of a1)) (rc_id (resource_of a1)) (rc_open (resource_of a1)) (rc_ends (resource_of a1))) tr).
  { eapply (steps_quiet (resource_of a1) B (other_thread pool)); [exact Hst | exact Hdb | | by intros; eapply Hother | exact Hid].
    intros j p Hp. cbn [fst] in Hp. apply list_lookup_fmap_Some in Hp as (wk & -> & Hwk).
    destruct (work_tame a1 wk Hd1 (proj1 (Forall_lookup _ _) Hren j _ Hwk)) as [[q ->]|?]; [left; by exists q | by right]. }
  apply not_true_is_false. pose proof (attempt_spends a2 Hd2) as Hs2. rewrite <- Heq in Hs2.
  assert (Hp : forall i a, pool !! i = Some (Attempt a) -> map perform pool !! i = Some (run_attempt a)).
  { intros i a Hi. by rewrite list_lookup_fmap, Hi. }
  by eapply (one_good_outcome B _ _ _ _ (fun b => b = true) _ ps' s tr s' i1 i2 _ _ true b Hdb Hst Hq Hne (Hp _ _ H1) (Hp _ _ H2)
    (attempt_spends a1 Hd1) Hs2 Hr1 Hr2).
Qed.
