(* ===== verification/Provider.v ===== *)
(** * The provider: its registries, its operations, its state

    [src/src/provider.rs].  [Provider] is the configuration (the registries of
    trait objects are finite maps to enumerations of the implementations), [provE]
    the operations a request handler awaits, [world] the state behind them and
    [prov_handler] their execution on the in-memory stores. *)

From S2P Require Import Prelude Prog Json Model Firestore Externals Sys Nonce Ciba DcrStore Store.

#[local] Open Scope Z_scope.

(** ** Trait objects *)

Inductive AuthorizationCheck : Type := CheckResponseType | CheckScope | CheckPkce.
Inductive GrantHandler : Type := AuthorizationCodeGrant | RefreshTokenGrant | CibaGrant.
Inductive ClientAuthMethod : Type := NoneAuth | ClientSecretBasic | PrivateKeyJwt.
Inductive ResponseMode : Type := QueryMode.

Definition grant_type (g : GrantHandler) : string :=
  match g with
  | AuthorizationCodeGrant => "authorization_code"
  | RefreshTokenGrant => "refresh_token"
  | CibaGrant => "urn:openid:params:grant-type:ciba"
  end.
Definition auth_method (a : ClientAuthMethod) : string :=
  match a with
  | NoneAuth => "none"
  | ClientSecretBasic => "client_secret_basic"
  | PrivateKeyJwt => "private_key_jwt"
  end.
Definition mode_name (m : ResponseMode) : string := match m with QueryMode => "query" end.

(** A signing key: local or remote, it answers with the compact serialization. *)
Record JwsSigner := mkJwsSigner {
  sg_alg : string;
  sg_sign : Value -> string;
  sg_public_jwk : Value
}.

(** Where a nonce table lives. *)
Inductive nonce_table : Type := DpopJti | AssertionJti | JarJti.
Inductive nonce_backend : Type := MemoryNonce | FirestoreNonce.
Inductive rate_table : Type := CibaRate | RegisterRate.
#[export] Instance nonce_table_eq_dec : EqDecision nonce_table.
Proof. solve_decision. Defined.
#[export] Instance rate_table_eq_dec : EqDecision rate_table.
Proof. solve_decision. Defined.

(** [p_firestore] says whether a database is configured ([Some] in the code). *)
Record Provider := mkProvider {
  p_issuer : string;
  p_base_path : string;
  p_signer : JwsSigner;
  p_extra_signers : list JwsSigner;
  p_firestore : bool;
  p_nonce : nonce_table -> nonce_backend;
  p_clients : gmap string Client;
  p_checks : list AuthorizationCheck;
  p_grants : gmap string GrantHandler;
  p_client_auth : gmap string ClientAuthMethod;
  p_response_modes : gmap string ResponseMode;
  p_invite_clients : list string
}.

Definition register_grant (g : GrantHandler) (m : gmap string GrantHandler) := <[grant_type g := g]> m.
Definition register_auth (a : ClientAuthMethod) (m : gmap string ClientAuthMethod) :=
  <[auth_method a := a]> m.

Definition Provider_new (issuer : string) (signer : JwsSigner) : Provider :=
  mkProvider issuer "" signer [] false (fun _ => MemoryNonce) ∅
    [CheckResponseType; CheckScope; CheckPkce]
    (register_grant CibaGrant (register_grant RefreshTokenGrant (register_grant AuthorizationCodeGrant ∅)))
    (register_auth PrivateKeyJwt (register_auth ClientSecretBasic (register_auth NoneAuth ∅)))
    (<[mode_name QueryMode := QueryMode]> ∅) [].

Definition with_client (c : Client) (p : Provider) : Provider :=
  mkProvider (p_issuer p) (p_base_path p) (p_signer p) (p_extra_signers p) (p_firestore p) (p_nonce p)
    (<[cl_client_id c := c]> (p_clients p)) (p_checks p) (p_grants p) (p_client_auth p)
    (p_response_modes p) (p_invite_clients p).

Definition with_base_path (base_path : string) (p : Provider) : Provider :=
  mkProvider (p_issuer p) base_path (p_signer p) (p_extra_signers p) (p_firestore p) (p_nonce p) (p_clients p) (p_checks p)
    (p_grants p) (p_client_auth p) (p_response_modes p) (p_invite_clients p).
Definition with_invite_clients (ids : list string) (p : Provider) : Provider :=
  mkProvider (p_issuer p) (p_base_path p) (p_signer p) (p_extra_signers p) (p_firestore p) (p_nonce p) (p_clients p)
    (p_checks p) (p_grants p) (p_client_auth p) (p_response_modes p) ids.
(** A nonce table on the database: of request objects by [with_firestore], of DPoP proofs
    by [with_dpop], of client assertions by the method put in its place. *)
Definition with_nonce_store (t : nonce_table) (p : Provider) : Provider :=
  mkProvider (p_issuer p) (p_base_path p) (p_signer p) (p_extra_signers p) (p_firestore p)
    (fun t' => if decide (t' = t) then FirestoreNonce else p_nonce p t') (p_clients p) (p_checks p)
    (p_grants p) (p_client_auth p) (p_response_modes p) (p_invite_clients p).
Definition with_firestore (p : Provider) : Provider :=
  let p := with_nonce_store JarJti p in
  mkProvider (p_issuer p) (p_base_path p) (p_signer p) (p_extra_signers p) true (p_nonce p) (p_clients p) (p_checks p)
    (p_grants p) (p_client_auth p) (p_response_modes p) (p_invite_clients p).
Definition with_signer (signer : JwsSigner) (p : Provider) : Provider :=
  mkProvider (p_issuer p) (p_base_path p) signer (p_extra_signers p) (p_firestore p) (p_nonce p) (p_clients p) (p_checks p)
    (p_grants p) (p_client_auth p) (p_response_modes p) (p_invite_clients p).
Definition add_signer (signer : JwsSigner) (p : Provider) : Provider :=
  mkProvider (p_issuer p) (p_base_path p) (p_signer p) (p_extra_signers p ++ [signer]) (p_firestore p) (p_nonce p)
    (p_clients p) (p_checks p) (p_grants p) (p_client_auth p) (p_response_modes p) (p_invite_clients p).

(** ** Operations and state *)

Inductive provE : Type -> Type :=
| SysOp {X} (o : sysE X) : provE X
| StoreOp {X} (o : storeE X) : provE X
| CibaOp {X} (o : cibaE X) : provE X
| MemoryClaim (t : nonce_table) (key : string) (ttl : Z) : provE bool
| RateCheck (t : rate_table) (k1 k2 : string) : provE bool
| JwksResolve (uri kid : string) : provE (option JwkPub)
| SendMail (to subject html : string) : provE (result string unit).

Definition sys {A} (p : prog sysE A) : prog provE A := translate (@SysOp) p.
Definition now : prog provE Z := sys now_secs.
Definition fresh_id : prog provE string := sys opaque.
Definition store {X} (o : storeE X) : prog provE X := trigger (StoreOp o).
Definition ciba {X} (o : cibaE X) : prog provE X := trigger (CibaOp o).
Definition rate_check (t : rate_table) (k1 k2 : string) : prog provE bool := trigger (RateCheck t k1 k2).

(** [NonceStore::claim]; [ttl] in seconds. *)
Definition claim (p : Provider) (t : nonce_table) (key : string) (ttl : Z) : prog provE bool :=
  match p_nonce p t with
  | MemoryNonce => trigger (MemoryClaim t key (ttl * NS))
  | FirestoreNonce => sys (firestore_claim key ttl)
  end.

Section provider.
Context `{Externals}.

Definition resolve_client (p : Provider) (id : string) : prog provE (option Client) :=
  match p_clients p !! id with
  | Some c => mret (Some c)
  | None => if p_firestore p then sys (load_client id) else mret None
  end.
End provider.

Definition signer_for (p : Provider) (alg : option string) : result OAuthError JwsSigner :=
  match alg with
  | None => Ok (p_signer p)
  | Some a =>
      if bool_decide (a = sg_alg (p_signer p)) then Ok (p_signer p)
      else ok_or (ServerError ("no signer registered for alg " +:+ a))
             (list_find_first (fun s => bool_decide (sg_alg s = a)) (p_extra_signers p))
  end.

Definition all_signers (p : Provider) : list JwsSigner := p_signer p :: p_extra_signers p.

Definition path (p : Provider) (suffix : string) : string := p_base_path p +:+ suffix.

(** [split(sep).next()] and [.nth(1)] with a text separator. *)
Definition scheme_of (s : string) : string :=
  match str_split_once_str "://" s with Some (l, _) => l | None => s end.
Definition after_scheme (s : string) : string :=
  match str_split_once_str "://" s with
  | Some (_, r) => match str_split_once_str "://" r with Some (m, _) => m | None => r end
  | None => s
  end.
Definition first_of (c : ascii) (s : string) : string :=
  match str_split c s with x :: _ => x | [] => s end.
Definition origin (p : Provider) : string :=
  scheme_of (p_issuer p) +:+ "://" +:+ first_of "/"%char (after_scheme (p_issuer p)).
Definition rp_id (p : Provider) : string :=
  first_of ":"%char (first_of "/"%char (after_scheme (p_issuer p))).

(** The answers of the JWKS resolver and of the mail service. *)
Class Services := {
  jwks_resolve : string -> string -> option JwkPub;
  mail_deliver : string -> string -> string -> result string unit
}.

Record world `{FsBackend} := mkWorld {
  w_clk : Z;
  w_uuid : nat;
  w_rand : nat;
  w_db : fs_db;
  w_store : MemoryStore;
  w_ciba : MemoryCibaStore;
  w_nonces : nonce_table -> gmap string Z;
  w_rates : rate_table -> CibaRateLimiter
}.
Arguments mkWorld {_}.

Section handler.
Context `{Externals, FsBackend, Services}.

Definition set_store (s : MemoryStore) (w : world) : world :=
  mkWorld (w_clk w) (w_uuid w) (w_rand w) (w_db w) s (w_ciba w) (w_nonces w) (w_rates w).
Definition set_ciba (n : nat) (s : MemoryCibaStore) (w : world) : world :=
  mkWorld (w_clk w) n (w_rand w) (w_db w) (w_store w) s (w_nonces w) (w_rates w).
Definition set_nonces (f : nonce_table -> gmap string Z) (w : world) : world :=
  mkWorld (w_clk w) (w_uuid w) (w_rand w) (w_db w) (w_store w) (w_ciba w) f (w_rates w).
Definition set_rates (f : rate_table -> CibaRateLimiter) (w : world) : world :=
  mkWorld (w_clk w) (w_uuid w) (w_rand w) (w_db w) (w_store w) (w_ciba w) (w_nonces w) f.
Definition set_sys (s : sys_world) (w : world) : world :=
  mkWorld (sw_clk s) (sw_uuid s) (sw_rand s) (sw_db s) (w_store w) (w_ciba w) (w_nonces w) (w_rates w).
Definition sys_of (w : world) : sys_world := mkSysWorld (w_clk w) (w_uuid w) (w_rand w) (w_db w).

Definition prov_handler : handler provE world :=
  fun X e w =>
    match e in provE X return X * world with
    | SysOp o => let '(x, s) := sys_handler _ o (sys_of w) in (x, set_sys s w)
    | StoreOp o => let '(x, s) := mem_op (secs_of (w_clk w)) o (w_store w) in (x, set_store s w)
    | CibaOp o =>
        let '(x, s) := mem_ciba_op (secs_of (w_clk w)) (uuid_v4 (w_uuid w)) o (w_ciba w) in
        (x, set_ciba (match o with CibaCreate _ _ _ _ _ => S (w_uuid w) | _ => w_uuid w end) s w)
    | MemoryClaim t key ttl =>
        let '(b, m) := memory_claim (w_clk w) key ttl (w_nonces w t) in
        (b, set_nonces (fun t' => if decide (t' = t) then m else w_nonces w t') w)
    | RateCheck t k1 k2 =>
        let '(b, l) := check_and_record (w_clk w) k1 k2 (w_rates w t) in
        (b, set_rates (fun t' => if decide (t' = t) then l else w_rates w t') w)
    | JwksResolve uri kid => (jwks_resolve uri kid, w)
    | SendMail to subject html => (mail_deliver to subject html, w)
    end.

(** Between two awaits of a request, time passes, the store's background sweep
    runs, other work of the process draws identifiers and random bytes, and other
    processes write to the database. *)
Inductive prov_env : world -> world -> Prop :=
| env_tick w t : w_clk w <= t ->
    prov_env w (mkWorld t (w_uuid w) (w_rand w) (w_db w) (w_store w) (w_ciba w) (w_nonces w) (w_rates w))
| env_sweep w : prov_env w (set_store (sweep_expired (secs_of (w_clk w)) (w_store w)) w)
| env_draw w n m : (w_uuid w <= n)%nat -> (w_rand w <= m)%nat ->
    prov_env w (mkWorld (w_clk w) n m (w_db w) (w_store w) (w_ciba w) (w_nonces w) (w_rates w))
| env_db w db :
    prov_env w (mkWorld (w_clk w) (w_uuid w) (w_rand w) db (w_store w) (w_ciba w) (w_nonces w) (w_rates w)).
End handler.
