(* ===== verification/ProviderFacts.v ===== *)
(** * The provider's state under its operations

    The stores are components of the provider's world: their one-shot resources are
    one-shot resources of the whole server.  Clocks never run backwards and an
    unexpired nonce is never forgotten, in memory or on Firestore. *)

From S2P Require Import Prelude Prog Json Model Calendar Firestore Externals Sys DocStore Nonce Ciba CibaFacts.
From S2P Require Import DcrStore Store StoreFacts Provider.

#[local] Open Scope Z_scope.

Lemma run_wexec {E S A} (h : handler E S) env (p : prog E A) s :
  exists tr, wexec h env s tr (run h p s).2.
Proof.
  destruct (run_steps h env p [p] 0 s eq_refl) as [tr Htr].
  exists tr. exact (steps_wexec _ _ _ _ _ Htr).
Qed.

Lemma secs_mono a b : a <= b -> secs_of a <= secs_of b.
Proof. apply Z.div_le_mono. done. Qed.

Section facts.
Context `{Externals, FsBackend, Services}.

Lemma sys_handler_clk X (o : sysE X) w : sw_clk (sys_handler X o w).2 = sw_clk w.
Proof. destruct o; simpl; try done. by destruct (fs_handle _ _ _). Qed.
Lemma sys_handler_uuid X (o : sysE X) w : (sw_uuid w <= sw_uuid (sys_handler X o w).2)%nat.
Proof. destruct o; simpl; try lia. destruct (fs_handle _ _ _); simpl; lia. Qed.

(** ** Components of the world *)

Definition as_store_op X (e : provE X) : option (storeE X) :=
  match e in provE X return option (storeE X) with StoreOp o => Some o | _ => None end.
Definition as_ciba_op X (e : provE X) : option (cibaE X) :=
  match e in provE X return option (cibaE X) with CibaOp o => Some o | _ => None end.
Definition store_part (w : world) : mem_world := (secs_of (w_clk w), w_store w).
Definition ciba_part (w : world) : ciba_world := mkCibaWorld (secs_of (w_clk w)) (w_uuid w) (w_ciba w).

Lemma mem_env_refl w : mem_env w w.
Proof. destruct w. by apply mem_tick. Qed.
Lemma ciba_env_refl w : ciba_env w w.
Proof. destruct w. by apply ciba_env_intro. Qed.

#[export] Instance store_embeds :
  Embeds mem_handler mem_env prov_handler prov_env as_store_op store_part.
Proof.
  split.
  - intros X e w x w' He. destruct e as [X o|X o|X o|t k ttl|t k1 k2|u k|to sub html]; simpl in *.
    + pose proof (sys_handler_clk X o (sys_of w)) as Hc.
      destruct (sys_handler X o (sys_of w)) as [y s]. simplify_eq/=. unfold store_part; simpl.
      rewrite Hc. apply mem_env_refl.
    + unfold mem_handler, store_part; simpl. destruct (mem_op _ o (w_store w)). by simplify_eq/=.
    + destruct (mem_ciba_op _ _ o _). simplify_eq/=. apply mem_env_refl.
    + destruct (memory_claim _ _ _ _). simplify_eq/=. apply mem_env_refl.
    + destruct (check_and_record _ _ _ _). simplify_eq/=. apply mem_env_refl.
    + simplify_eq. apply mem_env_refl.
    + simplify_eq. apply mem_env_refl.
  - intros w w' [? t Ht | ? | |]; unfold store_part; simpl.
    + apply mem_tick. by apply secs_mono.
    + apply mem_sweep.
    + apply mem_env_refl.
    + apply mem_env_refl.
Qed.

#[export] Instance ciba_embeds :
  Embeds ciba_handler ciba_env prov_handler prov_env as_ciba_op ciba_part.
Proof.
  split.
  - intros X e w x w' He. destruct e as [X o|X o|X o|t k ttl|t k1 k2|u k|to sub html]; simpl in *.
    + pose proof (sys_handler_clk X o (sys_of w)) as Hc.
      pose proof (sys_handler_uuid X o (sys_of w)) as Hu.
      destruct (sys_handler X o (sys_of w)) as [y s]. simplify_eq/=. unfold ciba_part; simpl in *.
      rewrite Hc. by apply ciba_env_intro.
    + destruct (mem_op _ o (w_store w)). simplify_eq/=. apply ciba_env_refl.
    + unfold ciba_handler, ciba_part; simpl. destruct (mem_ciba_op _ _ o _). simplify_eq/=. by destruct o.
    + destruct (memory_claim _ _ _ _). simplify_eq/=. apply ciba_env_refl.
    + destruct (check_and_record _ _ _ _). simplify_eq/=. apply ciba_env_refl.
    + simplify_eq. apply ciba_env_refl.
    + simplify_eq. apply ciba_env_refl.
  - intros w w' [? t Ht | ? | ? n m Hn Hm |]; unfold ciba_part; simpl; try apply ciba_env_refl;
      apply ciba_env_intro; try done. by apply secs_mono.
Qed.

(** ** Clocks and nonces *)

Lemma prov_handler_clk X (e : provE X) w : w_clk (prov_handler X e w).2 = w_clk w.
Proof.
  destruct e as [X o|X o|X o|t k ttl|t k1 k2|u k|to sub html]; simpl.
  - pose proof (sys_handler_clk X o (sys_of w)) as Hc. by destruct (sys_handler X o (sys_of w)).
  - by destruct (mem_op _ o (w_store w)).
  - by destruct (mem_ciba_op _ _ o _).
  - by destruct (memory_claim _ _ _ _).
  - by destruct (check_and_record _ _ _ _).
  - done.
  - done.
Qed.

Lemma run_clk {A} (p : prog provE A) w : w_clk (run prov_handler p w).2 = w_clk w.
Proof.
  revert w. induction p as [a|X e k IH]; intros w; simpl; [done|].
  pose proof (prov_handler_clk X e w) as Hc. destruct (prov_handler X e w) as [x w'].
  rewrite IH. exact Hc.
Qed.

Lemma wexec_clk w tr w' : wexec prov_handler prov_env w tr w' -> w_clk w <= w_clk w'.
Proof.
  induction 1 as [w | w i X e x w1 tr w' Hh _ IH | w w1 tr w' Henv _ IH]; [done| |].
  - pose proof (prov_handler_clk X e w) as Hc. rewrite Hh in Hc. simpl in Hc. lia.
  - destruct Henv; simpl in *; lia.
Qed.

Lemma prov_handler_nonce X (e : provE X) w t k exp :
  w_nonces w t !! k = Some exp -> w_clk w < exp -> w_nonces (prov_handler X e w).2 t !! k = Some exp.
Proof.
  intros Hk Hlt. destruct e as [X o|X o|X o|t' k' ttl|t' k1 k2|u k'|to sub html]; simpl.
  - by destruct (sys_handler X o (sys_of w)).
  - by destruct (mem_op _ o (w_store w)).
  - by destruct (mem_ciba_op _ _ o _).
  - pose proof (memory_claim_keeps (w_clk w) k' ttl (w_nonces w t') k exp) as Hm.
    destruct (memory_claim _ _ _ _) as [b m]. simpl in *. destruct (decide (t = t')) as [->|]; auto.
  - by destruct (check_and_record _ _ _ _).
  - done.
  - done.
Qed.

(** A nonce is remembered until its expiry, whatever happens meanwhile. *)
Lemma wexec_nonce w tr w' t k exp :
  wexec prov_handler prov_env w tr w' -> w_nonces w t !! k = Some exp -> w_clk w' < exp ->
  w_nonces w' t !! k = Some exp.
Proof.
  intros Hw. induction Hw as [w | w i X e x w1 tr w' Hh Hw IH | w w1 tr w' Henv Hw IH];
    intros Hk Hlt; [done| |].
  - pose proof (wexec_clk _ _ _ Hw) as Hc. pose proof (prov_handler_clk X e w) as Hc1.
    pose proof (prov_handler_nonce X e w t k exp Hk) as Hn. rewrite Hh in Hc1, Hn. simpl in *.
    apply IH; [apply Hn; lia | done].
  - apply IH; [by destruct Henv | done].
Qed.

(** A claim that succeeded in memory refuses its key until the expiry. *)
Lemma claim_run p t key ttl w :
  p_nonce p t = MemoryNonce ->
  run prov_handler (claim p t key ttl) w = prov_handler _ (MemoryClaim t key (ttl * NS)) w.
Proof. intros Hp. unfold claim. rewrite Hp. apply run_trigger. Qed.

Lemma claim_granted p t key ttl w :
  p_nonce p t = MemoryNonce -> (run prov_handler (claim p t key ttl) w).1 = true ->
  w_nonces (run prov_handler (claim p t key ttl) w).2 t !! key = Some (w_clk w + ttl * NS).
Proof.
  intros Hp. rewrite claim_run by done. simpl.
  destruct (memory_claim_spec (w_clk w) key (ttl * NS) (w_nonces w t)) as [Hm1 Hm2].
  destruct (memory_claim _ _ _ _) as [b m]. simpl in *. subst b. rewrite decide_True by done.
  intros Hb. by rewrite Hb in Hm2.
Qed.

Lemma claim_refused p t key ttl w exp :
  p_nonce p t = MemoryNonce -> w_nonces w t !! key = Some exp -> w_clk w < exp ->
  (run prov_handler (claim p t key ttl) w).1 = false.
Proof.
  intros Hp Hk Hlt. rewrite claim_run by done. simpl.
  pose proof (memory_claim_refuses (w_clk w) key (ttl * NS) (w_nonces w t) exp Hk Hlt) as Hr.
  by destruct (memory_claim _ _ _ _).
Qed.

(** A key claimed once is refused until its expiry, whatever runs in between. *)
Lemma no_second_claim p t key ttl ttl' w w1 tr w2 :
  p_nonce p t = MemoryNonce -> run prov_handler (claim p t key ttl) w = (true, w1) ->
  wexec prov_handler prov_env w1 tr w2 -> w_clk w2 < w_clk w + ttl * NS ->
  (run prov_handler (claim p t key ttl') w2).1 = false.
Proof.
  intros Hmem Hcl Htr Hlt. pose proof (claim_granted p t key ttl w Hmem) as Hg.
  rewrite Hcl in Hg. specialize (Hg eq_refl). simpl in Hg.
  eapply claim_refused; [done | by eapply wexec_nonce | done].
Qed.

Lemma run_now w : run prov_handler now w = (secs_of (w_clk w), w).
Proof. by destruct w. Qed.
End facts.

(** ** Replay tables on the shared database *)

(** A run without the events of [D]. *)
Lemma run_avoids {E S A} (h : handler E S) env (D : event E -> Prop) (q : prog E A) s :
  avoids D q -> exists tr, wexec h env s tr (run h q s).2 /\ Forall (fun ev => ~ D ev) tr.
Proof.
  revert s. induction q as [a|X e k IH]; simpl; intros s Hq; [exists []; by split; [constructor|]|].
  destruct (h X e s) as [x s'] eqn:He. destruct (Hq 0%nat x) as [Hd Hk].
  destruct (IH x s' Hk) as (tr & Htr & Hn). exists (Ev 0 e x :: tr). split; [by econstructor | by constructor].
Qed.
Lemma wexec_weaker {E S} (h : handler E S) (env env' : S -> S -> Prop) s tr s' :
  (forall a b, env a b -> env' a b) -> wexec h env s tr s' -> wexec h env' s tr s'.
Proof. intros He Hw. induction Hw; econstructor; eauto. Qed.

Section replay_tables.
Context `{Externals, Services} (B : FsBackend) `{!DocDb B}.

Definition with_db (db : fs_db) (w : world) : world :=
  mkWorld (w_clk w) (w_uuid w) (w_rand w) db (w_store w) (w_ciba w) (w_nonces w) (w_rates w).
(** The database operations that leave every document of the replay tables alone: in that
    collection they only read, or create an absent document. *)
Definition spares_nonces {X} (o : fsE X) : bool :=
  named o &&
  match o, target_of o with
  | CreateIfAbsent _ _ _, _ | _, None => true
  | _, Some (c, _) => negb (bool_decide (c = "nonces"))
  end.
Definition sparing {X} (e : provE X) : bool := match e with SysOp (FsOp o) => spares_nonces o | _ => true end.
Definition sparing_event (ev : event provE) : bool := match ev with Ev _ e _ => sparing e | EvEnv => true end.
(** The document of a claim, and whether the claims documented at [key] are over. *)
Definition nonce_until (exp : Z) : Value := Object [("expiresAt", fs_ts (rfc3339 exp))].
Definition nonce_over (w : world) (key : string) : Prop :=
  forall exp v, doc_at (w_db w) "nonces" key = Some (nonce_until exp, v) -> exp <= secs_of (w_clk w).
(** Other processes use the database in the same way, and its retention deletes what is
    over. *)
Inductive nonce_env : world -> world -> Prop :=
| nonce_quiet w w' : prov_env w w' -> w_db w' = w_db w -> nonce_env w w'
| nonce_other w X (o : fsE X) : spares_nonces o = true -> nonce_env w (with_db (fs_handle X o (w_db w)).2 w)
| nonce_expiry w key : nonce_over w key ->
    nonce_env w (with_db (fs_handle _ (DeleteDoc "nonces" key) (w_db w)).2 w).

(** What a replay table relies on: nothing in memory; on Firestore, the contract of the
    database, and that its documents are spared. *)
Definition replay_env (p : Provider) (t : nonce_table) : world -> world -> Prop :=
  match p_nonce p t with MemoryNonce => prov_env | FirestoreNonce => nonce_env end.
Definition replay_event (p : Provider) (t : nonce_table) (ev : event provE) : bool :=
  match p_nonce p t with MemoryNonce => true | FirestoreNonce => sparing_event ev end.
Definition replay_db (p : Provider) (t : nonce_table) (w : world) : Prop :=
  match p_nonce p t with MemoryNonce => True | FirestoreNonce => db_ok (w_db w) end.

Lemma nonce_env_prov w w' : nonce_env w w' -> prov_env w w'.
Proof. intros [? ? Hp _| |]; [exact Hp | apply env_db..]. Qed.
Lemma replay_env_prov p t w w' : replay_env p t w w' -> prov_env w w'.
Proof. unfold replay_env. destruct (p_nonce p t); [done | apply nonce_env_prov]. Qed.

(** What an operation of a request does to the database. *)
Lemma prov_handler_db X (e : provE X) w x w' :
  prov_handler X e w = (x, w') -> sparing e = true -> db_ok (w_db w) ->
  w_db w' = w_db w \/ exists Y (o : fsE Y) y, spares_nonces o = true /\ fs_handle Y o (w_db w) = (y, w_db w').
Proof.
  destruct e as [X o|X o|X o|t k ttl|t k1 k2|u k|to sub html]; simpl; intros He Hs _.
  - destruct o as [| | |X o]; simpl in He; [by simplify_eq/=; left..|].
    destruct (fs_handle X o (w_db w)) as [y db] eqn:Hh. simplify_eq/=. right. by exists X, o, x.
  - left. destruct (mem_op _ o (w_store w)). by simplify_eq/=.
  - left. destruct (mem_ciba_op _ _ o _). by simplify_eq/=.
  - left. destruct (memory_claim _ _ _ _). by simplify_eq/=.
  - left. destruct (check_and_record _ _ _ _). by simplify_eq/=.
  - left. by simplify_eq.
  - left. by simplify_eq.
Qed.

(** Sparing operations keep the contract and every document of the tables. *)
Lemma spares_step X (o : fsE X) db x db' key f v :
  spares_nonces o = true -> fs_handle X o db = (x, db') -> db_ok db ->
  db_ok db' /\ (doc_at db "nonces" key = Some (f, v) -> doc_at db' "nonces" key = Some (f, v)).
Proof.
  intros Hs Hh Hok. apply andb_true_iff in Hs as [Hn Hs]. destruct (doc_law X o db x db' Hok Hn Hh) as [Hok' Hst].
  split; [done|]. intros Hd. pose proof (doc_step_frame _ _ X o db x db' Hst) as Hf.
  destruct (target_of o) as [[c i]|] eqn:Ht; [|destruct Hf as [Hf _]; by rewrite Hf].
  destruct (decide (("nonces", key) = (c, i))) as [[= <- <-]|Hne]; [|destruct Hf as [Hf _]; by rewrite Hf].
  destruct o; simplify_eq/=; try (by rewrite bool_decide_eq_true_2 in Hs).
  destruct x as [[|]|e]; simpl in Hst.
  - destruct Hst as [Hst _]. congruence.
  - destruct Hst as [_ [Hst _]]. by rewrite Hst.
  - destruct Hst as [[Hst _]|[Hst _]]; [by rewrite Hst | congruence].
Qed.

Lemma nonce_env_keeps w w' key exp v :
  nonce_env w w' -> db_ok (w_db w) ->
  db_ok (w_db w') /\
  (secs_of (w_clk w) < exp -> doc_at (w_db w) "nonces" key = Some (nonce_until exp, v) ->
   doc_at (w_db w') "nonces" key = Some (nonce_until exp, v)).
Proof.
  intros Henv Hok. destruct Henv as [w w' _ -> | w X o Hs | w k Hover]; [done| |].
  - destruct (fs_handle X o (w_db w)) as [x db'] eqn:Hh. cbn.
    destruct (spares_step X o _ x db' key (nonce_until exp) v Hs Hh Hok). auto.
  - destruct (fs_handle _ (DeleteDoc "nonces" k) (w_db w)) as [x db'] eqn:Hh. cbn.
    destruct (doc_law _ (DeleteDoc "nonces" k) (w_db w) x db' Hok ltac:(done) Hh) as [Hok' Hst]. split; [done|].
    intros Hlt Hd. apply doc_step_frame in Hst. cbn in Hst. destruct Hst as [Hst _].
    rewrite Hst; [done|]. intros [= <-]. specialize (Hover exp v Hd). lia.
Qed.

Lemma nonce_exec w tr w' :
  wexec prov_handler nonce_env w tr w' -> Forall (fun ev => sparing_event ev = true) tr -> db_ok (w_db w) ->
  db_ok (w_db w') /\
  forall key exp v, secs_of (w_clk w') < exp -> doc_at (w_db w) "nonces" key = Some (nonce_until exp, v) ->
    doc_at (w_db w') "nonces" key = Some (nonce_until exp, v).
Proof.
  intros Hw. induction Hw as [w | w i X e x w1 tr w' Hh Hw IH | w w1 tr w' Henv Hw IH]; intros Hs Hok; [done|..];
    apply Forall_cons in Hs as [Hs Hss].
  - cbn in Hs. destruct (prov_handler_db X e w x w1 Hh Hs Hok) as [Heq|(Y & o & y & Hso & Ho)].
    + rewrite Heq in IH. auto.
    + destruct (spares_step Y o _ y _ "" Null "" Hso Ho Hok) as [Hok1 _]. destruct (IH Hss Hok1) as [Hok' Hk].
      split; [done|]. intros key exp v Hlt Hd. apply Hk; [done|].
      by apply (spares_step Y o _ y _ key (nonce_until exp) v Hso Ho Hok).
  - destruct (nonce_env_keeps w w1 "" 0 "" Henv Hok) as [Hok1 _]. destruct (IH Hss Hok1) as [Hok' Hk].
    split; [done|]. intros key exp v Hlt Hd. apply Hk; [done|].
    apply (nonce_env_keeps w w1 key exp v Henv Hok); [|done].
    pose proof (secs_mono _ _ (wexec_clk _ _ _ (wexec_weaker _ _ _ _ _ _ nonce_env_prov Hw))) as H1.
    pose proof (secs_mono _ _ (wexec_clk _ _ _ (wexec_weaker _ _ _ _ _ _ nonce_env_prov
      (wexec_env prov_handler nonce_env w w1 [] w1 Henv (wexec_nil prov_handler nonce_env w1))))) as H2. lia.
Qed.
Lemma replay_exec p t w tr w' :
  wexec prov_handler (replay_env p t) w tr w' -> Forall (fun ev => replay_event p t ev = true) tr ->
  replay_db p t w -> replay_db p t w'.
Proof. unfold replay_env, replay_event, replay_db. destruct (p_nonce p t); [done|]. apply nonce_exec. Qed.
(** A claim on Firestore is one creation of a document. *)
Definition claim_doc (key : string) (ttl : Z) (w : world) : fsE (result string bool) :=
  CreateIfAbsent "nonces" key (nonce_until (secs_of (w_clk w) + ttl)).
Lemma firestore_claim_run p t key ttl w :
  p_nonce p t = FirestoreNonce ->
  let '(x, db) := fs_handle _ (claim_doc key ttl w) (w_db w) in
  run prov_handler (claim p t key ttl) w = (match x with Ok created => created | Err _ => false end, with_db db w).
Proof.
  intros Hp. unfold claim. rewrite Hp. cbn. unfold claim_doc, nonce_until.
  by destruct (fs_handle _ (CreateIfAbsent _ _ _) (w_db w)) as [x db].
Qed.
Lemma claim_doc_law key ttl w x db :
  db_ok (w_db w) -> fs_handle _ (claim_doc key ttl w) (w_db w) = (x, db) ->
  db_ok db /\ doc_step doc_at seen (claim_doc key ttl w) (w_db w) x db.
Proof. intros Hok Hh. by apply (doc_law _ (claim_doc key ttl w) (w_db w)). Qed.

(** A key claimed once is refused until its expiry, in memory and on Firestore, whatever
    runs in between. *)
Lemma claimed_once p t key ttl ttl' w w1 tr w2 :
  replay_db p t w -> run prov_handler (claim p t key ttl) w = (true, w1) ->
  wexec prov_handler (replay_env p t) w1 tr w2 -> Forall (fun ev => replay_event p t ev = true) tr ->
  secs_of (w_clk w2) < secs_of (w_clk w) + ttl ->
  (run prov_handler (claim p t key ttl') w2).1 = false.
Proof.
  unfold replay_db, replay_env, replay_event. destruct (p_nonce p t) eqn:Hp; intros Hok Hrun Htr Hs Hlt.
  - apply (no_second_claim p t key ttl ttl' w w1 tr w2 Hp Hrun Htr).
    unfold secs_of, NS in *. Z.to_euclidean_division_equations. lia.
  - pose proof (firestore_claim_run p t key ttl w Hp) as Hc.
    destruct (fs_handle _ (claim_doc key ttl w) (w_db w)) as [x db] eqn:Hh.
    destruct (claim_doc_law key ttl w x db Hok Hh) as [Hok1 Hst]. rewrite Hrun in Hc. injection Hc as Hx ->.
    destruct x as [[|]|]; try done. destruct Hst as [_ [_ (v & _ & Hd)]].
    destruct (nonce_exec _ _ _ Htr Hs Hok1) as [Hok2 Hk]. specialize (Hk key _ v Hlt Hd).
    pose proof (firestore_claim_run p t key ttl' w2 Hp) as Hc.
    destruct (fs_handle _ (claim_doc key ttl' w2) (w_db w2)) as [y db2] eqn:Hh2. rewrite Hc. cbn.
    destruct (claim_doc_law key ttl' w2 y db2 Hok2 Hh2) as [_ Hst]. destruct y as [[|]|]; [|done..].
    destruct Hst as [Hst _]. unfold claim_doc in Hst. congruence.
Qed.
End replay_tables.

(** ** A concrete provider, for the evaluation of the handlers *)

Definition sample_signer : JwsSigner := mkJwsSigner "ES256" (fun _ => "signed") Null.
Definition sample_client : Client :=
  mkClient "rp" ["https://rp.example/cb"] "none" None ["authorization_code"; "refresh_token"] [] false []
    None false false None.
Definition sample_provider : Provider :=
  with_client sample_client (Provider_new "https://op.example" sample_signer).
#[export] Instance sample_services : Services := {| jwks_resolve _ _ := None; mail_deliver _ _ _ := Ok tt |}.
Definition sample_world (clk : Z) (s : MemoryStore) : @world no_database :=
  @mkWorld no_database clk 0 0 tt s MemoryCibaStore_default (fun _ => ∅)
    (fun _ => CibaRateLimiter_default).
