(* ===== verification/AuthChecks.v ===== *)
(** * Validation of an authorization request

    [src/src/auth_checks.rs]: the passage from a raw request to an addressed one
    (client resolved, redirect URI registered), and the policy checks;
    [src/src/interaction_policy.rs]: what the prompt and max_age parameters make of an
    existing session. *)


From S2P Require Import Prelude Prog Json Model Store Decimal Firestore Externals Sys Ciba DcrStore Provider ProviderFacts.

#[local] Open Scope Z_scope.

Definition redirect_uri_registered (requested : string) (registered : list string) : bool :=
  list_any (fun u => bool_decide (u = requested)) registered.

Section auth_checks.
Context `{Externals}.

Definition resolve_addressee (p : Provider) (raw : RawAuthRequest) :
    prog provE (result OAuthError AddressedRequest) :=
  id ←? mret (ok_or (InvalidRequest "client_id required") (ap_client_id (raw_params raw)));
  c ← resolve_client p id;
  client ←? mret (ok_or (InvalidClient ("unknown client " +:+ id)) c);
  mret (ru ← ok_or (InvalidRequest "redirect_uri required") (ap_redirect_uri (raw_params raw));
        if negb (redirect_uri_registered ru (cl_redirect_uris client))
        then Err (InvalidRequest ("redirect_uri " +:+ ru +:+ " not registered"))
        else Ok (mkAddressedRequest (raw_params raw) client ru (raw_request_uri raw))).
End auth_checks.

Definition check_response_type (req : AddressedRequest) : result OAuthError unit :=
  match ap_response_type (ar_params req) with
  | Some other => if bool_decide (other = "code") then Ok tt else Err (UnsupportedResponseType other)
  | None => Err (InvalidRequest "response_type required")
  end.

Definition check_scope (req : AddressedRequest) : result OAuthError unit :=
  let scope := default "" (ap_scope (ar_params req)) in
  if negb (list_any (fun s => bool_decide (s = "openid")) (split_whitespace scope))
  then Err (InvalidScope "openid scope required") else Ok tt.

Definition pkce_method_is_s256 (method : option string) : bool :=
  bool_decide (default "plain" method = "S256").

Definition check_pkce (req : AddressedRequest) : result OAuthError unit :=
  let required := is_public (ar_client req) || cl_require_pkce (ar_client req) in
  match ap_code_challenge (ar_params req) with
  | Some _ =>
      if negb (pkce_method_is_s256 (ap_code_challenge_method (ar_params req)))
      then Err (InvalidRequest "code_challenge_method must be S256") else Ok tt
  | None => if required then Err (InvalidRequest "code_challenge required") else Ok tt
  end.

(** [AuthorizationCheck::check]. *)
Definition check (c : AuthorizationCheck) (req : AddressedRequest) : result OAuthError unit :=
  match c with
  | CheckResponseType => check_response_type req
  | CheckScope => check_scope req
  | CheckPkce => check_pkce req
  end.

(** [run_checks] of web/oidc.rs. *)
Definition run_checks (p : Provider) (req : AddressedRequest) : result OAuthError unit :=
  foldr (fun c rest => _ ← check c req; rest) (Ok tt) (p_checks p).

(** * Properties *)

Lemma redirect_uri_registered_true ru l : redirect_uri_registered ru l = true <-> ru ∈ l.
Proof.
  unfold redirect_uri_registered. rewrite list_any_true. split.
  - intros (u & Hu & He). apply bool_decide_eq_true in He as <-. done.
  - intros Hu. exists ru. by rewrite bool_decide_eq_true_2.
Qed.

Lemma run_checks_Ok p req :
  run_checks p req = Ok tt <-> Forall (fun c => check c req = Ok tt) (p_checks p).
Proof.
  unfold run_checks. induction (p_checks p) as [|c cs IH]; simpl; [done|].
  rewrite Forall_cons, <- IH. destruct (check c req) as [[]|e]; simpl.
  - split; [done | by intros [_ ?]].
  - split; [done | by intros [? _]].
Qed.

Lemma is_ok_Ok {E} (r : result E unit) : is_ok r = true <-> r = Ok tt.
Proof. destruct r as [[]|]; split; done. Qed.

(** What the default checks ask for. *)
Definition well_formed_request (req : AddressedRequest) : Prop :=
  ap_response_type (ar_params req) = Some "code" /\
  "openid" ∈ split_whitespace (default "" (ap_scope (ar_params req))) /\
  match ap_code_challenge (ar_params req) with
  | Some _ => ap_code_challenge_method (ar_params req) = Some "S256"
  | None => is_public (ar_client req) = false /\ cl_require_pkce (ar_client req) = false
  end.

Lemma check_pkce_Ok req :
  check_pkce req = Ok tt <->
  match ap_code_challenge (ar_params req) with
  | Some _ => ap_code_challenge_method (ar_params req) = Some "S256"
  | None => is_public (ar_client req) = false /\ cl_require_pkce (ar_client req) = false
  end.
Proof.
  unfold check_pkce, pkce_method_is_s256.
  destruct (ap_code_challenge (ar_params req)) as [ch|].
  - destruct (ap_code_challenge_method (ar_params req)) as [m|]; simpl; [|done].
    case_bool_decide as Hm; simpl; split; congruence.
  - destruct (is_public _), (cl_require_pkce _); simpl; split; try done; by intros [? ?].
Qed.

(** The policy checks commute: whatever their order, the same requests pass; with
    the provider's own checks these are the code requests with the openid scope that
    use PKCE with S256, or use no PKCE and are from a confidential client that does
    not have to. *)
Theorem checks_commute p p' req :
  Permutation (p_checks p) (p_checks p') ->
  is_ok (run_checks p req) = is_ok (run_checks p' req) /\
  (Permutation (p_checks p) [CheckResponseType; CheckScope; CheckPkce] ->
   is_ok (run_checks p req) = true <-> well_formed_request req).
Proof.
  intros Hp. split.
  - apply eq_true_iff_eq. rewrite !is_ok_Ok, !run_checks_Ok. by rewrite Hp.
  - intros Hd. rewrite is_ok_Ok, run_checks_Ok, Hd.
    rewrite !Forall_cons. simpl. rewrite check_pkce_Ok. unfold well_formed_request.
    unfold check_response_type, check_scope.
    assert (Hs : list_any (fun s => bool_decide (s = "openid"))
      (split_whitespace (default "" (ap_scope (ar_params req)))) = true <->
      "openid" ∈ split_whitespace (default "" (ap_scope (ar_params req)))).
    { rewrite list_any_true. split; [|intros ?; exists "openid"; by rewrite bool_decide_eq_true_2].
      intros (s & Hs & He). by apply bool_decide_eq_true in He as <-. }
    rewrite <- Hs. destruct (list_any _ _); simpl.
    + destruct (ap_response_type (ar_params req)) as [rt|]; [|split; [by intros [? _] | by intros [? _]]].
      case_bool_decide; simpl; split; intros (H1 & H2 & H3); repeat split; try done; try congruence.
      by destruct H3.
    + split; [by intros (_ & ? & _) | by intros (_ & ? & _)].
Qed.

(** A request becomes addressed only with a client that resolves and with a
    redirect URI equal, byte for byte, to one that the client registered. *)
Theorem addressed_is_registered `{Externals} {S} (h : handler provE S) p raw w req w' :
  run h (resolve_addressee p raw) w = (Ok req, w') ->
  exists id, ap_client_id (raw_params raw) = Some id /\
    run h (resolve_client p id) w = (Some (ar_client req), w') /\
    ap_redirect_uri (raw_params raw) = Some (ar_redirect_uri req) /\
    ar_redirect_uri req ∈ cl_redirect_uris (ar_client req) /\
    ar_params req = raw_params raw /\ ar_request_uri req = raw_request_uri raw.
Proof.
  unfold resolve_addressee. destruct (ap_client_id (raw_params raw)) as [id|]; simpl; [|done].
  unfold try_bind at 1. simpl. rewrite run_bind.
  destruct (run h (resolve_client p id) w) as [[c|] w1] eqn:Hc; simpl; [|done].
  destruct (ap_redirect_uri (raw_params raw)) as [ru|]; simpl; [|done].
  destruct (redirect_uri_registered ru (cl_redirect_uris c)) eqn:Hr; simpl; [|done].
  intros [= <- <-]. apply redirect_uri_registered_true in Hr. exists id. simpl. by repeat split.
Qed.

(** ** Witnesses *)

Definition sample_params : AuthParams :=
  mkAuthParams (Some "rp") (Some "https://rp.example/cb") (Some "code") (Some "openid") None None None
    None None None (Some "challenge") (Some "S256") None None.
Definition sample_addressed : AddressedRequest :=
  mkAddressedRequest sample_params sample_client "https://rp.example/cb" None.

Lemma checks_commute_witness :
  is_ok (run_checks sample_provider sample_addressed) = true.
Proof.
  apply (proj2 (checks_commute sample_provider sample_provider sample_addressed (Permutation_refl _))).
  - reflexivity.
  - split; [reflexivity|]. split; [|reflexivity]. left.
Defined.

Definition sample_sys_handler : handler provE unit :=
  fun X e s =>
    match e in provE X return X * unit with
    | SysOp o => let '(x, _) := @sys_handler no_database (sample_externals []) _ o (@mkSysWorld no_database 0 0 0 tt) in (x, tt)
    | StoreOp o => let '(x, _) := mem_op 0 o MemoryStore_default in (x, tt)
    | CibaOp o => let '(x, _) := mem_ciba_op 0 "id" o MemoryCibaStore_default in (x, tt)
    | MemoryClaim _ _ _ => (true, tt)
    | RateCheck _ _ _ => (true, tt)
    | JwksResolve _ _ => (None, tt)
    | SendMail _ _ _ => (Ok tt, tt)
    end.
Lemma addressed_is_registered_witness :
  exists id, ap_client_id sample_params = Some id /\
    run sample_sys_handler (@resolve_client (sample_externals []) sample_provider id) tt = (Some sample_client, tt) /\
    ap_redirect_uri sample_params = Some "https://rp.example/cb" /\
    "https://rp.example/cb" ∈ cl_redirect_uris sample_client /\
    sample_params = sample_params /\ @None string = None.
Proof.
  apply (@addressed_is_registered (sample_externals []) unit sample_sys_handler sample_provider
    (mkRawAuthRequest sample_params None) tt sample_addressed tt).
  reflexivity.
Defined.

(** * The interaction policy *)

Inductive Prompt : Type := PromptNone | PromptLogin | PromptConsent | PromptSelectAccount.
#[export] Instance Prompt_eq_dec : EqDecision Prompt.
Proof. solve_decision. Defined.

Definition prompt_of (s : string) : option Prompt :=
  if bool_decide (s = "none") then Some PromptNone
  else if bool_decide (s = "login") then Some PromptLogin
  else if bool_decide (s = "consent") then Some PromptConsent
  else if bool_decide (s = "select_account") then Some PromptSelectAccount
  else None.
Definition parse_set (prompt : option string) : list Prompt :=
  omap prompt_of (split_whitespace (default "" prompt)).

Inductive AuthDecision : Type :=
| UseSession (account_id : string) (auth_time : Z)
| Login
| DecisionError (e : OAuthError).

Definition fresh_enough (session : Session) (max_age : option Z) (now : Z) : bool :=
  match max_age with
  | Some ma => u64_saturating_sub now (se_auth_time session) <=? ma
  | None => true
  end.

Definition has_prompt (x : Prompt) (l : list Prompt) : bool := list_any (fun y => bool_decide (y = x)) l.

(** The tail of [decide_interaction]: the session when it is fresh, else [otherwise]. *)
Definition use_session (session : option Session) (max_age : option Z) (now : Z)
    (otherwise : AuthDecision) : AuthDecision :=
  match session with
  | Some s => if fresh_enough s max_age now then UseSession (se_account_id s) (se_auth_time s) else otherwise
  | None => otherwise
  end.

Definition decide_interaction (params : AuthParams) (session : option Session) (now : Z) : AuthDecision :=
  let prompts := parse_set (ap_prompt params) in
  let want_none := has_prompt PromptNone prompts in
  let want_login := has_prompt PromptLogin prompts in
  let max_age := ap_max_age params ≫= parse_u64 in
  if want_none && (1 <? Z.of_nat (length prompts))
  then DecisionError (InvalidRequest "prompt=none must not be combined with other values")
  else if want_none
  then use_session session max_age now (DecisionError (LoginRequired "no active session for prompt=none"))
  else if want_login then Login
  else use_session session max_age now Login.

(** * Properties *)

Lemma has_prompt_true x l : has_prompt x l = true <-> x ∈ l.
Proof.
  unfold has_prompt. rewrite list_any_true. split.
  - intros (y & Hy & He). by apply bool_decide_eq_true in He as <-.
  - intros Hx. exists x. by rewrite bool_decide_eq_true_2.
Qed.

(** A session that the request accepts: it exists, and with a max_age (an unsigned
    decimal) the authentication is at most that old. *)
Definition session_accepted (params : AuthParams) (s : Session) (now : Z) : Prop :=
  forall ma, ap_max_age params ≫= parse_u64 = Some ma -> now - se_auth_time s <= ma.

Lemma fresh_enough_true params s now :
  fresh_enough s (ap_max_age params ≫= parse_u64) now = true <-> session_accepted params s now.
Proof.
  unfold session_accepted, fresh_enough, u64_saturating_sub.
  destruct (ap_max_age params ≫= parse_u64) as [ma|] eqn:Hm.
  - rewrite Z.leb_le. split; [intros ? ? [= <-]; lia|]. intros Hs. specialize (Hs ma eq_refl).
    destruct (ap_max_age params) as [m|]; simpl in Hm; [|done].
    apply parse_u64_range in Hm. unfold in_u64 in Hm. lia.
  - done.
Qed.

(** Prompt=none never shows a page: it uses an accepted session or answers an
    error, always an error next to other prompts; prompt=login always asks to log in;
    otherwise an accepted session is used and its absence leads to the login page.  A
    used session is the given one, with its account and its authentication time. *)
Theorem interaction_decision params session now :
  let prompts := parse_set (ap_prompt params) in
  match decide_interaction params session now with
  | UseSession a t =>
      (exists s, session = Some s /\ a = se_account_id s /\ t = se_auth_time s /\
         session_accepted params s now) /\
      (PromptLogin ∉ prompts) /\ (PromptNone ∈ prompts -> length prompts = 1%nat)
  | Login =>
      PromptNone ∉ prompts /\
      (PromptLogin ∈ prompts \/ (forall s, session = Some s -> ~ session_accepted params s now))
  | DecisionError (LoginRequired _) =>
      length prompts = 1%nat /\ PromptNone ∈ prompts /\
      forall s, session = Some s -> ~ session_accepted params s now
  | DecisionError (InvalidRequest _) => PromptNone ∈ prompts /\ (1 < length prompts)%nat
  | DecisionError _ => False
  end.
Proof.
  intros prompts. unfold decide_interaction. fold prompts.
  assert (Hone : forall x, x ∈ prompts -> (1 <= length prompts)%nat).
  { intros x. destruct prompts; [by intros ?%elem_of_nil | simpl; lia]. }
  assert (Hboth : PromptNone ∈ prompts -> PromptLogin ∈ prompts -> (1 < length prompts)%nat).
  { clear. intros Hn Hl. apply list_elem_of_lookup in Hn as [i Hi], Hl as [j Hj].
    pose proof (lookup_lt_Some _ _ _ Hi). pose proof (lookup_lt_Some _ _ _ Hj).
    destruct (decide (i = j)) as [->|]; [congruence | lia]. }
  destruct (has_prompt PromptNone prompts) eqn:Hn; simpl;
    [apply has_prompt_true in Hn | apply not_true_iff_false in Hn; rewrite has_prompt_true in Hn].
  - destruct (Z.ltb_spec 1 (Z.of_nat (length prompts))) as [Hlt|Hle]; [split; [done | lia]|].
    assert (Hlen : length prompts = 1%nat) by (specialize (Hone _ Hn); lia).
    assert (Hl : PromptLogin ∉ prompts) by (intros Hl; specialize (Hboth Hn Hl); lia).
    unfold use_session. destruct session as [s|]; [|by repeat split].
    destruct (fresh_enough _ _ _) eqn:Hf.
    + apply fresh_enough_true in Hf. split; [by exists s|]. split; [done|]. by intros ?.
    + apply not_true_iff_false in Hf. rewrite fresh_enough_true in Hf.
      split; [done|]. split; [done|]. by intros ? [= <-].
  - destruct (has_prompt PromptLogin prompts) eqn:Hl;
      [apply has_prompt_true in Hl; by split; [|left] |
       apply not_true_iff_false in Hl; rewrite has_prompt_true in Hl].
    unfold use_session. destruct session as [s|]; [|by split; [|right]].
    destruct (fresh_enough _ _ _) eqn:Hf.
    + apply fresh_enough_true in Hf. split; [by exists s|]. split; [done|]. by intros ?.
    + apply not_true_iff_false in Hf. rewrite fresh_enough_true in Hf.
      split; [done|]. right. by intros ? [= <-].
Qed.
