(* ===== verification/Dpop.v ===== *)
(** * DPoP proofs

    [src/src/dpop.rs]: the verification of a proof of possession (RFC 9449) with
    its embedded key, and the single use of its [jti]. *)

From S2P Require Import Prelude Prog Json Model Firestore Externals Es256 Sys DocStore Nonce Ciba DcrStore.
From S2P Require Import Store Provider ProviderFacts.

#[local] Open Scope Z_scope.

Definition IAT_SKEW_SECS : Z := 60.
Definition JTI_TTL : Z := 300.

(** The text before the first question mark or hash. *)
Fixpoint strip_query_fragment (u : string) : string :=
  match u with
  | EmptyString => ""
  | String a u' => if decide (a = "?"%char \/ a = "#"%char) then "" else String a (strip_query_fragment u')
  end.

(** [Duration::from_secs] counts from a clock cast to [i64]. *)
Definition iat_out_of_window (now iat : Z) : bool := IAT_SKEW_SECS <? i64_abs (wrap_i64 (now - iat)).

(** [v.get(k).and_then(Value::as_str) != Some(want)], negated. *)
Definition str_is (v : Value) (k want : string) : bool := bool_decide (get_str v k = Some want).

Definition guard {E} (b : bool) (e : E) : result E unit := if b then Ok tt else Err e.

Section dpop.
Context `{Externals}.

Definition ath (access_token : string) : string := b64url_encode (sha256_digest access_token).

(** A proof in three parts whose header holds a P-256 public key. *)
Record DpopHeader := mkDpopHeader { dh_x : string; dh_y : string }.
Definition dpop_header_of (header : Value) : result string DpopHeader :=
  _ ← guard (str_is header "typ" "dpop+jwt") "typ != dpop+jwt";
  _ ← guard (str_is header "alg" "ES256") "alg != ES256";
  jwk ← ok_or "header.jwk missing" (get header "jwk");
  _ ← guard (str_is jwk "kty" "EC" && str_is jwk "crv" "P-256") "jwk not EC/P-256";
  _ ← guard (match get jwk "d" with Some _ => false | None => true end) "jwk contains private key";
  x ← ok_or "jwk.x" (get_str jwk "x");
  y ← ok_or "jwk.y" (get_str jwk "y");
  Ok (mkDpopHeader x y).

Definition dpop_signature (h : DpopHeader) (p0 p1 p2 : string) : result string unit :=
  xb ← b64url_decode (dh_x h);
  yb ← b64url_decode (dh_y h);
  vk ← verifying_key_from_xy xb yb;
  sb ← b64url_decode p2;
  sig ← map_err (fun e => "sig: " +:+ e) (signature_from_slice sb);
  guard (ecdsa_verify vk (p0 +:+ "." +:+ p1) sig) "invalid proof signature".

(** The claims, up to the [jti] that remains to be claimed. *)
Definition dpop_claims (now : Z) (payload : Value) (htm htu : string) (expected_ath : option string) :
    result string string :=
  _ ← guard (str_is payload "htm" htm) "htm mismatch";
  let proof_htu := default "" (get_str payload "htu") in
  _ ← guard (bool_decide (strip_query_fragment proof_htu = strip_query_fragment htu))
         ("htu mismatch (got " +:+ debug_str proof_htu +:+ ", want " +:+ htu +:+ ")");
  iat ← ok_or "iat missing" (get_i64 payload "iat");
  _ ← guard (negb (iat_out_of_window now iat)) "iat out of window";
  _ ← (match expected_ath with
       | Some want => guard (str_is payload "ath" want) "ath mismatch"
       | None => Ok tt
       end);
  ok_or "jti missing" (get_str payload "jti").

(** Everything before the claim of the [jti]: the key and the [jti]. *)
Definition dpop_check (now : Z) (proof htm htu : string) (expected_ath : option string) :
    result string (DpopHeader * string) :=
  match str_split "."%char proof with
  | [p0; p1; p2] =>
      hb ← b64url_decode p0;
      header ← map_err (fun e => "header json: " +:+ e) (json_from_slice hb);
      h ← dpop_header_of header;
      _ ← dpop_signature h p0 p1 p2;
      pb ← b64url_decode p1;
      payload ← map_err (fun e => "payload json: " +:+ e) (json_from_slice pb);
      jti ← dpop_claims now payload htm htu expected_ath;
      Ok (h, jti)
  | _ => Err "proof not a compact JWS"
  end.

Definition dpop_verify (p : Provider) (proof htm htu : string) (expected_ath : option string) :
    prog provE (result string string) :=
  t ← now;
  hj ←? mret (dpop_check t proof htm htu expected_ath);
  fresh ← claim p DpopJti ("dpop:" +:+ hj.2) JTI_TTL;
  mret (if (fresh : bool) then Ok (jwk_thumbprint_p256 (dh_x hj.1) (dh_y hj.1)) else Err "jti replay").
End dpop.

(** * Properties *)

Lemma guard_Ok {E} b (e : E) : guard b e = Ok tt <-> b = true.
Proof. destruct b; split; done. Qed.

Lemma strip_query_fragment_spec u :
  exists rest, u = strip_query_fragment u +:+ rest /\
    str_contains "?"%char (strip_query_fragment u) = false /\
    str_contains "#"%char (strip_query_fragment u) = false /\
    (rest = "" \/ exists r, rest = String "?"%char r \/ rest = String "#"%char r).
Proof.
  induction u as [|a u IH]; cbn [strip_query_fragment]; [exists ""; repeat split; by left|].
  destruct (decide (a = "?"%char \/ a = "#"%char)) as [Ha|Ha].
  - exists (String a u). repeat split. right. exists u. destruct Ha as [-> | ->]; auto.
  - destruct IH as (rest & Hu & H1 & H2 & Hr). exists rest. cbn [str_contains].
    rewrite !decide_False by tauto. repeat split; try done.
    change (String a (strip_query_fragment u) +:+ rest) with (String a (strip_query_fragment u +:+ rest)).
    by rewrite <- Hu.
Qed.

(** The window of a proof; the one [iat] that the wrapped subtraction lets through
    besides lies 2^63 seconds away. *)
Lemma iat_window now iat :
  0 <= now <= 2 ^ 62 -> in_i64 iat -> iat_out_of_window now iat = false ->
  now - 60 <= iat <= now + 60 \/ iat = now - 2 ^ 63.
Proof.
  intros Hn Hi Hw. unfold iat_out_of_window, IAT_SKEW_SECS in Hw. apply Z.ltb_ge in Hw.
  unfold in_i64, i64_min, i64_max in Hi. unfold i64_abs, wrap_i64 in Hw.
  assert (Hd : - 2 ^ 63 < now - iat < 2 ^ 63 \/ 2 ^ 63 <= now - iat < 2 ^ 64) by lia.
  destruct Hd as [Hd|Hd].
  - rewrite (Z.mod_small (now - iat + 2 ^ 63)) in Hw by lia.
    rewrite Z.mod_small in Hw by lia. lia.
  - assert (Hm : (now - iat + 2 ^ 63) mod 2 ^ 64 = now - iat + 2 ^ 63 - 2 ^ 64).
    { symmetry. apply (Z.mod_unique_pos _ _ 1); lia. }
    rewrite Hm in Hw. destruct (decide (now - iat = 2 ^ 63)); [lia|].
    rewrite Z.mod_small in Hw by lia. lia.
Qed.

Section properties.
Context `{Externals}.

(** The payload of a compact proof. *)
Definition proof_payload (proof : string) : option Value :=
  match str_split "."%char proof with
  | [_; p1; _] => pb ← result_ok (b64url_decode p1); result_ok (json_from_slice pb)
  | _ => None
  end.

Lemma dpop_claims_Ok now payload htm htu a jti :
  dpop_claims now payload htm htu a = Ok jti ->
  get_str payload "htm" = Some htm /\
  strip_query_fragment (default "" (get_str payload "htu")) = strip_query_fragment htu /\
  (exists iat, get_i64 payload "iat" = Some iat /\ iat_out_of_window now iat = false) /\
  (forall want, a = Some want -> get_str payload "ath" = Some want) /\
  get_str payload "jti" = Some jti.
Proof.
  unfold dpop_claims, str_is.
  destruct (bool_decide (get_str payload "htm" = Some htm)) eqn:Hm; simpl; [|done].
  apply bool_decide_eq_true in Hm.
  destruct (bool_decide (strip_query_fragment _ = _)) eqn:Hu; simpl; [|done].
  apply bool_decide_eq_true in Hu.
  destruct (get_i64 payload "iat") as [iat|]; simpl; [|done].
  destruct (iat_out_of_window now iat) eqn:Hi; simpl; [done|].
  destruct a as [want|]; simpl.
  - destruct (bool_decide (get_str payload "ath" = Some want)) eqn:Ha; simpl; [|done].
    apply bool_decide_eq_true in Ha. destruct (get_str payload "jti"); simpl; [|done].
    intros [= ->]. split; [done|]. split; [done|]. split; [eauto|]. split; [|done]. by intros ? [= <-].
  - destruct (get_str payload "jti"); simpl; [|done].
    intros [= ->]. split; [done|]. split; [done|]. split; [eauto|]. by split.
Qed.

(** What an accepted proof is. *)
Definition valid_proof (now : Z) (proof htm htu : string) (a : option string) (h : DpopHeader) (jti : string) : Prop :=
  exists p0 p1 p2 header payload vk sig xb yb hb pb sb,
    str_split "."%char proof = [p0; p1; p2] /\
    b64url_decode p0 = Ok hb /\ json_from_slice hb = Ok header /\
    b64url_decode p1 = Ok pb /\ json_from_slice pb = Ok payload /\
    dpop_header_of header = Ok h /\
    b64url_decode (dh_x h) = Ok xb /\ b64url_decode (dh_y h) = Ok yb /\
    verifying_key_from_xy xb yb = Ok vk /\
    b64url_decode p2 = Ok sb /\ signature_from_slice sb = Ok sig /\
    ecdsa_verify vk (p0 +:+ "." +:+ p1) sig = true /\
    dpop_claims now payload htm htu a = Ok jti.

Lemma dpop_check_Ok now proof htm htu a h jti :
  dpop_check now proof htm htu a = Ok (h, jti) <-> valid_proof now proof htm htu a h jti.
Proof.
  unfold dpop_check, valid_proof. split.
  - destruct (str_split "."%char proof) as [|p0 [|p1 [|p2 [|? ?]]]] eqn:Hs; try done.
    rewrite bind_Ok. intros (hb & Hhb & Hr). rewrite bind_Ok in Hr. destruct Hr as (header & Hh & Hr).
    rewrite bind_Ok in Hr. destruct Hr as (h' & Hh' & Hr).
    rewrite bind_Ok in Hr. destruct Hr as ([] & Hsig & Hr).
    rewrite bind_Ok in Hr. destruct Hr as (pb & Hpb & Hr).
    rewrite bind_Ok in Hr. destruct Hr as (payload & Hp & Hr).
    rewrite bind_Ok in Hr. destruct Hr as (jti' & Hj & [= -> ->]).
    apply map_err_Ok in Hh, Hp. unfold dpop_signature in Hsig.
    rewrite bind_Ok in Hsig. destruct Hsig as (xb & Hx & Hr).
    rewrite bind_Ok in Hr. destruct Hr as (yb & Hy & Hr).
    rewrite bind_Ok in Hr. destruct Hr as (vk & Hvk & Hr).
    rewrite bind_Ok in Hr. destruct Hr as (sb & Hsb & Hr).
    rewrite bind_Ok in Hr. destruct Hr as (sig & Hsg & Hr).
    apply map_err_Ok in Hsg. apply guard_Ok in Hr.
    exists p0, p1, p2, header, payload, vk, sig, xb, yb, hb, pb, sb. by repeat (split; [done|]).
  - intros (p0 & p1 & p2 & header & payload & vk & sig & xb & yb & hb & pb & sb & -> & H0 & H1 & H2 & H3 &
      H4 & H5 & H6 & H7 & H8 & H9 & H10 & H11).
    rewrite H0; simpl. rewrite H1; simpl. rewrite H4; simpl. unfold dpop_signature.
    rewrite H5; simpl. rewrite H6; simpl. rewrite H7; simpl. rewrite H8; simpl. rewrite H9; simpl.
    rewrite H10; simpl. rewrite H2; simpl. rewrite H3; simpl. by rewrite H11.
Qed.

Lemma valid_proof_payload now proof htm htu a h jti :
  valid_proof now proof htm htu a h jti ->
  exists payload iat, proof_payload proof = Some payload /\ get_i64 payload "iat" = Some iat /\
    iat_out_of_window now iat = false /\ get_str payload "jti" = Some jti.
Proof.
  intros (p0 & p1 & p2 & header & payload & vk & sig & xb & yb & hb & pb & sb & Hs & _ & _ & Hpb & Hp & Hr).
  destruct Hr as (_ & _ & _ & _ & _ & _ & _ & Hc). apply dpop_claims_Ok in Hc as (_ & _ & (iat & Hi & Hw) & _ & Hj).
  exists payload, iat. unfold proof_payload. rewrite Hs, Hpb. simpl. rewrite Hp. done.
Qed.

Lemma get_i64_range v k z : get_i64 v k = Some z -> in_i64 z.
Proof.
  unfold get_i64. destruct (get v k) as [[| |[i|]| | |]|]; simpl; try done.
  destruct (Z.leb_spec i64_min i), (Z.leb_spec i i64_max); simpl; try done. intros [= <-]. by split.
Qed.
End properties.

Section replay.
Context `{Externals, FsBackend, Services}.

Lemma dpop_verify_run p proof htm htu a w :
  run prov_handler (dpop_verify p proof htm htu a) w =
    match dpop_check (secs_of (w_clk w)) proof htm htu a with
    | Ok (h, jti) =>
        let '(fresh, w') := run prov_handler (claim p DpopJti ("dpop:" +:+ jti) JTI_TTL) w in
        ((if fresh then Ok (jwk_thumbprint_p256 (dh_x h) (dh_y h)) else Err "jti replay"), w')
    | Err e => (Err e, w)
    end.
Proof.
  unfold dpop_verify. rewrite run_bind.
  rewrite run_now, run_try_bind. cbn [run mret prog_ret].
  destruct (dpop_check _ _ _ _ _) as [[h jti]|e]; [|done]. rewrite run_bind. cbn [fst snd].
  by destruct (run prov_handler (claim _ _ _ _) w).
Qed.

(** A DPoP proof is accepted only when it is signed by the key it carries, is for
    this method and this URI (query and fragment apart), for this access token when one
    is given, and was made at most 60 seconds from now (the wrapped subtraction also
    lets an [iat] exactly 2^63 seconds away through); the answer is the thumbprint of
    its key. *)
Theorem dpop_accepts p proof htm htu a w jkt w' :
  0 <= secs_of (w_clk w) <= 2 ^ 62 ->
  run prov_handler (dpop_verify p proof htm htu a) w = (Ok jkt, w') ->
  exists h jti payload iat,
    jkt = jwk_thumbprint_p256 (dh_x h) (dh_y h) /\
    valid_proof (secs_of (w_clk w)) proof htm htu a h jti /\
    proof_payload proof = Some payload /\ get_str payload "htm" = Some htm /\
    strip_query_fragment (default "" (get_str payload "htu")) = strip_query_fragment htu /\
    (forall want, a = Some want -> get_str payload "ath" = Some want) /\
    get_i64 payload "iat" = Some iat /\
    (secs_of (w_clk w) - 60 <= iat <= secs_of (w_clk w) + 60 \/ iat = secs_of (w_clk w) - 2 ^ 63).
Proof.
  intros Hclk. rewrite dpop_verify_run.
  destruct (dpop_check _ _ _ _ _) as [[h jti]|e] eqn:Hc; [|done]. apply dpop_check_Ok in Hc.
  destruct (run prov_handler (claim _ _ _ _) w) as [[] w1]; [|done]. intros [= <- <-].
  pose proof (valid_proof_payload _ _ _ _ _ _ _ Hc) as (payload & iat & Hp & Hi & Hw & Hj).
  exists h, jti, payload, iat. split; [done|]. split; [done|]. split; [done|].
  destruct Hc as (p0 & p1 & p2 & header & payload' & vk & sig & xb & yb & hb & pb & sb & Hs & _ & _ & Hpb & Hp' & Hr).
  destruct Hr as (_ & _ & _ & _ & _ & _ & _ & Hcl).
  assert (payload' = payload) as ->.
  { unfold proof_payload in Hp. rewrite Hs, Hpb in Hp. simpl in Hp. rewrite Hp' in Hp. by injection Hp. }
  apply dpop_claims_Ok in Hcl as (Hm & Hu & _ & Ha & _).
  split; [done|]. split; [done|]. split; [done|]. split; [done|].
  apply (iat_window (secs_of (w_clk w)) iat Hclk); [by eapply get_i64_range | done].
Qed.

End replay.

Section single_use.
Context `{Externals, Services} (B : FsBackend) `{!DocDb B}.

(** C20: a proof that was accepted is never accepted again, at any later time and
    whatever the server does meanwhile: outside of its window it is refused, and the
    window closes before its [jti] is forgotten.  This holds for the replay table in
    memory under every interference, and for the one on Firestore when the database meets
    its contract and, in the collection of the tables, this and other processes only read
    and create, and the retention deletes only what has expired. *)
Theorem dpop_no_replay p proof htm htu a w jkt w1 tr w2 htm' htu' a' :
  replay_db B p DpopJti w -> Forall (fun ev => replay_event p DpopJti ev = true) tr ->
  0 <= w_clk w -> secs_of (w_clk w2) <= 2 ^ 62 ->
  run prov_handler (dpop_verify p proof htm htu a) w = (Ok jkt, w1) ->
  wexec prov_handler (replay_env B p DpopJti) w1 tr w2 ->
  is_ok (run prov_handler (dpop_verify p proof htm' htu' a') w2).1 = false.
Proof.
  intros Hdb Hev Hz H62 Hrun Htr. rewrite dpop_verify_run in Hrun.
  destruct (dpop_check _ _ _ _ _) as [[h jti]|e] eqn:Hc; [|done]. apply dpop_check_Ok in Hc.
  destruct (run prov_handler (claim _ _ _ _) w) as [[] w1'] eqn:Hcl; [|done]. injection Hrun as _ <-.
  pose proof (wexec_clk _ _ _ (wexec_weaker _ _ _ _ _ _ (replay_env_prov B p DpopJti) Htr)) as Hclk.
  assert (Hclk1 : w_clk w1' = w_clk w).
  { pose proof (run_clk (claim p DpopJti ("dpop:" +:+ jti) JTI_TTL) w) as Hrc. by rewrite Hcl in Hrc. }
  rewrite dpop_verify_run. destruct (dpop_check (secs_of (w_clk w2)) _ _ _ _) as [[h' jti']|e] eqn:Hc'; [|done].
  apply dpop_check_Ok in Hc'.
  apply valid_proof_payload in Hc as (payload & iat & Hp & Hi & Hw & Hj).
  apply valid_proof_payload in Hc' as (payload' & iat' & Hp' & Hi' & Hw' & Hj').
  assert (payload' = payload) as -> by congruence. assert (iat' = iat) as -> by congruence.
  assert (jti' = jti) as -> by congruence.
  pose proof (secs_mono (w_clk w) (w_clk w2) ltac:(lia)) as Hmono.
  pose proof (Z.div_pos (w_clk w) NS Hz ltac:(done)) as Hpos. fold (secs_of (w_clk w)) in Hpos.
  pose proof (get_i64_range _ _ _ Hi) as Hir.
  apply iat_window in Hw; [|lia|done]. apply iat_window in Hw'; [|lia|done].
  assert (Hlt : secs_of (w_clk w2) < secs_of (w_clk w) + JTI_TTL) by (unfold JTI_TTL; lia).
  pose proof (claimed_once B p DpopJti _ _ JTI_TTL _ _ _ _ Hdb Hcl Htr Hev Hlt) as Href.
  destruct (run prov_handler (claim _ _ _ _) w2) as [b w3]. simpl in Href. by subst b.
Qed.
End single_use.

(** ** Witnesses *)

Definition sample_dpop_header : Value :=
  Object [("typ", Str "dpop+jwt"); ("alg", Str "ES256");
          ("jwk", Object [("kty", Str "EC"); ("crv", Str "P-256"); ("x", Str "x"); ("y", Str "y")])].
Definition sample_dpop_payload : Value :=
  Object [("htm", Str "POST"); ("htu", Str "https://op.example/token?q=1");
          ("iat", Number (NInt 1000)); ("jti", Str "j1")].
Definition dpop_externals : Externals :=
  sample_externals [("h", sample_dpop_header); ("p", sample_dpop_payload)].
Definition sample_proof : string := "h.p.good".
Definition dpop_run (w : @world no_database) :=
  run (@prov_handler dpop_externals no_database sample_services)
    (@dpop_verify dpop_externals sample_provider sample_proof "POST" "https://op.example/token" None) w.
Definition dpop_world : @world no_database := sample_world (1010 * NS) MemoryStore_default.

Lemma dpop_accepts_witness :
  exists h jti payload iat,
    @jwk_thumbprint_p256 dpop_externals "x" "y" = @jwk_thumbprint_p256 dpop_externals (dh_x h) (dh_y h) /\
    @valid_proof dpop_externals 1010 sample_proof "POST" "https://op.example/token" None h jti /\
    @proof_payload dpop_externals sample_proof = Some payload /\ get_str payload "htm" = Some "POST" /\
    strip_query_fragment (default "" (get_str payload "htu")) = strip_query_fragment "https://op.example/token" /\
    (forall want, None = Some want -> get_str payload "ath" = Some want) /\
    get_i64 payload "iat" = Some iat /\ (1010 - 60 <= iat <= 1010 + 60 \/ iat = 1010 - 2 ^ 63).
Proof.
  apply (@dpop_accepts dpop_externals no_database sample_services sample_provider sample_proof "POST"
    "https://op.example/token" None dpop_world _ (dpop_run dpop_world).2).
  - split; vm_compute; discriminate.
  - vm_compute. reflexivity.
Defined.
