(* ===== verification/ClientAuth.v ===== *)
(** * Client authentication

    [src/src/client_auth.rs] (none, client_secret_basic, private_key_jwt) and the
    choice of the method in [authenticate_client] of [src/src/web/mod.rs]. *)

From S2P Require Import Prelude Prog Json Model Firestore Externals Es256 Sys DocStore Nonce Ciba Dcr.
From S2P Require Import DcrStore Store Provider ProviderFacts Dpop.

#[local] Open Scope Z_scope.

Definition MAX_ASSERTION_LIFETIME_SECS : Z := 3600.

Definition exp_in_window (exp now max_lifetime : Z) : bool :=
  (now <? exp) && (exp <=? i64_saturating_add now max_lifetime).

(** Constant-time comparison: only its answer is modelled. *)
Definition secret_eq (a b : string) : bool := bool_decide (a = b).

Record ClientAuthInput := mkClientAuthInput {
  ci_basic : option (string * string);
  ci_body_client_id : option string;
  ci_client_assertion : option string
}.

Section client_auth.
Context `{Externals}.

Definition none_auth (p : Provider) (input : ClientAuthInput) : prog provE (result OAuthError Client) :=
  id ←? mret (ok_or (InvalidClient "client_id required") (ci_body_client_id input));
  c ← resolve_client p id;
  client ←? mret (ok_or (InvalidClient ("unknown client " +:+ id)) c);
  mret (if negb (is_public client) then Err (InvalidClient "client requires authentication")
        else Ok client).

Definition client_secret_basic (p : Provider) (input : ClientAuthInput) :
    prog provE (result OAuthError Client) :=
  cred ←? mret (ok_or (InvalidClient "Basic credentials required") (ci_basic input));
  c ← resolve_client p cred.1;
  client ←? mret (ok_or (InvalidClient ("unknown client " +:+ cred.1)) c);
  let presented_hash := hash_token cred.2 in
  mret match cl_client_secret client with
       | Some stored_hash =>
           if secret_eq stored_hash presented_hash then Ok client
           else Err (InvalidClient "bad client secret")
       | None => Err (InvalidClient "bad client secret")
       end.

Definition bad {A} (m : string) : result OAuthError A := Err (InvalidClient m).
Definition dec (s : string) : result OAuthError string :=
  map_err (fun _ => InvalidClient "assertion base64") (b64url_decode s).

Record Assertion := mkAssertion {
  as_p0 : string; as_p1 : string; as_p2 : string;
  as_kid : string; as_sub : string; as_payload : Value
}.

(** The assertion's parts, up to its subject. *)
Definition parse_assertion (assertion : string) : result OAuthError Assertion :=
  match str_split "."%char assertion with
  | [p0; p1; p2] =>
      hb ← dec p0;
      header ← map_err (fun _ => InvalidClient "assertion header") (json_from_slice hb);
      _ ← guard (str_is header "alg" "ES256") (InvalidClient "assertion alg != ES256");
      let kid := default "" (get_str header "kid") in
      pb ← dec p1;
      payload ← map_err (fun _ => InvalidClient "assertion payload") (json_from_slice pb);
      let sub := default "" (get_str payload "sub") in
      let iss := default "" (get_str payload "iss") in
      _ ← guard (negb (str_is_empty sub || negb (bool_decide (sub = iss))))
            (InvalidClient "assertion iss/sub mismatch");
      Ok (mkAssertion p0 p1 p2 kid sub payload)
  | _ => bad "client_assertion not a compact JWS"
  end.

Definition verify_with (jwk : JwkPub) (a : Assertion) : result OAuthError unit :=
  xb ← dec (jwk_x jwk);
  yb ← dec (jwk_y jwk);
  vk ← map_err InvalidClient (verifying_key_from_xy xb yb);
  sb ← dec (as_p2 a);
  sig ← map_err (fun _ => InvalidClient "assertion sig") (signature_from_slice sb);
  guard (ecdsa_verify vk (as_p0 a +:+ "." +:+ as_p1 a) sig) (InvalidClient "assertion signature invalid").

(** The claims: audience, window, not-before, and the [jti] to claim with its
    retention. *)
Definition assertion_claims (issuer : string) (now : Z) (payload : Value) : result OAuthError (string * Z) :=
  _ ← guard (str_is payload "aud" issuer) (InvalidClient "assertion aud must be the issuer identifier");
  exp ← ok_or (InvalidClient "assertion expired") (get_i64 payload "exp");
  _ ← guard (exp_in_window exp now MAX_ASSERTION_LIFETIME_SECS)
        (InvalidClient "assertion expired or exp too far in the future");
  _ ← (match get_i64 payload "nbf" with
       | Some nbf => guard (negb (i64_saturating_add now 60 <? nbf))
                       (InvalidClient "assertion nbf too far in the future")
       | None => Ok tt
       end);
  let jti := default "" (get_str payload "jti") in
  _ ← guard (negb (str_is_empty jti)) (InvalidClient "assertion jti missing");
  Ok (jti, Z.max (wrap_i64 (exp - now)) 0).

(** The registered key of the [kid], or the one at the client's jwks_uri. *)
Definition select_key (client : Client) (kid : string) : prog provE (result OAuthError JwkPub) :=
  match list_find_first (fun k => bool_decide (jwk_kid k = kid)) (cl_jwks client) with
  | Some j => mret (Ok j)
  | None =>
      match cl_jwks_uri client with
      | Some uri =>
          j ← trigger (JwksResolve uri kid);
          mret (ok_or (InvalidClient "no matching kid (jwks_uri)") j)
      | None => mret (bad "no matching kid")
      end
  end.

Definition private_key_jwt (p : Provider) (input : ClientAuthInput) :
    prog provE (result OAuthError Client) :=
  assertion ←? mret (ok_or (InvalidClient "client_assertion required") (ci_client_assertion input));
  a ←? mret (parse_assertion assertion);
  c ← resolve_client p (as_sub a);
  client ←? mret (ok_or (InvalidClient "unknown client") c);
  _ ←? mret (guard (bool_decide (cl_token_endpoint_auth_method client = "private_key_jwt"))
               (InvalidClient "client is not private_key_jwt"));
  jwk ←? select_key client (as_kid a);
  _ ←? mret (verify_with jwk a);
  t ← now;
  jt ←? mret (assertion_claims (p_issuer p) t (as_payload a));
  fresh ← claim p AssertionJti ("cjwt:" +:+ jt.1) jt.2;
  mret (if (fresh : bool) then Ok client else bad "assertion jti replay").

(** [ClientAuthMethod::authenticate]. *)
Definition authenticate (m : ClientAuthMethod) (p : Provider) (input : ClientAuthInput) :
    prog provE (result OAuthError Client) :=
  match m with
  | NoneAuth => none_auth p input
  | ClientSecretBasic => client_secret_basic p input
  | PrivateKeyJwt => private_key_jwt p input
  end.
End client_auth.

(** * Properties *)

(** An expiry is accepted exactly when it is after now and at most the allowed
    lifetime away, for every clock and every expiry of 64 bits: the sum that could
    overflow saturates. *)
Theorem exp_in_window_exact exp now max_lifetime :
  in_i64 exp -> in_i64 now -> 0 <= max_lifetime ->
  exp_in_window exp now max_lifetime = true <-> now < exp <= now + max_lifetime.
Proof.
  unfold exp_in_window, i64_saturating_add, in_i64. intros He Hn Hm.
  rewrite andb_true_iff, Z.ltb_lt, Z.leb_le. lia.
Qed.

Lemma exp_in_window_exact_witness :
  exp_in_window i64_max (i64_max - 10) 3600 = true.
Proof.
  apply exp_in_window_exact; unfold in_i64, i64_min, i64_max; lia.
Defined.

Section properties.
Context `{Externals, FsBackend, Services}.

(** The none method only ever answers a public client, found under the presented
    identifier; the secret method only a client whose stored hash is the hash of the
    presented secret. *)
Theorem shared_secret_methods {S} (h : handler provE S) p input w c w' :
  (run h (none_auth p input) w = (Ok c, w') ->
     exists id, ci_body_client_id input = Some id /\ run h (resolve_client p id) w = (Some c, w') /\
       is_public c = true) /\
  (run h (client_secret_basic p input) w = (Ok c, w') ->
     exists id secret, ci_basic input = Some (id, secret) /\
       run h (resolve_client p id) w = (Some c, w') /\
       cl_client_secret c = Some (hash_token secret)).
Proof.
  unfold none_auth, client_secret_basic. split.
  - destruct (ci_body_client_id input) as [id|]; simpl; [|done].
    rewrite run_try_bind. cbn [run mret prog_ret]. rewrite run_bind.
    destruct (run h (resolve_client p id) w) as [[c'|] w1] eqn:Hc; simpl; [|done].
    destruct (is_public c') eqn:Hp; simpl; [|done]. intros [= <- <-]. eauto.
  - destruct (ci_basic input) as [[id secret]|]; simpl; [|done].
    rewrite run_try_bind. cbn [run mret prog_ret fst snd]. rewrite run_bind.
    destruct (run h (resolve_client p id) w) as [[c'|] w1] eqn:Hc; simpl; [|done].
    destruct (cl_client_secret c') as [sh|] eqn:Hs; [|done].
    unfold secret_eq. case_bool_decide as He; [|done]. intros [= <- <-]. subst sh. eauto.
Qed.

Lemma try_mret {S Er A B} (h : handler provE S) (r : result Er A) (f : A -> prog provE (result Er B)) w :
  run h (try_bind (mret r) f) w = match r with Ok a => run h (f a) w | Err e => (Err e, w) end.
Proof. by destruct r. Qed.

(** What a successful private_key_jwt authentication went through. *)
Lemma private_key_jwt_Ok p input w c w' :
  run prov_handler (private_key_jwt p input) w = (Ok c, w') ->
  exists assertion a jwk jt w1 w2,
    ci_client_assertion input = Some assertion /\ parse_assertion assertion = Ok a /\
    run prov_handler (resolve_client p (as_sub a)) w = (Some c, w1) /\
    cl_token_endpoint_auth_method c = "private_key_jwt" /\
    run prov_handler (select_key c (as_kid a)) w1 = (Ok jwk, w2) /\
    verify_with jwk a = Ok tt /\
    assertion_claims (p_issuer p) (secs_of (w_clk w)) (as_payload a) = Ok jt /\
    run prov_handler (claim p AssertionJti ("cjwt:" +:+ jt.1) jt.2) w2 = (true, w') /\
    w_clk w2 = w_clk w.
Proof.
  unfold private_key_jwt. rewrite try_mret.
  destruct (ci_client_assertion input) as [assertion|]; cbn [ok_or]; [|done]. rewrite try_mret.
  destruct (parse_assertion assertion) as [a|] eqn:Ha; [|done]. rewrite run_bind.
  pose proof (run_clk (resolve_client p (as_sub a)) w) as Hc1.
  destruct (run prov_handler (resolve_client p (as_sub a)) w) as [oc w1] eqn:Hres. rewrite try_mret.
  destruct oc as [c'|]; cbn [ok_or]; [|done]. rewrite try_mret. case_bool_decide as Hm; cbn [guard]; [|done].
  rewrite run_try_bind. pose proof (run_clk (select_key c' (as_kid a)) w1) as Hc2.
  destruct (run prov_handler (select_key c' (as_kid a)) w1) as [[jwk|] w2] eqn:Hsel; [|done].
  rewrite try_mret. destruct (verify_with jwk a) as [[]|] eqn:Hv; [|done].
  rewrite run_bind, run_now. cbn [snd] in Hc1, Hc2. rewrite Hc2, Hc1, try_mret.
  destruct (assertion_claims _ _ _) as [jt|] eqn:Hcl; [|done]. rewrite run_bind.
  destruct (run prov_handler (claim _ _ _ _) w2) as [[] w3] eqn:Hclaim; [|done].
  intros [= <- <-]. exists assertion, a, jwk, jt, w1, w2.
  repeat (split; [done|]). congruence.
Qed.

Lemma assertion_claims_Ok issuer t payload jt :
  in_i64 t -> assertion_claims issuer t payload = Ok jt ->
  get_str payload "aud" = Some issuer /\ get_str payload "jti" = Some jt.1 /\ jt.1 <> "" /\
  exists exp, get_i64 payload "exp" = Some exp /\ t < exp <= t + 3600 /\ jt.2 = exp - t.
Proof.
  intros Ht. unfold assertion_claims, str_is.
  destruct (bool_decide (get_str payload "aud" = Some issuer)) eqn:Haud; simpl; [|done].
  apply bool_decide_eq_true in Haud.
  destruct (get_i64 payload "exp") as [exp|] eqn:He; simpl; [|done].
  destruct (exp_in_window exp t _) eqn:Hw; simpl; [|done].
  assert (Hwin : t < exp <= t + 3600).
  { unfold exp_in_window, i64_saturating_add, MAX_ASSERTION_LIFETIME_SECS in Hw.
    pose proof (get_i64_range _ _ _ He) as Hr. unfold in_i64 in *.
    rewrite andb_true_iff, Z.ltb_lt, Z.leb_le in Hw. lia. }
  assert (Hjti : forall r : result OAuthError unit, (_ ← r;
      _ ← guard (negb (str_is_empty (default "" (get_str payload "jti")))) (InvalidClient "assertion jti missing");
      Ok (default "" (get_str payload "jti"), Z.max (wrap_i64 (exp - t)) 0)) = Ok jt ->
    get_str payload "jti" = Some jt.1 /\ jt.1 <> "" /\ jt.2 = exp - t).
  { intros [[]|]; simpl; [|done]. destruct (get_str payload "jti") as [[|a j]|]; simpl; try done.
    intros [= <-]. simpl. split; [done|]. split; [done|]. rewrite wrap_i64_id; [lia|].
    unfold in_i64, i64_min, i64_max in *. lia. }
  intros Hr. apply Hjti in Hr as (? & ? & ?). eauto 8.
Qed.

End properties.

(** ** Single use of an assertion *)

Section single_use.
Context `{Externals, Services} (B : FsBackend) `{!DocDb B}.

(** Before its claim an authentication only reads: it leaves every replay table alone. *)
Definition touches_replay (p : Provider) (t : nonce_table) (ev : event provE) : Prop := replay_event p t ev = false.
Lemma resolve_client_spares p t id : avoids (touches_replay p t) (resolve_client p id).
Proof.
  unfold resolve_client. destruct (p_clients p !! id); [done|]. destruct (p_firestore p); [|done].
  intros i x. split; [|done]. unfold touches_replay, replay_event. by destruct (p_nonce p t).
Qed.
Lemma select_key_spares p t c kid : avoids (touches_replay p t) (select_key c kid).
Proof.
  unfold select_key. destruct (list_find_first _ _); [done|]. destruct (cl_jwks_uri c); [|done].
  intros i x. split; [|done]. unfold touches_replay, replay_event. by destruct (p_nonce p t).
Qed.
Lemma spares_run {A} p t (q : prog provE A) w x w' :
  avoids (touches_replay p t) q -> run prov_handler q w = (x, w') ->
  exists tr, wexec prov_handler (replay_env B p t) w tr w' /\ Forall (fun ev => replay_event p t ev = true) tr.
Proof.
  intros Hq Hr. destruct (run_avoids prov_handler (replay_env B p t) (touches_replay p t) q w Hq) as (tr & Htr & Hn).
  rewrite Hr in Htr. exists tr. split; [done|]. eapply Forall_impl; [exact Hn|].
  intros ev Hev. unfold touches_replay in Hev. by destruct (replay_event p t ev).
Qed.

End single_use.

(** ** Witnesses *)

Definition key_client : Client :=
  mkClient "kc" ["https://rp.example/cb"] "private_key_jwt" None ["authorization_code"] [] true
    [mkJwkPub "k" "x" "y"] None true true None.
Definition key_provider : Provider := with_client key_client sample_provider.
Definition assertion_externals : Externals :=
  sample_externals
    [("h", Object [("alg", Str "ES256"); ("kid", Str "k")]);
     ("p", Object [("sub", Str "kc"); ("iss", Str "kc"); ("aud", Str "https://op.example");
                   ("exp", Number (NInt 1300)); ("jti", Str "a1")])].
Definition sample_assertion_input : ClientAuthInput := mkClientAuthInput None None (Some "h.p.good").
Definition assertion_run (w : @world no_database) :=
  run (@prov_handler assertion_externals no_database sample_services)
    (@private_key_jwt assertion_externals key_provider sample_assertion_input) w.
Definition assertion_world : @world no_database := sample_world (1000 * NS) MemoryStore_default.

Lemma shared_secret_methods_witness :
  exists id, Some "rp" = Some id /\
    run (@prov_handler (sample_externals []) no_database sample_services)
      (@resolve_client (sample_externals []) sample_provider id) assertion_world =
      (Some sample_client, assertion_world) /\
    is_public sample_client = true.
Proof.
  apply (proj1 (@shared_secret_methods (sample_externals []) _
    (@prov_handler (sample_externals []) no_database sample_services) sample_provider
    (mkClientAuthInput None (Some "rp") None) assertion_world sample_client assertion_world)).
  vm_compute. reflexivity.
Defined.
