(* ===== verification/RequestObject.v ===== *)
(** * Signed request objects (JAR)

    [src/src/request_object.rs]: verification of the object with the client's
    registered keys, and the authorization parameters it carries. *)

From S2P Require Import Prelude Prog Json Model Firestore Externals Es256 Sys Nonce Ciba Dcr.
From S2P Require Import DcrStore Store Provider ProviderFacts Dpop ClientAuth.

#[local] Open Scope Z_scope.

Definition ENVELOPE_CLAIMS : list string := ["iss"; "aud"; "exp"; "iat"; "nbf"; "jti"].

Definition bad_request {A} (m : string) : result OAuthError A := Err (InvalidRequest m).

Section request_object.
Context `{Externals}.

Definition ro_dec (s : string) : result OAuthError string :=
  map_err (fun _ => InvalidRequest "request object base64") (b64url_decode s).

(** Signature and payload of a compact object of [client]. *)
Definition ro_signed_payload (client : Client) (jwt : string) : result OAuthError Value :=
  match str_split "."%char jwt with
  | [p0; p1; p2] =>
      hb ← ro_dec p0;
      header ← map_err (fun _ => InvalidRequest "request object header") (json_from_slice hb);
      _ ← guard (str_is header "alg" "ES256") (InvalidRequest "request object alg must be ES256");
      let kid := default "" (get_str header "kid") in
      jwk ← ok_or (InvalidRequest "no client key matches request object kid")
              (list_find_first (fun k => bool_decide (jwk_kid k = kid)) (cl_jwks client));
      xb ← ro_dec (jwk_x jwk);
      yb ← ro_dec (jwk_y jwk);
      vk ← map_err InvalidRequest (verifying_key_from_xy xb yb);
      sb ← ro_dec p2;
      sig ← map_err (fun _ => InvalidRequest "request object sig") (signature_from_slice sb);
      _ ← guard (ecdsa_verify vk (p0 +:+ "." +:+ p1) sig) (InvalidRequest "request object signature invalid");
      pb ← ro_dec p1;
      map_err (fun _ => InvalidRequest "request object payload") (json_from_slice pb)
  | _ => bad_request "request object is not a compact JWS"
  end.

(** The audience is the issuer, or a list that holds it. *)
Definition aud_ok (payload : Value) (issuer : string) : bool :=
  match get payload "aud" with
  | Some (Str s) => bool_decide (s = issuer)
  | Some (Array a) => list_any (fun v => bool_decide (as_str v = Some issuer)) a
  | _ => false
  end.

(** The envelope: issuer, audience, times and the [jti] to claim with its retention. *)
Definition ro_envelope (client : Client) (issuer : string) (now : Z) (payload : Value) :
    result OAuthError (string * Z) :=
  _ ← guard (str_is payload "iss" (cl_client_id client)) (InvalidRequest "request object iss must equal client_id");
  _ ← guard (aud_ok payload issuer) (InvalidRequest "request object aud must be the issuer");
  exp ← ok_or (InvalidRequest "request object missing exp") (get_i64 payload "exp");
  _ ← guard (negb (exp <=? now)) (InvalidRequest "request object expired");
  _ ← guard (negb (wrap_i64 (now + 3600) <? exp))
        (InvalidRequest "request object exp is more than 60 minutes in the future");
  nbf ← ok_or (InvalidRequest "request object missing nbf") (get_i64 payload "nbf");
  _ ← guard (negb (wrap_i64 (now + 60) <? nbf)) (InvalidRequest "request object nbf is in the future");
  _ ← guard (negb (nbf <? wrap_i64 (now - 3600)))
        (InvalidRequest "request object nbf is more than 60 minutes in the past");
  _ ← guard (match get_i64 payload "iat" with Some _ => true | None => false end)
        (InvalidRequest "request object missing iat");
  let jti := default "" (get_str payload "jti") in
  _ ← guard (negb (str_is_empty jti)) (InvalidRequest "request object missing jti");
  Ok (jti, Z.max (wrap_i64 (exp - now)) 0).

(** One claim as a parameter: texts as they are, [null] not at all, anything else as
    its JSON text. *)
Definition param_of_claim (kv : string * Value) : option (string * string) :=
  if list_any (fun e => bool_decide (e = kv.1)) ENVELOPE_CLAIMS then None
  else match kv.2 with
       | Str s => Some (kv.1, s)
       | Null => None
       | other => Some (kv.1, json_to_string other)
       end.
Definition ro_params (client : Client) (obj : list (string * Value)) : gmap string string :=
  let params := foldl (fun m kv => match param_of_claim kv with Some (k, s) => <[k := s]> m | None => m end)
                  ∅ obj in
  match params !! "client_id" with
  | Some _ => params
  | None => <["client_id" := cl_client_id client]> params
  end.

Definition ro_verify (p : Provider) (client : Client) (jwt issuer : string) :
    prog provE (result OAuthError (gmap string string)) :=
  payload ←? mret (ro_signed_payload client jwt);
  t ← now;
  jt ←? mret (ro_envelope client issuer t payload);
  fresh ← claim p JarJti ("jar:" +:+ jt.1) jt.2;
  mret (if (fresh : bool)
        then obj ← ok_or (InvalidRequest "request object payload not an object") (as_object payload);
             Ok (ro_params client obj)
        else bad_request "request object jti replay").
End request_object.

(** * Properties *)

Section properties.
Context `{Externals, FsBackend, Services}.

Lemma ro_verify_Ok p client jwt issuer w m w' :
  run prov_handler (ro_verify p client jwt issuer) w = (Ok m, w') ->
  exists payload obj jt,
    ro_signed_payload client jwt = Ok payload /\ as_object payload = Some obj /\
    ro_envelope client issuer (secs_of (w_clk w)) payload = Ok jt /\
    run prov_handler (claim p JarJti ("jar:" +:+ jt.1) jt.2) w = (true, w') /\ m = ro_params client obj.
Proof.
  unfold ro_verify. rewrite try_mret.
  destruct (ro_signed_payload client jwt) as [payload|] eqn:Hp; [|done]. rewrite run_bind, run_now, try_mret.
  destruct (ro_envelope _ _ _ _) as [jt|] eqn:He; [|done]. rewrite run_bind.
  destruct (run prov_handler (claim _ _ _ _) w) as [[] w1] eqn:Hcl; [|done]. cbn [run mret prog_ret].
  destruct (as_object payload) as [obj|] eqn:Ho; simpl; [|done].
  intros [= <- <-]. exists payload, obj, jt. by repeat (split; [done|]).
Qed.

Lemma ro_envelope_Ok client issuer t payload jt :
  0 <= t <= 2 ^ 62 -> ro_envelope client issuer t payload = Ok jt ->
  get_str payload "iss" = Some (cl_client_id client) /\ get_str payload "jti" = Some jt.1 /\
  exists exp, get_i64 payload "exp" = Some exp /\ t < exp <= t + 3600 /\ jt.2 = exp - t.
Proof.
  intros Ht. unfold ro_envelope, str_is.
  destruct (bool_decide (get_str payload "iss" = _)) eqn:Hi; simpl; [|done]. apply bool_decide_eq_true in Hi.
  destruct (aud_ok payload issuer); simpl; [|done].
  destruct (get_i64 payload "exp") as [exp|] eqn:He; simpl; [|done].
  destruct (Z.leb_spec exp t); simpl; [done|].
  destruct (Z.ltb_spec (wrap_i64 (t + 3600)) exp) as [|Hle]; simpl; [done|].
  rewrite wrap_i64_id in Hle by (unfold in_i64, i64_min, i64_max; lia).
  destruct (get_i64 payload "nbf") as [nbf|]; simpl; [|done].
  destruct (_ <? nbf); simpl; [done|]. destruct (nbf <? _); simpl; [done|].
  destruct (get_i64 payload "iat"); simpl; [|done].
  destruct (get_str payload "jti") as [[|a j]|]; simpl; [done| |done].
  intros [= <-]. split; [done|]. split; [done|]. exists exp. split; [done|]. split; [lia|].
  simpl. rewrite wrap_i64_id; [lia|]. unfold in_i64, i64_min, i64_max. lia.
Qed.

(** A request object is accepted only with a signature by a registered key of the
    client, issued by that client, in its window of at most an hour; and the same
    object is never accepted again, for this or any other client, at any later time. *)
Theorem request_object_no_replay p client client' jwt issuer issuer' w m w1 tr w2 :
  p_nonce p JarJti = MemoryNonce -> 0 <= w_clk w -> secs_of (w_clk w2) <= 2 ^ 62 ->
  run prov_handler (ro_verify p client jwt issuer) w = (Ok m, w1) ->
  wexec prov_handler prov_env w1 tr w2 ->
  ro_signed_payload client' jwt = ro_signed_payload client jwt ->
  (exists payload, ro_signed_payload client jwt = Ok payload /\
     get_str payload "iss" = Some (cl_client_id client)) /\
  is_ok (run prov_handler (ro_verify p client' jwt issuer') w2).1 = false.
Proof.
  intros Hmem Hz H62 Hrun Htr Hsame. pose proof (wexec_clk _ _ _ Htr) as Hclk.
  pose proof (run_clk (ro_verify p client jwt issuer) w) as Hrc. rewrite Hrun in Hrc. cbn [snd] in Hrc.
  pose proof (Z.div_pos (w_clk w) NS Hz ltac:(done)) as Hpos. fold (secs_of (w_clk w)) in Hpos.
  pose proof (secs_mono (w_clk w) (w_clk w2) ltac:(lia)) as Hmono.
  apply ro_verify_Ok in Hrun as (payload & obj & jt & Hp & _ & He & Hclaim & _).
  apply ro_envelope_Ok in He as (Hiss & Hj & exp & Hexp & Hwin & Httl); [|lia].
  split; [eauto|].
  destruct (run prov_handler (ro_verify p client' jwt issuer') w2) as [[m2|e] w3] eqn:Hrun2; [exfalso|done].
  apply ro_verify_Ok in Hrun2 as (payload2 & obj2 & jt2 & Hp2 & _ & He2 & Hclaim2 & _).
  apply ro_envelope_Ok in He2 as (_ & Hj2 & exp2 & Hexp2 & Hwin2 & _); [|lia].
  assert (payload2 = payload) as -> by congruence. assert (exp2 = exp) as -> by congruence.
  assert (Hjt : jt2.1 = jt.1) by congruence. rewrite Hjt in Hclaim2.
  assert (Hlt : w_clk w2 < w_clk w + jt.2 * NS).
  { rewrite Httl. destruct Hwin2 as [Hw2 _]. clear -Hw2.
    unfold secs_of, NS in *. Z.to_euclidean_division_equations. lia. }
  pose proof (no_second_claim p JarJti ("jar:" +:+ jt.1) jt.2 jt2.2 w w1 tr w2 Hmem Hclaim Htr Hlt) as Hno.
  rewrite Hclaim2 in Hno. done.
Qed.

(** The parameters of an accepted object never include its envelope claims, are
    its text claims as they are and its other claims as JSON texts, and always name a
    client. *)
Theorem request_object_params client obj k :
  (k ∈ ENVELOPE_CLAIMS -> ro_params client obj !! k = None) /\
  is_Some (ro_params client obj !! "client_id") /\
  (forall s, NoDup obj.*1 -> k <> "client_id" -> k ∉ ENVELOPE_CLAIMS -> (k, Str s) ∈ obj ->
     ro_params client obj !! k = Some s).
Proof.
  set (step := fun (m : gmap string string) kv =>
    match param_of_claim kv with Some (k, s) => <[k := s]> m | None => m end).
  assert (Hcid : forall k, k <> "client_id" -> ro_params client obj !! k = foldl step ∅ obj !! k).
  { intros k0 Hk0. unfold ro_params. fold step. destruct (foldl step ∅ obj !! "client_id"); [done|].
    by rewrite lookup_insert_ne. }
  assert (Hother : forall l m k0, (forall v, (k0, v) ∈ l -> param_of_claim (k0, v) = None) ->
    foldl step m l !! k0 = m !! k0).
  { induction l as [|[k1 v1] l IH]; intros m k0 Hk; simpl; [done|]. rewrite IH; [|set_solver].
    unfold step. destruct (param_of_claim (k1, v1)) as [[k2 s2]|] eqn:Hp; [|done].
    assert (k2 = k1) as -> by (unfold param_of_claim in Hp; cbn [fst snd] in Hp; repeat case_match; simplify_eq; done).
    rewrite lookup_insert_ne; [done|]. intros ->. rewrite (Hk v1) in Hp; [done | left]. }
  split; [|split].
  - intros Hk. rewrite Hcid; [|intros ->; revert Hk; apply (bool_decide_unpack _); by vm_compute].
    rewrite Hother; [apply lookup_empty|]. intros v _. unfold param_of_claim. cbn [fst snd].
    assert (Ht : list_any (fun e => bool_decide (e = k)) ENVELOPE_CLAIMS = true); [|by rewrite Ht].
    apply list_any_true. exists k. by rewrite bool_decide_eq_true_2.
  - unfold ro_params. fold step. destruct (foldl step ∅ obj !! "client_id") eqn:Hc; [by rewrite Hc|].
    by rewrite lookup_insert_eq.
  - intros s Hnd Hk Hke Hin. rewrite Hcid by done.
    apply list_elem_of_split in Hin as (l1 & l2 & ->). rewrite foldl_app. simpl.
    rewrite fmap_app, fmap_cons in Hnd. simpl in Hnd. apply NoDup_app in Hnd as (_ & _ & Hnd).
    apply NoDup_cons in Hnd as [Hnd _].
    rewrite Hother.
    + unfold step at 1, param_of_claim. cbn [fst snd].
      destruct (list_any _ ENVELOPE_CLAIMS) eqn:Hl; [|by rewrite lookup_insert_eq].
      apply list_any_true in Hl as (e & He & Heq). apply bool_decide_eq_true in Heq as ->. done.
    + intros v Hv. destruct Hnd. apply list_elem_of_fmap. by exists (k, v).
Qed.
End properties.

(** ** Witnesses *)

Definition jar_externals : Externals :=
  sample_externals
    [("h", Object [("alg", Str "ES256"); ("kid", Str "k")]);
     ("p", Object [("iss", Str "kc"); ("aud", Str "https://op.example"); ("exp", Number (NInt 1300));
                   ("nbf", Number (NInt 990)); ("iat", Number (NInt 990)); ("jti", Str "r1");
                   ("scope", Str "openid")])].
Definition jar_run (w : @world no_database) :=
  run (@prov_handler jar_externals no_database sample_services)
    (@ro_verify jar_externals key_provider key_client "h.p.good" "https://op.example") w.

Lemma request_object_no_replay_witness :
  is_ok (jar_run (jar_run assertion_world).2).1 = false.
Proof.
  refine (proj2 (@request_object_no_replay jar_externals no_database sample_services key_provider key_client
    key_client "h.p.good" "https://op.example" "https://op.example" assertion_world
    (<["client_id" := "kc"]> (<["scope" := "openid"]> ∅)) (jar_run assertion_world).2 []
    (jar_run assertion_world).2 _ _ _ _ _ _)).
  - reflexivity.
  - vm_compute. discriminate.
  - vm_compute. discriminate.
  - vm_compute. reflexivity.
  - constructor.
  - reflexivity.
Defined.

Lemma request_object_params_witness :
  @ro_params jar_externals key_client [("iss", Str "kc"); ("scope", Str "openid")] !! "iss" = None.
Proof.
  apply (proj1 (@request_object_params jar_externals key_client
    [("iss", Str "kc"); ("scope", Str "openid")] "iss")). left.
Defined.
