(* ===== verification/Grants.v ===== *)
(** * Grants: the token endpoint's handlers

    [src/src/grants.rs]: the issue of access, identity and refresh tokens and the
    handlers of the three grant types, as programs over the provider's operations. *)

From S2P Require Import Prelude Prog Json Model Firestore Externals Es256 Sys Nonce Ciba Dcr.
From S2P Require Import DcrStore Store Provider ProviderFacts.

#[local] Open Scope Z_scope.

(** A form: [HashMap<String, String>]. *)
Definition has_scope (scope want : string) : bool :=
  list_any (fun s => bool_decide (s = want)) (split_whitespace scope).

Definition u64_value (z : Z) : Value := Number (NInt z).

(** [claims[k] = v] for an optional value. *)
Definition add_claim (k : string) (v : option Value) (claims : Value) : Value :=
  match v with Some x => set_field claims k x | None => claims end.

Section grants.
Context `{Externals}.

(** The first 16 bytes. *)
Definition at_hash (access_token : string) : string :=
  b64url_encode (String.substring 0 16 (sha256_digest access_token)).

Definition id_token_claims (issuer account_id client_id : string) (iat : Z) (access_token : string)
    (nonce : option string) (auth_time : option Z) (acr : option string) : Value :=
  add_claim "acr" (Str <$> acr)
    (add_claim "auth_time" (u64_value <$> auth_time)
       (add_claim "nonce" (Str <$> nonce)
          (Object [("iss", Str issuer); ("sub", Str account_id); ("aud", Str client_id);
                   ("iat", u64_value iat); ("exp", u64_value (iat + 900));
                   ("at_hash", Str (at_hash access_token))]))).

Definition issue_access_and_id (p : Provider) (client_id account_id scope : string)
    (nonce : option string) (auth_time : option Z) (acr dpop_jkt id_token_alg resource : option string)
    (authorization_details : option string) : prog provE (result OAuthError (string * string)) :=
  access_token ← fresh_id;
  _ ← store (SaveAccessToken (mkAccessToken access_token client_id account_id scope dpop_jkt resource
               acr auth_time authorization_details false));
  iat ← now;
  let claims := id_token_claims (p_issuer p) account_id client_id iat access_token nonce auth_time acr in
  mret (signer ← signer_for p id_token_alg; Ok (access_token, sg_sign signer claims)).

Definition maybe_issue_refresh (client_id account_id scope : string) (resource acr : option string)
    (auth_time : option Z) (jkt : option string) (is_public : bool) : prog provE (option string) :=
  if negb (has_scope scope "offline_access") then mret None
  else if match jkt with None => is_public | Some _ => false end then mret None
  else
    token ← fresh_id;
    family_id ← fresh_id;
    _ ← store (SaveRefreshToken (mkRefreshToken token client_id account_id scope resource jkt acr
                 auth_time family_id false None));
    mret (Some token).

Definition token_type (dpop_jkt : option string) : string :=
  match dpop_jkt with Some _ => "DPoP" | None => "Bearer" end.

(** The checks of a taken code against the request, in the code's order. *)
Definition check_code (t : Z) (client : Client) (form : gmap string string) (dpop_jkt : option string)
    (code : AuthorizationCode) : result OAuthError unit :=
  if negb (bool_decide (ac_client_id code = cl_client_id client))
  then Err (InvalidGrant "code issued to another client")
  else if ac_expires_at code <? t then Err (InvalidGrant "authorization code expired")
  else
    redirect_uri ← ok_or (InvalidRequest "redirect_uri required") (form !! "redirect_uri");
    if negb (bool_decide (redirect_uri = ac_redirect_uri code))
    then Err (InvalidGrant "redirect_uri mismatch")
    else
      _ ← (match ac_code_challenge code with
           | Some challenge =>
               verifier ← ok_or (InvalidGrant "code_verifier required") (form !! "code_verifier");
               if bool_decide (b64url_encode (sha256_digest verifier) = challenge) then Ok tt
               else Err (InvalidGrant "PKCE verification failed")
           | None => Ok tt
           end);
      match ac_dpop_jkt code with
      | Some want_jkt =>
          if bool_decide (dpop_jkt = Some want_jkt) then Ok tt
          else Err (InvalidDpopProof "DPoP proof jkt does not match dpop_jkt bound at authorization")
      | None => Ok tt
      end.

Definition authorization_code_grant (p : Provider) (client : Client) (form : gmap string string)
    (dpop_jkt : option string) : prog provE (result OAuthError TokenResponse) :=
  code_val ←? mret (ok_or (InvalidRequest "code required") (form !! "code"));
  taken ← store (TakeCode code_val);
  code ←? mret (ok_or (InvalidGrant "code not found or already used") taken);
  t ← now;
  _ ←? mret (check_code t client form dpop_jkt code);
  tokens ←? issue_access_and_id p (cl_client_id client) (ac_account_id code) (ac_scope code)
              (ac_nonce code) (Some (ac_auth_time code)) (ac_acr code) dpop_jkt
              (cl_id_token_signed_response_alg client) (ac_resource code) None;
  refresh_token ← maybe_issue_refresh (cl_client_id client) (ac_account_id code) (ac_scope code)
                    (ac_resource code) (ac_acr code) (Some (ac_auth_time code)) dpop_jkt
                    (is_public client);
  _ ← store (LinkIssuedTokens code_val tokens.1 refresh_token);
  mret (Ok (mkTokenResponse tokens.1 (token_type dpop_jkt) 900 (ac_scope code) (Some tokens.2)
              refresh_token None)).

(** The binding of a refresh token to the presented proof. *)
Definition check_refresh_binding (client : Client) (dpop_jkt : option string) (pre : RefreshToken) :
    result OAuthError unit :=
  match rt_jkt pre with
  | Some bound =>
      if bool_decide (dpop_jkt = Some bound) then Ok tt
      else Err (InvalidDpopProof "DPoP proof jkt does not match the key bound to this refresh token")
  | None =>
      if is_public client
      then Err (InvalidGrant "refresh token for a public client must be DPoP-bound") else Ok tt
  end.

(** The scope of a rotation: the original one, or a requested part of it. *)
Definition refresh_scope (form : gmap string string) (pre : RefreshToken) : result OAuthError string :=
  match form !! "scope" with
  | Some req =>
      let original := split_whitespace (rt_scope pre) in
      if forallb (fun s => list_any (fun o => bool_decide (o = s)) original) (split_whitespace req)
      then Ok req else Err (InvalidScope "scope must not exceed original")
  | None => Ok (rt_scope pre)
  end.

Definition refresh_token_grant (p : Provider) (client : Client) (form : gmap string string)
    (dpop_jkt : option string) : prog provE (result OAuthError TokenResponse) :=
  rt_val ←? mret (ok_or (InvalidRequest "refresh_token required") (form !! "refresh_token"));
  got ← store (GetRefreshToken rt_val);
  pre ←? mret (ok_or (InvalidGrant "refresh_token not found or already used") got);
  _ ←? mret (if negb (bool_decide (rt_client_id pre = cl_client_id client))
             then Err (InvalidGrant "refresh_token issued to another client") else Ok tt);
  _ ←? mret (check_refresh_binding client dpop_jkt pre);
  if rt_used pre then
    _ ← store (RevokeRefreshFamily rt_val);
    mret (Err (InvalidGrant "refresh token reuse detected; token family revoked"))
  else
    scope ←? mret (refresh_scope form pre);
    new_refresh ← (if has_scope scope "offline_access" then t ← fresh_id; mret (Some t) else mret None);
    won ← store (MarkRefreshUsed rt_val new_refresh);
    if negb won then mret (Err (InvalidGrant "refresh_token not found or already used"))
    else
      tokens ←? issue_access_and_id p (cl_client_id client) (rt_account_id pre) scope None
                  (rt_auth_time pre) (rt_acr pre) dpop_jkt (cl_id_token_signed_response_alg client)
                  (rt_resource pre) None;
      _ ← (match new_refresh with
           | Some new_token =>
               store (SaveRefreshToken (mkRefreshToken new_token (cl_client_id client)
                 (rt_account_id pre) scope (rt_resource pre) (rt_jkt pre) (rt_acr pre)
                 (rt_auth_time pre) (rt_family_id pre) false None))
           | None => mret tt
           end);
      mret (Ok (mkTokenResponse tokens.1 (token_type dpop_jkt) 900 scope (Some tokens.2) new_refresh None)).

Definition server_error {X} (r : result string X) : result OAuthError X := map_err ServerError r.

Definition ciba_grant (p : Provider) (client : Client) (form : gmap string string)
    (dpop_jkt : option string) : prog provE (result OAuthError TokenResponse) :=
  auth_req_id ←? mret (ok_or (InvalidRequest "auth_req_id required") (form !! "auth_req_id"));
  got ← ciba (CibaGet auth_req_id);
  found ←? mret (server_error got);
  req ←? mret (ok_or (InvalidGrant "unknown auth_req_id") found);
  _ ←? mret (if negb (bool_decide (br_client_id req = cl_client_id client))
             then Err (InvalidGrant "auth_req_id issued to another client") else Ok tt);
  t ← now;
  if br_expired t req then
    _ ← ciba (CibaDelete auth_req_id);
    mret (Err (ExpiredToken "auth_req_id expired"))
  else
    match br_status req with
    | Pending => mret (Err (AuthorizationPending "authorization pending"))
    | Denied =>
        _ ← ciba (CibaDelete auth_req_id);
        mret (Err (AccessDenied "end-user denied the request"))
    | Approved =>
        taken ← ciba (ConsumeIfApproved auth_req_id);
        taken ←? mret (server_error taken);
        req ←? mret (ok_or (InvalidGrant "auth_req_id already used") taken);
        tokens ←? issue_access_and_id p (cl_client_id client) (br_account req) (br_scope req) None None
                    None dpop_jkt (cl_id_token_signed_response_alg client) None
                    (br_authorization_details req);
        mret (Ok (mkTokenResponse tokens.1 (token_type dpop_jkt) 900 (br_scope req) (Some tokens.2) None
                    (br_authorization_details req ≫= fun s => result_ok (json_from_slice s))))
    end.

(** [GrantHandler::handle]. *)
Definition grant_handle (g : GrantHandler) : Provider -> Client -> gmap string string -> option string ->
    prog provE (result OAuthError TokenResponse) :=
  match g with
  | AuthorizationCodeGrant => authorization_code_grant
  | RefreshTokenGrant => refresh_token_grant
  | CibaGrant => ciba_grant
  end.
End grants.
