(* ===== verification/GrantsFacts.v ===== *)
(** * Properties of the grants

    What a granted token is bound to, what a refused request leaves behind, rotation
    and reuse of refresh tokens, the poll of a back-channel request, and the single use
    of codes, refresh tokens and requests under every interleaving. *)

From S2P Require Import Prelude Prog Json Model Firestore Externals Es256 Sys Nonce Ciba CibaFacts.
From S2P Require Import Dcr DcrStore Store StoreFacts Provider ProviderFacts Dpop ClientAuth Grants.

#[local] Open Scope Z_scope.

Section facts.
Context `{Externals, FsBackend, Services}.

(** ** Runs of the issuing steps *)

Definition secs (w : world) : Z := secs_of (w_clk w).

(** The world after the process drew one identifier. *)
Definition drew (w : world) : world := set_sys (mkSysWorld (w_clk w) (S (w_uuid w)) (w_rand w) (w_db w)) w.

Lemma run_fresh_id w : run prov_handler fresh_id w = (uuid_v4 (w_uuid w), drew w).
Proof. done. Qed.
Lemma run_store X (o : storeE X) w :
  run prov_handler (store o) w = ((mem_op (secs w) o (w_store w)).1, set_store (mem_op (secs w) o (w_store w)).2 w).
Proof. unfold store. rewrite run_trigger. simpl. by destruct (mem_op _ o _). Qed.

Lemma set_store_store s w : w_store (set_store s w) = s.
Proof. done. Qed.
Lemma set_store_secs s w : secs (set_store s w) = secs w.
Proof. done. Qed.
Lemma drew_secs w : secs (drew w) = secs w.
Proof. done. Qed.
Lemma drew_store w : w_store (drew w) = w_store w.
Proof. done. Qed.

Definition issued_access (w : world) (client_id account_id scope : string) (jkt resource acr : option string)
    (auth_time : option Z) (ad : option string) : AccessToken :=
  mkAccessToken (uuid_v4 (w_uuid w)) client_id account_id scope jkt resource acr auth_time ad false.

Lemma run_issue p cid acc scope nonce at' acr jkt alg res ad w :
  run prov_handler (issue_access_and_id p cid acc scope nonce at' acr jkt alg res ad) w =
    ((signer ← signer_for p alg;
      Ok (uuid_v4 (w_uuid w), sg_sign signer (id_token_claims (p_issuer p) acc cid (secs w) (uuid_v4 (w_uuid w))
                                                nonce at' acr))),
     set_store (save_access_token (secs w) (issued_access w cid acc scope jkt res acr at' ad) (w_store w)) (drew w)).
Proof.
  unfold issue_access_and_id. rewrite run_bind, run_fresh_id. rewrite run_bind, run_store.
  cbn [mem_op fst snd]. rewrite run_bind, run_now. done.
Qed.

Definition refresh_issued (scope : string) (jkt : option string) (public : bool) : bool :=
  has_scope scope "offline_access" && negb (match jkt with None => public | Some _ => false end).
Definition issued_refresh (w : world) (cid acc scope : string) (res acr : option string) (at' : option Z)
    (jkt : option string) : RefreshToken :=
  mkRefreshToken (uuid_v4 (w_uuid w)) cid acc scope res jkt acr at' (uuid_v4 (S (w_uuid w))) false None.

Lemma run_maybe_refresh cid acc scope res acr at' jkt public w :
  run prov_handler (maybe_issue_refresh cid acc scope res acr at' jkt public) w =
    if refresh_issued scope jkt public
    then (Some (uuid_v4 (w_uuid w)),
          set_store (save_refresh_token (secs w) (issued_refresh w cid acc scope res acr at' jkt) (w_store w))
            (drew (drew w)))
    else (None, w).
Proof.
  unfold maybe_issue_refresh, refresh_issued. destruct (has_scope scope "offline_access"); cbn [negb andb]; [|done].
  destruct (match jkt with None => public | Some _ => false end); cbn [negb andb]; [done|].
  rewrite run_bind, run_fresh_id. rewrite run_bind, run_fresh_id. rewrite run_bind, run_store. done.
Qed.

(** A token saved now is found now. *)
Lemma get_saved_access t at_ s : (get_access_token t (at_token at_) (save_access_token t at_ s)).1 = Some at_.
Proof.
  unfold get_access_token, get_live. simpl. rewrite lookup_insert_eq. unfold alive, ACCESS_TTL_SECS. simpl.
  rewrite (proj2 (Z.ltb_lt t (t + 900))); [done | lia].
Qed.
Lemma get_access_map t k s s' :
  ms_access_tokens s' !! k = ms_access_tokens s !! k -> (get_access_token t k s').1 = (get_access_token t k s).1.
Proof. unfold get_access_token, get_live. intros ->. destruct (ms_access_tokens s !! k) as [e|]; [|done]. by destruct (alive t e). Qed.
Lemma get_refresh_map t k s s' :
  ms_refresh_tokens s' !! k = ms_refresh_tokens s !! k -> (get_refresh_token t k s').1 = (get_refresh_token t k s).1.
Proof. unfold get_refresh_token, get_live. intros ->. destruct (ms_refresh_tokens s !! k) as [e|]; [|done]. by destruct (alive t e). Qed.
Lemma get_saved_refresh t r s : (get_refresh_token t (rt_token r) (save_refresh_token t r s)).1 = Some r.
Proof.
  unfold get_refresh_token, get_live. simpl. rewrite lookup_insert_eq. unfold alive, REFRESH_TTL_SECS. simpl.
  rewrite (proj2 (Z.ltb_lt t (t + 14 * 24 * 3600))); [done | lia].
Qed.

(** ** The authorization code grant *)

(** What the checks of a taken code mean. *)
Definition code_redeemable (t : Z) (client : Client) (form : gmap string string) (jkt : option string)
    (code : AuthorizationCode) : Prop :=
  ac_client_id code = cl_client_id client /\ t <= ac_expires_at code /\
  form !! "redirect_uri" = Some (ac_redirect_uri code) /\
  (forall ch, ac_code_challenge code = Some ch ->
     exists v, form !! "code_verifier" = Some v /\ b64url_encode (sha256_digest v) = ch) /\
  (forall want, ac_dpop_jkt code = Some want -> jkt = Some want).

Lemma check_code_Ok t client form jkt code :
  check_code t client form jkt code = Ok tt <-> code_redeemable t client form jkt code.
Proof.
  unfold check_code, code_redeemable. split.
  - case_bool_decide as Hc; simpl; [|done]. destruct (Z.ltb_spec (ac_expires_at code) t); [done|].
    destruct (form !! "redirect_uri") as [ru|]; simpl; [|done]. case_bool_decide as Hru; simpl; [subst ru|done].
    intros Hr. split; [done|]. split; [done|]. split; [done|].
    apply bind_Ok in Hr as ([] & Hp & Hd). split.
    + intros ch Hch. rewrite Hch in Hp. destruct (form !! "code_verifier") as [v|]; simpl in Hp; [|done].
      case_bool_decide; [eauto | done].
    + intros want Hw. rewrite Hw in Hd. by case_bool_decide.
  - intros (Hc & Ht & Hru & Hp & Hd). rewrite bool_decide_eq_true_2 by done. simpl.
    rewrite (proj2 (Z.ltb_ge _ _)) by done. rewrite Hru. simpl. rewrite bool_decide_eq_true_2 by done. simpl.
    destruct (ac_code_challenge code) as [ch|].
    + destruct (Hp ch eq_refl) as (v & -> & Hv). simpl. rewrite bool_decide_eq_true_2 by done. simpl.
      destruct (ac_dpop_jkt code) as [want|]; [|done]. by rewrite bool_decide_eq_true_2 by auto.
    + simpl. destruct (ac_dpop_jkt code) as [want|]; [|done]. by rewrite bool_decide_eq_true_2 by auto.
Qed.

Lemma link_access_map c a r s : ms_access_tokens (link_issued_tokens c a r s) = ms_access_tokens s.
Proof. by destruct (link_issued_tokens_other c a r s) as (_ & -> & _). Qed.
Lemma link_refresh_map c a r s : ms_refresh_tokens (link_issued_tokens c a r s) = ms_refresh_tokens s.
Proof. by destruct (link_issued_tokens_other c a r s) as (_ & _ & ->). Qed.

(** The whole run after the code was taken. *)
Lemma code_grant_run p client form jkt w cv :
  form !! "code" = Some cv ->
  run prov_handler (authorization_code_grant p client form jkt) w =
    let '(taken, s1) := take_code (secs w) cv (w_store w) in
    let w1 := set_store s1 w in
    match taken with
    | None => (Err (InvalidGrant "code not found or already used"), w1)
    | Some code =>
        match check_code (secs w) client form jkt code with
        | Err e => (Err e, w1)
        | Ok _ =>
            let '(tokens, w2) := run prov_handler
              (issue_access_and_id p (cl_client_id client) (ac_account_id code) (ac_scope code)
                 (ac_nonce code) (Some (ac_auth_time code)) (ac_acr code) jkt
                 (cl_id_token_signed_response_alg client) (ac_resource code) None) w1 in
            match tokens with
            | Err e => (Err e, w2)
            | Ok tk =>
                let '(rt, w3) := run prov_handler
                  (maybe_issue_refresh (cl_client_id client) (ac_account_id code) (ac_scope code)
                     (ac_resource code) (ac_acr code) (Some (ac_auth_time code)) jkt (is_public client)) w2 in
                (Ok (mkTokenResponse tk.1 (token_type jkt) 900 (ac_scope code) (Some tk.2) rt None),
                 set_store (link_issued_tokens cv tk.1 rt (w_store w3)) w3)
            end
        end
    end.
Proof.
  intros Hf. unfold authorization_code_grant. rewrite Hf, try_mret. cbn [ok_or].
  rewrite run_bind, run_store. cbn [mem_op].
  destruct (take_code (secs w) cv (w_store w)) as [[code|] s1]; cbn [fst snd]; rewrite try_mret; cbn [ok_or]; [|done].
  rewrite run_bind, run_now, try_mret. change (secs_of (w_clk (set_store s1 w))) with (secs w).
  destruct (check_code _ _ _ _ _) as [[]|e]; [|done]. rewrite run_try_bind.
  destruct (run prov_handler (issue_access_and_id _ _ _ _ _ _ _ _ _ _ _) _) as [[tk|e] w2]; [|done].
  rewrite run_bind. destruct (run prov_handler (maybe_issue_refresh _ _ _ _ _ _ _ _) w2) as [rt w3].
  rewrite run_bind, run_store. done.
Qed.

(** A code that was taken is spent, and linking its tokens keeps it so. *)
Lemma taken_spent t cv s code s1 :
  take_code t cv s = (Some code, s1) -> absent_or (fun r => cr_used r = true) (ms_codes s1) cv.
Proof.
  unfold take_code. destruct (ms_codes s !! cv) as [e|]; [|done].
  destruct (alive t e); simpl; [|done]. destruct (cr_used (ex_value e)); [done|].
  intros [= _ <-]. simpl. intros e'. rewrite lookup_insert_eq. by intros [= <-].
Qed.
Lemma spent_link cv a r s :
  absent_or (fun r => cr_used r = true) (ms_codes s) cv ->
  absent_or (fun r => cr_used r = true) (ms_codes (link_issued_tokens cv a r s)) cv.
Proof.
  unfold link_issued_tokens. intros Hs. destruct (ms_codes s !! cv) as [e|] eqn:He; [|done].
  simpl. intros e'. rewrite lookup_insert_eq. intros [= <-]. simpl. by apply Hs.
Qed.
Lemma spent_take t cv s :
  absent_or (fun r => cr_used r = true) (ms_codes s) cv -> (take_code t cv s).1 = None.
Proof.
  unfold take_code. intros Hs. destruct (ms_codes s !! cv) as [e|] eqn:He; [|done].
  destruct (alive t e); simpl; [|done]. by rewrite (Hs e He).
Qed.

(** C5: a code is redeemed only by its client, in time, with its redirect URI, with the
    verifier of its challenge and with a proof of the key it was bound to.  The tokens
    are for the code's account and scope, the access token and the refresh token are
    bound to the key of the presented proof, a refresh token is issued exactly for
    offline_access and never unbound to a public client, and the code is spent. *)
Theorem code_grant_sound p client form jkt w resp w' :
  run prov_handler (authorization_code_grant p client form jkt) w = (Ok resp, w') ->
  exists cv code s1,
    form !! "code" = Some cv /\ take_code (secs w) cv (w_store w) = (Some code, s1) /\
    code_redeemable (secs w) client form jkt code /\
    tr_token_type resp = token_type jkt /\ tr_scope resp = ac_scope code /\
    (get_access_token (secs w) (tr_access_token resp) (w_store w')).1 =
      Some (mkAccessToken (tr_access_token resp) (cl_client_id client) (ac_account_id code) (ac_scope code)
              jkt (ac_resource code) (ac_acr code) (Some (ac_auth_time code)) None false) /\
    match tr_refresh_token resp with
    | Some r =>
        has_scope (ac_scope code) "offline_access" = true /\ (is_public client = true -> is_Some jkt) /\
        exists family, (get_refresh_token (secs w) r (w_store w')).1 =
          Some (mkRefreshToken r (cl_client_id client) (ac_account_id code) (ac_scope code)
                  (ac_resource code) jkt (ac_acr code) (Some (ac_auth_time code)) family false None)
    | None => refresh_issued (ac_scope code) jkt (is_public client) = false
    end /\
    (take_code (secs w) cv (w_store w')).1 = None.
Proof.
  intros Hrun. destruct (form !! "code") as [cv|] eqn:Hf.
  2:{ unfold authorization_code_grant in Hrun. by rewrite Hf, try_mret in Hrun. }
  rewrite (code_grant_run _ _ _ _ _ cv Hf) in Hrun.
  destruct (take_code (secs w) cv (w_store w)) as [[code|] s1] eqn:Ht; cbv zeta in Hrun; [|done].
  destruct (check_code (secs w) client form jkt code) as [[]|] eqn:Hc; [|done].
  rewrite run_issue in Hrun. set (w1 := set_store s1 w) in *.
  set (AT := issued_access _ _ _ _ _ _ _ _ _) in Hrun.
  destruct (signer_for p _) as [sg|e]; cbn [mbind result_bind] in Hrun; [|done].
  rewrite run_maybe_refresh in Hrun. cbn [fst snd] in Hrun.
  apply check_code_Ok in Hc. exists cv, code, s1. split; [done|]. split; [done|]. split; [done|].
  pose proof (taken_spent _ _ _ _ _ Ht) as Hsp.
  destruct (refresh_issued (ac_scope code) jkt (is_public client)) eqn:Hri;
    cbn [fst snd] in Hrun; injection Hrun as <- <-; cbn [tr_token_type tr_scope tr_access_token tr_refresh_token];
    (split; [done|]); (split; [done|]); (split; [|split]).
  - etransitivity; [apply (get_access_map _ _ (save_access_token (secs w) AT s1)); simpl;
      by rewrite link_access_map | exact (get_saved_access (secs w) AT s1)].
  - apply andb_true_iff in Hri as [Ho Hp]. split; [done|]. split.
    { intros Hpub. rewrite Hpub in Hp. destruct jkt; [eauto | done]. }
    match goal with |- context [save_refresh_token _ ?r ?s] => set (RT := r); set (st := s) end.
    exists (rt_family_id RT). etransitivity; [apply (get_refresh_map _ _ (save_refresh_token (secs w) RT st)); simpl;
      by rewrite link_refresh_map | exact (get_saved_refresh (secs w) RT st)].
  - apply spent_take. simpl. by apply spent_link.
  - etransitivity; [apply (get_access_map _ _ (save_access_token (secs w) AT s1)); simpl;
      by rewrite link_access_map | exact (get_saved_access (secs w) AT s1)].
  - done.
  - apply spent_take. simpl. by apply spent_link.
Qed.

(** ** Refresh tokens *)

Lemma get_refresh_Some t k s pre :
  (get_refresh_token t k s).1 = Some pre <->
  exists e, ms_refresh_tokens s !! k = Some e /\ alive t e = true /\ ex_value e = pre.
Proof.
  unfold get_refresh_token, get_live. destruct (ms_refresh_tokens s !! k) as [e|]; simpl.
  - destruct (alive t e) eqn:Ha; simpl.
    + split; [intros [= <-]; eauto | by intros (e' & [= <-] & _ & ->)].
    + split; [done | intros (e' & [= <-] & ? & _); congruence].
  - split; [done | by intros (e' & ? & _)].
Qed.

(** Reading a live token changes nothing. *)
Lemma get_refresh_live t k s pre :
  (get_refresh_token t k s).1 = Some pre -> (get_refresh_token t k s).2 = s.
Proof.
  intros Hg. apply get_refresh_Some in Hg as (e & He & Ha & _). unfold get_refresh_token, get_live.
  rewrite He, Ha. by destruct s.
Qed.

(** What the checks before the rotation ask for. *)
Definition refreshable (client : Client) (form : gmap string string) (jkt : option string)
    (pre : RefreshToken) (scope : string) : Prop :=
  rt_client_id pre = cl_client_id client /\
  (forall bound, rt_jkt pre = Some bound -> jkt = Some bound) /\
  (rt_jkt pre = None -> is_public client = false) /\
  match form !! "scope" with Some req => scope = req | None => scope = rt_scope pre end /\
  (forall x, x ∈ split_whitespace scope -> x ∈ split_whitespace (rt_scope pre)).

Lemma refresh_binding_Ok client jkt pre :
  check_refresh_binding client jkt pre = Ok tt <->
  (forall bound, rt_jkt pre = Some bound -> jkt = Some bound) /\ (rt_jkt pre = None -> is_public client = false).
Proof.
  unfold check_refresh_binding. destruct (rt_jkt pre) as [b|].
  - case_bool_decide as Hj; split; try done; intros.
    + split; [by intros ? [= <-] | done].
    + destruct Hj. destruct H2 as [Hb _]. by apply Hb.
  - destruct (is_public client); split; try done. by intros [_ Hp]; specialize (Hp eq_refl).
Qed.

Lemma refresh_scope_Ok form pre scope :
  refresh_scope form pre = Ok scope <->
  match form !! "scope" with Some req => scope = req | None => scope = rt_scope pre end /\
  (forall x, x ∈ split_whitespace scope -> x ∈ split_whitespace (rt_scope pre)).
Proof.
  unfold refresh_scope. destruct (form !! "scope") as [req|].
  - destruct (forallb _ _) eqn:Hall.
    + rewrite forallb_forall in Hall. split; [intros [= <-] | by intros [-> _]]. split; [done|].
      intros x Hx. apply list_elem_of_In, Hall, list_any_true in Hx as (y & Hy & He).
      by apply bool_decide_eq_true in He as <-.
    + split; [done|]. intros [-> Hx]. exfalso. apply not_true_iff_false in Hall. apply Hall.
      apply forallb_forall. intros x Hin. apply list_any_true. exists x.
      rewrite bool_decide_eq_true_2 by done. split; [|done]. apply Hx. by apply list_elem_of_In.
  - split; [intros [= <-]; by split | by intros [-> _]].
Qed.

Definition new_refresh_of (scope : string) (w : world) : option string * world :=
  if has_scope scope "offline_access" then (Some (uuid_v4 (w_uuid w)), drew w) else (None, w).

Lemma refresh_run p client form jkt w rv :
  form !! "refresh_token" = Some rv ->
  run prov_handler (refresh_token_grant p client form jkt) w =
    let '(got, s1) := get_refresh_token (secs w) rv (w_store w) in
    let w1 := set_store s1 w in
    match got with
    | None => (Err (InvalidGrant "refresh_token not found or already used"), w1)
    | Some pre =>
        match (if negb (bool_decide (rt_client_id pre = cl_client_id client))
               then Err (InvalidGrant "refresh_token issued to another client")
               else check_refresh_binding client jkt pre) with
        | Err e => (Err e, w1)
        | Ok _ =>
            if rt_used pre
            then (Err (InvalidGrant "refresh token reuse detected; token family revoked"),
                  set_store (revoke_refresh_family rv s1) w1)
            else
              match refresh_scope form pre with
              | Err e => (Err e, w1)
              | Ok scope =>
                  let '(nr, w2) := new_refresh_of scope w1 in
                  let '(won, s2) := mark_refresh_used (secs w) rv nr (w_store w2) in
                  let w3 := set_store s2 w2 in
                  if negb won then (Err (InvalidGrant "refresh_token not found or already used"), w3)
                  else
                    let '(tokens, w4) := run prov_handler
                      (issue_access_and_id p (cl_client_id client) (rt_account_id pre) scope None
                         (rt_auth_time pre) (rt_acr pre) jkt (cl_id_token_signed_response_alg client)
                         (rt_resource pre) None) w3 in
                    match tokens with
                    | Err e => (Err e, w4)
                    | Ok tk =>
                        (Ok (mkTokenResponse tk.1 (token_type jkt) 900 scope (Some tk.2) nr None),
                         match nr with
                         | Some nt => set_store (save_refresh_token (secs w)
                             (mkRefreshToken nt (cl_client_id client) (rt_account_id pre) scope
                                (rt_resource pre) (rt_jkt pre) (rt_acr pre) (rt_auth_time pre)
                                (rt_family_id pre) false None) (w_store w4)) w4
                         | None => w4
                         end)
                    end
              end
        end
    end.
Proof.
  intros Hf. unfold refresh_token_grant. rewrite Hf, try_mret. cbn [ok_or].
  rewrite run_bind, run_store. cbn [mem_op].
  destruct (get_refresh_token (secs w) rv (w_store w)) as [[pre|] s1]; cbn [fst snd]; rewrite try_mret; cbn [ok_or]; [|done].
  rewrite try_mret. destruct (negb _); [done|]. rewrite try_mret.
  destruct (check_refresh_binding client jkt pre) as [[]|e]; [|done].
  destruct (rt_used pre).
  { rewrite run_bind, run_store. done. }
  rewrite try_mret. destruct (refresh_scope form pre) as [scope|e]; [|done].
  rewrite run_bind. unfold new_refresh_of.
  destruct (has_scope scope "offline_access"); cbn [run mret prog_ret].
  - rewrite run_bind, run_fresh_id. cbn [run mret prog_ret]. rewrite run_bind, run_store. cbn [mem_op].
    rewrite drew_secs, set_store_secs.
    destruct (mark_refresh_used (secs w) rv _ _) as [won s2]; cbn [fst snd].
    destruct won; cbn [negb]; [|done]. rewrite run_try_bind.
    rewrite run_issue. destruct (signer_for p _) as [sg|e]; cbn [mbind result_bind]; [|done].
    rewrite run_bind, run_store. done.
  - rewrite run_bind, run_store. cbn [mem_op]. rewrite set_store_secs.
    destruct (mark_refresh_used (secs w) rv _ _) as [won s2]; cbn [fst snd].
    destruct won; cbn [negb]; [|done]. rewrite run_try_bind.
    rewrite run_issue. destruct (signer_for p _) as [sg|e]; cbn [mbind result_bind]; done.
Qed.

(** A live unused token is marked; nothing else of the store changes. *)
Lemma mark_live t rv r s e :
  ms_refresh_tokens s !! rv = Some e -> alive t e = true -> rt_used (ex_value e) = false ->
  mark_refresh_used t rv r s =
    (true, with_refresh_tokens
       (<[rv := mkExpiring (rt_mark_used r (ex_value e)) (ex_expires_at e)]> (ms_refresh_tokens s)) s).
Proof. intros He Ha Hu. unfold mark_refresh_used. by rewrite He, Ha, Hu. Qed.

Lemma checks_refreshable client form jkt pre scope :
  (if negb (bool_decide (rt_client_id pre = cl_client_id client))
   then Err (InvalidGrant "refresh_token issued to another client")
   else check_refresh_binding client jkt pre) = Ok tt ->
  refresh_scope form pre = Ok scope -> refreshable client form jkt pre scope.
Proof.
  case_bool_decide as Hc; simpl; [|done]. rewrite refresh_binding_Ok, refresh_scope_Ok.
  intros [? ?] [? ?]. by repeat split.
Qed.

Lemma new_refresh_store scope w : w_store (new_refresh_of scope w).2 = w_store w.
Proof. unfold new_refresh_of. by destruct (has_scope _ _). Qed.
Lemma new_refresh_secs scope w : secs (new_refresh_of scope w).2 = secs w.
Proof. unfold new_refresh_of. by destruct (has_scope _ _). Qed.

(** The successor of a rotated token. *)
Definition successor (nt : string) (client : Client) (pre : RefreshToken) (scope : string) : RefreshToken :=
  mkRefreshToken nt (cl_client_id client) (rt_account_id pre) scope (rt_resource pre) (rt_jkt pre)
    (rt_acr pre) (rt_auth_time pre) (rt_family_id pre) false None.

(** The token of a rotation that is about to succeed. *)
Lemma rotation_inv p client form jkt w resp w' :
  run prov_handler (refresh_token_grant p client form jkt) w = (Ok resp, w') ->
  exists rv pre e w2 sg,
    form !! "refresh_token" = Some rv /\
    ms_refresh_tokens (w_store w) !! rv = Some e /\ alive (secs w) e = true /\ ex_value e = pre /\
    rt_used pre = false /\ refreshable client form jkt pre (tr_scope resp) /\
    (tr_refresh_token resp, w2) = new_refresh_of (tr_scope resp) w /\
    signer_for p (cl_id_token_signed_response_alg client) = Ok sg /\
    tr_token_type resp = token_type jkt /\
    tr_access_token resp = uuid_v4 (w_uuid w2) /\
    let marked := with_refresh_tokens
      (<[rv := mkExpiring (rt_mark_used (tr_refresh_token resp) pre) (ex_expires_at e)]>
         (ms_refresh_tokens (w_store w))) (w_store w) in
    let access := save_access_token (secs w)
      (issued_access w2 (cl_client_id client) (rt_account_id pre) (tr_scope resp) jkt (rt_resource pre)
         (rt_acr pre) (rt_auth_time pre) None) marked in
    w_store w' = match tr_refresh_token resp with
                 | Some nt => save_refresh_token (secs w) (successor nt client pre (tr_scope resp)) access
                 | None => access
                 end.
Proof.
  intros Hrun. destruct (form !! "refresh_token") as [rv|] eqn:Hf.
  2:{ unfold refresh_token_grant in Hrun. by rewrite Hf, try_mret in Hrun. }
  rewrite (refresh_run _ _ _ _ _ rv Hf) in Hrun.
  destruct (get_refresh_token (secs w) rv (w_store w)) as [[pre|] s1] eqn:Hg; cbv zeta in Hrun; [|done].
  assert (s1 = w_store w) as ->.
  { pose proof (get_refresh_live (secs w) rv (w_store w) pre) as Hl. rewrite Hg in Hl. by apply Hl. }
  pose proof (get_refresh_Some (secs w) rv (w_store w) pre) as Hg'. rewrite Hg in Hg'.
  destruct (proj1 Hg' eq_refl) as (e & He & Ha & Hv).
  destruct (if negb _ then _ else _) as [[]|er] eqn:Hc in Hrun; [|done].
  destruct (rt_used pre) eqn:Hu; [done|].
  destruct (refresh_scope form pre) as [scope|er] eqn:Hs; [|done].
  replace (set_store (w_store w) w) with w in Hrun by (by destruct w).
  destruct (new_refresh_of scope w) as [nr w2] eqn:Hnr.
  pose proof (new_refresh_store scope w) as Hst. rewrite Hnr in Hst. cbn [snd] in Hst.
  pose proof (new_refresh_secs scope w) as Hse. rewrite Hnr in Hse. cbn [snd] in Hse.
  rewrite Hst, (mark_live _ _ _ _ e He Ha) in Hrun by (by rewrite Hv). cbn [negb] in Hrun. rewrite run_issue in Hrun.
  destruct (signer_for p _) as [sg|er] eqn:Hsg; cbn [mbind result_bind] in Hrun; [|done].
  injection Hrun as <- <-. exists rv, pre, e, w2, sg. rewrite Hv.
  cbn [tr_scope tr_refresh_token tr_token_type tr_access_token].
  do 5 (split; [done|]). split; [by eapply checks_refreshable|]. do 4 (split; [done|]). cbv zeta.
  rewrite <- Hse. by destruct nr.
Qed.

(** C15: a rotation succeeds only for the token's client, with a proof of the key the
    token is bound to (a public client's token is always bound), and for a scope within
    the original one.  The access token keeps the account, the resource and the
    authentication context; a successor is issued exactly for offline_access and also
    keeps the key and the family; the old token stays, marked as used and linked to its
    successor, so that a reuse is noticed. *)
Theorem rotation_sound p client form jkt w resp w' :
  run prov_handler (refresh_token_grant p client form jkt) w = (Ok resp, w') ->
  exists rv pre,
    form !! "refresh_token" = Some rv /\
    (get_refresh_token (secs w) rv (w_store w)).1 = Some pre /\ rt_used pre = false /\
    refreshable client form jkt pre (tr_scope resp) /\
    tr_token_type resp = token_type jkt /\
    (get_access_token (secs w) (tr_access_token resp) (w_store w')).1 =
      Some (mkAccessToken (tr_access_token resp) (cl_client_id client) (rt_account_id pre) (tr_scope resp)
              jkt (rt_resource pre) (rt_acr pre) (rt_auth_time pre) None false) /\
    match tr_refresh_token resp with
    | Some nt =>
        has_scope (tr_scope resp) "offline_access" = true /\
        (get_refresh_token (secs w) nt (w_store w')).1 = Some (successor nt client pre (tr_scope resp))
    | None => has_scope (tr_scope resp) "offline_access" = false
    end /\
    (tr_refresh_token resp <> Some rv ->
     (get_refresh_token (secs w) rv (w_store w')).1 = Some (rt_mark_used (tr_refresh_token resp) pre)).
Proof.
  intros Hrun. apply rotation_inv in Hrun
    as (rv & pre & e & w2 & sg & Hf & He & Ha & Hv & Hu & Hok & Hnr & _ & Htt & Hat & Hst). cbv zeta in Hst.
  exists rv, pre. split; [done|]. split; [apply get_refresh_Some; eauto|]. do 3 (split; [done|]).
  unfold new_refresh_of in Hnr. split; [|split].
  - rewrite Hst, Hat. set (AT := issued_access _ _ _ _ _ _ _ _ _). set (s0 := with_refresh_tokens _ _).
    etransitivity; [apply (get_access_map _ _ (save_access_token (secs w) AT s0)); by destruct (tr_refresh_token resp)
                   | exact (get_saved_access (secs w) AT s0)].
  - rewrite Hst. destruct (has_scope _ _); injection Hnr as -> ->; [|done].
    split; [done|]. exact (get_saved_refresh (secs w) _ _).
  - intros Hne. apply get_refresh_Some. rewrite Hst.
    exists (mkExpiring (rt_mark_used (tr_refresh_token resp) pre) (ex_expires_at e)). split; [|done].
    destruct (tr_refresh_token resp) as [nt|]; simpl.
    + rewrite lookup_insert_ne by congruence. by rewrite lookup_insert_eq.
    + by rewrite lookup_insert_eq.
Qed.
End facts.

(** ** Witnesses *)

#[local] Existing Instance no_database.
Definition grants_externals : Externals := sample_externals [].
#[local] Existing Instance grants_externals.

Definition pkce_challenge : string := b64url_encode (sha256_digest "verifier").
Definition offline_code : AuthorizationCode :=
  mkAuthorizationCode "code" "rp" "alice" "https://rp.example/cb" "openid offline_access" (Some "n")
    (Some pkce_challenge) (Some "S256") 1000 None (Some "k") None 1060.
Definition code_form : gmap string string :=
  list_to_map [("code", "code"); ("redirect_uri", "https://rp.example/cb"); ("code_verifier", "verifier")].
Definition code_world : world := sample_world (1010 * NS) (save_code offline_code MemoryStore_default).
Definition redemption := authorization_code_grant sample_provider sample_client code_form (Some "k").
Definition redeemed := run prov_handler redemption code_world.

Lemma code_grant_sound_witness :
  code_redeemable 1010 sample_client code_form (Some "k") offline_code /\
  (take_code 1010 "code" (w_store redeemed.2)).1 = None.
Proof.
  destruct (code_grant_sound sample_provider sample_client code_form (Some "k") code_world
    (default (mkTokenResponse "" "" 0 "" None None None) (result_ok redeemed.1)) redeemed.2)
    as (cv & code & s1 & Hf & Ht & Hc & _ & _ & _ & _ & Hs).
  - vm_compute. reflexivity.
  - assert (cv = "code") as -> by (vm_compute in Hf; congruence).
    assert (code = offline_code) as -> by (vm_compute in Ht; vm_compute; congruence).
    split; [exact Hc | exact Hs].
Defined.

(** The refresh token "r1" of a confidential holder of the key "k". *)
Definition refresh_one : RefreshToken :=
  mkRefreshToken "r1" "rp" "alice" "openid offline_access" None (Some "k") None (Some 1000) "family" false None.
Definition refresh_form : gmap string string := list_to_map [("refresh_token", "r1")].
Definition refresh_world : world := sample_world (1010 * NS) (save_refresh_token 1000 refresh_one MemoryStore_default).
Definition rotation := refresh_token_grant sample_provider sample_client refresh_form (Some "k").
Definition rotated := run prov_handler rotation refresh_world.

Lemma rotation_sound_witness :
  (get_refresh_token 1010 "id" (w_store rotated.2)).1 =
    Some (successor "id" sample_client refresh_one "openid offline_access") /\
  (get_refresh_token 1010 "r1" (w_store rotated.2)).1 = Some (rt_mark_used (Some "id") refresh_one).
Proof.
  destruct (rotation_sound sample_provider sample_client refresh_form (Some "k") refresh_world
    (default (mkTokenResponse "" "" 0 "" None None None) (result_ok rotated.1)) rotated.2)
    as (rv & pre & Hf & Hg & _ & _ & _ & _ & Hn & Hm).
  - vm_compute. reflexivity.
  - assert (rv = "r1") as -> by (vm_compute in Hf; congruence).
    assert (pre = refresh_one) as -> by (vm_compute in Hg; vm_compute; congruence).
    split; [exact (proj2 Hn)|]. apply Hm. vm_compute. discriminate.
Defined.
