(* ===== verification/GrantSafety.v ===== *)
(** * Refusals, reuse and single use of the grants

    What a refused request leaves behind, the reuse of a rotated token, the poll of a
    back-channel request, and the single use of codes, refresh tokens and requests
    under every interleaving of the handlers. *)

From S2P Require Import Prelude Prog Json Model Store StoreFacts Firestore Externals Es256 Sys Nonce Ciba CibaFacts Dcr.
From S2P Require Import DcrStore Provider ProviderFacts Dpop ClientAuth Grants GrantsFacts.

#[local] Open Scope Z_scope.

Section facts.
Context `{Externals, FsBackend, Services}.

(** ** Refused rotations *)

Lemma get_refresh_live_eq t k s : live_eq t (get_refresh_token t k s).2 s.
Proof.
  unfold get_refresh_token. pose proof (get_live_spec t k (ms_refresh_tokens s)) as [_ Hl].
  destruct (get_live _ _ _) as [r m]. by repeat split.
Qed.

(** The store before and after, when the record of [k] was at most dropped as expired. *)
Definition only_dropped (t : Z) (k : string) (s s' : MemoryStore) : Prop :=
  s' = s \/ exists e, ms_refresh_tokens s !! k = Some e /\ alive t e = false /\
    s' = with_refresh_tokens (delete k (ms_refresh_tokens s)) s.
Lemma get_refresh_dropped t k s : only_dropped t k s (get_refresh_token t k s).2.
Proof.
  unfold get_refresh_token, get_live. destruct (ms_refresh_tokens s !! k) as [e|] eqn:He; [|left; by destruct s].
  destruct (alive t e) eqn:Ha; [left; by destruct s | right]. by exists e.
Qed.

(** C37: a refused rotation costs the client nothing.  When the server has a key to sign
    for the client with, and the presented token was not used before, a refusal leaves the
    store exactly as it was, except that the record of a token that has expired is
    dropped; the live records are the same, so the client can correct its request and try
    again. *)
Theorem refresh_refusal_harmless p client form jkt w err w' :
  run prov_handler (refresh_token_grant p client form jkt) w = (Err err, w') ->
  is_ok (signer_for p (cl_id_token_signed_response_alg client)) = true ->
  (forall rv pre, form !! "refresh_token" = Some rv ->
     (get_refresh_token (secs w) rv (w_store w)).1 = Some pre -> rt_used pre = false) ->
  match form !! "refresh_token" with
  | Some rv => only_dropped (secs w) rv (w_store w) (w_store w')
  | None => w_store w' = w_store w
  end /\ live_eq (secs w) (w_store w') (w_store w).
Proof.
  intros Hrun Hsg Hu. destruct (form !! "refresh_token") as [rv|] eqn:Hf.
  2:{ unfold refresh_token_grant in Hrun. rewrite Hf, try_mret in Hrun. by simplify_eq/=. }
  specialize (Hu rv). rewrite (refresh_run _ _ _ _ _ rv Hf) in Hrun.
  pose proof (get_refresh_live_eq (secs w) rv (w_store w)) as Hl. pose proof (get_refresh_dropped (secs w) rv (w_store w)) as Hd.
  destruct (get_refresh_token (secs w) rv (w_store w)) as [[pre|] s1] eqn:Hg; cbv zeta in Hrun; cbn [fst snd] in *.
  2:{ by injection Hrun as _ <-. }
  assert (s1 = w_store w) as ->.
  { pose proof (get_refresh_live (secs w) rv (w_store w) pre) as Hl'. rewrite Hg in Hl'. by apply Hl'. }
  destruct (if negb _ then _ else _) as [[]|er] in Hrun; [|by injection Hrun as _ <-].
  rewrite (Hu pre eq_refl eq_refl) in Hrun.
  destruct (refresh_scope form pre) as [scope|er]; [|by injection Hrun as _ <-].
  pose proof (get_refresh_Some (secs w) rv (w_store w) pre) as Hg'. rewrite Hg in Hg'.
  destruct (proj1 Hg' eq_refl) as (e & He & Ha & Hv).
  destruct (new_refresh_of scope _) as [nr w2] eqn:Hnr.
  pose proof (new_refresh_store scope (set_store (w_store w) w)) as Hst. rewrite Hnr in Hst. cbn [snd] in Hst.
  rewrite Hst, (mark_live _ _ _ _ e He Ha) in Hrun by (rewrite Hv; by apply Hu). cbn [negb] in Hrun.
  rewrite run_issue in Hrun. destruct (signer_for p _) as [sg|]; [|done]. simpl in Hrun. by destruct nr.
Qed.

(** C16: presenting a rotated token again, by its own client with the right proof, is
    refused and removes the token and its successors, up to the length the family
    revocation follows; access tokens, codes and the other families stay. *)
Theorem refresh_reuse_revokes p client form jkt w rv pre l :
  form !! "refresh_token" = Some rv ->
  (get_refresh_token (secs w) rv (w_store w)).1 = Some pre -> rt_used pre = true ->
  rt_client_id pre = cl_client_id client -> check_refresh_binding client jkt pre = Ok tt ->
  linked (ms_refresh_tokens (w_store w)) (rv :: l) -> NoDup (rv :: l) ->
  let '(r, w') := run prov_handler (refresh_token_grant p client form jkt) w in
  r = Err (InvalidGrant "refresh token reuse detected; token family revoked") /\
  (forall k, ms_refresh_tokens (w_store w') !! k =
     if decide (k ∈ take FAMILY_GUARD (rv :: l)) then None else ms_refresh_tokens (w_store w) !! k) /\
  ms_access_tokens (w_store w') = ms_access_tokens (w_store w) /\ ms_codes (w_store w') = ms_codes (w_store w).
Proof.
  intros Hf Hg Hu Hc Hb Hl Hnd. rewrite (refresh_run _ _ _ _ _ rv Hf).
  pose proof (get_refresh_live _ _ _ _ Hg) as Hs.
  destruct (get_refresh_token (secs w) rv (w_store w)) as [got s1]. simpl in Hg, Hs. subst got s1. cbv zeta.
  rewrite bool_decide_eq_true_2 by done. cbn [negb]. rewrite Hb, Hu. split; [done|]. split; [|done].
  intros k. exact (revoke_family_loop_linked FAMILY_GUARD rv l _ k Hl Hnd).
Qed.

(** ** The poll of a back-channel request *)

Lemma run_ciba X (o : cibaE X) w :
  run prov_handler (ciba o) w = prov_handler _ (CibaOp o) w.
Proof. apply run_trigger. Qed.

(** The requests after a poll. *)
Definition requests (w : world) : gmap string BackchannelAuthRequest := mc_map (w_ciba w).

(** A poll of a request that exists, run to its end. *)
Lemma ciba_poll_run p client form jkt w id req :
  form !! "auth_req_id" = Some id -> requests w !! id = Some req ->
  let '(r, w') := run prov_handler (ciba_grant p client form jkt) w in
  if decide (br_client_id req <> cl_client_id client)
  then r = Err (InvalidGrant "auth_req_id issued to another client") /\ requests w' = requests w
  else if br_expired (secs w) req
  then r = Err (ExpiredToken "auth_req_id expired") /\ requests w' = delete id (requests w)
  else match br_status req with
       | Pending => r = Err (AuthorizationPending "authorization pending") /\ requests w' = requests w
       | Denied => r = Err (AccessDenied "end-user denied the request") /\ requests w' = delete id (requests w)
       | Approved =>
           requests w' = delete id (requests w) /\
           (get_access_token (secs w) (uuid_v4 (w_uuid w)) (w_store w')).1 =
             Some (mkAccessToken (uuid_v4 (w_uuid w)) (cl_client_id client) (br_account req) (br_scope req)
                     jkt None None None (br_authorization_details req) false) /\
           match signer_for p (cl_id_token_signed_response_alg client), r with
           | Ok _, Ok resp =>
               tr_access_token resp = uuid_v4 (w_uuid w) /\ tr_scope resp = br_scope req /\
               tr_refresh_token resp = None /\ tr_token_type resp = token_type jkt
           | Err e, Err e' => e' = e
           | _, _ => False
           end
       end.
Proof.
  intros Hf Hreq. destruct (run _ _ _) as [r w'] eqn:Hrun. unfold ciba_grant in Hrun. unfold requests in *.
  rewrite Hf, try_mret in Hrun. cbn [ok_or] in Hrun. rewrite run_bind, run_ciba in Hrun.
  cbn [prov_handler mem_ciba_op fst snd] in Hrun. rewrite try_mret, Hreq in Hrun. cbn [server_error map_err] in Hrun.
  rewrite try_mret in Hrun. cbn [ok_or] in Hrun. rewrite try_mret in Hrun.
  assert (Hw : set_ciba (w_uuid w) (w_ciba w) w = w) by by destruct w. rewrite Hw in Hrun.
  destruct (decide (br_client_id req <> cl_client_id client)) as [Hc|Hc].
  { rewrite bool_decide_eq_false_2 in Hrun by done. by simplify_eq/=. }
  rewrite bool_decide_eq_true_2 in Hrun by (by apply dec_stable). cbn [negb] in Hrun.
  rewrite run_bind, run_now in Hrun. change (secs_of (w_clk w)) with (secs w) in Hrun.
  destruct (br_expired (secs w) req); [rewrite run_bind, run_ciba in Hrun; by simplify_eq/=|].
  destruct (br_status req) eqn:Hst; [by simplify_eq/= | | rewrite run_bind, run_ciba in Hrun; by simplify_eq/=].
  rewrite run_bind, run_ciba in Hrun. cbn [prov_handler mem_ciba_op fst snd] in Hrun.
  unfold ciba_consume in Hrun. rewrite Hreq, Hst in Hrun. rewrite bool_decide_eq_true_2 in Hrun by done.
  rewrite try_mret in Hrun. cbn [server_error map_err] in Hrun. rewrite try_mret in Hrun. cbn [ok_or fst snd] in Hrun.
  rewrite run_try_bind, run_issue in Hrun.
  set (w1 := set_ciba _ _ w) in Hrun. set (AT := issued_access _ _ _ _ _ _ _ _ _) in Hrun.
  pose proof (get_saved_access (secs w) AT (w_store w)) as Hat.
  destruct (signer_for p _) as [sg|e]; cbn [mbind result_bind] in Hrun; simplify_eq/=; (split; [done|]); (split; [exact Hat|]); done.
Qed.

(** The answers of a poll, in the order of the checks: another client's request is
    refused and kept; an expired one is reported and removed, whatever its status; a
    pending one stays; a denied one is reported once and removed; an approved one is
    removed and answered with tokens for the account, the scope and the transaction
    that the user approved. *)
Theorem ciba_poll p client form jkt w id req :
  form !! "auth_req_id" = Some id -> requests w !! id = Some req ->
  let '(r, w') := run prov_handler (ciba_grant p client form jkt) w in
  if decide (br_client_id req <> cl_client_id client)
  then r = Err (InvalidGrant "auth_req_id issued to another client") /\ requests w' = requests w
  else if br_expired (secs w) req
  then r = Err (ExpiredToken "auth_req_id expired") /\ requests w' = delete id (requests w)
  else match br_status req with
       | Pending => r = Err (AuthorizationPending "authorization pending") /\ requests w' = requests w
       | Denied => r = Err (AccessDenied "end-user denied the request") /\ requests w' = delete id (requests w)
       | Approved =>
           requests w' = delete id (requests w) /\
           (get_access_token (secs w) (uuid_v4 (w_uuid w)) (w_store w')).1 =
             Some (mkAccessToken (uuid_v4 (w_uuid w)) (cl_client_id client) (br_account req) (br_scope req)
                     jkt None None None (br_authorization_details req) false) /\
           match signer_for p (cl_id_token_signed_response_alg client), r with
           | Ok _, Ok resp =>
               tr_access_token resp = uuid_v4 (w_uuid w) /\ tr_scope resp = br_scope req /\
               tr_refresh_token resp = None /\ tr_token_type resp = token_type jkt
           | Err e, Err e' => e' = e
           | _, _ => False
           end
       end.
Proof. exact (ciba_poll_run p client form jkt w id req). Qed.

(** ** The granted access token *)

(** An access token of [client] that is bound to the key of the presented proof, and to
    no key without a proof. *)
Definition bound_token (client : Client) (jkt : option string) (w : world) (resp : TokenResponse) : Prop :=
  tr_token_type resp = token_type jkt /\
  exists a, (get_access_token (secs w) (tr_access_token resp) (w_store w)).1 = Some a /\
    at_jkt a = jkt /\ at_client_id a = cl_client_id client /\ at_scope a = tr_scope resp.

Lemma code_grant_bound p client form jkt w resp w' :
  run prov_handler (authorization_code_grant p client form jkt) w = (Ok resp, w') -> bound_token client jkt w' resp.
Proof.
  intros Hrun. destruct (form !! "code") as [cv|] eqn:Hf.
  2:{ unfold authorization_code_grant in Hrun. by rewrite Hf, try_mret in Hrun. }
  assert (Hs : secs w' = secs w).
  { pose proof (run_clk (authorization_code_grant p client form jkt) w) as Hc. rewrite Hrun in Hc.
    unfold secs. by rewrite <- Hc. }
  rewrite (code_grant_run _ _ _ _ _ cv Hf) in Hrun. unfold bound_token. rewrite Hs.
  destruct (take_code (secs w) cv (w_store w)) as [[code|] s1]; cbv zeta in Hrun; [|done].
  destruct (check_code (secs w) client form jkt code) as [[]|]; [|done].
  rewrite run_issue in Hrun. set (w1 := set_store s1 w) in *. set (AT := issued_access _ _ _ _ _ _ _ _ _) in Hrun.
  destruct (signer_for p _) as [sg|e]; cbn [mbind result_bind] in Hrun; [|done].
  rewrite run_maybe_refresh in Hrun. cbn [fst snd] in Hrun.
  pose proof (get_saved_access (secs w) AT s1) as Hat.
  destruct (refresh_issued _ _ _); cbn [fst snd] in Hrun; injection Hrun as <- <-;
    (split; [done|]); exists AT; (split; [|done]);
    (etransitivity; [apply (get_access_map _ _ (save_access_token (secs w) AT s1)); simpl; by rewrite link_access_map | exact Hat]).
Qed.

Lemma refresh_grant_bound p client form jkt w resp w' :
  run prov_handler (refresh_token_grant p client form jkt) w = (Ok resp, w') -> bound_token client jkt w' resp.
Proof.
  intros Hrun.
  assert (Hs : secs w' = secs w).
  { pose proof (run_clk (refresh_token_grant p client form jkt) w) as Hc. rewrite Hrun in Hc.
    unfold secs. by rewrite <- Hc. }
  apply rotation_inv in Hrun as (rv & pre & e & w2 & sg & _ & _ & _ & _ & _ & _ & _ & _ & Htt & Hat & Hst). cbv zeta in Hst.
  split; [done|]. rewrite Hs, Hst, Hat. set (AT := issued_access _ _ _ _ _ _ _ _ _). set (s0 := with_refresh_tokens _ _).
  exists AT. split; [|done].
  etransitivity; [apply (get_access_map _ _ (save_access_token (secs w) AT s0)); by destruct (tr_refresh_token resp)
                 | exact (get_saved_access (secs w) AT s0)].
Qed.

Lemma ciba_grant_bound p client form jkt w resp w' :
  run prov_handler (ciba_grant p client form jkt) w = (Ok resp, w') -> bound_token client jkt w' resp.
Proof.
  intros Hrun.
  assert (Hs : secs w' = secs w).
  { pose proof (run_clk (ciba_grant p client form jkt) w) as Hc. rewrite Hrun in Hc. unfold secs. by rewrite <- Hc. }
  destruct (form !! "auth_req_id") as [id|] eqn:Hf.
  2:{ unfold ciba_grant in Hrun. by rewrite Hf, try_mret in Hrun. }
  destruct (requests w !! id) as [req|] eqn:Hreq.
  2:{ unfold ciba_grant in Hrun. rewrite Hf, try_mret in Hrun. cbn [ok_or] in Hrun.
      rewrite run_bind, run_ciba in Hrun. cbn [prov_handler mem_ciba_op fst snd] in Hrun. unfold requests in Hreq.
      rewrite Hreq, try_mret in Hrun. cbn [server_error map_err] in Hrun. by rewrite try_mret in Hrun. }
  pose proof (ciba_poll_run p client form jkt w id req Hf Hreq) as Hp. rewrite Hrun in Hp.
  destruct (decide _); [by destruct Hp|]. destruct (br_expired _ _); [by destruct Hp|].
  destruct (br_status req); [by destruct Hp | | by destruct Hp]. destruct Hp as (_ & Hat & Hok).
  destruct (signer_for p _) as [sg|]; [|done]. destruct Hok as (Ha & Hsc & _ & Htt).
  split; [done|]. rewrite Hs, Ha. eexists. split; [exact Hat | by rewrite Hsc].
Qed.

Lemma grant_bound g p client form jkt w resp w' :
  run prov_handler (grant_handle g p client form jkt) w = (Ok resp, w') -> bound_token client jkt w' resp.
Proof.
  destruct g; [apply code_grant_bound | apply refresh_grant_bound | apply ciba_grant_bound].
Qed.

(** ** Single use under interleaving *)

Lemma code_grant_needs p client form jkt cv :
  form !! "code" = Some cv ->
  needs (ev_wins (lift_wins as_store_op (code_wins cv))) (authorization_code_grant p client form jkt).
Proof.
  intros Hf. unfold authorization_code_grant. rewrite Hf. cbn [ok_or]. rewrite try_ok.
  apply needs_vis. intros [code|]; [left | right; by apply needs_ret].
  intros i. by apply bool_decide_eq_true_2.
Qed.

Lemma refresh_grant_needs p client form jkt rv :
  form !! "refresh_token" = Some rv ->
  needs (ev_wins (lift_wins as_store_op (refresh_wins rv))) (refresh_token_grant p client form jkt).
Proof.
  intros Hf. unfold refresh_token_grant. rewrite Hf. cbn [ok_or]. rewrite try_ok.
  apply needs_vis. intros got. right. apply needs_try; [done|]. intros pre.
  apply needs_try; [done|]. intros _. apply needs_try; [done|]. intros _.
  destruct (rt_used pre).
  { apply needs_vis. intros u. right. by apply needs_ret. }
  apply needs_try; [done|]. intros scope. apply needs_bind. intros nr.
  apply needs_vis. intros [|]; [left | right; by apply needs_ret].
  intros i. by apply bool_decide_eq_true_2.
Qed.

Lemma ciba_grant_needs p client form jkt id :
  form !! "auth_req_id" = Some id ->
  needs (ev_wins (lift_wins as_ciba_op (consume_wins id))) (ciba_grant p client form jkt).
Proof.
  intros Hf. unfold ciba_grant. rewrite Hf. cbn [ok_or]. rewrite try_ok.
  apply needs_vis. intros got. right. do 3 (apply needs_try; [done|]; intros ?). apply needs_bind. intros t.
  destruct (br_expired _ _).
  { apply needs_vis. intros u. right. by apply needs_ret. }
  destruct (br_status _); [by apply needs_ret | | apply needs_vis; intros u; right; by apply needs_ret].
  apply needs_vis. intros [[r|]|e]; [left | right; by apply needs_ret..].
  intros i. by apply bool_decide_eq_true_2.
Qed.

Definition granted {X} (r : result OAuthError X) : bool := is_ok r.

(** Two redemptions of the same code, by any clients with any requests. *)
Definition redeems_code (cv : string) (q : prog provE (result OAuthError TokenResponse)) : Prop :=
  exists p client form jkt, form !! "code" = Some cv /\ q = authorization_code_grant p client form jkt.
Definition rotates (rv : string) (q : prog provE (result OAuthError TokenResponse)) : Prop :=
  exists p client form jkt, form !! "refresh_token" = Some rv /\ q = refresh_token_grant p client form jkt.
Definition polls (id : string) (q : prog provE (result OAuthError TokenResponse)) : Prop :=
  exists p client form jkt, form !! "auth_req_id" = Some id /\ q = ciba_grant p client form jkt.

(** No event of a trace saves the record anew: its name was drawn when it was saved. *)
Definition never_saved_again (resets : forall X, storeE X -> X -> bool) (tr : list (event provE)) : Prop :=
  Forall (fun ev => ~ ev_resets (lift_wins as_store_op resets) ev) tr.
Definition never_created_again (id : string) (tr : list (event provE)) : Prop :=
  Forall (fun ev => ~ ev_resets (lift_wins as_ciba_op (create_resets id)) ev) tr.

(** C3: whatever requests run at the same time and however their steps interleave with
    each other, with the clock and with the sweep, a code is redeemed by at most one
    request. *)
Theorem code_single_issue cv (ps : list (prog provE (result OAuthError TokenResponse))) w tr ps' w' i j qi qj ri rj :
  steps prov_handler prov_env (ps, w) tr (ps', w') -> never_saved_again (code_resets cv) tr ->
  ps !! i = Some qi -> ps !! j = Some qj -> redeems_code cv qi -> redeems_code cv qj -> i <> j ->
  ps' !! i = Some (Ret ri) -> ps' !! j = Some (Ret rj) -> granted ri = true -> granted rj = false.
Proof.
  intros Hst Hr Hi Hj (p & c & f & k & Hf & ->) (p' & c' & f' & k' & Hf' & ->) Hne Hri Hrj.
  by apply (one_success prov_handler prov_env _ _ granted _ _ _ _ _ _ _ _ _ _ _ Hst Hr Hi Hj
    (code_grant_needs p c f k cv Hf) (code_grant_needs p' c' f' k' cv Hf') Hri Hrj).
Qed.

(** A refresh token is rotated by at most one request, under every interleaving:
    two concurrent rotations never both issue tokens. *)
Theorem refresh_single_rotation rv (ps : list (prog provE (result OAuthError TokenResponse))) w tr ps' w' i j qi qj ri rj :
  steps prov_handler prov_env (ps, w) tr (ps', w') -> never_saved_again (refresh_resets rv) tr ->
  ps !! i = Some qi -> ps !! j = Some qj -> rotates rv qi -> rotates rv qj -> i <> j ->
  ps' !! i = Some (Ret ri) -> ps' !! j = Some (Ret rj) -> granted ri = true -> granted rj = false.
Proof.
  intros Hst Hr Hi Hj (p & c & f & k & Hf & ->) (p' & c' & f' & k' & Hf' & ->) Hne Hri Hrj.
  by apply (one_success prov_handler prov_env _ _ granted _ _ _ _ _ _ _ _ _ _ _ Hst Hr Hi Hj
    (refresh_grant_needs p c f k rv Hf) (refresh_grant_needs p' c' f' k' rv Hf') Hri Hrj).
Qed.

(** An approved back-channel request gives tokens to at most one poll, under every
    interleaving. *)
Theorem ciba_single_issue id (ps : list (prog provE (result OAuthError TokenResponse))) w tr ps' w' i j qi qj ri rj :
  steps prov_handler prov_env (ps, w) tr (ps', w') -> never_created_again id tr ->
  ps !! i = Some qi -> ps !! j = Some qj -> polls id qi -> polls id qj -> i <> j ->
  ps' !! i = Some (Ret ri) -> ps' !! j = Some (Ret rj) -> granted ri = true -> granted rj = false.
Proof.
  intros Hst Hr Hi Hj (p & c & f & k & Hf & ->) (p' & c' & f' & k' & Hf' & ->) Hne Hri Hrj.
  by apply (one_success prov_handler prov_env _ _ granted _ _ _ _ _ _ _ _ _ _ _ Hst Hr Hi Hj
    (ciba_grant_needs p c f k id Hf) (ciba_grant_needs p' c' f' k' id Hf') Hri Hrj).
Qed.
End facts.

(** ** Witnesses *)

#[local] Existing Instance no_database.
#[local] Existing Instance grants_externals.

(** A rotation that asks for more than the token's scope. *)
Definition greedy_form : gmap string string := list_to_map [("refresh_token", "r1"); ("scope", "openid email")].
Definition greedy := run prov_handler (refresh_token_grant sample_provider sample_client greedy_form (Some "k")) refresh_world.
Lemma refresh_refusal_harmless_witness : live_eq 1010 (w_store greedy.2) (w_store refresh_world).
Proof.
  apply (refresh_refusal_harmless sample_provider sample_client greedy_form (Some "k") refresh_world
    (InvalidScope "scope must not exceed original") greedy.2).
  - vm_compute. reflexivity.
  - reflexivity.
  - intros rv pre Hf Hg. assert (rv = "r1") as -> by (vm_compute in Hf; congruence).
    assert (pre = refresh_one) as -> by (vm_compute in Hg; vm_compute; congruence). reflexivity.
Defined.

(** The token "r1" presented again after its rotation to "id". *)
Definition reused := run prov_handler rotation rotated.2.
Lemma refresh_reuse_revokes_witness :
  reused.1 = Err (InvalidGrant "refresh token reuse detected; token family revoked") /\
  ms_refresh_tokens (w_store reused.2) !! "id" = None.
Proof.
  pose proof (refresh_reuse_revokes sample_provider sample_client refresh_form (Some "k") rotated.2 "r1"
    (rt_mark_used (Some "id") refresh_one) ["id"]) as Hr.
  assert (Hp : reused = run prov_handler rotation rotated.2) by reflexivity.
  unfold rotation in Hp. destruct (run _ (refresh_token_grant _ _ _ _) rotated.2) as [r w'].
  destruct Hr as (Hr & Hk & _).
  - reflexivity.
  - vm_compute. reflexivity.
  - reflexivity.
  - reflexivity.
  - vm_compute. reflexivity.
  - eapply linked_cons; [vm_compute; reflexivity | reflexivity|].
    apply linked_last. intros e He. vm_compute in He. injection He as <-. reflexivity.
  - apply NoDup_cons. split; [set_solver|]. apply NoDup_singleton.
  - rewrite Hp. split; [exact Hr|]. simpl. rewrite Hk. vm_compute. reflexivity.
Defined.

Definition poll_form : gmap string string := list_to_map [("auth_req_id", "r1")].
Definition poll_world (st : CibaStatus) : world :=
  mkWorld (1010 * NS) 0 0 tt MemoryStore_default
    (mkMemoryCibaStore (<["r1" := sample_request "r1" "alice" st]> ∅) []) (fun _ => ∅) (fun _ => CibaRateLimiter_default).
Definition poll := ciba_grant sample_provider sample_client poll_form None.
Definition polled (st : CibaStatus) := run prov_handler poll (poll_world st).
Lemma ciba_poll_witness :
  requests (polled Denied).2 = delete "r1" (requests (poll_world Denied)) /\
  (polled Pending).1 = Err (AuthorizationPending "authorization pending") /\
  is_ok (polled Approved).1 = true.
Proof.
  split; [|split; [|vm_compute; reflexivity]].
  - pose proof (ciba_poll sample_provider sample_client poll_form None (poll_world Denied) "r1"
      (sample_request "r1" "alice" Denied) eq_refl eq_refl) as Hp.
    unfold polled, poll. destruct (run _ _ _) as [r w']. exact (proj2 Hp).
  - pose proof (ciba_poll sample_provider sample_client poll_form None (poll_world Pending) "r1"
      (sample_request "r1" "alice" Pending) eq_refl eq_refl) as Hp.
    unfold polled, poll. destruct (run _ _ _) as [r w']. exact (proj1 Hp).
Defined.

Lemma code_single_issue_witness : granted (run prov_handler redemption redeemed.2).1 = false.
Proof.
  refine (code_single_issue "code" [redemption; redemption] code_world _ _ _ 0 1 redemption redemption
    redeemed.1 (run prov_handler redemption redeemed.2).1
    (steps_twice prov_handler prov_env redemption redemption code_world)
    _ eq_refl eq_refl _ _ ltac:(discriminate) eq_refl eq_refl _).
  - apply no_resets. vm_compute. reflexivity.
  - by exists sample_provider, sample_client, code_form, (Some "k").
  - by exists sample_provider, sample_client, code_form, (Some "k").
  - vm_compute. reflexivity.
Defined.

Lemma refresh_single_rotation_witness : granted (run prov_handler rotation rotated.2).1 = false.
Proof.
  refine (refresh_single_rotation "r1" [rotation; rotation] refresh_world _ _ _ 0 1 rotation rotation
    rotated.1 (run prov_handler rotation rotated.2).1
    (steps_twice prov_handler prov_env rotation rotation refresh_world)
    _ eq_refl eq_refl _ _ ltac:(discriminate) eq_refl eq_refl _).
  - apply no_resets. vm_compute. reflexivity.
  - by exists sample_provider, sample_client, refresh_form, (Some "k").
  - by exists sample_provider, sample_client, refresh_form, (Some "k").
  - vm_compute. reflexivity.
Defined.

Lemma ciba_single_issue_witness : granted (run prov_handler poll (polled Approved).2).1 = false.
Proof.
  refine (ciba_single_issue "r1" [poll; poll] (poll_world Approved) _ _ _ 0 1 poll poll
    (polled Approved).1 (run prov_handler poll (polled Approved).2).1
    (steps_twice prov_handler prov_env poll poll (poll_world Approved))
    _ eq_refl eq_refl _ _ ltac:(discriminate) eq_refl eq_refl _).
  - apply no_resets. vm_compute. reflexivity.
  - by exists sample_provider, sample_client, poll_form, None.
  - by exists sample_provider, sample_client, poll_form, None.
  - vm_compute. reflexivity.
Defined.

(** * The honest client *)

Section facts.
Context `{Externals, FsBackend, Services}.

(** Time passes. *)
Definition later (d : Z) (w : world) : world :=
  mkWorld (w_clk w + d) (w_uuid w) (w_rand w) (w_db w) (w_store w) (w_ciba w) (w_nonces w) (w_rates w).
Definition refresh_with (token : string) : gmap string string := {[ "refresh_token" := token ]}.

(** A client that comes back after each of the waits with its newest refresh token: the last
    token, when every refresh was answered with one. *)
Fixpoint refresh_series (p : Provider) (client : Client) (jkt : option string) (token : string) (waits : list Z) (w : world) :
    option (string * world) :=
  match waits with
  | [] => Some (token, w)
  | d :: waits' =>
      let '(r, w') := run prov_handler (refresh_token_grant p client (refresh_with token) jkt) (later d w) in
      match r with
      | Ok resp => match tr_refresh_token resp with
                   | Some token' => refresh_series p client jkt token' waits' w'
                   | None => None
                   end
      | Err _ => None
      end
  end.
(** Shorter than the lifetime of a refresh token, by a second of rounding. *)
Definition in_time (d : Z) : Prop := 0 <= d <= (REFRESH_TTL_SECS - 1) * NS.

(** The store holds the token, saved now, unused, for this client and this key. *)
Definition fresh_token (client : Client) (jkt : option string) (token : string) (w : world) : Prop :=
  exists pre, ms_refresh_tokens (w_store w) !! token = Some (mkExpiring pre (secs w + REFRESH_TTL_SECS)) /\
    rt_used pre = false /\ rt_client_id pre = cl_client_id client /\ rt_jkt pre = jkt /\
    has_scope (rt_scope pre) "offline_access" = true.

Lemma later_alive d w : in_time d -> secs (later d w) < secs w + REFRESH_TTL_SECS.
Proof.
  unfold in_time, secs, secs_of, later. cbn [w_clk]. intros [_ Hd].
  apply Z.div_lt_upper_bound; [done|]. pose proof (Z.mod_pos_bound (w_clk w) NS ltac:(done)).
  pose proof (Z.div_mod (w_clk w) NS ltac:(done)). nia.
Qed.

(** One refresh in time. *)
Lemma refresh_in_time p client jkt token d w sg :
  signer_for p (cl_id_token_signed_response_alg client) = Ok sg ->
  (is_public client = true -> is_Some jkt) -> in_time d -> fresh_token client jkt token w ->
  exists resp w' token', run prov_handler (refresh_token_grant p client (refresh_with token) jkt) (later d w) = (Ok resp, w') /\
    tr_refresh_token resp = Some token' /\ fresh_token client jkt token' w'.
Proof.
  intros Hsg Hpub Hd (pre & He & Hu & Hc & Hj & Hs). set (w1 := later d w).
  assert (Ha : alive (secs w1) (mkExpiring pre (secs w + REFRESH_TTL_SECS)) = true) by (apply Z.ltb_lt, later_alive, Hd).
  assert (Hg : get_refresh_token (secs w1) token (w_store w1) = (Some pre, w_store w1)).
  { pose proof (proj2 (get_refresh_Some (secs w1) token (w_store w1) pre)) as Hg1.
    assert (Hg2 : (get_refresh_token (secs w1) token (w_store w1)).1 = Some pre) by (apply Hg1; eauto).
    pose proof (get_refresh_live _ _ _ _ Hg2) as Hg3. destruct (get_refresh_token _ _ _); simpl in *; congruence. }
  rewrite (refresh_run _ _ _ _ _ token) by (unfold refresh_with; by rewrite lookup_singleton_eq).
  rewrite Hg. cbn zeta iota. rewrite bool_decide_eq_true_2 by done. cbn [negb].
  rewrite (proj2 (refresh_binding_Ok client jkt pre)).
  2:{ rewrite Hj. split; [by intros b [= <-]|]. intros ->. destruct (is_public client); [|done]. by destruct (Hpub eq_refl). }
  rewrite Hu. unfold refresh_scope, refresh_with. rewrite lookup_singleton_ne by done.
  unfold new_refresh_of. rewrite Hs. set (nt := uuid_v4 _).
  change (w_store (drew (set_store (w_store w1) w1))) with (w_store w1).
  rewrite (mark_live _ _ _ _ _ He Ha) by done. cbn [negb]. rewrite run_issue, Hsg. cbn [mbind result_bind fst].
  eexists _, _, nt. split; [reflexivity|]. split; [done|].
  exists (mkRefreshToken nt (cl_client_id client) (rt_account_id pre) (rt_scope pre) (rt_resource pre) (rt_jkt pre)
            (rt_acr pre) (rt_auth_time pre) (rt_family_id pre) false None).
  split; [|done]. simpl. by rewrite lookup_insert_eq.
Qed.

Lemma refresh_series_served p client jkt sg :
  signer_for p (cl_id_token_signed_response_alg client) = Ok sg -> (is_public client = true -> is_Some jkt) ->
  forall waits token w, Forall in_time waits -> fresh_token client jkt token w ->
  exists token' w', refresh_series p client jkt token waits w = Some (token', w') /\ fresh_token client jkt token' w'.
Proof.
  intros Hsg Hpub waits. induction waits as [|d waits IH]; intros token w Hw Hf; simpl; [eauto|].
  apply Forall_cons in Hw as [Hd Hw].
  destruct (refresh_in_time p client jkt token d w sg Hsg Hpub Hd Hf) as (resp & w' & token' & -> & -> & Hf').
  by apply IH.
Qed.

(** C18: A client that presents a live code and meets its checks obtains tokens; when the
    scope has offline_access, and the client can hold a refresh token, it obtains one too, and from then
    on every refresh that comes back within the lifetime of the newest token is answered with
    tokens and a newer one, however many there are. *)
Theorem honest_client_served p client form jkt w cv code s1 sg waits :
  form !! "code" = Some cv -> take_code (secs w) cv (w_store w) = (Some code, s1) ->
  code_redeemable (secs w) client form jkt code ->
  signer_for p (cl_id_token_signed_response_alg client) = Ok sg ->
  exists resp w1, run prov_handler (authorization_code_grant p client form jkt) w = (Ok resp, w1) /\
    (has_scope (ac_scope code) "offline_access" = true -> (is_public client = true -> is_Some jkt) -> Forall in_time waits ->
     exists token token' w2, tr_refresh_token resp = Some token /\
       refresh_series p client jkt token waits w1 = Some (token', w2)).
Proof.
  intros Hf Ht Hc Hsg. rewrite (code_grant_run _ _ _ _ _ cv Hf), Ht. cbn zeta iota.
  rewrite (proj2 (check_code_Ok _ _ _ _ _) Hc). rewrite run_issue, Hsg. cbn [mbind result_bind].
  rewrite run_maybe_refresh. destruct (refresh_issued _ _ _) eqn:Hri; cbn [fst snd].
  - eexists _, _. split; [reflexivity|]. intros Hs Hpub Hw. cbn [tr_refresh_token].
    set (w3 := set_store (link_issued_tokens _ _ _ _) _). set (token := uuid_v4 _).
    destruct (refresh_series_served p client jkt sg Hsg Hpub waits token w3 Hw) as (token' & w2 & Hr & _).
    { eexists. split; [unfold w3; simpl; rewrite link_refresh_map; simpl; by rewrite lookup_insert_eq | done]. }
    exists token, token', w2. done.
  - eexists _, _. split; [reflexivity|]. intros Hs Hpub _. unfold refresh_issued in Hri. rewrite Hs in Hri.
    destruct jkt; [done|]. destruct (is_public client); [by destruct (Hpub eq_refl) | done].
Qed.
End facts.

(** ** Witness *)

#[local] Existing Instance no_database.
#[local] Existing Instance grants_externals.

(** Three refreshes, each thirteen days after the one before. *)
Definition fortnights : list Z := [13 * 86400 * NS; 13 * 86400 * NS; 13 * 86400 * NS].
Lemma honest_client_served_witness :
  exists resp w1, redeemed = (Ok resp, w1) /\ exists token token' w2, tr_refresh_token resp = Some token /\
    refresh_series sample_provider sample_client (Some "k") token fortnights w1 = Some (token', w2).
Proof.
  destruct (honest_client_served sample_provider sample_client code_form (Some "k") code_world "code" offline_code
    (take_code 1010 "code" (w_store code_world)).2 sample_signer fortnights) as (resp & w1 & Hr & Hs).
  - reflexivity.
  - vm_compute. reflexivity.
  - apply check_code_Ok. vm_compute. reflexivity.
  - reflexivity.
  - exists resp, w1. split; [exact Hr|]. apply Hs; [vm_compute; reflexivity | eauto | repeat constructor; unfold NS, REFRESH_TTL_SECS; lia].
Defined.
