(* ===== verification/Http.v ===== *)
(** * Requests and answers

    The parts of [src/src/web/mod.rs] that the endpoints share: headers, client and
    token authentication, the answers, the response mode of
    [src/src/response_mode.rs] and the challenge of [src/src/step_up.rs]. *)

From S2P Require Import Prelude Prog Json Model Decimal Firestore Externals Es256 Sys Nonce Ciba Dcr.
From S2P Require Import DcrStore Store Provider Dpop ClientAuth.

#[local] Open Scope Z_scope.

(** Header fields in their order, with lower-case names. *)
Definition HeaderMap : Type := list (string * string).
Definition header_all (name : string) (hs : HeaderMap) : list string :=
  omap (fun kv => if decide (kv.1 = name) then Some kv.2 else None) hs.
Definition header_get (name : string) (hs : HeaderMap) : option string := head (header_all name hs).

(** ** Answers *)

Inductive Body : Type :=
| NoBody
| TextBody (s : string)
| JsonBody (v : Value)
| TokenBody (r : TokenResponse)
| HtmlBody (s : string)
| LoggedOutPage (home : string).

(** A cookie set with [Path=/; HttpOnly; Secure; SameSite=Lax]. *)
Record Cookie := mkCookie { ck_name : string; ck_value : string }.

Inductive Response : Type :=
| Reply (status : Z) (headers : HeaderMap) (b : Body)
| RedirectTo (location : string)
| WithoutCookie (cookie : string) (r : Response)
| WithCookie (c : Cookie) (r : Response)
| Panicked.

Definition error_response (e : OAuthError) : Response :=
  Reply (error_status e) []
    (JsonBody (Object [("error", Str (error_code e)); ("error_description", Str (error_description e))])).
Definition plain_error (msg : string) : Response := Reply 400 [] (TextBody msg).
Definition unauthorized (msg : string) : Response := Reply 401 [] (TextBody msg).
Definition text_reply (status : Z) (msg : string) : Response := Reply status [] (TextBody msg).
Definition no_store : HeaderMap := [("cache-control", "no-store")].
Definition SID_COOKIE : string := "sid".

(** The end of a handler: an early return answers too. *)
Definition finish {E} (q : prog E (result Response Response)) : prog E Response :=
  r ← q; mret (match r with Ok a => a | Err a => a end).

Lemma preceded_finish {E} (D : event E -> Prop) Good (q : prog E (result Response Response)) :
  preceded D Good [] q -> preceded D Good [] (finish q).
Proof. intros Hq. eapply (preceded_bind _ _ _ (fun _ _ => True)); [done | done |]. by intros tr [?|?]. Qed.

(** Well-formed UTF-8: what [String::from_utf8] accepts. *)
Definition in_range (lo hi : nat) (a : ascii) : bool :=
  ((lo <=? nat_of_ascii a) && (nat_of_ascii a <=? hi))%nat.
Definition cont (a : ascii) : bool := in_range 128 191 a.
Fixpoint utf8_valid (s : string) : bool :=
  match s with
  | "" => true
  | String a r =>
      if in_range 0 127 a then utf8_valid r
      else match r with
      | "" => false
      | String b r1 =>
          if in_range 194 223 a then cont b && utf8_valid r1
          else match r1 with
          | "" => false
          | String c r2 =>
              if bool_decide (nat_of_ascii a = 224%nat) then in_range 160 191 b && cont c && utf8_valid r2
              else if bool_decide (nat_of_ascii a = 237%nat) then in_range 128 159 b && cont c && utf8_valid r2
              else if in_range 225 239 a then cont b && cont c && utf8_valid r2
              else match r2 with
              | "" => false
              | String d r3 =>
                  if bool_decide (nat_of_ascii a = 240%nat) then in_range 144 191 b && cont c && cont d && utf8_valid r3
                  else if in_range 241 243 a then cont b && cont c && cont d && utf8_valid r3
                  else if bool_decide (nat_of_ascii a = 244%nat) then in_range 128 143 b && cont c && cont d && utf8_valid r3
                  else false
              end
          end
      end
  end.

Section http.
Context `{Externals}.

(** ** Headers *)

(** At most one DPoP header counts. *)
Definition dpop_header (hs : HeaderMap) : option string :=
  match header_all "dpop" hs with
  | [v] => header_to_str v
  | _ => None
  end.

Definition client_ip (hs : HeaderMap) : string :=
  default "unknown"
    (v ← header_get "x-forwarded-for" hs;
     s ← header_to_str v;
     first ← head (str_split ","%char s);
     if str_is_empty (str_trim first) then None else Some (str_trim first)).

Definition parse_basic_auth (hs : HeaderMap) : option (string * string) :=
  v ← header_get "authorization" hs;
  h ← header_to_str v;
  b64 ← strip_prefix "Basic " h;
  decoded ← result_ok (standard_decode b64);
  if utf8_valid decoded then str_split_once ":"%char decoded else None.

Definition auth_scheme_token (hs : HeaderMap) : option (string * string) :=
  v ← header_get "authorization" hs;
  h ← header_to_str v;
  sr ← str_split_once " "%char h;
  if eq_ignore_ascii_case sr.1 "bearer" then Some ("Bearer", str_trim sr.2)
  else if eq_ignore_ascii_case sr.1 "dpop" then Some ("DPoP", str_trim sr.2)
  else None.

(** ** Clients *)

Definition assertion_is_jwt (form : gmap string string) : bool :=
  match form !! "client_assertion_type" with Some s => str_contains_str "jwt-bearer" s | None => false end.
Definition presented_method (hs : HeaderMap) (form : gmap string string) : string :=
  if assertion_is_jwt form then "private_key_jwt"
  else match parse_basic_auth hs with Some _ => "client_secret_basic" | None => "none" end.

Definition authenticate_client (p : Provider) (hs : HeaderMap) (form : gmap string string) :
    prog provE (result Response Client) :=
  let input := mkClientAuthInput (parse_basic_auth hs) (form !! "client_id") (form !! "client_assertion") in
  auth ←? mret (ok_or (error_response (InvalidClient "unsupported auth method"))
                  (p_client_auth p !! presented_method hs form));
  r ← authenticate auth p input;
  mret (map_err error_response r).

(** ** Access tokens *)

Definition authenticate_token (p : Provider) (hs : HeaderMap) (method path_suffix : string)
    (body_token : option string) : prog provE (result Response AccessToken) :=
  st ←? mret (match auth_scheme_token hs with
              | Some x => Ok x
              | None => match body_token with
                        | Some t => Ok ("Bearer", t)
                        | None => Err (unauthorized "access token required")
                        end
              end);
  got ← store (GetAccessToken st.2);
  at_ ←? mret (ok_or (unauthorized "invalid token") got);
  match at_jkt at_ with
  | None => mret (Ok at_)
  | Some jkt =>
      if negb (bool_decide (st.1 = "DPoP")) then mret (Err (unauthorized "DPoP scheme required"))
      else
        proof ←? mret (ok_or (unauthorized "DPoP proof required") (dpop_header hs));
        r ← dpop_verify p proof method (p_issuer p +:+ path_suffix) (Some (ath st.2));
        mret (match r with
              | Ok got => if bool_decide (got = jkt) then Ok at_ else Err (unauthorized "DPoP jkt mismatch")
              | Err e => Err (unauthorized ("DPoP: " +:+ e))
              end)
  end.

Definition session_account (jar : gmap string string) : prog provE (option string) :=
  match jar !! SID_COOKIE with
  | None => mret None
  | Some sid => s ← store (GetSession sid); mret (option_map se_account_id s)
  end.

(** ** Redirections *)

(** [redirect_uri] followed by a query string. *)
Definition with_query (redirect_uri : string) (params : list (string * string)) : string :=
  redirect_uri +:+ (if str_contains "?"%char redirect_uri then "&" else "?") +:+ form_encode params.

Definition QueryMode_build (redirect_uri : string) (params : list (string * string)) : Response :=
  RedirectTo (with_query redirect_uri params).
Definition mode_build (m : ResponseMode) : string -> list (string * string) -> Response :=
  match m with QueryMode => QueryMode_build end.
End http.

(** ** Step-up challenge

    The value of [WWW-Authenticate] by which a resource server asks for a stronger or more
    recent authentication. *)
Definition insufficient_user_authentication (scheme : string) (acr_values : option string) (max_age : option Z) : string :=
  scheme +:+ " error=" +:+ quoted "insufficient_user_authentication" +:+ ", error_description=" +:+
  quoted "stronger or more recent user authentication is required" +:+
  match acr_values with
  | Some a => if str_is_empty a then "" else ", acr_values=" +:+ quoted a
  | None => ""
  end +:+
  match max_age with Some m => ", max_age=" +:+ u64_to_string m | None => "" end.
Example step_up_minimal :
  insufficient_user_authentication "Bearer" (Some "") None = insufficient_user_authentication "Bearer" None None.
Proof. reflexivity. Qed.

(** A byte order mark and an overlong encoding, as [from_utf8] sees them. *)
Example utf8_bom : utf8_valid (String (byte 239) (String (byte 187) (String (byte 191) ""))) = true.
Proof. reflexivity. Qed.
Example utf8_overlong : utf8_valid (String (byte 192) (String (byte 175) "")) = false.
Proof. reflexivity. Qed.
