(* ===== verification/Fido.v ===== *)
(** * The conformance server

    [src/src/fido/mod.rs]: the two ceremonies, the configuration of the metadata
    service, and the answers with their cross-origin headers.  The store is called
    through its trait; the lock of the metadata is one read or one write. *)

From S2P Require Import Prelude Prog Json Decimal Firestore Externals Es256 WebAuthn Sys X509 Attestation Tpm Mds FidoStore Store Provider Http.

#[local] Open Scope Z_scope.

Definition SUPPORTED_ALGS : list Z := [-7; -257; -8; -65535].

Record MdsState := mkMdsState { md_enabled : bool; md_roots : list string; md_cache : MdsCache }.
Definition MdsState_default : MdsState := mkMdsState false [] ∅.

Inductive FidoStoreKind := InMemory | OnFirestore (project : string).
Record FidoState := mkFidoState { fi_rp_id : string; fi_rp_name : string; fi_origin : string; fi_store : FidoStoreKind }.

(** [FidoState::from_env]; [var] reads the environment. *)
Definition FidoState_from_env (var : string -> option string) : FidoState :=
  let rp_id := default "localhost" (var "FIDO_RP_ID") in
  let origin := default ("http://" +:+ rp_id) (var "FIDO_ORIGIN") in
  let rp_name := default "rust-op FIDO2" (var "FIDO_RP_NAME") in
  mkFidoState rp_id rp_name origin
    (match var "K_SERVICE" with
     | Some _ =>
         OnFirestore (match var "GCLOUD_PROJECT" with
                      | Some project => project
                      | None => default "fido2-8b943" (var "GOOGLE_CLOUD_PROJECT")
                      end)
     | None => InMemory
     end).

(** ** Effects *)

Inductive fidoE : Type -> Type :=
| Net {X} (o : netE X) : fidoE X
| FidoRandom32 : fidoE string
| FidoSt {X} (o : fidoStoreE X) : fidoE X
| MdsRead : fidoE MdsState
| MdsWrite (s : MdsState) : fidoE unit.
Definition fido_net {A} (p : prog netE A) : prog fidoE A := translate (@Net) p.
Definition fido_store {X} (o : fidoStoreE X) : prog fidoE X := trigger (FidoSt o).
Definition fido_now : prog fidoE Z := fido_net net_now.

(** ** Answers and requests *)

Definition failed (msg : string) : Response :=
  Reply 400 [] (JsonBody (Object [("status", Str "failed"); ("errorMessage", Str msg)])).
Definition ok_with (v : Value) : Response :=
  Reply 200 []
    (JsonBody match v with
              | Object m => Object (assoc_insert "errorMessage" (Str "") (assoc_insert "status" (Str "ok") m))
              | _ => v
              end).

Definition JsonMap : Type := list (string * Value).
Definition is_ascii_alphanumeric (c : ascii) : bool :=
  in_range 48 57 c || in_range 65 90 c || in_range 97 122 c.
Definition is_b64url (s : string) : bool :=
  negb (str_is_empty s) &&
  str_forall (fun b => is_ascii_alphanumeric b || bool_decide (b = "-"%char) || bool_decide (b = "_"%char)) s.

Definition nonempty_str (v : option Value) : option string :=
  match v with Some (Str s) => if str_is_empty s then None else Some s | _ => None end.
Definition req_string (m : JsonMap) (key : string) : result Response string :=
  ok_or (failed (key +:+ " must be a non-empty string")) (nonempty_str (assoc key m)).
Definition resp_string (m : JsonMap) (key : string) : result Response string :=
  resp ← ok_or (failed "missing response object") (assoc "response" m ≫= as_object);
  ok_or (failed ("response." +:+ key +:+ " must be a non-empty string")) (nonempty_str (assoc key resp)).
Definition map_str (m : JsonMap) (key : string) : option string := assoc key m ≫= as_str.

(** Two hexadecimal digits per byte. *)
Fixpoint hex_bytes (s : string) : string :=
  match s with
  | "" => ""
  | String a r => hex_fixed 2 (Z.of_nat (nat_of_ascii a)) +:+ hex_bytes r
  end.
Definition aaguid_to_string (aaguid : string) : string :=
  let h := hex_bytes aaguid in
  if negb (String.length h =? 32)%nat then h
  else slice 0 8 h +:+ "-" +:+ slice 8 12 h +:+ "-" +:+ slice 12 16 h +:+ "-" +:+ slice 16 20 h +:+ "-" +:+ slice 20 32 h.
Definition all_zero (s : string) : bool := str_forall (fun b => bool_decide (b = byte 0)) s.

Section fido.
Context `{X509, MdsCodec}.

Definition fido_random : prog fidoE string := b ← trigger FidoRandom32; mret (b64url_encode b).

Definition parse_object (body : string) : result Response JsonMap :=
  v ← map_err (fun e => failed ("invalid JSON: " +:+ e)) (json_from_slice body);
  match v with Object m => Ok m | _ => Err (failed "body must be a JSON object") end.

(** ** Options *)

Definition credential_descriptor (c : StoredCredential) : Value :=
  Object [("type", Str "public-key"); ("id", Str (sc_id c));
          ("transports", Array [Str "usb"; Str "ble"; Str "nfc"; Str "internal"])].
Definition alg_descriptor (alg : Z) : Value :=
  Object [("type", Str "public-key"); ("alg", Number (NInt alg))].
Definition with_member (k : string) (v : option Value) (resp : Value) : Value :=
  match v with Some x => set_field resp k x | None => resp end.

Definition attestation_options (st : FidoState) (body : string) : prog fidoE Response :=
  finish (
    m ←? mret (parse_object body);
    username ←? mret (req_string m "username");
    let display_name := default username (map_str m "displayName") in
    let authenticator_selection := assoc "authenticatorSelection" m in
    let user_verification := v ← authenticator_selection; get_str v "userVerification" in
    let attestation := default "none" (map_str m "attestation") in
    let ext := assoc "extensions" m in
    challenge ← fido_random;
    let user_id := b64url_encode username in
    creds ← fido_store (FindCredentials username);
    t ← fido_now;
    _ ← fido_store (SaveChallenge challenge (mkChallengeState username user_verification t));
    let resp :=
      Object [("rp", Object [("name", Str (fi_rp_name st)); ("id", Str (fi_rp_id st))]);
              ("user", Object [("id", Str user_id); ("name", Str username); ("displayName", Str display_name)]);
              ("challenge", Str challenge);
              ("pubKeyCredParams", Array (map alg_descriptor SUPPORTED_ALGS));
              ("timeout", Number (NInt 60000));
              ("excludeCredentials", Array (map credential_descriptor creds));
              ("attestation", Str attestation)] in
    mret (Ok (ok_with (with_member "extensions" ext
                         (with_member "authenticatorSelection" authenticator_selection resp))))).

Definition assertion_options (st : FidoState) (body : string) : prog fidoE Response :=
  finish (
    m ←? mret (parse_object body);
    username ←? mret (req_string m "username");
    let user_verification := map_str m "userVerification" in
    let ext := assoc "extensions" m in
    creds ← fido_store (FindCredentials username);
    challenge ← fido_random;
    t ← fido_now;
    _ ← fido_store (SaveChallenge challenge (mkChallengeState username user_verification t));
    let resp :=
      Object [("challenge", Str challenge);
              ("timeout", Number (NInt 60000));
              ("rpId", Str (fi_rp_id st));
              ("allowCredentials", Array (map credential_descriptor creds));
              ("userVerification", Str (default "preferred" user_verification))] in
    mret (Ok (ok_with (with_member "extensions" ext resp)))).

(** ** Registration *)

Definition check_format (ao : AttestationObject) (ad : AuthData) (client_data cred_id aaguid : string) (cred_key : CredKey) :
    prog netE (result string unit) :=
  let fmt := ao_fmt ao in
  if bool_decide (fmt = "none") then mret (require_empty_att_stmt (ao_att_stmt ao))
  else if bool_decide (fmt = "packed") then
    verify_packed (ao_att_stmt ao) (ao_auth_data ao) client_data cred_key aaguid
  else if bool_decide (fmt = "fido-u2f") then
    if negb (all_zero aaguid) then mret (Err "fido-u2f AAGUID must be all zero")
    else
      xy ←? mret (ok_or "fido-u2f requires an EC P-256 credential key" (ec_xy cred_key));
      mret (verify_u2f (ao_att_stmt ao) (ad_rp_id_hash ad) client_data cred_id xy.1 xy.2)
  else if bool_decide (fmt = "tpm") then
    mret (verify_tpm (ao_att_stmt ao) (ao_auth_data ao) client_data cred_key)
  else mret (Err ("attestation fmt '" +:+ fmt +:+ "' not supported yet")).

(** Under the lock of the metadata. *)
Definition check_metadata (mds : MdsState) (att_stmt : Cbor) (aaguid : string) : prog netE (result string unit) :=
  if md_enabled mds then
    let x5c := att_x5c_ders att_stmt in
    if negb (bool_decide (x5c = [])) && negb (all_zero aaguid) then
      let aaguid_str := aaguid_to_string aaguid in
      stmt ←? mret (get_statement (md_cache mds) aaguid_str);
      match stmt with
      | Some s => validate_attestation_chain x5c (attestation_root_certificates s)
      | None => mret (Err ("AAGUID " +:+ aaguid_str +:+ " not registered in MDS"))
      end
    else mret (Ok tt)
  else mret (Ok tt).

(** What authenticator data say of a new credential: authenticator, identifier, key. *)
Definition attested_parts (ad : AuthData) : result string (string * string * CredKey) :=
  let rest := ad_rest ad in
  if (String.length rest <? 18)%nat then Err "attestedCredentialData too short"
  else
    let aaguid := slice 0 16 rest in
    let fin := (18 + Z.to_nat (be_value (slice 16 18 rest)))%nat in
    if (String.length rest <? fin)%nat then Err "credId length overflow"
    else
      let cose_slice := slice fin (String.length rest) rest in
      kc ← parse_cose_key cose_slice;
      if negb (flag_set (ad_flags ad) FLAG_ED) && negb (kc.2 =? String.length cose_slice)%nat
      then Err "authData has leftover bytes after attested credential data"
      else Ok (aaguid, slice 18 fin rest, kc.1).

Definition check_attestation (st : FidoState) (client_data_b64 att_obj_b64 challenge : string) (require_uv : bool) :
    prog fidoE (result string StoredCredential) :=
  client_data ←? mret (check_client_data client_data_b64 "webauthn.create" challenge (fi_origin st));
  att ←? mret (b64url_decode att_obj_b64);
  ao ←? mret (parse_attestation_object att);
  ad ←? mret (parse_auth_data (ao_auth_data ao));
  _ ←? mret (check_rp_id_hash (ad_rp_id_hash ad) (fi_rp_id st));
  _ ←? mret (check_flags (ad_flags ad) require_uv);
  if negb (flag_set (ad_flags ad) FLAG_AT) then mret (Err "AT flag not set (no attested credential data)")
  else
    parts ←? mret (attested_parts ad);
    let '(aaguid, cred_id, cred_key) := parts : string * string * CredKey in
    _ ←? fido_net (check_format ao ad client_data cred_id aaguid cred_key);
    mds ← trigger MdsRead;
    _ ←? fido_net (check_metadata mds (ao_att_stmt ao) aaguid);
    mret (Ok (mkStoredCredential (b64url_encode cred_id) cred_key (ad_sign_count ad))).

Definition require_uv (state : ChallengeState) : bool := bool_decide (cs_user_verification state = Some "required").

(** The fields both results share: identifier, type. *)
Definition credential_id (m : JsonMap) : result Response string :=
  ok_or (failed "id must be a non-empty base64url string")
    (s ← map_str m "id"; if is_b64url s then Some s else None).
Definition check_type (m : JsonMap) : result Response unit :=
  if bool_decide (map_str m "type" = Some "public-key") then Ok tt else Err (failed "type must be 'public-key'").
Definition ceremony_challenge (client_data_b64 : string) : prog fidoE (result Response (string * ChallengeState)) :=
  challenge ←? mret (ok_or (failed "clientDataJSON missing or unparsable challenge") (extract_challenge client_data_b64));
  state ← fido_store (GetChallenge challenge);
  mret ((fun s => (challenge, s)) <$> ok_or (failed "challenge state not found or expired") state).

Definition attestation_result (st : FidoState) (body : string) : prog fidoE Response :=
  finish (
    m ←? mret (parse_object body);
    _ ←? mret (credential_id m);
    _ ←? mret (check_type m);
    client_data_b64 ←? mret (resp_string m "clientDataJSON");
    att_obj_b64 ←? mret (resp_string m "attestationObject");
    cs ←? ceremony_challenge client_data_b64;
    let '(challenge, state) := cs : string * ChallengeState in
    r ← check_attestation st client_data_b64 att_obj_b64 challenge (require_uv state);
    match r with
    | Ok cred =>
        _ ← fido_store (SaveCredential (cs_username state) cred);
        mret (Ok (ok_with (Object [])))
    | Err e => mret (Ok (failed e))
    end).

(** ** Authentication *)

Definition check_user_handle (m : JsonMap) : result Response unit :=
  match r ← assoc "response" m; o ← as_object r; assoc "userHandle" o with
  | None | Some Null | Some (Str _) => Ok tt
  | Some _ => Err (failed "userHandle must be a string or null")
  end.
Definition must_be_b64url (name s : string) : result Response unit :=
  if is_b64url s then Ok tt else Err (failed (name +:+ " must be base64url")).

Definition check_assertion (st : FidoState) (cred : StoredCredential)
    (client_data_b64 auth_data_b64 signature_b64 challenge : string) (require_uv : bool) : result string Z :=
  client_data ← check_client_data client_data_b64 "webauthn.get" challenge (fi_origin st);
  auth_data ← b64url_decode auth_data_b64;
  ad ← parse_auth_data auth_data;
  _ ← check_rp_id_hash (ad_rp_id_hash ad) (fi_rp_id st);
  _ ← check_flags (ad_flags ad) require_uv;
  sig ← b64url_decode signature_b64;
  _ ← verify_assertion (sc_key cred) auth_data client_data sig;
  if negb (ad_sign_count ad =? 0) && (ad_sign_count ad <=? sc_sign_count cred)
  then Err "signCount did not increase (possible clone)" else Ok (ad_sign_count ad).

Definition assertion_result (st : FidoState) (body : string) : prog fidoE Response :=
  finish (
    m ←? mret (parse_object body);
    cred_id ←? mret (credential_id m);
    _ ←? mret (check_type m);
    _ ←? mret (check_user_handle m);
    client_data_b64 ←? mret (resp_string m "clientDataJSON");
    auth_data_b64 ←? mret (resp_string m "authenticatorData");
    signature_b64 ←? mret (resp_string m "signature");
    _ ←? mret (must_be_b64url "authenticatorData" auth_data_b64);
    _ ←? mret (must_be_b64url "signature" signature_b64);
    cs ←? ceremony_challenge client_data_b64;
    let '(challenge, state) := cs : string * ChallengeState in
    creds ← fido_store (FindCredentials (cs_username state));
    cred ←? mret (ok_or (failed "unknown credential id")
                    (list_find_first (fun c => bool_decide (sc_id c = cred_id)) creds));
    match check_assertion st cred client_data_b64 auth_data_b64 signature_b64 challenge (require_uv state) with
    | Ok new_count =>
        _ ← fido_store (UpdateSignCount (cs_username state) cred_id new_count);
        mret (Ok (ok_with (Object [])))
    | Err e => mret (Ok (failed e))
    end).

(** ** The metadata endpoints *)

Definition decode_roots (l : list string) : list string := omap (fun s => result_ok (standard_decode s)) l.

Definition mds_test_verify (body : string) : prog fidoE Response :=
  finish (
    m ←? mret (parse_object body);
    blob ←? mret (ok_or (failed "blob required") (map_str m "blob"));
    arr ←? mret (ok_or (failed "roots required") (assoc "roots" m ≫= as_array));
    r ← fido_net (load_blob ∅ blob (decode_roots (omap as_str arr)));
    mret (Ok (match r with
              | Err e => ok_with (Object [("loaded", Bool false); ("error", Str e)])
              | Ok (n, cache) =>
                  let resp := Object [("loaded", Bool true); ("count", Number (NInt (Z.of_nat n)))] in
                  ok_with (match map_str m "aaguid" with
                           | None => resp
                           | Some aaguid =>
                               match get_statement cache aaguid with
                               | Ok (Some _) => set_field resp "statement" (Str "ok")
                               | Ok None => set_field resp "statement" (Str "none")
                               | Err e => set_field (set_field resp "statement" (Str "error")) "statusError" (Str e)
                               end
                           end)
              end))).

Definition str_array (m : JsonMap) (key : string) : list string :=
  match assoc key m ≫= as_array with Some a => omap as_str a | None => [] end.

Fixpoint fetch_blobs (blobs urls : list string) : prog netE (result Response (list string)) :=
  match urls with
  | [] => mret (Ok blobs)
  | url :: rest =>
      r ← trigger (GetText url);
      body ←? mret (map_err (fun e => failed ("fetch " +:+ url +:+ ": " +:+ e)) r);
      t ←? mret (map_err (fun e => failed ("fetch " +:+ url +:+ " body: " +:+ e)) body);
      fetch_blobs (blobs ++ [t]) rest
  end.

(** The cache, the number of entries, and what was skipped. *)
Fixpoint load_blobs (roots : list string) (i loaded : nat) (skipped : list Value) (cache : MdsCache) (blobs : list string) :
    prog netE (MdsCache * nat * list Value) :=
  match blobs with
  | [] => mret (cache, loaded, skipped)
  | blob :: rest =>
      r ← load_blob cache blob roots;
      match r with
      | Ok (n, cache') => load_blobs roots (S i) (loaded + n) skipped cache' rest
      | Err e =>
          load_blobs roots (S i) loaded
            (skipped ++ [Object [("index", Number (NInt (Z.of_nat i))); ("error", Str e)]]) cache rest
      end
  end.
Fixpoint load_statements (loaded : nat) (cache : MdsCache) (stmts : list Value) : nat * MdsCache :=
  match stmts with
  | [] => (loaded, cache)
  | s :: rest =>
      let '(ok, cache') := load_statement cache s in
      load_statements (if ok : bool then S loaded else loaded) cache' rest
  end.

Definition mds_config (body : string) : prog fidoE Response :=
  finish (
    m ←? mret (parse_object body);
    let roots := decode_roots (str_array m "roots") in
    if bool_decide (roots = []) then mret (Err (failed "roots required (base64 DER)"))
    else
      blobs ←? fido_net (fetch_blobs (str_array m "blobs") (str_array m "blobUrls"));
      r ← fido_net (load_blobs roots 0 0 [] ∅ blobs);
      let '(cache, loaded, skipped) := r : MdsCache * nat * list Value in
      let '(statements_loaded, cache) :=
        match assoc "statements" m ≫= as_array with
        | Some stmts => load_statements 0 cache stmts
        | None => (0%nat, cache)
        end in
      _ ← trigger (MdsWrite (mkMdsState true roots cache));
      mret (Ok (ok_with (Object [("enabled", Bool true); ("entries", Number (NInt (Z.of_nat loaded)));
                                 ("statements", Number (NInt (Z.of_nat statements_loaded)));
                                 ("skipped", Array skipped)])))).

(** ** The routes and their cross-origin headers *)

Definition fido_router (st : FidoState) : list (string * (string -> prog fidoE Response)) :=
  [("/fido/attestation/options", attestation_options st);
   ("/fido/attestation/result", attestation_result st);
   ("/fido/assertion/options", assertion_options st);
   ("/fido/assertion/result", assertion_result st);
   ("/fido/mds/_verify", mds_test_verify);
   ("/fido/mds/config", mds_config)].

(** [HeaderValue::from_str] belongs to the crate http: whether the text is a value. *)
Context (header_value_from_str : string -> bool).

Definition add_cors_headers (h : HeaderMap) (origin : string) : HeaderMap :=
  let value := if bool_decide (origin = "-") then "*" else origin in
  let allow := if header_value_from_str value then value else "*" in
  assoc_insert "access-control-max-age" "600"
    (assoc_insert "access-control-allow-headers" "content-type"
      (assoc_insert "access-control-allow-methods" "POST, OPTIONS"
        (assoc_insert "vary" "Origin"
          (assoc_insert "access-control-allow-credentials" "true"
            (assoc_insert "access-control-allow-origin" allow h))))).
Definition map_headers (f : HeaderMap -> HeaderMap) (r : Response) : Response :=
  match r with Reply status h b => Reply status (f h) b | _ => r end.

Definition cors (method : string) (hs : HeaderMap) (next : prog fidoE Response) : prog fidoE Response :=
  let origin := default "-" (v ← header_get "origin" hs; header_to_str v) in
  if bool_decide (method = "OPTIONS") then mret (Reply 204 (add_cors_headers [] origin) NoBody)
  else
    res ← next;
    mret (map_headers (fun h => add_cors_headers h origin) res).
End fido.

(** ** The server alone, on its in-memory store

    The world of one process; [web] answers the requests it makes. *)

Record fido_world := mkFidoWorld { fw_clk : Z; fw_rand : nat; fw_mem : MemInner; fw_mds : MdsState }.
Definition net_handle (web : string -> result string (result string string)) (clk : Z) {X} (o : netE X) : X :=
  match o in netE X return X with
  | NetNow => secs_of clk
  | GetText url => web url
  | GetBytes url => web url
  end.
Definition fido_handler `{Externals} (web : string -> result string (result string string)) : handler fidoE fido_world :=
  fun X e w =>
    match e in fidoE X return X * fido_world with
    | Net o => (net_handle web (fw_clk w) o, w)
    | FidoRandom32 => (random_32 (fw_rand w), mkFidoWorld (fw_clk w) (S (fw_rand w)) (fw_mem w) (fw_mds w))
    | FidoSt o =>
        let '(x, m) := mem_fido_op (secs_of (fw_clk w)) _ o (fw_mem w) in
        (x, mkFidoWorld (fw_clk w) (fw_rand w) m (fw_mds w))
    | MdsRead => (fw_mds w, w)
    | MdsWrite s => (tt, mkFidoWorld (fw_clk w) (fw_rand w) (fw_mem w) s)
    end.
