(* ===== verification/FidoFacts.v ===== *)
(** * The ceremonies of the conformance server

    What precedes every credential that is stored and every counter that is updated,
    and how the two stores behave. *)

From S2P Require Import Prelude Prog Json Decimal Firestore Externals Es256 WebAuthn Sys X509 Attestation Tpm Mds FidoStore MdsFacts AttestationFacts.
From S2P Require Import Store Provider Http Fido.

#[local] Open Scope Z_scope.

(** ** Programs of the network inside the server *)

Definition net_event (ev : event netE) : event fidoE :=
  match ev with Ev i e x => Ev i (Net e) x | EvEnv => EvEnv end.
Lemma always_net {A} P (p : prog netE A) :
  always P p -> always (fun tr a => exists tr0, tr = map net_event tr0 /\ P tr0 a) (fido_net p).
Proof.
  revert P. induction p as [b|X e k IH]; intros P Hp.
  - intros tr a [-> [= ->]]. exists []. split; [done|]. by apply Hp.
  - apply always_vis. intros i x. eapply always_mono; [|apply (IH x (fun tr => P (Ev i e x :: tr)))].
    + intros tr a (tr0 & -> & Ha). by exists (Ev i e x :: tr0).
    + intros tr a Ht. apply Hp. by apply thread_path_op.
Qed.

Section fido_facts.
Context `{X509, MdsCodec}.

(** The operations that change the accounts of the store. *)
Definition account_write (ev : event fidoE) : Prop :=
  match ev with
  | Ev _ e _ => match e with FidoSt (SaveCredential _ _) | FidoSt (UpdateSignCount _ _ _) => True | _ => False end
  | EvEnv => False
  end.
Lemma avoids_net D {A} (p : prog netE A) : (forall i X (e : netE X) x, ~ D (Ev i (Net e) x)) -> avoids D (fido_net p).
Proof. intros Hd. induction p as [a|X e k IH]; [exact I|]. intros i x. split; [apply Hd|]. apply IH. Qed.

(** ** Registration *)

(** The evidence of an attestation statement of any format. *)
Inductive attested_by (tr : list (event netE)) (ao : AttestationObject) (ad : AuthData) (client_data cred_id aaguid : string)
    (key : CredKey) : Prop :=
| by_none : ao_fmt ao = "none" -> ao_att_stmt ao = CborMap [] -> attested_by tr ao ad client_data cred_id aaguid key
| by_packed m :
    ao_fmt ao = "packed" -> ao_att_stmt ao = CborMap m ->
    packed_evidence tr m (ao_auth_data ao) client_data key aaguid -> attested_by tr ao ad client_data cred_id aaguid key
| by_u2f m x y :
    ao_fmt ao = "fido-u2f" -> all_zero aaguid = true -> key = Es256Key x y -> ao_att_stmt ao = CborMap m ->
    u2f_evidence m (ad_rp_id_hash ad) client_data cred_id x y -> attested_by tr ao ad client_data cred_id aaguid key
| by_tpm :
    ao_fmt ao = "tpm" -> verify_tpm (ao_att_stmt ao) (ao_auth_data ao) client_data key = Ok tt ->
    attested_by tr ao ad client_data cred_id aaguid key.

Lemma check_format_ensures ao ad client_data cred_id aaguid key :
  ensures (fun tr _ => attested_by tr ao ad client_data cred_id aaguid key) (check_format ao ad client_data cred_id aaguid key).
Proof.
  unfold check_format. case_bool_decide as Hn.
  { apply ensures_ret. intros [] Hr. apply by_none; [done|]. by destruct (ao_att_stmt ao) as [| | | |[]|]. }
  case_bool_decide as Hp.
  { eapply always_mono; [|apply verify_packed_ensures]. intros tr [[]|e]; [|done]. intros (m & Hm & He). by eapply by_packed. }
  case_bool_decide as Hu.
  { destruct (all_zero aaguid) eqn:Hz; cbn [negb]; [|by apply always_ret]. apply ensures_check. intros [x y] Hxy.
    apply ensures_ret. intros [] Hv. apply verify_u2f_Ok in Hv as (m & Hm & He). eapply by_u2f; try done.
    by destruct key; simplify_eq/=. }
  case_bool_decide as Ht; [|by apply always_ret]. apply ensures_ret. intros [] Hv. by apply by_tpm.
Qed.

(** Metadata, when configured, know the authenticator of a statement with certificates,
    do not report it compromised, and its chain leads to one of their roots. *)
Definition metadata_accepts (mds : MdsState) (att_stmt : Cbor) (aaguid : string) : Prop :=
  md_enabled mds = true -> att_x5c_ders att_stmt <> [] -> all_zero aaguid = false ->
  exists entry stmt, md_cache mds !! str_to_lowercase (aaguid_to_string aaguid) = Some entry /\
    Forall (fun r => sr_status r ∉ COMPROMISED) (en_status_reports entry) /\ en_metadata_statement entry = Some stmt /\
    validate_attestation_chain (att_x5c_ders att_stmt) (attestation_root_certificates stmt) = Ret (Ok tt).

Lemma get_statement_Ok cache k stmt :
  get_statement cache k = Ok (Some stmt) ->
  exists entry, cache !! str_to_lowercase k = Some entry /\
    Forall (fun r => sr_status r ∉ COMPROMISED) (en_status_reports entry) /\ en_metadata_statement entry = Some stmt.
Proof.
  unfold get_statement. destruct (cache !! str_to_lowercase k) as [entry|]; [|done].
  destruct (list_find_first _ _) as [r|] eqn:Hf; [done|]. intros [= Hs]. exists entry. split; [done|]. split; [|done].
  apply Forall_forall. intros r Hr. by apply (list_find_first_None _ _ _ Hf), bool_decide_eq_false in Hr.
Qed.
(** The chain check without validity is pure. *)
Lemma attestation_chain_pure x5c roots : exists r, validate_attestation_chain x5c roots = Ret r.
Proof.
  unfold validate_attestation_chain. destruct (omap _ roots) as [|d ds]; [by eexists|]. unfold validate_chain_to_roots.
  destruct x5c as [|x xs]; [by eexists|].
  destruct (mapM _ (x :: xs)) as [[|leaf rest]|e]; rewrite ?try_ok, ?try_err; [| |by eexists];
    (destruct (mapM _ (d :: ds)) as [rs|e]; rewrite ?try_ok, ?try_err; [|by eexists]); [by eexists|].
  destruct (last (leaf :: rest)) as [lst|]; [|by destruct (signed_links (leaf :: rest)) as [[]|]; eexists].
  destruct (anchored_pure lst rs) as (b & -> & _).
  destruct (signed_links (leaf :: rest)) as [[]|e]; [|by eexists]. destruct b, (cert_pubkey leaf); by eexists.
Qed.
Lemma check_metadata_ensures mds stmt aaguid :
  ensures (fun _ _ => metadata_accepts mds stmt aaguid) (check_metadata mds stmt aaguid).
Proof.
  unfold check_metadata, metadata_accepts. destruct (md_enabled mds); [|by apply always_ret].
  destruct (_ && _) eqn:Hc.
  2:{ apply always_ret. intros _ Hx Hz. apply andb_false_iff in Hc as [Hc|Hc]; apply negb_false_iff in Hc; [|congruence].
      by apply bool_decide_eq_true in Hc. }
  apply ensures_check. intros [s|] Hs; [|by apply always_ret]. apply get_statement_Ok in Hs as (entry & He & Hf & Hs).
  destruct (attestation_chain_pure (att_x5c_ders stmt) (attestation_root_certificates s)) as [r Hr]. rewrite Hr.
  apply always_ret. destruct r as [[]|]; [|done]. intros _ _ _. by exists entry, s.
Qed.

(** What the checks of a registration establish: client data of the challenge and the
    origin, authenticator data of this relying party with the user present (verified when
    that is required), the credential that they attest, its evidence, and the metadata. *)
Definition registration_checked (st : FidoState) (challenge : string) (uv : bool) (pre : list (event fidoE)) (cred : StoredCredential) : Prop :=
  exists raw ao ad aaguid cred_id tr j mds,
    client_data_for raw "webauthn.create" challenge (fi_origin st) /\
    parse_auth_data (ao_auth_data ao) = Ok ad /\ ad_rp_id_hash ad = sha256_digest (fi_rp_id st) /\
    flag_set (ad_flags ad) FLAG_UP = true /\ (uv = true -> flag_set (ad_flags ad) FLAG_UV = true) /\
    flag_set (ad_flags ad) FLAG_AT = true /\ attested_parts ad = Ok (aaguid, cred_id, sc_key cred) /\
    sc_id cred = b64url_encode cred_id /\ sc_sign_count cred = ad_sign_count ad /\
    map net_event tr ⊆ pre /\ attested_by tr ao ad raw cred_id aaguid (sc_key cred) /\
    Ev j MdsRead mds ∈ pre /\ metadata_accepts mds (ao_att_stmt ao) aaguid.
(** Likewise for an assertion under the key of a credential, whose counter grows. *)
Definition assertion_checked (st : FidoState) (challenge : string) (uv : bool) (cred : StoredCredential) (n : Z) : Prop :=
  exists raw auth_data sig ad,
    client_data_for raw "webauthn.get" challenge (fi_origin st) /\
    parse_auth_data auth_data = Ok ad /\ ad_rp_id_hash ad = sha256_digest (fi_rp_id st) /\
    flag_set (ad_flags ad) FLAG_UP = true /\ (uv = true -> flag_set (ad_flags ad) FLAG_UV = true) /\
    cred_key_verify (sc_key cred) (auth_data +:+ sha256_digest raw) sig = Ok tt /\
    n = ad_sign_count ad /\ 0 <= n < 2 ^ 32 /\ (n = 0 \/ sc_sign_count cred < n).
(** An unexpired challenge of the user, presented by the request. *)
Definition challenged (pre : list (event fidoE)) (challenge : string) (state : ChallengeState) : Prop :=
  exists i, Ev i (FidoSt (GetChallenge challenge)) (Some state) ∈ pre.

Definition authentic_write (st : FidoState) (pre : list (event fidoE)) (ev : event fidoE) : Prop :=
  match ev with
  | Ev _ e _ =>
      match e with
      | FidoSt (SaveCredential user cred) =>
          exists challenge state, challenged pre challenge state /\ user = cs_username state /\
            registration_checked st challenge (require_uv state) pre cred
      | FidoSt (UpdateSignCount user cred_id n) =>
          exists challenge state i creds cred, challenged pre challenge state /\ user = cs_username state /\
            Ev i (FidoSt (FindCredentials user)) creds ∈ pre /\ cred ∈ creds /\ sc_id cred = cred_id /\
            assertion_checked st challenge (require_uv state) cred n
      | _ => True
      end
  | EvEnv => True
  end.

Lemma check_flags_Ok flags uv :
  check_flags flags uv = Ok tt -> flag_set flags FLAG_UP = true /\ (uv = true -> flag_set flags FLAG_UV = true).
Proof.
  unfold check_flags. destruct (flag_set flags FLAG_UP); [|done]. cbn [negb]. intros Hr. split; [done|]. intros ->.
  by destruct (flag_set flags FLAG_UV).
Qed.
Lemma check_rp_id_hash_Ok h rp : check_rp_id_hash h rp = Ok tt -> h = sha256_digest rp.
Proof. unfold check_rp_id_hash. by case_bool_decide. Qed.

Lemma check_attestation_checked st cd att challenge uv :
  avoids account_write (check_attestation st cd att challenge uv) /\
  always (fun tr r => match r with Ok cred => registration_checked st challenge uv tr cred | Err _ => True end)
    (check_attestation st cd att challenge uv).
Proof.
  unfold check_attestation.
  destruct (check_client_data _ _ _ _) as [raw|] eqn:Hcd; [|by split; [|apply always_ret]]. rewrite try_ok.
  apply check_client_data_Ok in Hcd as [_ Hfor].
  destruct (b64url_decode att) as [a|]; [|by split; [|apply always_ret]]. rewrite try_ok.
  destruct (parse_attestation_object a) as [ao|]; [|by split; [|apply always_ret]]. rewrite try_ok.
  destruct (parse_auth_data (ao_auth_data ao)) as [ad|] eqn:Had; [|by split; [|apply always_ret]]. rewrite try_ok.
  destruct (check_rp_id_hash _ _) as [[]|] eqn:Hrp; [|by split; [|apply always_ret]]. rewrite try_ok. apply check_rp_id_hash_Ok in Hrp.
  destruct (check_flags _ _) as [[]|] eqn:Hfl; [|by split; [|apply always_ret]]. rewrite try_ok. apply check_flags_Ok in Hfl as [Hup Huv].
  destruct (flag_set (ad_flags ad) FLAG_AT) eqn:Hat; cbn [negb]; [|by split; [|apply always_ret]].
  destruct (attested_parts ad) as [[[aaguid cred_id] key]|] eqn:Hpa; [|by split; [|apply always_ret]]. rewrite try_ok.
  split.
  { apply avoids_bind; [apply avoids_net; by intros ? ? ? ? []|]. intros [[]|e]; [|exact I]. intros i mds. split; [by intros []|].
    apply avoids_bind; [apply avoids_net; by intros ? ? ? ? []|]. by intros [[]|e]. }
  eapply always_bind; [apply always_net, check_format_ensures|]. intros tr1 [[]|e] (tr0 & -> & Hby); [|by apply always_ret].
  apply always_vis. intros j mds. eapply always_bind; [apply always_net, check_metadata_ensures|].
  intros tr2 [[]|e] (tr3 & -> & Hmds); apply always_ret; [|done].
  exists raw, ao, ad, aaguid, cred_id, tr0, j, mds. do 9 (split; [done|]). split; [intros ev; rewrite elem_of_app; auto|].
  split; [done|]. split; [|done]. apply elem_of_app. right. left.
Qed.
Lemma check_assertion_checked st cred cd ad sig challenge uv n :
  check_assertion st cred cd ad sig challenge uv = Ok n -> assertion_checked st challenge uv cred n.
Proof.
  unfold check_assertion. rewrite bind_Ok. intros (raw & Hcd & Hr). apply check_client_data_Ok in Hcd as [_ Hfor].
  rewrite bind_Ok in Hr. destruct Hr as (a & _ & Hr). rewrite bind_Ok in Hr. destruct Hr as (ad' & Had & Hr).
  rewrite bind_Ok in Hr. destruct Hr as ([] & Hrp & Hr). apply check_rp_id_hash_Ok in Hrp.
  rewrite bind_Ok in Hr. destruct Hr as ([] & Hfl & Hr). apply check_flags_Ok in Hfl as [Hup Huv].
  rewrite bind_Ok in Hr. destruct Hr as (s & _ & Hr). rewrite bind_Ok in Hr. destruct Hr as ([] & Hv & Hr).
  exists raw, a, s, ad'. do 6 (split; [done|]). pose proof (parse_auth_data_Ok _ _ Had) as (_ & _ & _ & Hn).
  destruct (Z.eqb_spec (ad_sign_count ad') 0); simpl in Hr; [injection Hr as <-; auto|].
  destruct (Z.leb_spec (ad_sign_count ad') (sc_sign_count cred)); [done|]. injection Hr as <-. auto.
Qed.

Lemma ceremony_challenge_read cd :
  avoids account_write (ceremony_challenge cd) /\
  always (fun tr r => match r with Ok (c, s) => challenged tr c s | Err _ => True end) (ceremony_challenge cd).
Proof.
  unfold ceremony_challenge. destruct (extract_challenge cd) as [c|]; [|by split; [|apply always_ret]].
  cbn [ok_or]. rewrite try_ok. split.
  - intros i s. split; [by intros []|]. exact I.
  - apply always_vis. intros i [s|]; apply always_ret; [|done]. exists i. left.
Qed.
Lemma registration_checked_mono st challenge uv pre pre' cred :
  pre ⊆ pre' -> registration_checked st challenge uv pre cred -> registration_checked st challenge uv pre' cred.
Proof.
  intros Hs (raw & ao & ad & aaguid & cred_id & tr & j & mds & ? & ? & ? & ? & ? & ? & ? & ? & ? & Htr & ? & Hj & ?).
  exists raw, ao, ad, aaguid, cred_id, tr, j, mds. do 9 (split; [done|]). split; [by transitivity pre|]. split; [done|].
  split; [by apply Hs | done].
Qed.
Lemma challenged_app pre tr c s : challenged pre c s -> challenged (pre ++ tr) c s.
Proof. intros (i & Hi). exists i. apply elem_of_app. by left. Qed.

(** ** Every route *)

Lemma attestation_result_authentic st body :
  preceded account_write (authentic_write st) [] (attestation_result st body).
Proof.
  apply preceded_finish.
  do 5 (apply preceded_check; intros ? _). destruct (ceremony_challenge_read a2) as [Hav Hal].
  eapply preceded_skip_try; [exact Hav | exact Hal|]. intros tr [challenge state] Hc. cbn [app].
  destruct (check_attestation_checked st a2 a3 challenge (require_uv state)) as [Hav' Hal'].
  eapply preceded_skip; [exact Hav' | exact Hal'|]. intros tr' [cred|e] Hr; [|exact I].
  intros i x. split; [|exact I]. intros _. exists challenge, state. split; [by apply challenged_app|]. split; [done|].
  eapply registration_checked_mono; [|exact Hr]. intros ev. rewrite elem_of_app. auto.
Qed.
Lemma assertion_result_authentic st body :
  preceded account_write (authentic_write st) [] (assertion_result st body).
Proof.
  apply preceded_finish.
  do 9 (apply preceded_check; intros ? _). destruct (ceremony_challenge_read a3) as [Hav Hal].
  eapply preceded_skip_try; [exact Hav | exact Hal|]. intros tr [challenge state] Hc. cbn [app].
  intros i creds. split; [by intros []|]. cbn [prog_bind_go].
  apply preceded_check. intros cred Hf. apply ok_or_Ok, list_find_first_Some in Hf as [Hin Hid]. apply bool_decide_eq_true in Hid.
  destruct (check_assertion _ _ _ _ _ _ _) as [n|e] eqn:Hr; [|exact I]. apply check_assertion_checked in Hr.
  intros j x. split; [|exact I]. intros _. exists challenge, state, i, creds, cred.
  split; [by apply challenged_app|]. split; [done|]. split; [apply elem_of_app; right; left|]. done.
Qed.

Lemma avoids_finish D (q : prog fidoE (result Response Response)) : avoids D q -> avoids D (finish q).
Proof. intros Hq. apply avoids_bind; [done|]. by intros [?|?]. Qed.
Lemma avoids_answer D {A B C} (r : result A B) (f : B -> prog fidoE (result A C)) :
  (forall a, avoids D (f a)) -> avoids D (try_bind (mret r) f).
Proof. destruct r as [a|e]; [rewrite try_ok; auto | by rewrite try_err]. Qed.
Lemma avoids_try D {A B C} (p : prog fidoE (result A B)) (f : B -> prog fidoE (result A C)) :
  avoids D p -> (forall a, avoids D (f a)) -> avoids D (try_bind p f).
Proof. intros Hp Hf. apply avoids_bind; [done|]. intros [a|e]; [apply Hf | exact I]. Qed.
Ltac skim :=
  repeat first
    [ apply avoids_finish | apply avoids_answer; intros ? | apply avoids_try; [apply avoids_net; by intros ? ? ? ? [] | intros ?]
    | apply avoids_bind; [apply avoids_net; by intros ? ? ? ? [] | intros ?] | exact I
    | (intros ? ?; split; [by intros []|]; cbn [prog_bind_go]) ].
Lemma options_write_no_account st body :
  avoids account_write (attestation_options st body) /\ avoids account_write (assertion_options st body).
Proof. split; unfold attestation_options, assertion_options; skim. Qed.
Lemma metadata_writes_no_account body :
  avoids account_write (mds_test_verify body) /\ avoids account_write (mds_config body).
Proof.
  split; unfold mds_test_verify, mds_config; skim. case_bool_decide; skim. destruct a1 as [[cache loaded] skipped].
  destruct (match _ with Some _ => _ | None => _ end) as [n c]. skim.
Qed.

(** C24: whatever is posted to whatever route of the conformance server, a credential is
    stored only for the user of an unexpired challenge that the client data repeat, from
    this origin and for this relying party, with the user present and, when the ceremony
    requires it, verified; with the evidence its statement format promises, and accepted by
    the metadata when these are configured.  A counter is updated only for a stored
    credential of that user whose key signed the assertion, to the asserted counter, which
    is zero or greater than the one read. *)
Theorem account_writes_authentic st path post body q tr tr1 ev tr2 :
  (path, post) ∈ fido_router st -> thread_path (post body) tr q -> tr = tr1 ++ ev :: tr2 -> account_write ev ->
  authentic_write st tr1 ev.
Proof.
  intros Hin Hp Heq Hd.
  refine (preceded_path account_write (authentic_write st) [] (post body) tr q tr1 ev tr2 _ Hp Heq Hd).
  destruct (options_write_no_account st body) as [Ho1 Ho2]. destruct (metadata_writes_no_account body) as [Hm1 Hm2].
  unfold fido_router in Hin. rewrite !elem_of_cons in Hin.
  destruct Hin as [[= _ ->]|[[= _ ->]|[[= _ ->]|[[= _ ->]|[[= _ ->]|[[= _ ->]|Hin]]]]]];
    [by apply avoids_preceded | apply attestation_result_authentic | by apply avoids_preceded
    | apply assertion_result_authentic | by apply avoids_preceded | by apply avoids_preceded | by apply elem_of_nil in Hin].
Qed.

(** ** The metadata *)

(** An operation that replaces the metadata of the server. *)
Definition metadata_write (ev : event fidoE) : Prop :=
  match ev with Ev _ e _ => match e with MdsWrite _ => True | _ => False end | EvEnv => False end.

(** A BLOB that the request carries, or that a URL of the request answered. *)
Definition offered (m : JsonMap) (tr : list (event netE)) (blob : string) : Prop :=
  blob ∈ str_array m "blobs" \/ exists url i, url ∈ str_array m "blobUrls" /\ Ev i (GetText url) (Ok (Ok blob)) ∈ tr.
(** An entry of such a BLOB, signed up to a root that the request names. *)
Definition from_blob (m : JsonMap) (tr : list (event netE)) (k : string) (e : Entry) : Prop :=
  exists blob, offered m tr blob /\ backed tr blob (decode_roots (str_array m "roots")) k e.
(** A statement that the request carries as it is, without a signature: it reports no status. *)
Definition from_statement (stmts : list Value) (k : string) (e : Entry) : Prop :=
  exists stmt a, stmt ∈ stmts /\ get_str stmt "aaguid" = Some a /\ k = str_to_lowercase a /\
    e = mkEntry (Some a) (Some (default (mkMetadataStatement []) (metadata_statement_from_value stmt))) [].
Definition statements_of (m : JsonMap) : list Value := default [] (assoc "statements" m ≫= as_array).
Definition authentic_metadata (body : string) (pre : list (event fidoE)) (ev : event fidoE) : Prop :=
  match ev with
  | Ev _ e _ =>
      match e with
      | MdsWrite s => exists m tr, parse_object body = Ok m /\ map net_event tr ⊆ pre /\
          md_roots s = decode_roots (str_array m "roots") /\
          forall k e, md_cache s !! k = Some e -> from_blob m tr k e \/ from_statement (statements_of m) k e
      | _ => True
      end
  | EvEnv => True
  end.

Lemma fetch_blobs_offered blobs urls :
  always (fun tr r => match r with
    | Ok l => forall b, b ∈ l -> b ∈ blobs \/ exists url i, url ∈ urls /\ Ev i (GetText url) (Ok (Ok b)) ∈ tr
    | Err _ => True end) (fetch_blobs blobs urls).
Proof.
  revert blobs. induction urls as [|url urls IH]; intros blobs; cbn [fetch_blobs].
  { apply always_ret. by left. }
  apply always_vis. intros i [[t|e]|e]; cbn; [|by apply always_ret..].
  eapply always_mono; [|apply IH]. intros tr [l|e]; [|done]. intros Hl b Hb.
  destruct (Hl b Hb) as [[?| ->%list_elem_of_singleton]%elem_of_app|(u & j & Hu & Hj)]; [by left|..]; right.
  - exists url, i. split; left.
  - exists u, j. split; by right.
Qed.

Lemma load_blobs_backed roots i loaded skipped cache blobs :
  always (fun tr (r : MdsCache * nat * list Value) => forall k e, r.1.1 !! k = Some e ->
    cache !! k = Some e \/ exists blob, blob ∈ blobs /\ backed tr blob roots k e)
    (load_blobs roots i loaded skipped cache blobs).
Proof.
  revert i loaded skipped cache. induction blobs as [|blob blobs IH]; intros i loaded skipped cache; cbn [load_blobs].
  { apply always_ret. by left. }
  eapply always_bind; [apply load_blob_backed|]. intros tr1 [[n cache']|err] Hc.
  - eapply always_mono; [|apply IH]. intros tr r Hr k e He. destruct (Hr k e He) as [Hin|(b & Hb & Hk)].
    + destruct (Hc k e Hin) as [?|Hb]; [by left | right]. exists blob. split; [left|].
      eapply backed_mono; [|exact Hb]. intros ev. rewrite elem_of_app. auto.
    + right. exists b. split; [by right|]. eapply backed_mono; [|exact Hk]. intros ev. rewrite elem_of_app. auto.
  - eapply always_mono; [|apply IH]. intros tr r Hr k e He. destruct (Hr k e He) as [?|(b & Hb & Hk)]; [by left | right].
    exists b. split; [by right|]. eapply backed_mono; [|exact Hk]. intros ev. rewrite elem_of_app. auto.
Qed.

Lemma load_statements_lookup n cache stmts k e :
  (load_statements n cache stmts).2 !! k = Some e -> cache !! k = Some e \/ from_statement stmts k e.
Proof.
  revert n cache. induction stmts as [|stmt stmts IH]; intros n cache; cbn [load_statements]; [by left|].
  unfold load_statement. destruct (get_str stmt "aaguid") as [a|] eqn:Ha; intros He; apply IH in He as [He|(st & a' & Hin & Hr)].
  - apply lookup_insert_Some in He as [[<- <-]|[_ He]]; [right | by left]. exists stmt, a. split; [left | done].
  - right. exists st, a'. split; [by right | done].
  - by left.
  - right. exists st, a'. split; [by right | done].
Qed.

Lemma mds_config_authentic body : preceded metadata_write (authentic_metadata body) [] (mds_config body).
Proof.
  apply preceded_finish. apply preceded_check. intros m Hm. cbv zeta. destruct (bool_decide (decode_roots _ = [])); [done|].
  eapply preceded_skip_try; [apply avoids_net; by intros ? ? ? ? [] | apply always_net, fetch_blobs_offered|].
  intros tr1 blobs (tr01 & -> & Hof). eapply preceded_skip; [apply avoids_net; by intros ? ? ? ? [] | apply always_net, load_blobs_backed|].
  intros tr2 [[cache loaded] skipped] (tr02 & -> & Hb). cbn [fst] in Hb.
  destruct (match assoc "statements" m ≫= as_array with Some _ => _ | None => _ end) as [sn cache'] eqn:Hst.
  intros i x. split; [|exact I]. intros _. exists m, (tr01 ++ tr02). split; [done|]. split; [by rewrite map_app|]. split; [done|].
  cbn [md_cache]. intros k e He.
  assert (Hk : cache !! k = Some e \/ from_statement (statements_of m) k e).
  { unfold statements_of. destruct (assoc "statements" m ≫= as_array) as [stmts|]; simpl in *; [|left; congruence].
    apply (load_statements_lookup 0). by rewrite Hst. }
  destruct Hk as [Hk|]; [left | by right]. destruct (Hb k e Hk) as [Hnone|(blob & Hin & Hback)]; [by apply lookup_empty_Some in Hnone|].
  exists blob. split.
  - destruct (Hof blob Hin) as [?|(url & j & Hu & Hj)]; [by left | right]. exists url, j. split; [done|]. apply elem_of_app. by left.
  - eapply backed_mono; [|exact Hback]. intros ev. rewrite elem_of_app. auto.
Qed.

Ltac skim_cases :=
  repeat first [ progress skim
               | lazymatch goal with |- avoids _ (match ?x with _ => _ end) => destruct x end ].
Lemma ceremony_no_metadata cd : avoids metadata_write (ceremony_challenge cd).
Proof. unfold ceremony_challenge. skim. Qed.
Lemma check_attestation_no_metadata st cd att challenge uv : avoids metadata_write (check_attestation st cd att challenge uv).
Proof. unfold check_attestation. skim_cases. Qed.
Lemma ceremonies_write_no_metadata st body :
  avoids metadata_write (attestation_options st body) /\ avoids metadata_write (attestation_result st body) /\
  avoids metadata_write (assertion_options st body) /\ avoids metadata_write (assertion_result st body) /\
  avoids metadata_write (mds_test_verify body).
Proof.
  split; [unfold attestation_options; skim|]. split; [|split; [unfold assertion_options; skim|split; [|unfold mds_test_verify; skim]]].
  - unfold attestation_result. skim. apply avoids_try; [apply ceremony_no_metadata|]. intros [challenge state].
    apply avoids_bind; [apply check_attestation_no_metadata|]. intros r. skim_cases.
  - unfold assertion_result. skim. apply avoids_try; [apply ceremony_no_metadata|]. intros [challenge state]. skim_cases.
Qed.

End fido_facts.
