(* ===== verification/FidoWitnesses.v ===== *)
(** * Concrete ceremonies of the conformance server

    A TPM statement, a metadata BLOB, a registration and an assertion, at which the
    theorems about them are applied; and what a counter of zero and a repeated credential
    identifier do. *)

From S2P Require Import Prelude Prog Json Decimal Firestore Externals Es256 WebAuthn Sys X509 Attestation Tpm Mds FidoStore TpmFacts.
From S2P Require Import MdsFacts AttestationFacts DocStore DocTable Store Provider Http Fido FidoFacts.

#[local] Open Scope Z_scope.

(** Other externals with another base64url. *)
Definition with_decoder (decode : string -> result string string) (E : Externals) : Externals := {|
  sha256_digest := @sha256_digest E;
  url_safe_no_pad_encode := @url_safe_no_pad_encode E;
  url_safe_no_pad_decode := decode;
  standard_decode := @standard_decode E;
  VerifyingKey := @VerifyingKey E;
  Signature := @Signature E;
  key_from_affine := @key_from_affine E;
  signature_from_slice := @signature_from_slice E;
  signature_from_der := @signature_from_der E;
  ecdsa_verify := @ecdsa_verify E;
  RsaPublicKey := @RsaPublicKey E;
  rsa_public_key := @rsa_public_key E;
  rsa_verify := @rsa_verify E;
  sha1_digest := @sha1_digest E;
  sha384_digest := @sha384_digest E;
  EdKey := @EdKey E;
  ed_key_from_bytes := @ed_key_from_bytes E;
  ed_verify := @ed_verify E;
  cbor_from_reader := @cbor_from_reader E;
  json_from_slice := @json_from_slice E;
  json_to_string := @json_to_string E;
  client_from_json := @client_from_json E;
  client_to_json := @client_to_json E;
  form_encode := @form_encode E;
  form_decode := @form_decode E;
  params_decode := @params_decode E;
  string_map_from_json := @string_map_from_json E;
  header_to_str := @header_to_str E;
  status_display := @status_display E;
  percent_decode := @percent_decode E;
  debug_str := @debug_str E;
  debug_value := @debug_value E;
  debug_int := @debug_int E;
  str_to_lowercase := @str_to_lowercase E;
  uuid_v4 := @uuid_v4 E;
  hyphenated := @hyphenated E;
  random_32 := @random_32 E
|}.

Definition client_data (type : string) : Value :=
  Object [("type", Str type); ("challenge", Str "c1"); ("origin", Str "http://op.te.st")].
Definition response (l : list (string * string)) : Value := Object (map (fun kv => (kv.1, Str kv.2)) l).
Definition posted (l : list (string * string)) : Value :=
  Object [("id", Str "cred"); ("type", Str "public-key"); ("response", response l)].
Definition configuration_body : Value :=
  Object [("roots", Array [Str "root"]); ("blobs", Array [Str "h.p.good"]);
          ("statements", Array [Object [("aaguid", Str "AA-00")]])].
Definition registration_body : Value := posted [("clientDataJSON", "create"); ("attestationObject", "attested")].
Definition assertion_body (ad : string) : Value :=
  posted [("clientDataJSON", "get"); ("authenticatorData", ad); ("signature", "good")].

(** Authenticator data of this relying party with the given flags and counter. *)
Definition auth_data (flags count : nat) (rest : string) : string :=
  "sha256(op.te.st)................" +:+ String (byte flags) (to_be_bytes 4 (Z.of_nat count)) +:+ rest.
Definition coordinate : string := "0123456789abcdef0123456789abcdef".
Definition attested : string :=
  "A" +:+ auth_data 69 7 ("0123456789abcdef" +:+ to_be_bytes 2 4 +:+ "cred" +:+ "K" +:+ coordinate +:+ coordinate).
Definition decode_sample (s : string) : result string string :=
  Ok (default s (assoc s [("attested", attested); ("count9", auth_data 5 9 ""); ("count0", auth_data 1 0 "");
                          ("count8", auth_data 1 8 "")])).
Definition conformance_externals : Externals :=
  with_decoder decode_sample
    (sample_externals [("get", client_data "webauthn.get"); ("create", client_data "webauthn.create");
                       ("config", configuration_body); ("register", registration_body); ("assert9", assertion_body "count9");
                       ("assert0", assertion_body "count0"); ("assert8", assertion_body "count8")]).
#[local] Existing Instance conformance_externals.

(** ** Certificates *)

Definition p256_point : string := String (byte 4) (coordinate +:+ coordinate).
Definition sample_tbs (serial issuer subject : string) (exts : list Extension) : SampleTbs :=
  mkSampleTbs V3 serial issuer subject [] 900 2000 (Some exts) p256_point OID_EC_PUBLIC_KEY.
Definition aik : SampleCertificate :=
  mkSampleCertificate (sample_tbs "3" "tpm" "aik" [(OID_BASIC_CONSTRAINTS, "leaf"); (OID_EKU, OID_TCG_AIK)]) OID_RSA_SHA256 "s".
Definition mds_root : SampleCertificate := mkSampleCertificate (sample_tbs "1" "root" "root" []) OID_ECDSA_SHA256 "good".
Definition mds_leaf : SampleCertificate :=
  mkSampleCertificate (sample_tbs "5" "root" "mds" [(OID_CRL_POINTS, "http://crl")]) OID_ECDSA_SHA256 "good".
Definition conformance_x509 : X509 :=
  sample_x509 (fun s => s) [("aik", aik); ("root", mds_root); ("leaf", mds_leaf)].
#[local] Existing Instance conformance_x509.

(** ** A TPM statement *)

Definition tpm_key : CredKey := Rs256Key (String (byte 0) "modulus") (to_be_bytes 3 65537).
Definition tpm_pub_area : string := pubarea_enc (mkPubArea TPM_ALG_SHA256 0 "policy" None (Some (20, 11)) 2048 0 "modulus").
Definition tpm_cert_info : string :=
  certify_enc (mkCertifyInfo
    (mkCertInfo TPM_GENERATED TPM_ST_ATTEST_CERTIFY (sha256_digest ("ad" +:+ sha256_digest "cd"))
       (to_be_bytes 2 TPM_ALG_SHA256 +:+ sha256_digest tpm_pub_area))
    "signer" "17-bytes-of-clock" "firmware" "qualified").
Definition tpm_statement : list (Cbor * Cbor) :=
  [(CborText "ver", CborText "2.0"); (CborText "alg", CborInteger (-257)); (CborText "sig", CborBytes "good");
   (CborText "certInfo", CborBytes tpm_cert_info); (CborText "pubArea", CborBytes tpm_pub_area);
   (CborText "x5c", CborArray [CborBytes "aik"])].
Lemma tpm_attestation_sound_witness : tpm_bound tpm_statement "ad" "cd" tpm_key.
Proof. apply (tpm_attestation_sound tpm_statement "ad" "cd" tpm_key). vm_compute. reflexivity. Defined.

(** ** A BLOB *)

Definition model_id : string := "30313233-3435-3637-3839-616263646566".
Definition model_entry : Entry := mkEntry (Some model_id) (Some (mkMetadataStatement ["root"])) [].
Definition conformance_codec : MdsCodec := {|
  blob_header_from_json s := if bool_decide (s = "h") then Ok (mkBlobHeader "ES256" ["leaf"]) else Err "missing field";
  blob_payload_from_json s := if bool_decide (s = "p") then Ok (mkBlobPayload 5 [model_entry]) else Err "missing field"
|}.
#[local] Existing Instance conformance_codec.
Definition revocations (url : string) : result string (result string string) := Ok (Ok "77,78").
(** ** A registration and an assertion *)

Definition conformance : FidoState := mkFidoState "op.te.st" "OP" "http://op.te.st" InMemory.
Definition ceremony (uv : option string) (creds : list StoredCredential) : fido_world :=
  mkFidoWorld (1000 * NS) 0 (mkMemInner {[ "c1" := mkChallengeState "alice" uv 990 ]} {[ "alice" := creds ]})
    (mkMdsState true ["root"] {[ model_id := model_entry ]}).
Definition conformance_handler : handler fidoE fido_world := fido_handler revocations.
Definition registering := attestation_result conformance "register".
Definition registering_trace : list (event fidoE) :=
  run_trace conformance_handler 0 registering (ceremony (Some "required") []).
Lemma account_writes_authentic_witness :
  authentic_write conformance (list.take 2 registering_trace) (nth 2 registering_trace EvEnv).
Proof.
  refine (account_writes_authentic conformance "/fido/attestation/result" (attestation_result conformance) "register"
    (Ret (run conformance_handler registering (ceremony (Some "required") [])).1) registering_trace _ _ _ _
    (run_trace_path conformance_handler 0 registering _) (split_at registering_trace 2 _) _).
  - right. left.
  - vm_compute. lia.
  - vm_compute. exact I.
Defined.

(** The configuration of the metadata: its last operation but the answer writes a cache
    with the entry of the BLOB and the statement. *)
Definition configuring := mds_config "config".
Definition configuring_trace : list (event fidoE) := run_trace conformance_handler 0 configuring (ceremony None []).
Definition the_write : nat := (List.length configuring_trace - 1)%nat.
Definition configured : fido_world := (run conformance_handler configuring (ceremony None [])).2.

(** ** A counter of zero

    The counter of an assertion is ignored when it is zero, and stored all the same: the
    next assertion is compared with zero.  A copy of the authenticator at 9, refused
    after the original has reached 9, is accepted once an assertion with zero came
    between. *)

Definition counted (n : Z) : StoredCredential := mkStoredCredential "cred" (Es256Key coordinate coordinate) n.
Definition asserting (body : string) (w : fido_world) : Z * fido_world :=
  let '(r, w') := run conformance_handler (assertion_result conformance body) w in
  (match r with Reply status _ _ => status | _ => 0 end, w').
Definition statuses (bodies : list string) (w : fido_world) : list Z :=
  (foldl (fun acc b => let '(s, w') := asserting b acc.2 in (acc.1 ++ [s], w')) ([], w) bodies).1.
Lemma zero_resets_counter :
  statuses ["assert9"; "assert8"] (ceremony None [counted 7]) = [200; 400] /\
  statuses ["assert9"; "assert0"; "assert8"] (ceremony None [counted 7]) = [200; 200; 200].
Proof. split; vm_compute; reflexivity. Qed.

(** ** A repeated credential identifier

    The in-memory store files credentials per user; on Firestore the identifier names the
    document, and a registration with the identifier of somebody else's credential takes
    it from its owner. *)

Definition found (l : list StoredCredential) : list (string * Z) := map (fun c => (sc_id c, sc_sign_count c)) l.
Definition two_users {E : Type -> Type} (op : forall X, fidoStoreE X -> prog E X) : prog E (list (string * Z) * list (string * Z)) :=
  _ ← op _ (SaveCredential "alice" (counted 7));
  _ ← op _ (SaveCredential "mallory" (counted 1));
  a ← op _ (FindCredentials "alice");
  m ← op _ (FindCredentials "mallory");
  mret (found a, found m).
Lemma credential_taken_over :
  (run (mem_fido_op 1000) (two_users (fun X o => trigger o)) MemInner_default).1 = ([("cred", 7)], [("cred", 1)]) /\
  (run (@sys_handler table_backend conformance_externals) (two_users firestore_fido_op)
     (@mkSysWorld table_backend (1000 * NS) 0 0 empty_table)).1 = ([], [("cred", 1)]).
Proof. split; vm_compute; reflexivity. Qed.
