(* ===== verification/I18n.v ===== *)
(** * Languages

    [src/src/web/i18n.rs]: the language a browser asks for, the catalog, and the
    replacement of the marked texts of a template; and the texts of the mails of
    [src/src/mailer.rs]. *)

From S2P Require Import Prelude Prog Json Decimal Firestore Externals Es256 Http.

#[local] Open Scope Z_scope.

Inductive Lang : Type := En | Ja.
#[export] Instance Lang_eq_dec : EqDecision Lang.
Proof. solve_decision. Defined.
Definition lang_code (l : Lang) : string := match l with En => "en" | Ja => "ja" end.

(** ** Accept-Language *)

Definition is_digit (a : ascii) : bool := in_range 48 57 a.
Definition is_zero (a : ascii) : bool := bool_decide (a = "0"%char).
(** [format!("{frac:0<3}")]. *)
Definition pad3 (frac : string) : string := frac +:+ String.substring 0 (3 - String.length frac) "000".

(** A quality value in thousandths. *)
Definition parse_q (v : string) : option Z :=
  let '(int, frac) := default (v, "") (str_split_once "."%char v) in
  if (3 <? String.length frac)%nat || negb (str_forall is_digit frac) then None
  else if bool_decide (int = "0") then parse_u64 (pad3 frac)
  else if bool_decide (int = "1") && str_forall is_zero frac then Some 1000
  else None.

(** The last [q] parameter counts; one that does not parse drops the item. *)
Fixpoint quality (q : Z) (params : list string) : option Z :=
  match params with
  | [] => Some q
  | param :: params' =>
      match strip_prefix "q=" (str_trim param) with
      | Some v => q' ← parse_q (str_trim v); quality q' params'
      | None => quality q params'
      end
  end.
Definition lang_of_tag (tag : string) : option Lang :=
  primary ← head (str_split "-"%char tag);
  if bool_decide (to_ascii_lower primary = "en") then Some En
  else if bool_decide (to_ascii_lower primary = "ja") then Some Ja
  else None.
Definition language_range (item : string) : option (Z * Lang) :=
  match str_split ";"%char item with
  | [] => None
  | tag :: params =>
      lang ← lang_of_tag (str_trim tag);
      q ← quality 1000 params;
      if 0 <? q then Some (q, lang) else None
  end.
Definition best_first (a b : Z * Lang) : comparison := Z.compare b.1 a.1.
Definition from_accept_language (value : string) : Lang :=
  match sort_by best_first (omap language_range (str_split ","%char value)) with
  | r :: _ => r.2
  | [] => En
  end.
Definition from_headers `{Externals} (hs : HeaderMap) : Lang :=
  default En (v ← header_get "accept-language" hs; s ← header_to_str v; Some (from_accept_language s)).

(** ** Templates *)

(** [str::replace] for a pattern that is not empty: [skip] bytes of an occurrence
    are still to drop. *)
Fixpoint replace_go (pat rep : string) (skip : nat) (s : string) : string :=
  match s with
  | "" => ""
  | String a s' =>
      match skip with
      | S k => replace_go pat rep k s'
      | O => if starts_with pat s then rep +:+ replace_go pat rep (String.length pat - 1) s'
             else String a (replace_go pat rep 0 s')
      end
  end.
Definition str_replace (pat rep s : string) : string := replace_go pat rep 0 s.

Definition CATALOG : list (string * string) :=
  [
   ("Log in", "ログイン");
   ("Sign in", "サインイン");
   ("Sign in with a passkey", "Passkey でサインイン");
   ("Email address (optional)", "メールアドレス（任意）");
   ("Sign up with email", "新規登録 (メアドで)");
   ("Cancel", "キャンセル");
   ("This browser does not support passkeys. Open this page in the standard Safari or Chrome app.",
    "このブラウザは passkey 非対応です（標準の Safari / Chrome アプリで開いてください）。");
   ("Could not start the passkey. Open this page in the standard Safari or Chrome app (in-app browsers are not supported).",
    "passkey を起動できませんでした。標準の Safari / Chrome アプリで開いてください（アプリ内ブラウザでは使えません）。");
   ("Signing in…", "サインイン処理中…");
   ("Male", "男性");
   ("Female", "女性");
   ("Other", "その他");
   ("Not set", "未設定");
   ("Profile", "プロフィール");
   ("Name", "氏名");
   ("Nickname", "ニックネーム");
   ("Gender", "性別");
   ("Birthday", "誕生日");
   ("Time zone", "タイムゾーン");
   ("Locale", "ロケール");
   ("Edit", "編集");
   ("Log out", "ログアウト");
   ("Token info (debug)", "トークン情報 (デバッグ)");
   ("Edit profile", "プロフィール編集");
   ("Gender (male/female/other)", "性別 (male/female/other)");
   ("Birthday (YYYY-MM-DD)", "誕生日 (YYYY-MM-DD)");
   ("Save", "保存");
   ("Your session has expired", "セッションが切れました");
   ("Failed to save", "保存に失敗しました");
   ("Sign-in approval request", "ログイン承認の依頼");
   ("Approve (passkey)", "承認 (passkey)");
   ("Reject", "拒否");
   ("Error", "エラー");
   ("Your session has expired. Please sign in again.",
    "セッションが切れました。再度サインインしてください。");
   ("Sign up", "登録");
   ("Create an account", "ユーザー登録");
   ("We will send a confirmation link to your email address.",
    "メールアドレスに確認リンクを送ります。");
   ("Send confirmation email", "確認メールを送信");
   ("Sent", "送信しました");
   ("Confirmation email sent", "確認メールを送信しました");
   ("Open the link in the email and create a passkey to finish signing up (the link expires in 15 minutes).",
    "メール内のリンクから passkey を作成して登録を完了してください（有効期限15分）。");
   ("Invitation expired", "招待の期限切れ");
   ("This invitation cannot be used", "この招待は使えません");
   ("It has expired or has already been used. Ask the person who invited you to send it again.",
    "期限が切れたか、既に使われています。招待した方に、もう一度送ってもらってください。");
   ("Passkey registration", "passkey 登録");
   ("Create a passkey", "passkey を作成");
   ("Name (required)", "氏名（必須）");
   ("Name (optional)", "氏名（任意）");
   ("Register securely with the fido2demo app.", "fido2demo アプリで安全に登録します。");
   ("Open in the app", "アプリで開く");
   ("If the app is installed, it opens automatically. If it does not, continue on the web with the button below.",
    "インストール済みなら自動で開きます。開かない場合は下のボタンから Web で続行できます。");
   ("If you open the app, the name above is not saved. It is saved if you continue on the web.",
    "アプリで開くと、上の氏名は保存されません。Web で登録を続けると保存されます。");
   ("Continue on the web", "Web で登録を続ける");
   ("It is created as a synced passkey (for example in iCloud Keychain).",
    "同期 passkey（iCloud Keychain 等）として作成されます。");
   ("Create a passkey with this device (for example with biometrics) to finish signing up.",
    "このデバイスの生体認証等で passkey を作成し、登録を完了します。");
   ("Create a passkey and sign up", "passkey を作成して登録");
   ("Enter your name", "氏名を入力してください");
   ("Working…", "処理中…");
   ("Registration complete. Taking you to sign in…", "登録が完了しました。サインインの画面へ移ります…");
   ("Registration complete.", "登録が完了しました。");
   ("Go to log in", "ログインへ");
   ("You have logged out", "ログアウトしました");
   ("Go to sign in", "サインインへ");
   ("You need to log in to approve.", "承認するにはログインが必要です。");
   ("CIBA approval", "CIBA 承認");
   ("There are no pending requests.", "保留中の要求はありません。");
   ("Admin console", "管理コンソール");
   ("Choose an action from the navigation above.", "上のナビゲーションから操作を選んでください。");
   ("Status", "状態");
   ("Registered", "登録日");
   ("Admins cannot be deleted (revoke admin first).", "管理者は削除できません（先に管理者を剥奪）。");
   ("Delete this account permanently? Its passkey, profile, and notification registration are also removed, and this cannot be undone (the CIBA approval history is kept).",
    "このアカウントを完全に削除しますか？passkey・プロフィール・通知の登録も消え、元に戻せません（CIBA の承認の履歴は残ります）。");
   ("Delete", "削除(delete)");
   ("Enable", "凍結解除(enable)");
   ("You cannot disable yourself (your session would end immediately).",
    "自分自身は凍結できません（セッションが即座に失効するため）。");
   ("Disable this account? Its sessions and tokens are also revoked.",
    "このアカウントを凍結しますか？セッション・トークンも失効します。");
   ("Disable", "凍結(disable)");
   ("Revoke your own admin rights?", "自分自身の管理者権限を剥奪しますか？");
   ("Revoke admin rights?", "管理者権限を剥奪しますか？");
   ("Revoke admin", "管理者を剥奪");
   ("Make admin", "管理者に任命");
   ("No history.", "操作履歴はありません。");
   ("Time", "日時");
   ("Actor", "実行者");
   ("Action", "操作");
   ("Details", "詳細");
   ("Target", "対象");
   ("Role", "管理者");
   ("History", "操作履歴");
   ("Back to the list", "一覧へ戻る");
   ("Disabled", "凍結中");
   ("Active", "有効");
   ("Admin", "管理者");
   ("Regular user", "一般");
   ("You cannot disable yourself", "自分自身は凍結できません");
   ("Admins cannot be deleted. Revoke admin first", "管理者は削除できません。先に管理者を剥奪してください");
   ("An account that is not disabled cannot be deleted. Disable it first",
    "凍結していないアカウントは削除できません。先に凍結してください");
   ("This conflicted with another change. Please try again",
    "他の書き込みと競合しました。もう一度お試しください");
   ("You gave up admin rights", "管理者権限を放棄しました");
   ("You can no longer access the admin console.", "これ以降、管理コンソールにはアクセスできません。");
   ("The last admin cannot be revoked", "最後の管理者は剥奪できません");
   ("Audit log (latest {n})", "監査ログ（直近{n}件）");
   ("Auth method", "認証方式");
   ("(none)", "(なし)");
   ("(none — this client has no return address after sign-out)",
    "(なし — この client はサインアウト後の戻り先を持ちません)");
   ("post_logout_redirect_uris (one per line; leave empty for no return address)",
    "post_logout_redirect_uris（1 行に 1 つ。空にすると戻り先なし）");
   ("Save return addresses", "戻り先を保存");
   ("Revoke this client? This cannot be undone.", "このクライアントを失効させますか？取り消せません。");
   ("Set", "設定済み");
   ("None", "なし");
   ("This client was changed by another update. Reopen it and try again.",
    "この client は別の更新で変わりました。開き直してからやり直してください。");
   ("Unused IATs", "未消費のIAT");
   ("New mint", "新規mint");
   ("Discard this IAT?", "このIATを破棄しますか？");
   ("Mint a new IAT", "新規IATをmint");
   ("Client profile", "プロファイル");
   ("Confidential Key (private_key_jwt, FAPI2 equivalent)",
    "Confidential Key（private_key_jwt、FAPI2相当）");
   ("Confidential Secret (client_secret_basic)",
    "Confidential Secret（client_secret_basic）");
   ("Public (none)", "Public（none）");
   ("Allowed redirect hosts (one per line or comma-separated; at least one required)",
    "許可する redirect host（改行またはカンマ区切り、1つ以上必須）");
   ("Allowed grant_type (default: authorization_code, refresh_token)",
    "許可する grant_type（省略時: authorization_code, refresh_token）");
   ("Expires in (hours)", "有効期限（時間）");
   ("Specify at least one redirect host", "redirect host を最低1つ指定してください");
   ("ttl_hours must be between 1 and {max} (365 days)",
    "ttl_hours は1〜{max}(365日)の範囲で指定してください");
   ("ttl_hours is too large", "ttl_hours が大きすぎます");
   ("The IAT was issued (hash={hash}), but the raw token cannot be shown because saving it for display failed.",
    "IATの発行自体は成功しました（hash={hash}）が、表示用の一時保存に失敗したため生トークンは表示できません。");
   ("Already shown", "表示済みです");
   ("This token was already shown or has expired. Mint a new one.",
    "このトークンは既に表示済み、または期限切れです。再度mintしてください。");
   ("Expired", "期限切れです");
   ("It took too long to show it. Mint a new one.",
    "表示までに時間がかかりすぎました。再度mintしてください。");
   ("IAT issued", "IATを発行しました");
   ("This screen is shown only once. Copy the token now.",
    "この画面は一度しか表示されません。今すぐコピーしてください。");
   ("IAT issuance complete", "IAT発行完了");
   ("[rust-op] Verify your email", "【rust-op】メールアドレス確認");
   ("Verify your email address", "メールアドレス確認");
   ("To finish signing up, create your passkey with the button below. The link expires in 15 minutes.",
    "登録を完了するには、以下のボタンから passkey を作成してください。有効期限は15分です。");
   ("Sign up with a passkey", "passkey を作成して登録");
   ("If you did not request this, ignore this email.",
    "心当たりがない場合はこのメールを無視してください。");
   ("[rust-op] An account already exists", "【rust-op】既に登録済みのアカウントがあります");
   ("Already registered", "既に登録済みです");
   ("This email address", "このメールアドレス");
   ("is already registered. Please sign in instead of signing up.",
    "は既に登録されています。新規登録ではなくサインインをご利用ください。");
   ("Sign-in approval", "ログインの承認");
   ("Sign-in request from {client}", "{client} からのログイン要求があります")].

Definition translate (key : string) : option string := assoc key CATALOG.

(** The loop of [localize]; every round shortens the rest. *)
Fixpoint localize_go (fuel : nat) (lang : Lang) (rest : string) : string :=
  match fuel with
  | O => rest
  | S fuel' =>
      match str_split_once_str "[[" rest with
      | None => rest
      | Some (before, after) =>
          match str_split_once_str "]]" after with
          | None => rest
          | Some (key, after') =>
              match translate key with
              | Some ja => before +:+ (match lang with Ja => ja | En => key end) +:+ localize_go fuel' lang after'
              | None => before +:+ "[[" +:+ localize_go fuel' lang after
              end
          end
      end
  end.
Definition localize (template : string) (lang : Lang) : string :=
  str_replace "__LANG__" (lang_code lang) (localize_go (S (String.length template)) lang template).
Definition bilingual (template : string) : string :=
  localize template Ja +:+ " / " +:+ localize template En.

(** * Properties *)

(** [p] of two characters, and a text in which it does not begin, not even with the
    first character of what follows. *)
Definition ends_with (a : ascii) (s : string) : bool :=
  match String.length s with
  | O => false
  | S n => match String.get n s with Some b => bool_decide (b = a) | None => false end
  end.
Definition pair (a : ascii) : string := String a (String a "").

Lemma split_prefix p s r : strip_prefix p s = Some r -> str_split_once_str p s = Some ("", r).
Proof. intros Hp. destruct s; cbn [str_split_once_str]; by rewrite Hp. Qed.

Lemma split_pair a s r :
  str_contains_str (pair a) s = false -> ends_with a s = false ->
  str_split_once_str (pair a) (s +:+ pair a +:+ r) = Some (s, r).
Proof.
  induction s as [|x s IH]; intros Hc He.
  - apply split_prefix, strip_prefix_Some. done.
  - change (String x s +:+ pair a +:+ r) with (String x (s +:+ pair a +:+ r)).
    cbn [str_contains_str] in Hc. apply orb_false_iff in Hc as [Hs Hc].
    assert (Hno : strip_prefix (pair a) (String x (s +:+ pair a +:+ r)) = None).
    { unfold starts_with, pair in Hs. unfold pair at 1. cbn [strip_prefix] in Hs |- *.
      destruct (decide (a = x)) as [->|]; [|done].
      destruct s as [|y s].
      - unfold ends_with in He. cbn [String.length String.get] in He. by rewrite bool_decide_true in He.
      - change (String y s +:+ pair x +:+ r) with (String y (s +:+ pair x +:+ r)).
        cbn [strip_prefix] in Hs |- *. by destruct (decide (x = y)). }
    cbn [str_split_once_str]. rewrite Hno, IH; [done..|].
    destruct s as [|y s]; [done|]. exact He.
Qed.

Lemma split_none p s : str_contains_str p s = false -> str_split_once_str p s = None.
Proof.
  induction s as [|x s IH]; cbn [str_contains_str str_split_once_str]; unfold starts_with; intros Hc;
    apply orb_false_iff in Hc as [Hs Hc]; destruct (strip_prefix p _); [done|done|done|]. by rewrite IH.
Qed.

(** ** Templates as the pages write them *)

Inductive piece : Type := Text (s : string) | Mark (key : string).
Definition render (ps : list piece) : string :=
  foldr (fun p acc => match p with Text s => s | Mark k => "[[" +:+ k +:+ "]]" end +:+ acc) "" ps.
Definition translated (lang : Lang) (ps : list piece) : string :=
  foldr (fun p acc => match p with
                      | Text s => s
                      | Mark k => match lang with Ja => default k (translate k) | En => k end
                      end +:+ acc) "" ps.
Definition plain_text (s : string) : bool :=
  negb (str_contains_str (pair "[") s) && negb (ends_with "[" s).
(** Marks and texts alternate, and the marks are keys of the catalog. *)
Fixpoint well_marked (ps : list piece) : bool :=
  match ps with
  | [] => true
  | [Text s] => negb (str_contains_str (pair "[") s)
  | Text s :: (Mark _ :: _) as ps' => plain_text s && well_marked ps'
  | Text _ :: _ => false
  | Mark k :: ps' => bool_decide (is_Some (translate k)) && well_marked ps'
  end.

Lemma catalog_keys_check :
  forallb (fun kv => negb (str_contains_str (pair "]") kv.1) && negb (ends_with "]" kv.1)) CATALOG = true.
Proof. vm_compute. reflexivity. Qed.
Lemma assoc_In {A} k (m : list (string * A)) v : assoc k m = Some v -> (k, v) ∈ m.
Proof.
  induction m as [|[k' v'] m IH]; cbn [assoc]; [done|]. destruct (decide (k' = k)) as [->|]; [intros [= ->]; by left|].
  intros Hk. right. by apply IH.
Qed.
Lemma catalog_key k v r : translate k = Some v -> str_split_once_str "]]" (k +:+ "]]" +:+ r) = Some (k, r).
Proof.
  intros Hk%assoc_In. pose proof (proj1 (forallb_forall _ _) catalog_keys_check (k, v)) as Hc.
  rewrite list_elem_of_In in Hk. specialize (Hc Hk). apply andb_true_iff in Hc as [H1 H2].
  apply (split_pair "]"); by apply negb_true_iff.
Qed.

(** One round on a text, a marked key of the catalog and the rest. *)
Lemma localize_go_mark fuel lang s k ja r :
  str_contains_str (pair "[") s = false -> ends_with "[" s = false -> translate k = Some ja ->
  localize_go (S fuel) lang (s +:+ ("[[" +:+ k +:+ "]]") +:+ r) =
    s +:+ (match lang with Ja => ja | En => k end) +:+ localize_go fuel lang r.
Proof.
  intros Hc He Hk. cbn [localize_go].
  replace (("[[" +:+ k +:+ "]]") +:+ r) with (pair "[" +:+ (k +:+ "]]" +:+ r)) by (by rewrite !str_app_assoc).
  rewrite (split_pair "[") by done. by rewrite (catalog_key k ja), Hk.
Qed.

Lemma localize_go_render lang n : forall ps fuel,
  (length ps <= n)%nat -> well_marked ps = true -> (String.length (render ps) < fuel)%nat ->
  localize_go fuel lang (render ps) = translated lang ps.
Proof.
  induction n as [|n IH]; intros ps fuel Hn Hw Hf; (destruct fuel as [|fuel]; [lia|]).
  { by destruct ps; [|simpl in Hn; lia]. }
  destruct ps as [|[s|k] ps]; [done|..].
  - destruct ps as [|[s'|k] ps]; [|done|].
    + cbn [well_marked] in Hw. apply negb_true_iff in Hw. cbn [render translated foldr]. rewrite !str_app_nil_r.
      cbn [localize_go]. by rewrite (split_none (pair "[")).
    + cbn [well_marked] in Hw. apply andb_true_iff in Hw as [[Hp1 Hp2]%andb_true_iff [Hk Hw]%andb_true_iff].
      apply negb_true_iff in Hp1, Hp2. apply bool_decide_eq_true in Hk as [ja Hk].
      change (render (Text s :: Mark k :: ps)) with (s +:+ ("[[" +:+ k +:+ "]]") +:+ render ps) in *.
      change (translated lang (Text s :: Mark k :: ps)) with (s +:+ (match lang with Ja => default k (translate k) | En => k end) +:+ translated lang ps).
      rewrite (localize_go_mark fuel lang s k ja _ Hp1 Hp2 Hk), Hk, !str_length_app in *. simpl in Hn, Hf.
      rewrite (IH ps fuel); [by destruct lang | lia | done | lia].
  - cbn [well_marked] in Hw. apply andb_true_iff in Hw as [Hk Hw]. apply bool_decide_eq_true in Hk as [ja Hk].
    change (render (Mark k :: ps)) with ("" +:+ ("[[" +:+ k +:+ "]]") +:+ render ps) in *.
    change (translated lang (Mark k :: ps)) with ((match lang with Ja => default k (translate k) | En => k end) +:+ translated lang ps).
    rewrite (localize_go_mark fuel lang "" k ja _ eq_refl eq_refl Hk), Hk, !str_length_app in *. simpl in Hn, Hf.
    rewrite (IH ps fuel); [by destruct lang | lia | done | lia].
Qed.

(** A template whose marks are keys of the catalog is shown with every mark
    replaced, by the key itself in English and by its translation in Japanese, and
    with the language code in the place of [__LANG__]; the loop ends on every input. *)
Theorem localize_exact lang ps :
  well_marked ps = true ->
  localize (render ps) lang = str_replace "__LANG__" (lang_code lang) (translated lang ps).
Proof. intros Hw. unfold localize. rewrite (localize_go_render lang (length ps)) by (done || lia). done. Qed.

Definition a_page : list piece :=
  [Text "<html lang=__LANG__><h1>"; Mark "Sign in"; Text "</h1>"; Mark "Cancel"; Text "a[0]"].
Lemma localize_exact_witness :
  localize (render a_page) En = "<html lang=en><h1>Sign in</h1>Cancela[0]" /\
  localize (render a_page) Ja = "<html lang=ja><h1>サインイン</h1>キャンセルa[0]".
Proof.
  split; (etransitivity; [apply localize_exact; vm_compute; reflexivity | vm_compute; reflexivity]).
Defined.

(** What may stand in a catalog. *)
Definition inert (a : ascii) : bool :=
  let n := nat_of_ascii a in
  negb ((n <? 32) || (n =? 127))%nat && negb (bool_decide (n ∈ [60; 62; 38; 34; 39; 96; 92; 36]%nat)).
Definition inert_text (s : string) : bool :=
  str_forall inert s && negb (str_contains_str "[[" s) && negb (str_contains_str "]]" s) && negb (str_contains_str "__LANG__" s).
(** No key and no translation can leave an HTML text, an attribute or a script
    string, and none looks like a mark: no markup, quote, backslash, dollar sign or
    control character, no pair of brackets. *)
Theorem catalog_inert :
  forall key ja, translate key = Some ja -> inert_text key = true /\ inert_text ja = true.
Proof.
  assert (Hall : forallb (fun kv => inert_text kv.1 && inert_text kv.2) CATALOG = true) by (vm_compute; reflexivity).
  intros key ja Hk%assoc_In. rewrite list_elem_of_In in Hk. apply andb_true_iff.
  exact (proj1 (forallb_forall _ _) Hall (key, ja) Hk).
Qed.

(** ** Accept-Language *)

(** The first of the ranges with the highest quality. *)
Fixpoint best_range (l : list (Z * Lang)) : option (Z * Lang) :=
  match l with
  | [] => None
  | r :: l' =>
      match best_range l' with
      | Some b => if b.1 <=? r.1 then Some r else Some b
      | None => Some r
      end
  end.

Lemma head_insert_best r l :
  head (insert_by best_first r l) =
    match head l with Some b => if b.1 <=? r.1 then Some r else Some b | None => Some r end.
Proof.
  destruct l as [|y l]; [done|]. cbn [insert_by head]. unfold best_first at 1.
  destruct (Z.compare_spec y.1 r.1), (Z.leb_spec y.1 r.1); lia || done.
Qed.

(** The language of a page: the one of the first range with the highest positive
    quality among those for English and Japanese, and English when there is none. *)
Theorem accept_language_exact value :
  from_accept_language value =
    default En (snd <$> best_range (omap language_range (str_split ","%char value))).
Proof.
  unfold from_accept_language. generalize (omap language_range (str_split ","%char value)). intros l.
  assert (Hh : head (sort_by best_first l) = best_range l).
  { induction l as [|r l IH]; [done|]. change (sort_by best_first (r :: l)) with (insert_by best_first r (sort_by best_first l)).
    rewrite head_insert_best, IH. done. }
  rewrite <- Hh. by destruct (sort_by best_first l).
Qed.

Example accept_language_examples :
  map from_accept_language
    ["ja"; "en-US,ja;q=0.9"; "ja;q=0.5,en;q=0.5"; "fr-FR,ja;q=0.7,en;q=0.3"; "ja;q=0,en;q=0.1"; "ja;q=1.5"; ";;,,,"] =
    [Ja; En; Ja; Ja; En; En; En].
Proof. vm_compute. reflexivity. Qed.
