(* ===== verification/FsClient.v ===== *)
(** * The Firestore client over HTTP

    [impl Firestore] of [src/src/firestore.rs]: every operation of [fsE] is one or
    more HTTP requests and a reading of their answers.  A body is a JSON value or
    a text: serialization is the HTTP crates' part. *)

From S2P Require Import Prelude Prog Json Decimal Firestore Externals Sys Http.

#[local] Open Scope Z_scope.

(** ** The wire *)

Inductive Method : Type := GET | PATCH | DELETE | POST.
#[export] Instance Method_eq_dec : EqDecision Method.
Proof. solve_decision. Defined.

Record HttpRequest := mkHttpRequest {
  rq_method : Method;
  rq_url : string;
  rq_query : list (string * string);
  rq_headers : list (string * string);
  rq_body : option Value
}.
Inductive WireBody : Type := WireJson (v : Value) | WireText (s : string).
Record HttpResponse := mkHttpResponse { rs_status : Z; rs_body : WireBody }.

(** A transport error: its text with and without the URL of the request. *)
Record HttpError := mkHttpError { he_display : string; he_without_url : string }.

Inductive httpE : Type -> Type :=
| Send (r : HttpRequest) : httpE (result HttpError HttpResponse)
| InstantNow : httpE Z
| CachedToken : httpE (option (string * Z))
| CacheToken (t : string) (expires : Z) : httpE unit.

Definition is_success (st : Z) : bool := (200 <=? st) && (st <? 300).
(** [Response::json], [Response::text]. *)
Definition body_json (b : WireBody) : result HttpError Value :=
  match b with WireJson v => Ok v | WireText s => Err (mkHttpError "error decoding response body" "error decoding response body") end.

(** ** The client *)

Record FirestoreClient := mkFirestoreClient {
  fc_project : string;
  fc_database : string;
  fc_emulator_host : option string
}.

Definition Firestore_new (project : string) (database_id emulator_host : option string) : FirestoreClient :=
  mkFirestoreClient project (resolve_database database_id) emulator_host.
Definition new_for_test (project emulator_host : string) : FirestoreClient :=
  mkFirestoreClient project "(default)" (Some emulator_host).

Definition base_url_or (f : FirestoreClient) (real_host : string) : string :=
  match fc_emulator_host f with
  | Some host => "http://" +:+ host
  | None => "https://" +:+ real_host
  end.
Definition base_url (f : FirestoreClient) : string := base_url_or f "firestore.googleapis.com".

(** [.../documents], the common part of the URLs. *)
Definition documents_url (f : FirestoreClient) : string :=
  base_url f +:+ "/v1/projects/" +:+ fc_project f +:+ "/databases/" +:+ fc_database f +:+ "/documents".
Definition doc_url (f : FirestoreClient) (col id : string) : string :=
  documents_url f +:+ "/" +:+ col +:+ "/" +:+ enc id.
Definition query_url (f : FirestoreClient) : string := documents_url f +:+ ":runQuery".
Definition list_url (f : FirestoreClient) (col : string) : string := documents_url f +:+ "/" +:+ col.

Definition METADATA_TOKEN_URL : string :=
  "http://metadata.google.internal/computeMetadata/v1/instance/service-accounts/default/token".

Definition pair_bearer (tok : string) : string * string := ("authorization", "Bearer " +:+ tok).

(** The lossy decoding of bytes: a maximal invalid sequence becomes U+FFFD. *)
Definition REPLACEMENT : string := String (byte 239) (String (byte 191) (String (byte 189) "")).
(** What the second byte of a sequence may be. *)
Definition second_ok (a b : ascii) : bool :=
  let n := nat_of_ascii a in
  if (n =? 224)%nat then in_range 160 191 b
  else if (n =? 237)%nat then in_range 128 159 b
  else if (n =? 240)%nat then in_range 144 191 b
  else if (n =? 244)%nat then in_range 128 143 b
  else cont b.
(** Whether a text starts with a whole character, and how many bytes to take. *)
Definition first_char (s : string) : bool * nat :=
  match s with
  | "" => (true, 0%nat)
  | String a r =>
      if in_range 0 127 a then (true, 1%nat)
      else if in_range 194 244 a then
        match r with
        | String b r1 =>
            if negb (second_ok a b) then (false, 1%nat)
            else if in_range 194 223 a then (true, 2%nat)
            else match r1 with
            | String c r2 =>
                if negb (cont c) then (false, 2%nat)
                else if in_range 224 239 a then (true, 3%nat)
                else match r2 with
                | String d _ => if cont d then (true, 4%nat) else (false, 3%nat)
                | "" => (false, 3%nat)
                end
            | "" => (false, 2%nat)
            end
        | "" => (false, 1%nat)
        end
      else (false, 1%nat)
  end.
(** [skip] bytes are still to be dropped ([false]) or copied ([true]). *)
Fixpoint lossy_go (copy : bool) (skip : nat) (s : string) : string :=
  match s with
  | "" => ""
  | String a r =>
      match skip with
      | S k => if copy then String a (lossy_go copy k r) else lossy_go copy k r
      | O =>
          let '(good, n) := first_char s in
          if good then String a (lossy_go true (pred n) r)
          else REPLACEMENT +:+ lossy_go false (pred n) r
      end
  end.
Definition from_utf8_lossy (s : string) : string := lossy_go true 0 s.

Definition PAGE_SIZE : nat := 100.

Section client.
Context `{Externals}.
Context (f : FirestoreClient).

Definition body_text (b : WireBody) : string :=
  match b with WireJson v => json_to_string v | WireText s => s end.

Definition firestore_token : prog httpE (result string string) :=
  match fc_emulator_host f with
  | Some _ => mret (Ok "owner")
  | None =>
      g ← trigger CachedToken;
      live ← match g with
             | Some (t, exp) => now ← trigger InstantNow; mret (if now <? exp then Some t else None)
             | None => mret None
             end;
      match live with
      | Some t => mret (Ok t)
      | None =>
          r ← trigger (Send (mkHttpRequest GET METADATA_TOKEN_URL [] [("Metadata-Flavor", "Google")] None));
          resp ←? mret (map_err (fun e => "metadata: " +:+ he_display e) r);
          j ←? mret (map_err (fun e => "metadata json: " +:+ he_display e) (body_json (rs_body resp)));
          tok ←? mret (ok_or "no access_token" (get_str j "access_token"));
          let ttl := default 3000 (get j "expires_in" ≫= as_u64) in
          now ← trigger InstantNow;
          _ ← trigger (CacheToken tok (now + u64_saturating_sub ttl 60 * NS));
          mret (Ok tok)
      end
  end.

(** A request of this client, with its access token; [ctx] prefixes a transport error. *)
Definition call (ctx : HttpError -> string) (m : Method) (url : string)
    (query : list (string * string)) (body : option Value) : prog httpE (result string HttpResponse) :=
  tok ←? firestore_token;
  r ← trigger (Send (mkHttpRequest m url query [pair_bearer tok] body));
  mret (map_err ctx r).
Definition hide_url (label : string) (e : HttpError) : string := label +:+ ": " +:+ he_without_url e.
Definition show_url (label : string) (e : HttpError) : string := label +:+ ": " +:+ he_display e.

Definition status_error {A} (label : string) (r : HttpResponse) : result string A :=
  Err (label +:+ " " +:+ status_display (rs_status r)).
Definition status_body_error {A} (label : string) (r : HttpResponse) : result string A :=
  Err (label +:+ " " +:+ status_display (rs_status r) +:+ " " +:+ body_text (rs_body r)).
(** The answers to a failed precondition. *)
Definition precondition_lost (st : Z) : bool := bool_decide (st = 400) || bool_decide (st = 409) || bool_decide (st = 412).

Definition set_doc (col id : string) (fields : Value) : prog httpE (result string unit) :=
  r ←? call (hide_url "set") PATCH (doc_url f col id) [] (Some (Object [("fields", fields)]));
  mret (if is_success (rs_status r) then Ok tt else status_body_error "set" r).

Definition update_field (col id field : string) (value : Value) : prog httpE (result string unit) :=
  r ←? call (hide_url "update_field") PATCH (doc_url f col id)
         [("updateMask.fieldPaths", field); ("currentDocument.exists", "true")]
         (Some (Object [("fields", Object [(field, value)])]));
  mret (if is_success (rs_status r) then Ok tt else status_body_error "update_field" r).

(** [None] for an absent document; otherwise the document. *)
Definition fetch (col id : string) : prog httpE (result string (option Value)) :=
  r ←? call (hide_url "get") GET (doc_url f col id) [] None;
  if bool_decide (rs_status r = 404) then mret (Ok None)
  else if negb (is_success (rs_status r)) then mret (status_error "get" r)
  else mret (Some <$> map_err (hide_url "get json") (body_json (rs_body r))).
Definition get_doc (col id : string) : prog httpE (result string (option Value)) :=
  d ←? fetch col id;
  mret (Ok (d ≫= fun j => get j "fields")).
Definition get_doc_with_update_time (col id : string) : prog httpE (result string (option (Value * string))) :=
  d ←? fetch col id;
  mret (Ok (option_map (fun j => (default Null (get j "fields"), default "" (get_str j "updateTime"))) d)).

Definition set_doc_if_unchanged (col id : string) (fields : Value) (update_time : string) :
    prog httpE (result string bool) :=
  r ←? call (hide_url "cas") PATCH (doc_url f col id) [("currentDocument.updateTime", update_time)]
         (Some (Object [("fields", fields)]));
  mret (if is_success (rs_status r) then Ok true
        else if precondition_lost (rs_status r) then Ok false else status_error "cas" r).

Definition create_if_absent (col id : string) (fields : Value) : prog httpE (result string bool) :=
  r ←? call (hide_url "create_if_absent") PATCH (doc_url f col id) [("currentDocument.exists", "false")]
         (Some (Object [("fields", fields)]));
  mret (if is_success (rs_status r) then Ok true
        else if precondition_lost (rs_status r) then Ok false else status_error "create_if_absent" r).

Definition delete_doc_if_unchanged (col id update_time : string) : prog httpE (result string bool) :=
  r ←? call (hide_url "cas delete") DELETE (doc_url f col id) [("currentDocument.updateTime", update_time)] None;
  mret (if is_success (rs_status r) then Ok true
        else if precondition_lost (rs_status r) || bool_decide (rs_status r = 404) then Ok false
        else status_error "cas delete" r).

(** A structured query. *)
Definition run_query (body : Value) : prog httpE (result string (list (string * Value))) :=
  r ←? call (show_url "query") POST (query_url f) [] (Some (Object [("structuredQuery", body)]));
  if negb (is_success (rs_status r)) then mret (status_error "query" r)
  else arr ←? mret (map_err (show_url "query json") (body_json (rs_body r)));
       mret (Ok (parse_run_query_response arr)).
Definition from_collection (col : string) : string * Value :=
  ("from", Array [Object [("collectionId", Str col)]]).
Definition field_path (name : string) : Value := Object [("fieldPath", Str name)].
Definition query_eq (col field value : string) : prog httpE (result string (list (string * Value))) :=
  run_query (Object [from_collection col;
    ("where", Object [("fieldFilter",
       Object [("field", field_path field); ("op", Str "EQUAL"); ("value", fs_s value)])])]).
Definition descending (name : string) : Value :=
  Object [("field", field_path name); ("direction", Str "DESCENDING")].
Definition list_recent_ordered (col order_field : string) (limit : Z) :
    prog httpE (result string (list (string * Value))) :=
  run_query (Object [from_collection col;
    ("orderBy", Array [descending order_field; descending "__name__"]);
    ("limit", Number (NInt limit))]).

(** One document of a page; one without a name is skipped. *)
Definition listed_doc (doc : Value) : option (string * Value * string) :=
  name ← get_str doc "name";
  Some (last_segment name, default (Object []) (get doc "fields"), default "" (get_str doc "updateTime")).
(** The loop over the pages; it has no bound of its own. *)
Fixpoint list_pages (fuel : nat) (col : string) (out : list (string * Value * string)) (page_token : option string) :
    prog httpE (result string (list (string * Value * string))) :=
  match fuel with
  | O => mret (Err "list: out of fuel")
  | S fuel' =>
      r ←? call (hide_url "list") GET (list_url f col)
             (("pageSize", u64_to_string (Z.of_nat PAGE_SIZE)) ::
              match page_token with Some pt => [("pageToken", pt)] | None => [] end) None;
      if negb (is_success (rs_status r)) then mret (status_error "list" r)
      else
        j ←? mret (map_err (hide_url "list json") (body_json (rs_body r)));
        let docs := default [] (get j "documents" ≫= as_array) in
        let out' := out ++ omap listed_doc docs in
        match get_str j "nextPageToken" with
        | Some t => if str_is_empty t then mret (Ok out') else list_pages fuel' col out' (Some t)
        | None => mret (Ok out')
        end
  end.
Definition list_collection (fuel : nat) (col : string) : prog httpE (result string (list (string * Value * string))) :=
  list_pages fuel col [] None.

Definition secret_url (name : string) : string :=
  "https://secretmanager.googleapis.com/v1/projects/" +:+ fc_project f +:+ "/secrets/" +:+ name +:+ "/versions/latest:access".
Definition access_secret (name : string) : prog httpE (result string (option string)) :=
  r ←? call (show_url "secret") GET (secret_url name) [] None;
  if bool_decide (rs_status r = 404) || bool_decide (rs_status r = 403) then mret (Ok None)
  else if negb (is_success (rs_status r)) then mret (status_error "secret" r)
  else
    j ←? mret (map_err (show_url "secret json") (body_json (rs_body r)));
    data ←? mret (ok_or "secret: no payload.data" (get j "payload" ≫= fun p => get_str p "data"));
    bytes ←? mret (map_err (fun e => "secret b64: " +:+ e) (standard_decode data));
    mret (Ok (Some (from_utf8_lossy bytes))).

Definition delete_doc (col id : string) : prog httpE (result string unit) :=
  r ←? call (hide_url "delete") DELETE (doc_url f col id) [] None;
  mret (if is_success (rs_status r) || bool_decide (rs_status r = 404) then Ok tt else status_error "delete" r).

Definition merge_doc (col id : string) (fields : Value) : prog httpE (result string unit) :=
  let keys := default [] (option_map (map fst) (as_object fields)) in
  r ←? call (hide_url "merge") PATCH (doc_url f col id)
         (map (fun k => ("updateMask.fieldPaths", k)) keys) (Some (Object [("fields", fields)]));
  mret (if is_success (rs_status r) then Ok tt else status_body_error "merge" r).

(** [send] of [src/src/fcm.rs]. *)
Definition fcm_url : string :=
  base_url_or f "fcm.googleapis.com" +:+ "/v1/projects/" +:+ fc_project f +:+ "/messages:send".
Definition fcm_send (message : Value) : prog httpE (result string unit) :=
  r ←? call (show_url "fcm") POST fcm_url [] (Some (Object [("message", message)]));
  mret (if is_success (rs_status r) then Ok tt else status_body_error "fcm" r).

(** The operations of [fsE] through this client; [fuel] bounds the pages of a listing. *)
Definition fs_client (fuel : nat) X (o : fsE X) : prog httpE X :=
  match o in fsE X return prog httpE X with
  | SetDoc col id fields => set_doc col id fields
  | UpdateField col id field v => update_field col id field v
  | GetDoc col id => get_doc col id
  | GetDocWithUpdateTime col id => get_doc_with_update_time col id
  | SetDocIfUnchanged col id fields ut => set_doc_if_unchanged col id fields ut
  | CreateIfAbsent col id fields => create_if_absent col id fields
  | DeleteDocIfUnchanged col id ut => delete_doc_if_unchanged col id ut
  | QueryEq col field value => query_eq col field value
  | ListRecentOrdered col order_field limit => list_recent_ordered col order_field limit
  | ListCollection col => list_collection fuel col
  | DeleteDoc col id => delete_doc col id
  | MergeDoc col id fields => merge_doc col id fields
  | AccessSecret name => access_secret name
  | FcmSend message => fcm_send message
  end.
End client.

(** A lone continuation byte, and a character cut short. *)
Example lossy_examples :
  from_utf8_lossy (String "a" (String (byte 128) "b")) = String "a" (REPLACEMENT +:+ "b") /\
  from_utf8_lossy (String (byte 226) (String (byte 130) "z")) = REPLACEMENT +:+ "z" /\
  from_utf8_lossy (String (byte 226) (String (byte 130) (String (byte 172) ""))) =
    String (byte 226) (String (byte 130) (String (byte 172) "")).
Proof. repeat split; reflexivity. Qed.
