(* ===== verification/Keys.v ===== *)
(** * Signing keys, key sets and start-up

    [src/src/jws.rs] (local signers), [src/src/kms.rs] (signing by the key service),
    [src/src/jwks_resolver.rs] (the keys of clients) and the assembly of the server in
    [main] of [src/src/main.rs].  Private keys and PEM texts belong to the crates p256
    and rsa: operations of one interface. *)

From S2P Require Import Prelude Prog Json Model Decimal Firestore Externals Es256 Sys Dcr DcrStore Cli Provider Http FsClient.

#[local] Open Scope Z_scope.

Class SigningKeys `{Externals} := {
  (** p256: a key from its scalar, its public coordinates, its signature in 64 bytes *)
  P256SigningKey : Type;
  p256_from_scalar : string -> result string P256SigningKey;
  p256_public : P256SigningKey -> string * string;
  p256_sign : P256SigningKey -> string -> string;
  (** rsa: a key from PKCS#8, its modulus and exponent, PKCS#1 v1.5 over a SHA-256 *)
  RsaPrivateKey : Type;
  rsa_from_pkcs8_pem : string -> result string RsaPrivateKey;
  rsa_public : RsaPrivateKey -> string * string;
  rsa_sign : RsaPrivateKey -> string -> string;
  (** public keys in PEM, and a DER signature in 64 bytes *)
  p256_public_from_pem : string -> result string (string * string);
  rsa_public_from_pem : string -> result string (string * string);
  signature_to_bytes : Signature -> string
}.

Section signers.
Context `{SigningKeys}.

Definition jws_header (alg kid : string) : Value := Object [("alg", Str alg); ("typ", Str "JWT"); ("kid", Str kid)].
Definition signing_input (alg kid : string) (claims : Value) : string :=
  b64url_encode (json_to_string (jws_header alg kid)) +:+ "." +:+ b64url_encode (json_to_string claims).
Definition ec_jwk (x y kid : string) : Value :=
  Object [("kty", Str "EC"); ("crv", Str "P-256"); ("x", Str x); ("y", Str y); ("alg", Str "ES256"); ("use", Str "sig");
          ("kid", Str kid)].
Definition rsa_jwk (n e kid : string) : Value :=
  Object [("kty", Str "RSA"); ("n", Str n); ("e", Str e); ("alg", Str "RS256"); ("use", Str "sig"); ("kid", Str kid)].
Definition rsa_canonical (n e : string) : string :=
  "{" +:+ quoted "e" +:+ ":" +:+ quoted e +:+ "," +:+ quoted "kty" +:+ ":" +:+ quoted "RSA" +:+ "," +:+
  quoted "n" +:+ ":" +:+ quoted n +:+ "}".
Definition rsa_thumbprint (n e : string) : string := b64url_encode (sha256_digest (rsa_canonical n e)).

(** ** Local signers *)

Record Es256Signer := mkEs256Signer { es_key : P256SigningKey; es_kid : string; es_x : string; es_y : string }.
Definition es256_from_key (key : P256SigningKey) : Es256Signer :=
  let x := b64url_encode (p256_public key).1 in
  let y := b64url_encode (p256_public key).2 in
  mkEs256Signer key (jwk_thumbprint_p256 x y) x y.
Definition from_scalar_b64 (s : string) : result string Es256Signer :=
  bytes ← map_err (fun e => "scalar b64: " +:+ e) (url_safe_no_pad_decode (str_trim s));
  key ← map_err (fun e => "scalar key: " +:+ e) (p256_from_scalar bytes);
  Ok (es256_from_key key).
Definition es256_sign (s : Es256Signer) (claims : Value) : string :=
  let input := signing_input "ES256" (es_kid s) claims in
  input +:+ "." +:+ b64url_encode (p256_sign (es_key s) input).
Definition es256_public_jwk (s : Es256Signer) : Value := ec_jwk (es_x s) (es_y s) (es_kid s).

Record Rs256Signer := mkRs256Signer { rs_key : RsaPrivateKey; rs_kid : string; rs_n : string; rs_e : string }.
Definition rs256_from_key (key : RsaPrivateKey) : Rs256Signer :=
  let n := b64url_encode (rsa_public key).1 in
  let e := b64url_encode (rsa_public key).2 in
  mkRs256Signer key (rsa_thumbprint n e) n e.
Definition from_pkcs8_pem (pem : string) : result string Rs256Signer :=
  key ← map_err (fun e => "rsa pkcs8 pem: " +:+ e) (rsa_from_pkcs8_pem (str_trim pem));
  Ok (rs256_from_key key).
Definition rs256_sign (s : Rs256Signer) (claims : Value) : string :=
  let input := signing_input "RS256" (rs_kid s) claims in
  input +:+ "." +:+ b64url_encode (rsa_sign (rs_key s) (sha256_digest input)).
Definition rs256_public_jwk (s : Rs256Signer) : Value := rsa_jwk (rs_n s) (rs_e s) (rs_kid s).

(** The trait [JwsSigner], as the provider holds it. *)
Definition es256_signer (s : Es256Signer) : JwsSigner := mkJwsSigner "ES256" (es256_sign s) (es256_public_jwk s).
Definition rs256_signer (s : Rs256Signer) : JwsSigner := mkJwsSigner "RS256" (rs256_sign s) (rs256_public_jwk s).

(** ** The key service *)

Inductive KmsKind := KmsEs256 | KmsRs256.
Record KmsSigner := mkKmsSigner { km_kind : KmsKind; km_version : string; km_kid : string; km_jwk : Value }.
Definition kms_alg (s : KmsSigner) : string := match km_kind s with KmsEs256 => "ES256" | KmsRs256 => "RS256" end.

(** An answer that is not a success is an error with its status and its text. *)
Definition expect_success (label : string) (r : HttpResponse) : result string unit :=
  if is_success (rs_status r) then Ok tt else status_body_error label r.

Definition kms_public (kind : KmsKind) (pem : string) : result string (Value * string) :=
  match kind with
  | KmsEs256 =>
      xy ← map_err (fun e => "es256 spki: " +:+ e) (p256_public_from_pem pem);
      let x := b64url_encode xy.1 in
      let y := b64url_encode xy.2 in
      let kid := jwk_thumbprint_p256 x y in
      Ok (ec_jwk x y kid, kid)
  | KmsRs256 =>
      ne ← map_err (fun e => "rs256 spki: " +:+ e) (rsa_public_from_pem pem);
      let n := b64url_encode ne.1 in
      let e := b64url_encode ne.2 in
      let kid := rsa_thumbprint n e in
      Ok (rsa_jwk n e kid, kid)
  end.

Definition KMS_URL : string := "https://cloudkms.googleapis.com/v1/".
Definition kms_new (f : FirestoreClient) (kind : KmsKind) (key_path : string) : prog httpE (result string KmsSigner) :=
  let version := trim_end_matches "/"%char key_path +:+ "/cryptoKeyVersions/1" in
  tok ←? firestore_token f;
  r ← trigger (Send (mkHttpRequest GET (KMS_URL +:+ version +:+ "/publicKey") [] [pair_bearer tok] None));
  resp ←? mret (map_err (fun e => "kms publicKey: " +:+ he_display e) r);
  _ ←? mret (expect_success "kms publicKey" resp);
  j ←? mret (map_err (fun e => "kms publicKey json: " +:+ he_display e) (body_json (rs_body resp)));
  pem ←? mret (ok_or "kms publicKey: no pem" (get_str j "pem"));
  jk ←? mret (kms_public kind pem);
  mret (Ok (mkKmsSigner kind version jk.2 jk.1)).

(** [STANDARD.encode] of the crate base64. *)
Context (standard_encode : string -> string).

Definition kms_sign_digest (f : FirestoreClient) (s : KmsSigner) (digest : string) : prog httpE (result string string) :=
  tok ←? firestore_token f;
  r ← trigger (Send (mkHttpRequest POST (KMS_URL +:+ km_version s +:+ ":asymmetricSign") [] [pair_bearer tok]
                 (Some (Object [("digest", Object [("sha256", Str (standard_encode digest))])]))));
  resp ←? mret (map_err (fun e => "kms sign: " +:+ he_display e) r);
  _ ←? mret (expect_success "kms sign" resp);
  j ←? mret (map_err (fun e => "kms sign json: " +:+ he_display e) (body_json (rs_body resp)));
  sig_b64 ←? mret (ok_or "kms sign: no signature" (get_str j "signature"));
  sig ←? mret (map_err (fun e => "kms sig b64: " +:+ e) (standard_decode sig_b64));
  raw ←? mret (match km_kind s with
               | KmsEs256 => signature_to_bytes <$> map_err (fun e => "es256 der: " +:+ e) (signature_from_der sig)
               | KmsRs256 => Ok sig
               end);
  mret (Ok (b64url_encode raw)).

(** When the service fails, the signature is left empty. *)
Definition kms_sign (f : FirestoreClient) (s : KmsSigner) (claims : Value) : prog httpE string :=
  let input := signing_input (kms_alg s) (km_kid s) claims in
  r ← kms_sign_digest f s (sha256_digest input);
  mret (match r with Ok sig => input +:+ "." +:+ sig | Err _ => input +:+ "." end).

(** ** Start-up *)

(** The keys a server signs with: drawn at start, loaded, or held by the key service. *)
Inductive ServerSigner :=
| Ephemeral
| LoadedEs256 (s : Es256Signer)
| LoadedRs256 (s : Rs256Signer)
| HeldByKms (s : KmsSigner).
(** The assembled server: its keys, and its provider for the interfaces of a drawn key
    and of those keys.  With a database the stores of the provider are the ones on it. *)
Record Server := mkServer {
  sv_provider : JwsSigner -> (ServerSigner -> JwsSigner) -> Provider;
  sv_signer : ServerSigner;
  sv_extra_signers : list ServerSigner;
  sv_database : option FirestoreClient;
  sv_resend_key : option string
}.

Definition fapi_client_from_env (var : Env) (client_id prefix : string) : option Client :=
  x ← var (prefix +:+ "_X");
  y ← var (prefix +:+ "_Y");
  kid ← var (prefix +:+ "_KID");
  let callback := default "https://www.certification.openid.net/test/a/rustop-fapi2/callback" (var "CONFORMANCE_FAPI_CALLBACK") in
  Some (mkClient client_id [callback] "private_key_jwt" None ["authorization_code"; "refresh_token"] [] true
          [mkJwkPub kid x y] None true true None).

(** The key of one algorithm: the key service first, then the secret manager. *)
Definition load_signer (f : FirestoreClient) (var : Env) (kms_var : string) (kind : KmsKind) (secret : string)
    (parse : string -> result string ServerSigner) : prog httpE (option ServerSigner) :=
  kms ← (match var kms_var with
         | Some key =>
             r ← kms_new f kind key;
             mret (HeldByKms <$> result_ok r)
         | None => mret None
         end);
  match kms with
  | Some s => mret (Some s)
  | None =>
      r ← access_secret f secret;
      mret (match r with Ok (Some text) => result_ok (parse text) | _ => None end)
  end.

(** Both keys, or the exit code. *)
Definition load_signers (f : FirestoreClient) (var : Env) : prog httpE (result Z (ServerSigner * ServerSigner)) :=
  es ← load_signer f var "KMS_ES256_KEY" KmsEs256 "oidc-signing-key-es256" (fun s => LoadedEs256 <$> from_scalar_b64 s);
  match es with
  | None => mret (Err 1)
  | Some es =>
      rs ← load_signer f var "KMS_RS256_KEY" KmsRs256 "oidc-signing-key-rs256" (fun s => LoadedRs256 <$> from_pkcs8_pem s);
      mret (match rs with Some rs => Ok (es, rs) | None => Err 1 end)
  end.

Definition is_set (var : Env) (name : string) : bool := match var name with Some _ => true | None => false end.
Definition invite_client_ids (var : Env) : list string :=
  filter (fun id => id <> "") (map str_trim (str_split ","%char (default "" (var "INVITE_CLIENT_IDS")))).
(** The provider before a database is attached. *)
Definition base_provider (var : Env) (drawn : JwsSigner) : Provider :=
  let origin := default "http://localhost:8080" (var "ORIGIN") in
  let base_path := default "" (var "BASE_PATH") in
  let p := with_invite_clients (invite_client_ids var) (with_base_path base_path (Provider_new (origin +:+ base_path) drawn)) in
  foldl (fun p (ip : string * string) =>
           match fapi_client_from_env var ip.1 ip.2 with Some c => with_client c p | None => p end)
    p [("fapi-1", "FAPI1"); ("fapi-2", "FAPI2")].
Definition on_database (p : Provider) : Provider :=
  with_firestore (with_nonce_store AssertionJti (with_nonce_store DpopJti p)).

(** [main] up to [web::router]; [new] is the client of the database. *)
Definition start (var : Env) (new : string -> FirestoreClient) : prog httpE (result Z Server) :=
  if is_set var "K_SERVICE" || is_set var "FIRESTORE_EMULATOR_HOST" then
    let f := new (resolve_project var) in
    if is_set var "K_SERVICE" then
      keys ←? load_signers f var;
      mret (Ok (mkServer (fun drawn face => on_database (add_signer (face keys.2) (with_signer (face keys.1) (base_provider var drawn))))
                  keys.1 [keys.2] (Some f) (var "RESEND_API_KEY")))
    else
      mret (Ok (mkServer (fun drawn face => on_database (base_provider var drawn)) Ephemeral [] (Some f) (var "RESEND_API_KEY")))
  else mret (Ok (mkServer (fun drawn face => base_provider var drawn) Ephemeral [] None None)).
End signers.

(** ** The keys of clients *)

Definition JWKS_TTL_SECS : Z := 300.
Record Cached := mkCached { ca_keys : list JwkPub; ca_expires_at : Z }.

(** The clock, the two critical sections of the cache, and the request. *)
Inductive resolverE : Type -> Type :=
| ResolverNow : resolverE Z
| CacheLookup (uri : string) : resolverE (option Cached)
| CacheInsert (uri : string) (c : Cached) : resolverE unit
| HttpGet (uri : string) : resolverE (result HttpError HttpResponse).

Section resolver.
Context `{Externals}.

Definition kid_is (kid : string) (k : JwkPub) : bool := bool_decide (jwk_kid k = kid).
(** The keys an answer brings, if any. *)
Definition keys_of_answer (r : result HttpError HttpResponse) : option (list JwkPub) :=
  resp ← result_ok r;
  if negb (is_success (rs_status resp)) then None
  else
    v ← result_ok (body_json (rs_body resp));
    match jwks_from_jwk_set (Some v) with [] => None | keys => Some keys end.
Definition jwks_fetch (jwks_uri : string) : prog resolverE (option (list JwkPub)) :=
  if negb (starts_with "https://" jwks_uri) then mret None
  else r ← trigger (HttpGet jwks_uri); mret (keys_of_answer r).
Definition resolve (jwks_uri kid : string) : prog resolverE (option JwkPub) :=
  now ← trigger ResolverNow;
  cached ← trigger (CacheLookup jwks_uri);
  let live := c ← cached; if now <? ca_expires_at c then Some c else None in
  match live with
  | Some c => mret (list_find_first (kid_is kid) (ca_keys c))
  | None =>
      keys ← jwks_fetch jwks_uri;
      match keys with
      | None => mret None
      | Some keys =>
          let found := list_find_first (kid_is kid) keys in
          _ ← trigger (CacheInsert jwks_uri (mkCached keys (now + JWKS_TTL_SECS)));
          mret found
      end
  end.
End resolver.

(** * Properties *)

Section start_facts.
Context `{SigningKeys}.

(** A key that outlives the process, of this algorithm. *)
Definition persistent (alg : string) (s : ServerSigner) : Prop :=
  match s with
  | Ephemeral => False
  | LoadedEs256 _ => alg = "ES256"
  | LoadedRs256 _ => alg = "RS256"
  | HeldByKms k => kms_alg k = alg
  end.
Lemma returns_try {E Er A B} (P : result Er B -> Prop) (p : prog E (result Er A)) (f : A -> prog E (result Er B)) :
  (forall e, P (Err e)) -> (forall a, returns P (f a)) -> returns P (try_bind p f).
Proof. intros He Hf. eapply returns_bind; [apply returns_any|]. intros [a|e] _; [apply Hf | apply He]. Qed.
Lemma kms_new_kind f kind key : returns (fun r => match r with Ok s => km_kind s = kind | Err _ => True end) (kms_new f kind key).
Proof.
  unfold kms_new. apply returns_try; [done|]. intros tok x. do 5 (apply returns_try; [done|]; intros ?). reflexivity.
Qed.
Lemma load_signer_persistent f var kms_var kind secret parse alg :
  (forall key pem v, kms_alg (mkKmsSigner kind key pem v) = alg) -> (forall text s, parse text = Ok s -> persistent alg s) ->
  returns (fun o => forall s, o = Some s -> persistent alg s) (load_signer f var kms_var kind secret parse).
Proof.
  intros Hk Hp. unfold load_signer. eapply (returns_bind (fun o => forall s, o = Some s -> persistent alg s)).
  { destruct (var kms_var) as [key|]; [|done]. eapply returns_bind; [apply kms_new_kind|].
    intros [[k v kid j]|e] Hr s; [|done]. intros [= <-]. cbn in Hr. subst k. apply Hk. }
  intros [s|] Hs.
  { intros s' [= <-]. by apply Hs. }
  eapply returns_bind; [apply returns_any|]. intros [[text|]|e] _ s Heq; try done.
  destruct (parse text) as [s'|e] eqn:Hparse; [|done]. injection Heq as <-. by eapply Hp.
Qed.
Lemma load_signers_persistent f var :
  returns (fun r => match r with Ok (es, rs) => persistent "ES256" es /\ persistent "RS256" rs | Err code => code = 1 end)
    (load_signers f var).
Proof.
  unfold load_signers. eapply returns_bind.
  { apply (load_signer_persistent _ _ _ _ _ _ "ES256"); [done|]. intros text s. by destruct (from_scalar_b64 text); intros [= <-]. }
  intros [es|] Hes; [|done]. eapply returns_bind.
  { apply (load_signer_persistent _ _ _ _ _ _ "RS256"); [done|]. intros text s. by destruct (from_pkcs8_pem text); intros [= <-]. }
  intros [rs|] Hrs; [|done]. split; [by apply Hes | by apply Hrs].
Qed.

(** What a server in production is. *)
Definition production_server (s : Server) : Prop :=
  persistent "ES256" (sv_signer s) /\ is_Some (sv_database s) /\
  forall drawn face,
    let p := sv_provider s drawn face in
    (exists rs, persistent "RS256" rs /\ all_signers p = [face (sv_signer s); face rs]) /\
    p_firestore p = true /\ forall t, p_nonce p t = FirestoreNonce.

Lemma base_extra_signers var drawn :
  p_extra_signers (base_provider var drawn) = [].
Proof.
  unfold base_provider. simpl. by destruct (fapi_client_from_env var "fapi-1" "FAPI1"), (fapi_client_from_env var "fapi-2" "FAPI2").
Qed.

(** C28: in production (K_SERVICE set), whatever the key service, the secret manager and the
    network answer, the process either exits with 1 or serves with an ES256 key and an
    RS256 key that outlive it, with no key drawn at start, on the database, and with every
    replay table there: the processes of one deployment share them. *)
Theorem production_keys_persistent var new tr r :
  is_set var "K_SERVICE" = true -> thread_path (start var new) tr (Ret r) ->
  match r with Ok s => production_server s | Err code => code = 1 end.
Proof.
  intros Hk. apply (returns_path (fun r => match r with Ok s => production_server s | Err code => code = 1 end)).
  unfold start. rewrite Hk. cbn [orb]. eapply returns_bind; [apply load_signers_persistent|].
  intros [[es rs]|code] Hs; [|done]. destruct Hs as [Hes Hrs]. split; [done|]. split; [by eexists|].
  intros drawn face. cbn [sv_provider sv_signer fst snd]. split.
  - exists rs. split; [done|]. unfold all_signers, on_database. simpl. by rewrite base_extra_signers.
  - split; [done|]. by intros [].
Qed.
End start_facts.

(** ** A deployment

    The key service refuses, the secret manager has both keys. *)
Section witness.
#[local] Instance deployment_externals : Externals := sample_externals [].
#[local] Instance deployment_keys : SigningKeys := {|
  P256SigningKey := string;
  p256_from_scalar s := Ok s;
  p256_public k := (k +:+ "x", k +:+ "y");
  p256_sign k m := k;
  RsaPrivateKey := string;
  rsa_from_pkcs8_pem s := Ok s;
  rsa_public k := (k, "AQAB");
  rsa_sign k m := k;
  p256_public_from_pem s := Err "no key";
  rsa_public_from_pem s := Err "no key";
  signature_to_bytes s := s
|}.
Definition deployment : Env := fun name =>
  if bool_decide (name = "K_SERVICE") then Some "rust-op"
  else if bool_decide (name = "KMS_ES256_KEY") then Some "keys/es256"
  else None.
Definition deployment_client (project : string) : FirestoreClient := mkFirestoreClient project "(default)" None.
Definition deployment_answer (rq : HttpRequest) : HttpResponse :=
  if bool_decide (rq_url rq = METADATA_TOKEN_URL) then mkHttpResponse 200 (WireJson (Object [("access_token", Str "t")]))
  else if starts_with KMS_URL (rq_url rq) then mkHttpResponse 403 (WireText "denied")
  else mkHttpResponse 200 (WireJson (Object [("payload", Object [("data", Str "key")])])).
Definition deployment_handler : handler httpE unit :=
  fun X e w => (match e in httpE X return X with
                | Send rq => Ok (deployment_answer rq)
                | InstantNow => 0
                | CachedToken => None
                | CacheToken _ _ => ()
                end, w).
Definition starting := start deployment deployment_client.
Lemma production_keys_persistent_witness :
  exists s, (run deployment_handler starting ()).1 = Ok s /\ production_server s.
Proof.
  assert (Hok : is_ok (run deployment_handler starting ()).1 = true) by (vm_compute; reflexivity).
  pose proof (run_trace_path deployment_handler 0 starting ()) as Hp.
  destruct (run deployment_handler starting ()).1 as [s|code]; [|done]. exists s. split; [done|].
  exact (production_keys_persistent deployment deployment_client _ (Ok s) (eq_refl true) Hp).
Defined.
End witness.

(** ** Freshness of the key sets of clients *)

Section freshness.
Context `{Externals}.
(** The requests that the process has sent, with their second, and what the servers answer
    to the next one. *)
Abbreviation request_log := (list (Z * string * result HttpError HttpResponse)).
Context (answer : request_log -> Z -> string -> result HttpError HttpResponse).

Record resolver_world := mkResolverWorld { rw_clk : Z; rw_log : request_log; rw_cache : gmap string Cached }.
Definition resolver_handler : handler resolverE resolver_world :=
  fun X e w =>
    match e in resolverE X return X * resolver_world with
    | ResolverNow => (rw_clk w, w)
    | CacheLookup uri => (rw_cache w !! uri, w)
    | CacheInsert uri c => ((), mkResolverWorld (rw_clk w) (rw_log w) (<[uri := c]> (rw_cache w)))
    | HttpGet uri =>
        let r := answer (rw_log w) (rw_clk w) uri in
        (r, mkResolverWorld (rw_clk w) ((rw_clk w, uri, r) :: rw_log w) (rw_cache w))
    end.
Definition resolver_env (w w' : resolver_world) : Prop :=
  rw_clk w <= rw_clk w' /\ rw_log w' = rw_log w /\ rw_cache w' = rw_cache w.
(** What the clock answered to call [i]. *)
Definition reading {X} (e : resolverE X) : X -> list Z :=
  match e in resolverE X return X -> list Z with ResolverNow => fun n => [n] | _ => fun _ => [] end.
Definition readings (i : nat) (tr : list (event resolverE)) : list Z :=
  tr ≫= fun ev => match ev with Ev j e x => if decide (j = i) then reading e x else [] | EvEnv => [] end.

(** The server of [uri] answered [keys] to a request over https that was sent at second [t]. *)
Definition fetched (w : resolver_world) (uri : string) (keys : list JwkPub) (t : Z) : Prop :=
  starts_with "https://" uri = true /\ t <= rw_clk w /\
  exists r, (t, uri, r) ∈ rw_log w /\ keys_of_answer r = Some keys.
(** What is cached was fetched, and expires at most the lifetime later. *)
Definition cache_ok (w : resolver_world) : Prop :=
  map_Forall (fun uri c => exists t, fetched w uri (ca_keys c) t /\ ca_expires_at c <= t + 300) (rw_cache w).
(** A key that was fetched less than the lifetime before [n], or later. *)
Definition fresh_key (w : resolver_world) (n : Z) (uri kid : string) (key : JwkPub) : Prop :=
  exists t keys, fetched w uri keys t /\ key ∈ keys /\ jwk_kid key = kid /\ n - t < 300.

Definition later (w w' : resolver_world) : Prop := rw_clk w <= rw_clk w' /\ rw_log w ⊆ rw_log w'.
Lemma fetched_later w w' uri keys t : later w w' -> fetched w uri keys t -> fetched w' uri keys t.
Proof. intros [Hc Hl] (Hu & Ht & r & Hr & Hk). split; [done|]. split; [lia|]. exists r. split; [by apply Hl | done]. Qed.
Lemma cache_later w w' : later w w' -> rw_cache w' = rw_cache w -> cache_ok w -> cache_ok w'.
Proof.
  intros Hl Hc Hok. unfold cache_ok. rewrite Hc. eapply map_Forall_impl; [exact Hok|]. intros u c (t & Hf & He). exists t. split; [by eapply fetched_later | done].
Qed.

(** The points of a call, with its readings of the clock so far. *)
Definition after_fetch (uri kid : string) (n : Z) (keys : option (list JwkPub)) : prog resolverE (option JwkPub) :=
  match keys with
  | None => mret None
  | Some keys => _ ← trigger (CacheInsert uri (mkCached keys (n + JWKS_TTL_SECS))); mret (list_find_first (kid_is kid) keys)
  end.
Inductive stage (w : resolver_world) (uri kid : string) : list Z -> prog resolverE (option JwkPub) -> Prop :=
| stage_begin : stage w uri kid [] (resolve uri kid)
| stage_lookup n k : n <= rw_clk w ->
    (forall c, k c = match c with
       | Some c => if n <? ca_expires_at c then mret (list_find_first (kid_is kid) (ca_keys c))
                   else jwks_fetch uri ≫= after_fetch uri kid n
       | None => jwks_fetch uri ≫= after_fetch uri kid n
       end) -> stage w uri kid [n] (Vis (CacheLookup uri) k)
| stage_fetch n k : n <= rw_clk w -> starts_with "https://" uri = true ->
    (forall r, k r = after_fetch uri kid n (keys_of_answer r)) -> stage w uri kid [n] (Vis (HttpGet uri) k)
| stage_insert n keys t k : n <= t -> fetched w uri keys t ->
    (forall u, k u = Ret (list_find_first (kid_is kid) keys)) ->
    stage w uri kid [n] (Vis (CacheInsert uri (mkCached keys (n + JWKS_TTL_SECS))) k)
| stage_end n r : (forall key, r = Some key -> fresh_key w n uri kid key) -> stage w uri kid [n] (Ret r).

Lemma found_fresh w n uri kid keys t :
  fetched w uri keys t -> n - t < 300 ->
  forall key, list_find_first (kid_is kid) keys = Some key -> fresh_key w n uri kid key.
Proof.
  intros Hs Ht key Hf. apply list_find_first_Some in Hf as [Hin Hk]. apply bool_decide_eq_true in Hk. by exists t, keys.
Qed.
Lemma stage_later w w' uri kid ns p : later w w' -> stage w uri kid ns p -> stage w' uri kid ns p.
Proof.
  intros Hl [| n k Hn Hk | n k Hn Hu Hk | n keys t k Hn Hs Hk | n r Hr]; pose proof (proj1 Hl).
  - apply stage_begin.
  - apply stage_lookup; [lia | done].
  - apply stage_fetch; [lia | done..].
  - apply (stage_insert _ _ _ n keys t); [done | by eapply fetched_later | done].
  - apply stage_end. intros key Hkey. destruct (Hr key Hkey) as (t & keys & Hf & ?). exists t, keys.
    split; [by eapply fetched_later | done].
Qed.
(** One operation of a call: it goes on to its next point and keeps the cache. *)
Lemma stage_step w uri kid ns p :
  cache_ok w -> stage w uri kid ns p ->
  match p with
  | Ret _ => True
  | Vis e k => forall x w', resolver_handler _ e w = (x, w') ->
      cache_ok w' /\ stage w' uri kid (ns ++ reading e x) (k x) /\ later w w'
  end.
Proof.
  intros Hc [| n k Hn Hk | n k Hn Hu Hk | n keys t k Hn Hs Hk | n r Hr]; simpl; [| | | |done]; intros x w' [= <- <-].
  - split; [done|]. split; [|by split]. apply stage_lookup; [lia|].
    intros [c|]; [|done]. cbn. by destruct (rw_clk w <? ca_expires_at c).
  - split; [done|]. split; [|by split]. rewrite Hk. destruct (rw_cache w !! uri) as [c|] eqn:Hl.
    + destruct (Z.ltb_spec n (ca_expires_at c)).
      * apply stage_end. destruct (Hc uri c Hl) as (t & Hs & He). eapply found_fresh; [done | lia].
      * unfold jwks_fetch. destruct (starts_with "https://" uri) eqn:Hu; [by apply stage_fetch | by apply stage_end].
    + unfold jwks_fetch. destruct (starts_with "https://" uri) eqn:Hu; [by apply stage_fetch | by apply stage_end].
  - set (w' := mkResolverWorld _ _ _). assert (Hl : later w w') by (split; [done | set_solver]).
    split; [by eapply cache_later|]. split; [|done]. rewrite Hk. destruct (keys_of_answer _) as [keys|] eqn:Ha; [|by apply stage_end].
    apply (stage_insert _ _ _ n keys (rw_clk w)); [done | | done]. split; [done|]. split; [done|]. eexists. split; [by left | done].
  - set (w' := mkResolverWorld _ _ _). assert (Hl : later w w') by (split; done). pose proof (fetched_later w w' uri keys t Hl Hs) as Hs'.
    split.
    { apply map_Forall_insert_2; [exists t; split; [done | cbn; unfold JWKS_TTL_SECS; lia]|]. by apply (cache_later w (mkResolverWorld (rw_clk w) (rw_log w) (rw_cache w))). }
    split; [|done]. rewrite Hk. apply stage_end. eapply found_fresh; [done | lia].
Qed.

(** Every call of a pool is at one of its points, whatever the others do. *)
Definition all_staged (calls : list (string * string)) (tr : list (event resolverE))
    (c : cfg resolverE resolver_world (option JwkPub)) : Prop :=
  cache_ok c.2 /\ List.length c.1 = List.length calls /\
  forall i u p, calls !! i = Some u -> c.1 !! i = Some p -> stage c.2 u.1 u.2 (readings i tr) p.
Lemma readings_snoc i tr ev : readings i (tr ++ [ev]) = readings i tr ++ readings i [ev].
Proof. unfold readings. by rewrite bind_app. Qed.
Lemma call_step calls tr c ev c' :
  step resolver_handler resolver_env c ev c' -> all_staged calls tr c -> all_staged calls (tr ++ [ev]) c'.
Proof.
  intros Hstep (Hc & Hlen & Hall). destruct Hstep as [j X e k ps s x s' Hj Hh | ps s s' (Hclk & Hlog & Hca)]; simpl in *.
  - destruct (lookup_lt_is_Some_2 calls j) as [u Hu]; [rewrite <- Hlen; by eapply lookup_lt_Some|].
    destruct (stage_step _ _ _ _ _ Hc (Hall j u _ Hu Hj) x s' Hh) as (Hc' & Hs & Hl).
    split; [done|]. split; [cbn [fst]; by rewrite length_insert|]. intros i v q Hv Hq. cbn [fst snd] in Hq. rewrite readings_snoc. unfold readings at 2. simpl.
    rewrite app_nil_r. destruct (decide (j = i)) as [<-|Hne].
    + rewrite list_lookup_insert_eq in Hq by (by eapply lookup_lt_Some). simplify_eq. done.
    + rewrite list_lookup_insert_ne in Hq by done. rewrite app_nil_r. eapply stage_later; [done | by eapply Hall].
  - assert (Hl : later s s') by (split; [done | by rewrite Hlog]). split; [by eapply cache_later|]. split; [done|].
    intros i v q Hv Hq. rewrite readings_snoc, app_nil_r. eapply stage_later; [done | by eapply Hall].
Qed.
Lemma calls_staged calls c tr c' :
  steps resolver_handler resolver_env c tr c' -> forall tr0, all_staged calls tr0 c -> all_staged calls (tr0 ++ tr) c'.
Proof.
  induction 1 as [c | c ev c' tr c'' Hstep _ IH]; intros tr0 Ha; [by rewrite app_nil_r|].
  change (ev :: tr) with ([ev] ++ tr). rewrite app_assoc. apply IH. by eapply call_step.
Qed.

(** C35: whatever calls of a new resolver interleave, while time passes and whatever the
    servers answer: a call that returns a key has read the clock once, and the key was
    answered, for the identifier it asked for, by the server of the key set it asked for to
    a request of this process over https, sent less than 300 seconds before that reading,
    or after it.  What is cached was fetched too, and expires at most 300 seconds later: an
    answer without keys is never cached. *)
Theorem client_keys_fresh (calls : list (string * string)) w tr ps w' i uri kid key :
  rw_cache w = ∅ ->
  steps resolver_handler resolver_env (map (fun c => resolve c.1 c.2) calls, w) tr (ps, w') ->
  calls !! i = Some (uri, kid) -> ps !! i = Some (Ret (Some key)) ->
  (exists n, readings i tr = [n] /\ fresh_key w' n uri kid key) /\ cache_ok w'.
Proof.
  intros Hc Hst Hi Hps. destruct (calls_staged calls _ _ _ Hst []) as (Hok & _ & Hall).
  { split; [unfold cache_ok; simpl; rewrite Hc; apply map_Forall_empty|]. split; [simpl; apply length_map|].
    intros j u p Hj Hp. simpl in Hp. rewrite list_lookup_fmap, Hj in Hp. injection Hp as <-. apply stage_begin. }
  specialize (Hall i _ _ Hi Hps). split; [|done]. simpl in Hall.
  remember (readings i tr) as ns eqn:Hns. inversion Hall as [Hb Heq | | | | n r Hr]; subst. exists n. split; [done | by apply Hr].
Qed.
End freshness.

(** Two calls, the second from the cache. *)
Section fresh_witness.
#[local] Existing Instance deployment_externals.
Definition client_answer (sent : list (Z * string * result HttpError HttpResponse)) (t : Z) (uri : string) : result HttpError HttpResponse :=
  Ok (mkHttpResponse 200 (WireJson (Object [("keys", Array [ec_jwk "x" "y" "k1"])]))).
Definition client_call : string * string := ("https://rp.example/jwks", "k1").
Definition resolution := resolve client_call.1 client_call.2.
Definition cold : resolver_world := mkResolverWorld 1000 [] ∅.
Definition client_handler := resolver_handler client_answer.
Definition two_calls : list (event resolverE) :=
  run_trace client_handler 0 resolution cold ++ run_trace client_handler 1 resolution (run client_handler resolution cold).2.
Definition warm : resolver_world := (run client_handler resolution (run client_handler resolution cold).2).2.
(** One request is sent, and both calls return its key. *)
Lemma client_keys_fresh_witness :
  List.length (rw_log warm) = 1%nat /\
  exists n, readings 1 two_calls = [n] /\ fresh_key warm n client_call.1 client_call.2 (mkJwkPub "k1" "x" "y").
Proof.
  split; [vm_compute; reflexivity|].
  pose proof (steps_twice client_handler resolver_env resolution resolution cold) as Hst.
  assert (Hr : (run client_handler resolution (run client_handler resolution cold).2).1 = Some (mkJwkPub "k1" "x" "y"))
    by (vm_compute; reflexivity).
  rewrite Hr in Hst.
  exact (proj1 (client_keys_fresh client_answer [client_call; client_call] cold two_calls _ warm 1%nat _ _ _ eq_refl Hst eq_refl eq_refl)).
Defined.
End fresh_witness.
