(* ===== verification/Fcm.v ===== *)
(** * Push notifications and mails

    [src/src/fcm.rs] and [src/src/mailer.rs]: the device tokens, the message of a
    back-channel request, and the texts of the mails.  The deliveries are operations of
    the Firestore client ([FcmSend]) and of the mail service. *)

From S2P Require Import Prelude Prog Json Calendar Firestore Externals Es256 Sys Provider Http I18n FsClient.

#[local] Open Scope Z_scope.

(** ** fcm.rs *)

Definition FCM_COL : string := "fcmTokens".

Definition save_token (account_id token platform : string) : prog sysE (result string unit) :=
  t ← now_secs;
  fs (SetDoc FCM_COL account_id
        (Object [("token", fs_s token); ("platform", fs_s platform); ("updatedAt", fs_ts (rfc3339 t))])).
Definition get_token (account_id : string) : prog sysE (result string (option string)) :=
  d ←? fs (GetDoc FCM_COL account_id);
  mret (Ok (d ≫= fun f => field_str f "token")).

Definition fcm_message (token client_id scope binding auth_req_id : string) (authorization_details : option string) : Value :=
  let data := [("type", Str "ciba_request"); ("auth_req_id", Str auth_req_id); ("client_name", Str client_id);
               ("scope", Str scope); ("binding_message", Str binding)]
              ++ match authorization_details with Some ad => [("authorization_details", Str ad)] | None => [] end in
  Object [("token", Str token);
          ("notification", Object
             [("title", Str (bilingual "[[Sign-in approval]]"));
              ("body", Str (str_replace "{client}" client_id (bilingual "[[Sign-in request from {client}]]")))]);
          ("data", Object data);
          ("apns", Object [("payload", Object [("aps", Object [("sound", Str "default"); ("mutable-content", Number (NInt 1))])])])].
(** Nothing is sent to an account without a device. *)
Definition send_ciba_request (account_id client_id scope binding auth_req_id : string)
    (authorization_details : option string) : prog sysE (result string unit) :=
  token ←? get_token account_id;
  match token with
  | None => mret (Ok tt)
  | Some token => fs (FcmSend (fcm_message token client_id scope binding auth_req_id authorization_details))
  end.

(** ** mailer.rs *)

(** The templates are written with a back quote for the double quote. *)
Definition template (s : string) : string := str_replace "`" quote s.

Definition mail_escape (s : string) : string :=
  str_replace ">" "&gt;" (str_replace "<" "&lt;" (str_replace "&" "&amp;" s)).

Definition compose (subject html : string) (lang : option Lang) : string * string :=
  match lang with
  | Some l => (localize subject l, localize html l)
  | None =>
      (bilingual subject,
       localize html Ja
       +:+ template "<hr style=`border:0;border-top:1px solid #ddd;margin:0 auto;max-width:560px`>"
       +:+ localize html En)
  end.

Definition NL : string := String (ascii_of_nat 10) "".
Definition mail_div : string :=
  template "<div style=`font-family:-apple-system,Helvetica,Arial,sans-serif;color:#222;max-width:560px;margin:auto;padding:24px`>".
Definition verification_mail (verify_url : string) (lang : option Lang) : string * string :=
  compose "[[[rust-op] Verify your email]]"
    (mail_div +:+ NL
     +:+ template "<h2 style=`margin:0 0 16px`>[[Verify your email address]]</h2>" +:+ NL
     +:+ "<p>[[To finish signing up, create your passkey with the button below. The link expires in 15 minutes.]]</p>" +:+ NL
     +:+ template "<p style=`margin:24px 0`><a href=`" +:+ mail_escape verify_url
     +:+ template "` style=`display:inline-block;background:#3367d6;color:#fff;padding:14px 24px;border-radius:8px;text-decoration:none;font-weight:600`>[[Sign up with a passkey]]</a></p>" +:+ NL
     +:+ template "<p style=`font-size:13px;color:#666`>[[If you did not request this, ignore this email.]]</p>" +:+ NL
     +:+ "</div>") lang.
Definition already_registered_mail (to : string) (lang : option Lang) : string * string :=
  compose "[[[rust-op] An account already exists]]"
    (mail_div +:+ NL
     +:+ template "<h2 style=`margin:0 0 16px`>[[Already registered]]</h2>" +:+ NL
     +:+ "<p>[[This email address]] (<strong>" +:+ mail_escape to
     +:+ "</strong>) [[is already registered. Please sign in instead of signing up.]]</p>" +:+ NL
     +:+ template "<p style=`font-size:13px;color:#666`>[[If you did not request this, ignore this email.]]</p>" +:+ NL
     +:+ "</div>") lang.

(** [Mailer::send_verification] and [Mailer::send_already_registered]. *)
Definition send_verification (to verify_url : string) (lang : option Lang) : prog provE (result string unit) :=
  let '(subject, html) := verification_mail verify_url lang in trigger (SendMail to subject html).
Definition send_already_registered (to : string) (lang : option Lang) : prog provE (result string unit) :=
  let '(subject, html) := already_registered_mail to lang in trigger (SendMail to subject html).

(** The two implementations of the mail service: the log, and Resend over HTTP. *)
Inductive Mailer : Type := LogMailer | ResendMailer (api_key from : string).
Definition ResendMailer_new (api_key : string) : Mailer := ResendMailer api_key "rust-op <noreply@sonrisa.co.jp>".
Definition mailer_send `{Externals} (m : Mailer) (to subject html : string) : prog httpE (result string unit) :=
  match m with
  | LogMailer => mret (Ok tt)
  | ResendMailer api_key from =>
      r ← trigger (Send (mkHttpRequest POST "https://api.resend.com/emails" [] [pair_bearer api_key]
            (Some (Object [("from", Str from); ("to", Str to); ("subject", Str subject); ("html", Str html)]))));
      mret match r with
           | Ok resp => if is_success (rs_status resp) then Ok tt else status_body_error "resend" resp
           | Err e => Err (show_url "resend" e)
           end
  end.

(** The link of the mail and the lifetime it names. *)
Example verification_mail_en :
  (verification_mail "https://op.example/v?t=1&x=2" (Some En)).1 = "[rust-op] Verify your email" /\
  str_contains_str "The link expires in 15 minutes." (verification_mail "https://op.example/v?t=1&x=2" (Some En)).2 = true /\
  str_contains_str (template "<a href=`https://op.example/v?t=1&amp;x=2` ") (verification_mail "https://op.example/v?t=1&x=2" (Some En)).2 = true.
Proof. vm_compute. repeat split. Qed.
