(* ===== verification/Templates.v ===== *)
(** * The texts of the pages

    The HTML and script texts of [src/src/web], as they stand in the source.  A back
    quote stands for the double quote ([Fcm.template] puts it back). *)

From S2P Require Import Prelude Prog Json Decimal Firestore Externals Es256 Http I18n Fcm.

(** The page of [login_form] ([src/src/web/login.rs]). *)
Definition LOGIN_PAGE : string := template "<!doctype html><html lang=`__LANG__`><head><meta charset=`utf-8`>
<meta name=`viewport` content=`width=device-width,initial-scale=1`><title>[[Log in]]</title>
<style>
:root{--indigo:#3f51b5;--indigo-d:#303f9f}
body{font-family:Roboto,-apple-system,'Helvetica Neue',sans-serif;max-width:360px;margin:0 auto;padding:56px 24px;color:#1a1a1a;text-align:center}
.fp{width:72px;height:72px;color:var(--indigo)}
h1{font-size:1.3rem;font-weight:500;margin:18px 0 28px}
input{display:block;width:100%;box-sizing:border-box;padding:14px;margin:0 0 16px;font-size:16px;border:1px solid #b0b0b0;border-radius:8px}
.filled{width:100%;padding:14px;font-size:16px;font-weight:500;background:var(--indigo);color:#fff;border:0;border-radius:24px;cursor:pointer}
.filled:active{background:var(--indigo-d)}
.outlined{width:100%;padding:12px;font-size:16px;font-weight:500;background:#fff;color:var(--indigo);border:1.5px solid var(--indigo);border-radius:24px;margin-top:12px;cursor:pointer}
#msg{color:#c5221f;font-size:14px;margin-top:14px;min-height:1em}
details{margin-top:36px;color:#9a9a9a;font-size:13px;text-align:left}
summary{cursor:pointer}
details input{font-size:14px;padding:8px;margin-top:8px}</style>
</head><body>
<svg class=`fp` viewBox=`0 0 24 24` fill=`none` stroke=`currentColor` stroke-width=`1.6` stroke-linecap=`round` stroke-linejoin=`round`>
<path d=`M5.5 10a6.5 6.5 0 0 1 13 0v4a8 8 0 0 1-1 3.8`/>
<path d=`M8 11a4 4 0 0 1 8 0v3a6 6 0 0 0 .8 3`/>
<path d=`M12 11v4a7 7 0 0 0 1.4 4.3`/>
<path d=`M12 19v.01`/></svg>
<h1>[[Sign in with a passkey]]</h1>
<input id=`email` placeholder=`[[Email address (optional)]]` autocomplete=`off`>
<button class=`filled` onclick=`pkLogin()`>[[Sign in]]</button>
<button class=`outlined` onclick=`location.href='__REGISTER__'`>[[Sign up with email]]</button>
<button class=`outlined` onclick=`location.href='__CANCEL__'`>[[Cancel]]</button>
<p id=`msg`></p>
<script>
__WEBAUTHN_JS__
const OPT=`__OPT__`,VER=`__VER__`;
const msgEl=document.getElementById('msg');
let cachedOpts=null;
async function prefetch(){
  try{const r=await fetch(OPT,{method:'POST',headers:{'content-type':'application/json'},body:'{}'});cachedOpts=r.ok?await r.json():null;}
  catch{cachedOpts=null;}
}
prefetch();
async function pkLogin(){
 msgEl.textContent='';
 if(!window.PublicKeyCredential){msgEl.textContent='[[This browser does not support passkeys. Open this page in the standard Safari or Chrome app.]]';return;}
 try{
  let o=cachedOpts;
  if(!o){const r=await fetch(OPT,{method:'POST',headers:{'content-type':'application/json'},body:'{}'});if(!r.ok){msgEl.textContent=await r.text();return;}o=await r.json();}
  const cred=await navigator.credentials.get({publicKey:{challenge:b64ToBuf(o.challenge),rpId:o.rpId,timeout:o.timeout,userVerification:o.userVerification,allowCredentials:[]}});
  cachedOpts=null;prefetch();
  const body={id:cred.id,response:{clientDataJSON:bufToB64(cred.response.clientDataJSON),authenticatorData:bufToB64(cred.response.authenticatorData),signature:bufToB64(cred.response.signature),userHandle:cred.response.userHandle?bufToB64(cred.response.userHandle):null}};
  const v=await fetch(VER,{method:'POST',headers:{'content-type':'application/json'},body:JSON.stringify(body)});
  if(!v.ok){msgEl.textContent=await v.text();return;}
  location.href=(await v.json()).redirect;
 }catch(e){
  if(e.name==='NotAllowedError'){
   msgEl.textContent='[[Could not start the passkey. Open this page in the standard Safari or Chrome app (in-app browsers are not supported).]]';
  }else{msgEl.textContent=(e.name||'')+': '+(e.message||String(e));}
 }
}
</script></body></html>".

(** The page of [ciba_pending] ([src/src/web/ciba.rs]). *)
Definition CIBA_PAGE : string := template "<!doctype html><html lang=`__LANG__`><head><meta charset=`utf-8`>
<meta name=`viewport` content=`width=device-width,initial-scale=1`><title>[[CIBA approval]]</title>
<style>body{font-family:-apple-system,sans-serif;max-width:480px;margin:32px auto;padding:0 16px}
.row{border:1px solid #ddd;border-radius:8px;padding:12px;margin:12px 0}
button{padding:8px 14px;font-size:15px;background:#3367d6;color:#fff;border:0;border-radius:6px;margin-top:8px}
button.rej{background:#999}#msg{color:#c00}</style></head><body>
<h1>[[CIBA approval]]</h1>
<div id=`msg`></div>
__ROWS__
<script>
__WEBAUTHN_JS__
const B=`__BASE__`;
async function approve(id){
 const msg=document.getElementById('msg');msg.textContent='';window.__busy=true;
 try{
  const r=await fetch(B+'/ciba/'+id+'/passkey-options',{method:'POST',headers:{'content-type':'application/json'},body:'{}'});
  if(!r.ok){msg.textContent=await r.text();window.__busy=false;return;}
  const o=await r.json();
  const cred=await navigator.credentials.get({publicKey:{challenge:b64ToBuf(o.challenge),rpId:o.rpId,timeout:o.timeout,userVerification:'required',allowCredentials:(o.allowCredentials||[]).map(c=>({type:'public-key',id:b64ToBuf(c.id),transports:c.transports}))}});
  const body={id:cred.id,response:{clientDataJSON:bufToB64(cred.response.clientDataJSON),authenticatorData:bufToB64(cred.response.authenticatorData),signature:bufToB64(cred.response.signature)}};
  const v=await fetch(B+'/ciba/'+id+'/approve',{method:'POST',headers:{'content-type':'application/json'},body:JSON.stringify(body)});
  if(!v.ok){msg.textContent=await v.text();window.__busy=false;return;}
  location.reload();
 }catch(e){msg.textContent=e.message;window.__busy=false;}
}
async function reject(id){
 window.__busy=true;
 await fetch(B+'/ciba/'+id+'/reject',{method:'POST'});
 location.reload();
}
setInterval(()=>{if(!window.__busy)location.reload();},4000);
</script></body></html>".

(** The page of [passkey_register_page] ([src/src/web/register.rs]). *)
Definition PASSKEY_REGISTER_PAGE : string := template "<!doctype html><html lang=`__LANG__`><head><meta charset=`utf-8`>
<meta name=`viewport` content=`width=device-width,initial-scale=1`><title>[[Passkey registration]]</title>
<style>body{font-family:-apple-system,sans-serif;max-width:380px;margin:40px auto;padding:0 16px;color:#222}
h1{font-size:20px;margin:0 0 8px}p{font-size:14px;line-height:1.6}
button,.btn{display:block;width:100%;padding:13px;margin-top:12px;font-size:16px;border:0;border-radius:8px;cursor:pointer;text-align:center;text-decoration:none;box-sizing:border-box}
.primary{background:#3367d6;color:#fff}.secondary{background:#f1f3f4;color:#3367d6}
.small{font-size:12px;color:#5f6368;margin-top:8px}
#msg{font-size:14px;margin-top:14px;min-height:1.4em}#fallback{margin-top:16px}
label{display:block;font-size:14px;margin-top:12px}input{display:block;width:100%;box-sizing:border-box;padding:10px;margin-top:4px;font-size:16px}</style></head><body>
<h1>[[Create a passkey]]</h1>
<label for=`nm` id=`nml`>[[Name]]</label>
<input id=`nm` autocomplete=`name` maxlength=`80`>
<div id=`mobile` hidden>
 <p>[[Register securely with the fido2demo app.]]</p>
 <button class=`primary` onclick=`openApp()`>[[Open in the app]]</button>
 <p class=`small`>[[If the app is installed, it opens automatically. If it does not, continue on the web with the button below.]]</p>
 <p class=`small`>[[If you open the app, the name above is not saved. It is saved if you continue on the web.]]</p>
 <div id=`fallback` hidden>
  <button class=`secondary` onclick=`reg()`>[[Continue on the web]]</button>
  <p class=`small`>[[It is created as a synced passkey (for example in iCloud Keychain).]]</p>
 </div>
</div>
<div id=`desktop` hidden>
 <p>[[Create a passkey with this device (for example with biometrics) to finish signing up.]]</p>
 <button class=`primary` onclick=`reg()`>[[Create a passkey and sign up]]</button>
</div>
<p id=`msg`></p>
<script>
__WEBAUTHN_JS__
const TOKEN=`__TOKEN__`,OPT=`__OPT__`,VER=`__VER__`,LOGIN=`__LOGIN__`,AFTER=__AFTER__,NAME_REQUIRED=!!AFTER;
document.getElementById('nml').textContent=NAME_REQUIRED?'[[Name (required)]]':'[[Name (optional)]]';
const ua=navigator.userAgent;
const isAndroid=/Android/i.test(ua);
const isIOS=/iPad|iPhone|iPod/i.test(ua)||(/(Macintosh).*Mobile/i.test(ua));
document.getElementById((!AFTER&&(isAndroid||isIOS))?'mobile':'desktop').hidden=false;
function openApp(){
 const url=isAndroid
  ?('intent://magic?t='+TOKEN+'#Intent;scheme=jp.co.sonrisa.fido2demo;package=jp.co.sonrisa.fido2demo;S.browser_fallback_url='+encodeURIComponent('https://oidc.sonrisa.co.jp/r?t='+TOKEN)+';end')
  :('jp.co.sonrisa.fido2demo://magic?t='+TOKEN);
 const timer=setTimeout(()=>{document.getElementById('fallback').hidden=false;},1500);
 document.addEventListener('visibilitychange',()=>{if(document.hidden)clearTimeout(timer);},{once:true});
 location.href=url;
}
async function reg(){
 const msg=document.getElementById('msg');
 const nm=document.getElementById('nm').value.trim();
 if(NAME_REQUIRED&&!nm){msg.textContent='[[Enter your name]]';return;}
 msg.textContent='[[Working…]]';
 try{
  const r=await fetch(OPT,{method:'POST',headers:{'content-type':'application/json'},body:JSON.stringify({token:TOKEN})});
  if(!r.ok){msg.textContent=await r.text();return;}
  const o=await r.json();
  const cred=await navigator.credentials.create({publicKey:{challenge:b64ToBuf(o.challenge),rp:o.rp,user:{id:b64ToBuf(o.user.id),name:o.user.name,displayName:o.user.displayName},pubKeyCredParams:o.pubKeyCredParams,authenticatorSelection:o.authenticatorSelection,attestation:o.attestation,timeout:o.timeout,excludeCredentials:(o.excludeCredentials||[]).map(c=>({type:'public-key',id:b64ToBuf(c.id)}))}});
  const body={token:TOKEN,response:{clientDataJSON:bufToB64(cred.response.clientDataJSON),attestationObject:bufToB64(cred.response.attestationObject)}};
  if(nm)body.name=nm;
  const v=await fetch(VER,{method:'POST',headers:{'content-type':'application/json'},body:JSON.stringify(body)});
  if(!v.ok){msg.textContent=await v.text();return;}
  if(AFTER){msg.textContent='[[Registration complete. Taking you to sign in…]]';location.href=AFTER;return;}
  msg.innerHTML='[[Registration complete.]] <a href=`'+LOGIN+'`>[[Go to log in]]</a>';
 }catch(e){msg.textContent=e.message;}
}
</script></body></html>".

(** The helpers of the ceremony pages ([src/src/web/mod.rs]). *)
Definition WEBAUTHN_JS : string := template "
function b64ToBuf(b){b=b.replace(/-/g,'+').replace(/_/g,'/');while(b.length%4)b+='=';const s=atob(b);const a=new Uint8Array(s.length);for(let i=0;i<s.length;i++)a[i]=s.charCodeAt(i);return a.buffer;}
function bufToB64(buf){const a=new Uint8Array(buf);let s='';for(let i=0;i<a.length;i++)s+=String.fromCharCode(a[i]);return btoa(s).replace(/\+/g,'-').replace(/\//g,'_').replace(/=+$/,'');}
".

(** The start page of the demonstration client ([src/src/web/pages.rs]). *)
Definition DEMO_START_PAGE : string := template "<!doctype html><html lang=`__LANG__`><head><meta charset=`utf-8`>
<meta name=`viewport` content=`width=device-width,initial-scale=1`><title>fido2demo</title>
<style>:root{--indigo:#3f51b5;--indigo-d:#303f9f}
body{font-family:Roboto,-apple-system,'Helvetica Neue',sans-serif;max-width:360px;margin:0 auto;padding:56px 24px;color:#1a1a1a;text-align:center}
.fp{width:72px;height:72px;color:var(--indigo)}
h1{font-size:1.3rem;font-weight:500;margin:18px 0 28px}
.filled{width:100%;padding:14px;font-size:16px;font-weight:500;background:var(--indigo);color:#fff;border:0;border-radius:24px;cursor:pointer}
.filled:active{background:var(--indigo-d)}
.hint{color:#9a9a9a;font-size:13px;margin-top:16px}</style></head><body>
<svg class=`fp` viewBox=`0 0 24 24` fill=`none` stroke=`currentColor` stroke-width=`1.6` stroke-linecap=`round` stroke-linejoin=`round`>
<path d=`M5.5 10a6.5 6.5 0 0 1 13 0v4a8 8 0 0 1-1 3.8`/><path d=`M8 11a4 4 0 0 1 8 0v3a6 6 0 0 0 .8 3`/>
<path d=`M12 11v4a7 7 0 0 0 1.4 4.3`/><path d=`M12 19v.01`/></svg>
<h1>[[Sign in with a passkey]]</h1>
<button class=`filled` onclick=`start()`>[[Sign in]]</button>
<script>
const ISSUER=`__ISSUER__`;
function b64url(buf){return btoa(String.fromCharCode.apply(null,new Uint8Array(buf))).replace(/\+/g,'-').replace(/\//g,'_').replace(/=+$/,'');}
async function start(){
  const v=b64url(crypto.getRandomValues(new Uint8Array(32)));
  sessionStorage.setItem('pkce_verifier',v);
  const dig=await crypto.subtle.digest('SHA-256',new TextEncoder().encode(v));
  const u=new URL(ISSUER+'/authorize');
  u.searchParams.set('client_id','demo-rp');
  u.searchParams.set('response_type','code');
  u.searchParams.set('scope','openid profile email offline_access');
  u.searchParams.set('redirect_uri',ISSUER+'/callback');
  u.searchParams.set('state',b64url(crypto.getRandomValues(new Uint8Array(16))));
  u.searchParams.set('nonce',b64url(crypto.getRandomValues(new Uint8Array(16))));
  u.searchParams.set('code_challenge',b64url(dig));
  u.searchParams.set('code_challenge_method','S256');
  location.href=u.toString();
}
</script></body></html>".

(** The callback page of the demonstration client ([src/src/web/pages.rs]). *)
Definition DEMO_CALLBACK_PAGE : string := template "<!doctype html><html lang=`__LANG__`><head><meta charset=`utf-8`>
<meta name=`viewport` content=`width=device-width,initial-scale=1`><title>callback</title>
<style>:root{--indigo:#3f51b5}
body{font-family:Roboto,-apple-system,'Helvetica Neue',sans-serif;max-width:420px;margin:0 auto;padding:32px 20px;color:#1a1a1a}
h1{font-size:1.5rem;font-weight:500;margin:0}
.email{color:#00000088;margin:2px 0 20px}
.card{border:1px solid #00000022;border-radius:10px;padding:12px 14px;margin:10px 0}
.lbl{font-size:.8rem;color:var(--indigo);font-weight:600;margin-bottom:4px}
.val{font-size:1.05rem}.unset{color:#aaa}
.center{text-align:center;color:#888;padding:40px 0}
details{margin-top:24px;color:#888;font-size:12px}
pre{background:#f4f4f4;padding:10px;border-radius:6px;overflow:auto}
.logout{width:100%;margin-top:20px;padding:12px;font-size:16px;font-weight:500;background:#fff;color:#c5221f;border:1.5px solid #c5221f;border-radius:24px;cursor:pointer}</style></head><body>
<div id=`cibaBox`></div>
<div id=`out`><div class=`center`>[[Signing in…]]</div></div>
<script>
const ISSUER=`__ISSUER__`;
const GENDER={male:'[[Male]]',female:'[[Female]]',other:'[[Other]]'};
function esc(s){return String(s).replace(/[<>&`']/g,c=>({'<':'&lt;','>':'&gt;','&':'&amp;','`':'&quot;',`'`:'&#39;'}[c]));}
function field(label,val){return '<div class=`card`><div class=`lbl`>'+label+'</div><div class=`val`>'+(val?esc(val):'<span class=`unset`>[[Not set]]</span>')+'</div></div>';}
let idTokenHint=null;
let lastUi=null,lastProf=null,lastTok=null;
function pf(){return (lastProf&&lastProf.profile)||{};}
function renderProfile(ui,prof,tok){
  idTokenHint=tok.id_token||null;lastUi=ui;lastProf=prof;lastTok=tok;
  const p=(prof&&prof.profile)||{};
  document.getElementById('out').innerHTML=
    '<h1>[[Profile]]</h1><div class=`email`>'+esc(ui.email||'')+'</div>'
    +field('[[Name]]',p.name)+field('[[Nickname]]',p.nickname)
    +field('[[Gender]]',GENDER[p.gender]||p.gender)+field('[[Birthday]]',p.birthdate)
    +field('[[Time zone]]',p.zoneinfo)+field('[[Locale]]',p.locale)
    +'<button class=`logout` style=`color:var(--indigo);border-color:var(--indigo)` onclick=`editProfile()`>[[Edit]]</button>'
    +'<button class=`logout` onclick=`logout()`>[[Log out]]</button>'
    +'<details><summary>[[Token info (debug)]]</summary><pre>'+esc(JSON.stringify({token_type:tok.token_type,scope:tok.scope,userinfo:ui,profile:p},null,2))+'</pre></details>';
}
function inputRow(label,name,val){return '<div class=`card`><div class=`lbl`>'+label+'</div><input id=`f_'+name+'` value=`'+esc(val||'')+'` style=`width:100%;font-size:1.05rem;border:none;outline:none`></div>';}
function editProfile(){
  const p=pf();
  document.getElementById('out').innerHTML=
    '<h1>[[Edit profile]]</h1><div class=`email`>'+esc((lastUi&&lastUi.email)||'')+'</div>'
    +inputRow('[[Name]]','name',p.name)+inputRow('[[Nickname]]','nickname',p.nickname)
    +inputRow('[[Gender (male/female/other)]]','gender',p.gender)+inputRow('[[Birthday (YYYY-MM-DD)]]','birthdate',p.birthdate)
    +inputRow('[[Time zone]]','zoneinfo',p.zoneinfo)+inputRow('[[Locale]]','locale',p.locale)
    +'<button class=`logout` style=`color:#fff;background:var(--indigo);border-color:var(--indigo)` onclick=`saveProfile()`>[[Save]]</button>'
    +'<button class=`logout` onclick=`renderProfile(lastUi,lastProf,lastTok)`>[[Cancel]]</button>';
}
const EDITABLE=['name','nickname','gender','birthdate','zoneinfo','locale'];
async function fetchProfile(){
  const t=getTokens();if(!t)return {profile:{}};
  const ath=await sha256u(t.access_token);
  const proof=await dpopProof('GET',ISSUER+'/me/profile',ath);
  const r=await fetch(ISSUER+'/me/profile',{headers:{'Authorization':'DPoP '+t.access_token,'DPoP':proof}});
  if(!r.ok)return {profile:{}};
  return await r.json();
}
async function saveProfile(){
  const t=getTokens();if(!t){fail('[[Your session has expired]]');return;}
  const body={};EDITABLE.forEach(k=>{body[k]=document.getElementById('f_'+k).value;});
  const ath=await sha256u(t.access_token);
  const proof=await dpopProof('PUT',ISSUER+'/me/profile',ath);
  const r=await fetch(ISSUER+'/me/profile',{method:'PUT',headers:{'Authorization':'DPoP '+t.access_token,'DPoP':proof,'Content-Type':'application/json'},body:JSON.stringify(body)});
  if(!r.ok){fail('[[Failed to save]] ('+r.status+')');return;}
  const prof=await r.json();
  renderProfile(lastUi,prof,lastTok);
}
function logout(){
  sessionStorage.removeItem('profile');
  sessionStorage.removeItem('tokens');
  try{indexedDB.deleteDatabase('dpop-keystore');}catch(_){}
  const u=new URL(ISSUER+'/end-session');
  u.searchParams.set('client_id','demo-rp');
  u.searchParams.set('post_logout_redirect_uri',ISSUER+'/');
  if(idTokenHint)u.searchParams.set('id_token_hint',idTokenHint);
  location.href=u.toString();
}
function fail(msg){document.getElementById('out').innerHTML='<div class=`center`>'+esc(msg)+'</div>';}
function b64u(buf){return btoa(String.fromCharCode.apply(null,new Uint8Array(buf))).replace(/\+/g,'-').replace(/\//g,'_').replace(/=+$/,'');}
function jb64(o){return b64u(new TextEncoder().encode(JSON.stringify(o)));}
function b64ToBuf(b64){const s=atob(b64.replace(/-/g,'+').replace(/_/g,'/'));const a=new Uint8Array(s.length);for(let i=0;i<s.length;i++)a[i]=s.charCodeAt(i);return a.buffer;}
let cibaBusy=false;
async function fetchCibaPending(){
  const t=getTokens();if(!t)return [];
  const ath=await sha256u(t.access_token);
  const proof=await dpopProof('GET',ISSUER+'/ciba/pending',ath);
  const r=await fetch(ISSUER+'/ciba/pending',{headers:{'Authorization':'DPoP '+t.access_token,'DPoP':proof}});
  if(!r.ok)return [];
  return await r.json();
}
function renderCiba(items){
  const box=document.getElementById('cibaBox');
  if(!items||!items.length){box.innerHTML='';return;}
  box.innerHTML=items.map(it=>'<div class=`card` style=`border-color:var(--indigo)`><div class=`lbl`>[[Sign-in approval request]]</div><div class=`val`>'+esc(it.binding_message||'(no message)')+'</div><div style=`color:#888;font-size:12px;margin-top:4px`>from '+esc(it.client_id)+' / scope: '+esc(it.scope)+'</div><button class=`logout` style=`margin-top:10px;color:#fff;background:var(--indigo);border-color:var(--indigo)` onclick=`approveCiba(\''+it.auth_req_id+'\')`>[[Approve (passkey)]]</button><button class=`logout` onclick=`rejectCiba(\''+it.auth_req_id+'\')`>[[Reject]]</button></div>').join('');
}
async function approveCiba(id){
  const t=getTokens();if(!t)return;cibaBusy=true;
  try{
    let ath=await sha256u(t.access_token);
    let proof=await dpopProof('POST',ISSUER+'/ciba/'+id+'/passkey-options',ath);
    const r=await fetch(ISSUER+'/ciba/'+id+'/passkey-options',{method:'POST',headers:{'Authorization':'DPoP '+t.access_token,'DPoP':proof,'Content-Type':'application/json'},body:'{}'});
    if(!r.ok){alert(await r.text());cibaBusy=false;return;}
    const o=await r.json();
    const cred=await navigator.credentials.get({publicKey:{challenge:b64ToBuf(o.challenge),rpId:o.rpId,timeout:o.timeout,userVerification:'required',allowCredentials:(o.allowCredentials||[]).map(c=>({type:'public-key',id:b64ToBuf(c.id),transports:c.transports}))}});
    const body={id:cred.id,response:{clientDataJSON:b64u(cred.response.clientDataJSON),authenticatorData:b64u(cred.response.authenticatorData),signature:b64u(cred.response.signature)}};
    ath=await sha256u(t.access_token);
    proof=await dpopProof('POST',ISSUER+'/ciba/'+id+'/approve',ath);
    const v=await fetch(ISSUER+'/ciba/'+id+'/approve',{method:'POST',headers:{'Authorization':'DPoP '+t.access_token,'DPoP':proof,'Content-Type':'application/json'},body:JSON.stringify(body)});
    if(!v.ok){alert(await v.text());}
  }catch(e){alert(e.message);}
  cibaBusy=false;pollCiba();
}
async function rejectCiba(id){
  const t=getTokens();if(!t)return;cibaBusy=true;
  const ath=await sha256u(t.access_token);
  const proof=await dpopProof('POST',ISSUER+'/ciba/'+id+'/reject',ath);
  await fetch(ISSUER+'/ciba/'+id+'/reject',{method:'POST',headers:{'Authorization':'DPoP '+t.access_token,'DPoP':proof}});
  cibaBusy=false;pollCiba();
}
async function pollCiba(){ if(cibaBusy)return; try{renderCiba(await fetchCibaPending());}catch(e){} }
function idb(){return new Promise((res,rej)=>{const r=indexedDB.open('dpop-keystore',1);r.onupgradeneeded=()=>r.result.createObjectStore('keys');r.onsuccess=()=>res(r.result);r.onerror=()=>rej(r.error);});}
let dpopKeyP=null;
async function getKey(){
  if(dpopKeyP)return dpopKeyP;
  dpopKeyP=(async()=>{
    const db=await idb();
    const existing=await new Promise(res=>{const t=db.transaction('keys','readonly').objectStore('keys').get('dpop');t.onsuccess=()=>res(t.result);t.onerror=()=>res(null);});
    if(existing)return existing;
    const kp=await crypto.subtle.generateKey({name:'ECDSA',namedCurve:'P-256'},false,['sign']);
    await new Promise((res,rej)=>{const tx=db.transaction('keys','readwrite');tx.objectStore('keys').put(kp,'dpop');tx.oncomplete=()=>res();tx.onerror=()=>rej(tx.error);});
    return kp;
  })();
  return dpopKeyP;
}
async function dpopProof(htm,htu,ath){
  const k=await getKey();
  const jwk=await crypto.subtle.exportKey('jwk',k.publicKey);
  const header={typ:'dpop+jwt',alg:'ES256',jwk:{kty:'EC',crv:'P-256',x:jwk.x,y:jwk.y}};
  const payload={jti:b64u(crypto.getRandomValues(new Uint8Array(16))),htm,htu,iat:Math.floor(Date.now()/1000)};
  if(ath)payload.ath=ath;
  const si=jb64(header)+'.'+jb64(payload);
  const sig=await crypto.subtle.sign({name:'ECDSA',hash:'SHA-256'},k.privateKey,new TextEncoder().encode(si));
  return si+'.'+b64u(sig);
}
async function sha256u(s){return b64u(await crypto.subtle.digest('SHA-256',new TextEncoder().encode(s)));}
function saveTokens(t){sessionStorage.setItem('tokens',JSON.stringify({access_token:t.access_token,refresh_token:t.refresh_token,id_token:t.id_token,token_type:t.token_type,scope:t.scope}));}
function getTokens(){const s=sessionStorage.getItem('tokens');return s?JSON.parse(s):null;}
async function fetchUserinfo(allowRefresh){
  let t=getTokens();if(!t)return null;
  const ath=await sha256u(t.access_token);
  const proof=await dpopProof('GET',ISSUER+'/userinfo',ath);
  const r=await fetch(ISSUER+'/userinfo',{headers:{'Authorization':'DPoP '+t.access_token,'DPoP':proof}});
  if(r.status===401&&allowRefresh&&t.refresh_token){
    const ok=await doRefresh();
    if(ok)return fetchUserinfo(false);
    return null;
  }
  if(!r.ok)return null;
  return {ui:await r.json(),tok:t};
}
async function doRefresh(){
  const t=getTokens();if(!t||!t.refresh_token)return false;
  const proof=await dpopProof('POST',ISSUER+'/token');
  const r=await fetch(ISSUER+'/token',{method:'POST',headers:{'Content-Type':'application/x-www-form-urlencoded','DPoP':proof},body:new URLSearchParams({grant_type:'refresh_token',refresh_token:t.refresh_token,client_id:'demo-rp'})});
  const nt=await r.json();
  if(!nt.access_token)return false;
  nt.id_token=nt.id_token||t.id_token;
  saveTokens(nt);return true;
}
(async()=>{
  const q=new URLSearchParams(location.search);
  if(q.get('error')){fail('[[Error]]: '+q.get('error')+' / '+(q.get('error_description')||''));return;}
  const code=q.get('code');
  if(code){
    const verifier=sessionStorage.getItem('pkce_verifier');
    const tproof=await dpopProof('POST',ISSUER+'/token');
    const r=await fetch(ISSUER+'/token',{method:'POST',headers:{'Content-Type':'application/x-www-form-urlencoded','DPoP':tproof},body:new URLSearchParams({grant_type:'authorization_code',code,redirect_uri:ISSUER+'/callback',client_id:'demo-rp',code_verifier:verifier})});
    const tok=await r.json();
    if(tok.access_token){saveTokens(tok);try{history.replaceState({},'',location.pathname);}catch(_){}}
  }
  const res=await fetchUserinfo(true);
  if(res){const prof=await fetchProfile();renderProfile(res.ui,prof,res.tok);pollCiba();setInterval(pollCiba,4000);return;}
  if(!getTokens()){location.href=ISSUER;return;}
  fail('[[Your session has expired. Please sign in again.]]');
})();
</script></body></html>".

