(* ===== verification/Passkey.v ===== *)
(** * Requests that carry a passkey assertion

    The body of the two verification endpoints ([AuthVerifyReq] of
    [src/src/web/mod.rs]) and the steps they share: the challenge named by the client data,
    its consumption, and the check of the assertion with the key of an account. *)

From S2P Require Import Prelude Prog Json Firestore Externals Es256 WebAuthn Sys Accounts Provider Http.

#[local] Open Scope Z_scope.

Record AuthResponse := mkAuthResponse {
  avr_client_data_json : string;
  avr_authenticator_data : string;
  avr_signature : string;
  avr_user_handle : option string
}.
Record AuthVerifyReq := mkAuthVerifyReq { av_id : string; av_response : AuthResponse }.

Section passkey.
Context `{Externals}.

Definition no_firestore : Response := text_reply 503 "no firestore".
Definition internal_error : Response := text_reply 500 "error".

Definition assertion_check (p : Provider) (req : AuthVerifyReq) (challenge : string) (cred : Credential)
    (require_uv : bool) : result string Z :=
  verify_authentication (avr_client_data_json (av_response req)) (avr_authenticator_data (av_response req))
    (avr_signature (av_response req)) challenge (origin p) (rp_id p) (cr_pub_x cred) (cr_pub_y cred)
    (cr_sign_count cred) require_uv.

Definition passkey_transports : Value := Array [Str "internal"; Str "hybrid"].
Definition allow_credential (credential_id : string) : Value :=
  Array [Object [("type", Str "public-key"); ("id", Str credential_id); ("transports", passkey_transports)]].
Definition options_body (p : Provider) (challenge user_verification : string) (allow : Value) : Value :=
  Object [("challenge", Str challenge); ("rpId", Str (rp_id p)); ("timeout", Number (NInt 60000));
          ("userVerification", Str user_verification); ("allowCredentials", allow)].

(** The check of the assertion and the update of the counter, which may fail silently. *)
Definition verified_count (p : Provider) (req : AuthVerifyReq) (challenge email : string) (cred : Credential)
    (require_uv : bool) : prog provE (result Response unit) :=
  match assertion_check p req challenge cred require_uv with
  | Ok n => _ ← sys (update_sign_count email n); mret (Ok tt)
  | Err e => mret (Err (text_reply 401 ("passkey verify failed: " +:+ e)))
  end.
End passkey.
