(* ===== verification/CibaEndpoints.v ===== *)
(** * The back-channel authentication endpoints

    [src/src/web/ciba.rs]: the request of a consumption device, the lists and the
    approval and rejection on the user's device. *)

From S2P Require Import Prelude Prog Json Model Firestore Externals Es256 WebAuthn Sys Nonce Ciba Dcr.
From S2P Require Import Claims Accounts DcrStore Store Provider Dpop ClientAuth RequestObject Http Grants I18n Fcm Passkey.

#[local] Open Scope Z_scope.

Definition CIBA_GRANT : string := "urn:openid:params:grant-type:ciba".

Record FcmTokenReq := mkFcmTokenReq { ft_token : string; ft_platform : option string }.

Section ciba_endpoints.
Context `{Externals}.

(** ** Lists *)

Definition opt_json (ad : option string) : Value :=
  match ad ≫= fun s => result_ok (json_from_slice s) with Some v => v | None => Null end.
Definition pending_item (r : BackchannelAuthRequest) : Value :=
  Object [("auth_req_id", Str (br_auth_req_id r)); ("client_id", Str (br_client_id r)); ("scope", Str (br_scope r));
          ("binding_message", Str (br_binding_message r)); ("authorization_details", opt_json (br_authorization_details r))].
Definition ciba_pending_list (p : Provider) (hs : HeaderMap) : prog provE Response :=
  finish (
    at_ ←? authenticate_token p hs "GET" "/ciba/pending" None;
    _ ← ciba (CibaSweepExpired (at_account_id at_));
    pending ← ciba (ListPending (at_account_id at_));
    mret (Ok (Reply 200 [] (JsonBody (Array (map pending_item (default [] (result_ok pending)))))))).

Definition history_item (e : CibaHistoryEntry) : Value :=
  Object [("auth_req_id", Str (he_auth_req_id e)); ("client_id", Str (he_client_id e)); ("scope", Str (he_scope e));
          ("binding_message", Str (he_binding_message e)); ("authorization_details", opt_json (he_authorization_details e));
          ("outcome", Str (he_outcome e)); ("resolved_at", u64_value (he_resolved_at e))].
Definition ciba_history (p : Provider) (hs : HeaderMap) : prog provE Response :=
  finish (
    at_ ←? authenticate_token p hs "GET" "/ciba/history" None;
    _ ← ciba (CibaSweepExpired (at_account_id at_));
    entries ← ciba (ListHistory (at_account_id at_) 50);
    mret (Ok (Reply 200 [] (JsonBody (Array (map history_item (default [] (result_ok entries)))))))).

Definition fcm_token_register (p : Provider) (hs : HeaderMap) (req : FcmTokenReq) : prog provE Response :=
  finish (
    at_ ←? authenticate_token p hs "POST" "/ciba/fcm-tokens" None;
    if negb (p_firestore p) then mret (Err no_firestore)
    else
      r ← sys (save_token (at_account_id at_) (ft_token req) (default "ios" (ft_platform req)));
      mret (match r with Ok _ => Ok (Reply 204 [] NoBody) | Err _ => Err internal_error end)).

(** ** The request *)

(** The parameters: those of the request object when there is one, which clients
    with [private_key_jwt] have to send. *)
Definition backchannel_parameters (p : Provider) (client : Client) (form : gmap string string) :
    prog provE (result Response (gmap string string)) :=
  match form !! "request" with
  | Some req =>
      r ← ro_verify p client req (p_issuer p);
      mret (map_err error_response r)
  | None =>
      mret (if bool_decide (cl_token_endpoint_auth_method client = "private_key_jwt")
            then Err (error_response (InvalidRequest "signed request object required for this client")) else Ok form)
  end.
Definition HINTS : list string := ["login_hint"; "id_token_hint"; "login_hint_token"].
Definition hint_count (form : gmap string string) : nat :=
  length (List.filter (fun k => bool_decide (is_Some (form !! k))) HINTS).

Definition invalid_request {A} (msg : string) : result Response A := Err (error_response (InvalidRequest msg)).

(** Every entry of the array has a [type] that is a text. *)
Definition details_entries (arr : list Value) : result Response unit :=
  if (length arr =? 0)%nat || (5 <? length arr)%nat then invalid_request "authorization_details must have 1..=5 entries"
  else if forallb (fun e => bool_decide (is_Some (get_str e "type"))) arr then Ok tt
  else invalid_request "authorization_details entry requires 'type'".
Definition check_details (raw : string) : result Response unit :=
  if (4096 <? String.length raw)%nat then invalid_request "authorization_details too large"
  else
    v ← map_err (fun _ => error_response (InvalidRequest "authorization_details must be JSON")) (json_from_slice raw);
    arr ← ok_or (error_response (InvalidRequest "authorization_details must be a JSON array")) (as_array v);
    details_entries arr.

Record backchannel_request := mkBackchannelRequest {
  bq_login_hint : string;
  bq_scope : string;
  bq_binding : string;
  bq_details : option string
}.
(** The checks of the parameters, in their order. *)
Definition backchannel_checks (form : gmap string string) : result Response backchannel_request :=
  if negb (hint_count form =? 1)%nat
  then invalid_request "exactly one of login_hint/id_token_hint/login_hint_token is required"
  else
    hint ← ok_or (error_response (InvalidRequest "login_hint required")) (form !! "login_hint");
    let scope := default "openid" (form !! "scope") in
    if negb (existsb (fun s => bool_decide (s = "openid")) (split_whitespace scope))
    then Err (error_response (InvalidScope "openid scope required"))
    else
      _ ← match form !! "authorization_details" with Some raw => check_details raw | None => Ok tt end;
      Ok (mkBackchannelRequest (str_to_lowercase (str_trim hint)) scope (default "" (form !! "binding_message"))
            (form !! "authorization_details")).

(** The account of a hint: registered and not frozen. *)
Definition hinted_account (r : result string (option Credential)) : result Response string :=
  match r with
  | Ok (Some c) =>
      if negb (str_is_empty (cr_account_id c)) && negb (cr_disabled c) then Ok (cr_account_id c)
      else invalid_request "unknown user_id"
  | Ok None => invalid_request "unknown user_id"
  | Err _ => Err internal_error
  end.

Definition accepted (id : string) (expires_in : Z) : Response :=
  Reply 200 no_store
    (JsonBody (Object [("auth_req_id", Str id); ("expires_in", u64_value expires_in); ("interval", u64_value 2)])).
Definition slow_down : Response :=
  Reply 429 (no_store ++ [("retry-after", "60")])
    (JsonBody (Object [("error", Str "slow_down"); ("error_description", Str "rate limit exceeded for this client/user")])).

Definition backchannel_auth (p : Provider) (hs : HeaderMap) (form : gmap string string) : prog provE Response :=
  finish (
    if negb (p_firestore p) then mret (Err no_firestore)
    else
      client ←? authenticate_client p hs form;
      if negb (allows_grant client CIBA_GRANT)
      then mret (Err (error_response (UnauthorizedClient "ciba grant not allowed")))
      else
        form ←? backchannel_parameters p client form;
        q ←? mret (backchannel_checks form);
        cred ← sys (get_credential (bq_login_hint q));
        account_id ←? mret (hinted_account cred);
        found ← Prog.translate (@CibaOp) (find_pending_for (cl_client_id client) (bq_login_hint q));
        match found with
        | Err _ => mret (Err internal_error)
        | Ok (Some existing) =>
            t ← now;
            mret (Ok (accepted (br_auth_req_id existing) (u64_saturating_sub (br_expires_at existing) t)))
        | Ok None =>
            granted ← rate_check CibaRate (cl_client_id client) (bq_login_hint q);
            if negb granted then mret (Err slow_down)
            else
              id_ ← ciba (CibaCreate (cl_client_id client) account_id (bq_scope q) (bq_binding q) (bq_details q));
              match id_ with
              | Ok id_ =>
                  _ ← sys (send_ciba_request account_id (cl_client_id client) (bq_scope q) (bq_binding q) id_ (bq_details q));
                  mret (Ok (accepted id_ 300))
              | Err _ => mret (Err internal_error)
              end
        end).

(** ** The decision *)

Definition not_found : Response := text_reply 404 "request not found".

Definition live_request (now : Z) (r : result string (option BackchannelAuthRequest)) : option BackchannelAuthRequest :=
  match r with Ok (Some q) => if br_expired now q then None else Some q | _ => None end.

Definition ciba_approve_options (p : Provider) (auth_req_id : string) : prog provE Response :=
  finish (
    if negb (p_firestore p) then mret (Err no_firestore)
    else
      r ← ciba (CibaGet auth_req_id);
      t ← now;
      req ←? mret (ok_or not_found (live_request t r));
      e ← sys (find_email_by_account_id (br_account req));
      email ←? mret (match e with Ok (Some email) => Ok email | _ => Err (text_reply 400 "no passkey") end);
      c ← sys (get_credential email);
      cred ←? mret (match c with Ok (Some cred) => Ok cred | _ => Err (text_reply 400 "no passkey") end);
      ch ← sys (create_webauthn_challenge email CibaApprove auth_req_id "");
      mret (match ch with
            | Ok challenge =>
                Ok (Reply 200 [] (JsonBody (options_body p challenge "required" (allow_credential (cr_credential_id cred)))))
            | Err _ => Err internal_error
            end)).

(** The request that an account may approve. *)
Definition approvable (now : Z) (account : string) (r : result string (option BackchannelAuthRequest)) :
    option BackchannelAuthRequest :=
  match r with
  | Ok (Some q) => if bool_decide (br_account q = account) && negb (br_expired now q) then Some q else None
  | _ => None
  end.

Definition ciba_approve (p : Provider) (auth_req_id : string) (req : AuthVerifyReq) : prog provE Response :=
  finish (
    if negb (p_firestore p) then mret (Err no_firestore)
    else
      challenge ←? mret (ok_or (text_reply 400 "no challenge") (extract_challenge (avr_client_data_json (av_response req))));
      ch ← sys (consume_webauthn_challenge challenge);
      t ←? mret (match ch with Ok (Some t) => Ok t | _ => Err (text_reply 400 "challenge invalid/expired") end);
      let '(email, kind, uid, _) := t in
      if negb (bool_decide (kind = CibaApprove)) || negb (bool_decide (uid = auth_req_id))
      then mret (Err (text_reply 400 "challenge context mismatch"))
      else
        c ← sys (get_credential email);
        cred ←? mret (match c with
                      | Ok (Some cred) => if str_is_empty (cr_account_id cred) then Err (text_reply 400 "no passkey") else Ok cred
                      | _ => Err (text_reply 400 "no passkey")
                      end);
        r ← ciba (CibaGet auth_req_id);
        t ← now;
        ciba_req ←? mret (ok_or not_found (approvable t (cr_account_id cred) r));
        if negb (bool_decide (cr_credential_id cred = av_id req)) then mret (Err (text_reply 400 "credential id mismatch"))
        else
          _ ←? verified_count p req challenge email cred true;
          if cr_disabled cred then mret (Err (text_reply 403 "account disabled"))
          else
            won ← ciba (TransitionIfPending auth_req_id Approved);
            match won with
            | Ok true =>
                t ← now;
                _ ← ciba (RecordHistory (he_from_request ciba_req "approved" t));
                mret (Ok (Reply 200 [] (JsonBody (Object [("ok", Bool true)]))))
            | Ok false => mret (Err (text_reply 409 "already handled"))
            | Err _ => mret (Err internal_error)
            end).

(** Whoever knows the identifier may reject; an expired request is left to the sweep.
    The clock is read only when there is a request. *)
Definition ciba_reject (auth_req_id : string) : prog provE Response :=
  finish (
    r ← ciba (CibaGet auth_req_id);
    let req := default None (result_ok r) in
    expired ← (match req with Some q => t ← now; mret (br_expired t q) | None => mret false end);
    if (expired : bool) then mret (Err (text_reply 409 "expired"))
    else
      won ← ciba (TransitionIfPending auth_req_id Denied);
      match won with
      | Ok true =>
          _ ← (match req with
               | Some q => t ← now; _ ← ciba (RecordHistory (he_from_request q "denied" t)); mret tt
               | None => mret tt
               end);
          mret (Ok (Reply 204 [] NoBody))
      | Ok false => mret (Err (text_reply 409 "already handled"))
      | Err _ => mret (Err internal_error)
      end).
End ciba_endpoints.
