(* ===== verification/Login.v ===== *)
(** * Login with a passkey, registration of users and invitations

    [src/src/web/login.rs]: the options and the verification of the ceremony, and the
    session that a successful login opens.  [src/src/web/register.rs], with the pages of
    login.rs and [src/src/web/ciba.rs]: the confirmation mail, the invitation of a relying
    party, the creation of the passkey, the freezing of an account by a relying party. *)


From S2P Require Import Prelude Prog Json Model Store Firestore Externals Es256 WebAuthn Sys Nonce Ciba Dcr Claims.
From S2P Require Import Accounts AdminStore DcrStore Provider ClientAuth Http I18n Fcm Templates Passkey.

#[local] Open Scope Z_scope.

Section login.
Context `{Externals}.

Definition resume_path (p : Provider) (uid : string) : string := path p ("/authorize/resume?uid=" +:+ uid).

Definition logged_in (i : Interaction) (account_sub : string) (auth_time : Z) : Interaction :=
  mkInteraction (in_uid i) (in_raw_query i) (Some account_sub) (Some auth_time) (in_request_uri i).

Definition finalize_login (p : Provider) (interaction : Interaction) (account_sub : string) :
    prog provE (Cookie * string) :=
  auth_time ← now;
  _ ← store (SaveInteraction (logged_in interaction account_sub auth_time));
  sid ← fresh_id;
  _ ← store (SaveSession (mkSession sid account_sub auth_time));
  mret (mkCookie SID_COOKIE sid, resume_path p (in_uid interaction)).

(** [email] of the body, empty when it has none. *)
Definition login_passkey_options (p : Provider) (uid email : string) : prog provE Response :=
  finish (
    if negb (p_firestore p) then mret (Err no_firestore)
    else
      let email := str_to_lowercase (str_trim email) in
      ac ← (if str_is_empty email then mret (Array [], "")
            else
              c ← sys (get_credential email);
              mret (match c with
                    | Ok (Some c) => (allow_credential (cr_credential_id c), email)
                    | _ => (Array [], "")
                    end));
      ch ← sys (create_webauthn_challenge ac.2 Auth uid "");
      mret (match ch with
            | Ok challenge => Ok (Reply 200 [] (JsonBody (options_body p challenge "preferred" ac.1)))
            | Err _ => Err internal_error
            end)).

(** The account named by the authenticator, or by the challenge. *)
Definition handle_account (uh : string) : string :=
  default "" (b ← result_ok (b64url_decode uh); if utf8_valid b then Some b else None).
Definition login_email (user_handle : option string) (challenge_email : string) : prog provE (result Response string) :=
  match user_handle ≫= fun s => if str_is_empty s then None else Some s with
  | Some uh =>
      e ← sys (find_email_by_account_id (handle_account uh));
      mret (match e with Ok (Some e) => Ok e | _ => Err (text_reply 400 "cannot resolve user") end)
  | None => mret (Ok challenge_email)
  end.

Definition login_passkey_verify (p : Provider) (uid : string) (req : AuthVerifyReq) : prog provE Response :=
  finish (
    if negb (p_firestore p) then mret (Err no_firestore)
    else
      challenge ←? mret (ok_or (text_reply 400 "no challenge") (extract_challenge (avr_client_data_json (av_response req))));
      ch ← sys (consume_webauthn_challenge challenge);
      t ←? mret (match ch with
                 | Ok (Some t) => Ok t
                 | Ok None => Err (text_reply 400 "challenge invalid/expired")
                 | Err _ => Err internal_error
                 end);
      let '(email, kind, uid2, _) := t in
      if negb (bool_decide (kind = Auth)) || negb (bool_decide (uid2 = uid))
      then mret (Err (text_reply 400 "challenge context mismatch"))
      else
        email ←? login_email (avr_user_handle (av_response req)) email;
        if str_is_empty email then mret (Err (text_reply 400 "cannot resolve user"))
        else
          c ← sys (get_credential email);
          cred ←? mret (match c with Ok (Some cred) => Ok cred | _ => Err (text_reply 400 "credential not found") end);
          if negb (bool_decide (cr_credential_id cred = av_id req)) then mret (Err (text_reply 400 "credential id mismatch"))
          else
            _ ←? verified_count p req challenge email cred false;
            if cr_disabled cred then mret (Err (text_reply 403 "account disabled"))
            else if str_is_empty (cr_account_id cred) then mret (Err (text_reply 400 "account needs re-registration"))
            else
              i ← store (GetInteraction uid);
              interaction ←? mret (ok_or (text_reply 400 "interaction not found") i);
              account ← store (FindAccount (cr_account_id cred));
              cr ← finalize_login p interaction (acct_sub account);
              mret (Ok (WithCookie cr.1 (Reply 200 [] (JsonBody (Object [("redirect", Str cr.2)])))))).
End login.

(** * Registration of users and invitations *)

(** ** Characters

    A predicate on the characters of a text, as a predicate on the bytes a character
    begins with. *)

Fixpoint any_char (P : string -> bool) (s : string) : bool :=
  match s with "" => false | String _ s' => P s || any_char P s' end.
Definition bytes_at (s : string) : list nat := map nat_of_ascii (String.list_ascii_of_string (String.substring 0 3 s)).
Definition starts_white (s : string) : bool := negb (ws_prefix s =? 0)%nat.
(** [char::is_control]: U+0000 to U+001F and U+007F to U+009F. *)
Definition starts_control (s : string) : bool :=
  match bytes_at s with
  | a :: r => ((a <? 32) || (a =? 127))%nat || match r with b :: _ => ((a =? 194) && (128 <=? b) && (b <? 160))%nat | [] => false end
  | [] => false
  end.
Definition is_bidi_control (s : string) : bool :=
  match bytes_at s with
  | [216; 156]%nat | 216%nat :: 156%nat :: _ => true
  | [226; 128; c]%nat => ((c =? 142) || (c =? 143) || (170 <=? c) && (c <=? 174))%nat
  | [226; 129; c]%nat => ((166 <=? c) && (c <=? 169))%nat
  | _ => false
  end.
(** [chars().count()]: every byte that is no continuation byte begins a character. *)
Fixpoint chars_count (s : string) : nat :=
  match s with "" => O | String a s' => if in_range 128 191 a then chars_count s' else S (chars_count s') end.

(** ** Pages *)

Definition page (lang : Lang) (title body : string) : Body :=
  HtmlBody (localize
    (template "<!doctype html><html lang=`__LANG__`><head><meta charset=`utf-8`>
<meta name=`viewport` content=`width=device-width,initial-scale=1`><title>" +:+ title +:+ "</title>
<style>body{font-family:-apple-system,sans-serif;max-width:400px;margin:48px auto;padding:0 16px;line-height:1.7}
input{display:block;width:100%;box-sizing:border-box;padding:10px;margin:8px 0;font-size:16px}
button{width:100%;padding:12px;font-size:16px;background:#3367d6;color:#fff;border:0;border-radius:6px}</style>
</head><body>" +:+ body +:+ "</body></html>") lang).

Definition ok_page (b : Body) : Response := Reply 200 [] b.

Section signup.
Context `{Externals}.

Definition register_form (p : Provider) (hs : HeaderMap) : Response :=
  ok_page (page (from_headers hs) "[[Sign up]]"
    ("<h1>[[Create an account]]</h1><p>[[We will send a confirmation link to your email address.]]</p>"
     +:+ NL +:+ template "<form method=`post` action=`" +:+ path p "/signup" +:+ template "`>
<input name=`email` type=`email` placeholder=`email` autocomplete=`email` autofocus>
<button type=`submit`>[[Send confirmation email]]</button></form>")).

Definition login_form (p : Provider) (hs : HeaderMap) (uid : string) : Response :=
  ok_page (HtmlBody
    (str_replace "__REGISTER__" (path p "/signup")
    (str_replace "__CANCEL__" (path p ("/login/" +:+ uid +:+ "/cancel"))
    (str_replace "__VER__" (path p ("/login/" +:+ uid +:+ "/passkey/verify"))
    (str_replace "__OPT__" (path p ("/login/" +:+ uid +:+ "/passkey/options"))
    (str_replace "__WEBAUTHN_JS__" WEBAUTHN_JS
      (localize LOGIN_PAGE (from_headers hs)))))))).

Definition js_string_literal (s : string) : string := str_replace "<" "\u003c" (json_to_string (Str s)).
Definition token_filter (c : ascii) : bool := token_char c.
Fixpoint keep_chars (P : ascii -> bool) (s : string) : string :=
  match s with "" => "" | String a s' => if P a then String a (keep_chars P s') else keep_chars P s' end.
Definition passkey_register_page (p : Provider) (lang : Lang) (token : string) (invite_return : option string) : Response :=
  let token := keep_chars token_filter token in
  ok_page (HtmlBody
    (str_replace "__AFTER__" (js_string_literal (default "" invite_return))
    (str_replace "__LOGIN__" (path p "/")
    (str_replace "__VER__" (path p "/signup/passkey/verify")
    (str_replace "__OPT__" (path p "/signup/passkey/options")
    (str_replace "__TOKEN__" token
    (str_replace "__WEBAUTHN_JS__" WEBAUTHN_JS
      (localize PASSKEY_REGISTER_PAGE lang)))))))).

Definition magic_redirect (p : Provider) (hs : HeaderMap) (t : string) : Response :=
  passkey_register_page p (from_headers hs) t None.
Definition verify_form (p : Provider) (hs : HeaderMap) (token : string) : Response :=
  passkey_register_page p (from_headers hs) token None.
Definition apple_app_site_association : Response :=
  Reply 200 [("content-type", "application/json")] (TextBody (template
    "{`applinks`:{`apps`:[],`details`:[{`appID`:`RA5A5W7PJB.jp.co.sonrisa.fido2demo`,`paths`:[`/r`,`/r?*`]}]},`webcredentials`:{`apps`:[`RA5A5W7PJB.jp.co.sonrisa.fido2demo`]}}")).
Definition demo_start (p : Provider) (hs : HeaderMap) : Response :=
  ok_page (HtmlBody (str_replace "__ISSUER__" (p_issuer p) (localize DEMO_START_PAGE (from_headers hs)))).
Definition demo_callback (p : Provider) (hs : HeaderMap) : Response :=
  ok_page (HtmlBody (str_replace "__ISSUER__" (p_issuer p) (localize DEMO_CALLBACK_PAGE (from_headers hs)))).

(** The approval page of [src/src/web/ciba.rs]. *)
Definition ciba_esc (s : string) : string :=
  str_replace quote "&quot;" (str_replace "<" "&lt;" (str_replace "&" "&amp;" s)).
Definition ciba_row (r : BackchannelAuthRequest) : string :=
  "<div class=row><div><b>" +:+ ciba_esc (if str_is_empty (br_binding_message r) then "(no binding message)" else br_binding_message r)
  +:+ "</b><br><small>scope: " +:+ ciba_esc (br_scope r)
  +:+ template "</small></div><button onclick=`approve('" +:+ ciba_esc (br_auth_req_id r)
  +:+ template "')`>[[Approve (passkey)]]</button> <button class=rej onclick=`reject('" +:+ ciba_esc (br_auth_req_id r)
  +:+ template "')`>[[Reject]]</button></div>".
Definition ciba_pending (p : Provider) (hs : HeaderMap) (jar : gmap string string) : prog provE Response :=
  let lang := from_headers hs in
  account ← session_account jar;
  match account with
  | None =>
      mret (ok_page (HtmlBody (localize
        (template "<!doctype html><html lang=`__LANG__`><meta charset=`utf-8`><p>[[You need to log in to approve.]] <a href=`"
         +:+ path p "/" +:+ template "`>[[Log in]]</a></p>") lang)))
  | Some account =>
      pending ← ciba (ListPending account);
      let rows := foldr (fun r acc => ciba_row r +:+ acc) "" (default [] (result_ok pending)) in
      let rows := if str_is_empty rows then "<p>[[There are no pending requests.]]</p>" else rows in
      mret (ok_page (HtmlBody
        (str_replace "__ROWS__" (localize rows lang)
        (str_replace "__BASE__" (p_base_path p)
        (str_replace "__WEBAUTHN_JS__" WEBAUTHN_JS (localize CIBA_PAGE lang))))))
  end.

(** ** The confirmation mail *)

Definition email_shape (email : string) : bool := str_contains "@"%char email && (String.length email <=? 254)%nat.
(** Both limits are checked; the second one only when the first one grants. *)
Definition register_limits (email ip : string) : prog provE bool :=
  granted ← rate_check RegisterRate "email" email;
  if (granted : bool) then rate_check RegisterRate "ip" ip else mret false.

Definition issue_register_email (p : Provider) (email ip : string) (lang : option Lang) : prog provE (result string unit) :=
  if negb (email_shape email) then mret (Err "invalid email")
  else
    granted ← register_limits email ip;
    if negb granted then mret (Err "rate_limited")
    else
      known ←? sys (account_exists email);
      if (known : bool) then _ ← send_already_registered email lang; mret (Ok tt)
      else
        token ←? sys (create_email_challenge email);
        _ ← send_verification email (origin p +:+ "/r?t=" +:+ token) lang;
        mret (Ok tt).

Definition issue_answer (ok invalid limited internal : Response) (r : result string unit) : Response :=
  match r with
  | Ok _ => ok
  | Err e => if bool_decide (e = "invalid email") then invalid
             else if bool_decide (e = "rate_limited") then limited else internal
  end.
Definition register_submit (p : Provider) (hs : HeaderMap) (email : string) : prog provE Response :=
  let email := str_to_lowercase (str_trim email) in
  if negb (p_firestore p) then mret (plain_error "registration not available (no Firestore)")
  else
    let lang := from_headers hs in
    r ← issue_register_email p email (client_ip hs) (Some lang);
    mret (issue_answer
            (ok_page (page lang "[[Sent]]"
              "<h1>[[Confirmation email sent]]</h1><p>[[Open the link in the email and create a passkey to finish signing up (the link expires in 15 minutes).]]</p>"))
            (plain_error "invalid email") (text_reply 429 "rate limited; please retry later") (plain_error "internal error") r).
Definition register_email_challenge (p : Provider) (hs : HeaderMap) (email : string) : prog provE Response :=
  let email := str_to_lowercase (str_trim email) in
  if negb (p_firestore p) then mret no_firestore
  else
    r ← issue_register_email p email (client_ip hs) None;
    mret (issue_answer (Reply 204 [] NoBody) (text_reply 400 "invalid email") (text_reply 429 "rate limited") internal_error r).

Definition register_verify_email (p : Provider) (token : string) : prog provE Response :=
  if negb (p_firestore p) then mret no_firestore
  else
    r ← sys (peek_email_challenge token);
    match r with
    | Ok (Some email) =>
        e ← sys (account_exists email);
        mret (match e with
              | Ok true => text_reply 409 "already registered"
              | _ => Reply 200 [] (JsonBody (Object [("email", Str email); ("verified_token", Str token)]))
              end)
    | Ok None => mret (text_reply 400 "invalid or expired token")
    | Err _ => mret internal_error
    end.

(** ** Invitations *)

(** [split(['/', '?', '#']).next()]. *)
Fixpoint until_any (stop : list ascii) (s : string) : string :=
  match s with
  | "" => ""
  | String a s' => if bool_decide (a ∈ stop) then "" else String a (until_any stop s')
  end.
Definition url_origin (u : string) : option string :=
  sr ← str_split_once_str "://" u;
  let host := until_any ["/"; "?"; "#"]%char sr.2 in
  if str_is_empty host || str_contains "@"%char host then None
  else
    let hostname := first_of ":"%char host in
    if bool_decide (sr.1 = "https") then Some ("https://" +:+ host)
    else if bool_decide (sr.1 = "http") && (bool_decide (hostname = "localhost") || bool_decide (hostname = "127.0.0.1"))
    then Some ("http://" +:+ host)
    else None.

Definition unsafe_char (a : ascii) : bool :=
  bool_decide (a ∈ [ascii_of_nat 92; ascii_of_nat 34; "'"; "<"; ">"; "`"]%char).
Definition return_to_allowed (client : Client) (return_to : string) : bool :=
  if (2000 <? String.length return_to)%nat
     || any_char (fun s => starts_white s || starts_control s) return_to
     || negb (str_forall (fun a => negb (unsafe_char a)) return_to)
  then false
  else
    match url_origin return_to with
    | None => false
    | Some origin =>
        (bool_decide (return_to = origin) || starts_with (origin +:+ "/") return_to)
        && list_any (fun r => bool_decide (url_origin r = Some origin)) (cl_redirect_uris client)
    end.

Definition authorize_invite_client (p : Provider) (hs : HeaderMap) (form : gmap string string) :
    prog provE (result Response (Client * string)) :=
  client ←? authenticate_client p hs form;
  if is_public client || negb (list_any (fun i => bool_decide (i = cl_client_id client)) (p_invite_clients p))
  then mret (Err (text_reply 403 "client not allowed"))
  else
    let email := default "" ((fun e => str_to_lowercase (str_trim e)) <$> form !! "email") in
    mret (if negb (email_shape email) then Err (plain_error "invalid email") else Ok (client, email)).

Definition status_body (s : string) : Body := JsonBody (Object [("status", Str s)]).

Definition invite_create (p : Provider) (hs : HeaderMap) (form : gmap string string) : prog provE Response :=
  finish (
    if negb (p_firestore p) then mret (Err no_firestore)
    else
      ce ←? authorize_invite_client p hs form;
      let return_to := default "" (form !! "return_to") in
      if negb (return_to_allowed ce.1 return_to)
      then mret (Err (plain_error "return_to must be under a registered redirect_uri origin"))
      else
        c ← sys (get_credential ce.2);
        match c with
        | Ok (Some cred) => mret (Ok (Reply 200 [] (status_body (if cr_disabled cred then "disabled" else "registered"))))
        | Err _ => mret (Err internal_error)
        | Ok None =>
            t ← sys (create_invite_challenge ce.2 return_to);
            mret (match t with
                  | Ok token =>
                      Ok (Reply 201 [] (JsonBody (Object
                        [("status", Str "invited"); ("url", Str (origin p +:+ path p "/invite" +:+ "?t=" +:+ token))])))
                  | Err _ => Err internal_error
                  end)
        end).

(** An administrator is not frozen by a relying party. *)
Definition protection `{AdminCodec} (email : string) : prog provE (result Response unit) :=
  c ← sys (get_credential email);
  match c with
  | Ok None => mret (Ok tt)
  | Err _ => mret (Err internal_error)
  | Ok (Some cred) =>
      a ← sys (is_admin (cr_account_id cred));
      mret (match a with
            | Ok true => Err (Reply 409 [] (status_body "protected"))
            | Ok false => Ok tt
            | Err _ => Err internal_error
            end)
  end.
Definition account_disable `{AdminCodec} (p : Provider) (hs : HeaderMap) (form : gmap string string) : prog provE Response :=
  finish (
    if negb (p_firestore p) then mret (Err no_firestore)
    else
      ce ←? authorize_invite_client p hs form;
      _ ←? protection ce.2;
      o ← sys (disable_account ("client:" +:+ cl_client_id ce.1) ce.2);
      mret (match o with
            | Ok (Disabled _) => Ok (Reply 200 [] (status_body "disabled"))
            | Ok (AlreadyDisabled _) => Ok (Reply 200 [] (status_body "already_disabled"))
            | Ok DisableNotFound => Ok (Reply 200 [] (status_body "not_found"))
            | Err _ => Err internal_error
            end)).

Definition invite_page (p : Provider) (hs : HeaderMap) (t : string) : prog provE Response :=
  finish (
    let lang := from_headers hs in
    if negb (p_firestore p) then mret (Err no_firestore)
    else
      i ← sys (peek_invite t);
      match i with
      | Ok None =>
          mret (Err (Reply 400 [] (page lang "[[Invitation expired]]"
            "<h1>[[This invitation cannot be used]]</h1><p>[[It has expired or has already been used. Ask the person who invited you to send it again.]]</p>")))
      | Err _ => mret (Err internal_error)
      | Ok (Some (email, return_to)) =>
          e ← sys (account_exists email);
          mret (Ok (match e with
                    | Ok true => RedirectTo return_to
                    | _ => passkey_register_page p lang t (Some return_to)
                    end))
      end).

(** An invitation is of no use once its address is registered. *)
Definition refuse_invite_for_registered (token : string) : prog provE (result Response unit) :=
  i ← sys (peek_invite token);
  match i with
  | Ok None => mret (Ok tt)
  | Err _ => mret (Err internal_error)
  | Ok (Some (email, _)) =>
      e ← sys (account_exists email);
      mret (match e with
            | Ok false => Ok tt
            | Ok true => Err (text_reply 409 "already registered")
            | Err _ => Err internal_error
            end)
  end.

(** ** The passkey *)

Definition reg_options_body (p : Provider) (challenge account_id email : string) (existing : option Credential) : Value :=
  Object [("challenge", Str challenge);
          ("rp", Object [("id", Str (rp_id p)); ("name", Str "rust-op")]);
          ("user", Object [("id", Str (b64url_encode account_id)); ("name", Str email); ("displayName", Str email)]);
          ("pubKeyCredParams", Array [Object [("type", Str "public-key"); ("alg", Number (NInt (-7)))]]);
          ("authenticatorSelection", Object [("requireResidentKey", Bool false); ("residentKey", Str "preferred");
                                             ("userVerification", Str "preferred")]);
          ("attestation", Str "none"); ("timeout", Number (NInt 60000));
          ("excludeCredentials", Array (match existing with
             | Some c => [Object [("type", Str "public-key"); ("id", Str (cr_credential_id c))]]
             | None => [] end))].

(** The account of a known address is kept; otherwise a new one is drawn. *)
Definition account_to_register (existing : option Credential) : prog provE string :=
  match existing ≫= fun c => if str_is_empty (cr_account_id c) then None else Some (cr_account_id c) with
  | Some id_ => mret id_
  | None => fresh_id
  end.

Definition register_passkey_options (p : Provider) (token : string) : prog provE Response :=
  finish (
    if negb (p_firestore p) then mret (Err no_firestore)
    else
      _ ←? refuse_invite_for_registered token;
      e ← sys (peek_email_challenge token);
      email ←? mret (match e with
                     | Ok (Some email) => Ok email
                     | Ok None => Err (text_reply 400 "invalid or expired token")
                     | Err _ => Err internal_error
                     end);
      c ← sys (get_credential email);
      let existing := default None (result_ok c) in
      account_id ← account_to_register existing;
      ch ← sys (create_webauthn_challenge email Reg "" account_id);
      mret (match ch with
            | Ok challenge => Ok (Reply 200 [] (JsonBody (reg_options_body p challenge account_id email existing)))
            | Err _ => Err internal_error
            end)).

Definition NAME_MAX_CHARS : nat := 80.
Definition normalize_name (raw : option string) : result string (option string) :=
  let name := default "" (str_trim <$> raw) in
  if str_is_empty name then Ok None
  else if (NAME_MAX_CHARS <? chars_count name)%nat || any_char (fun s => starts_control s || is_bidi_control s) name
  then Err "invalid name"
  else Ok (Some name).

Record RegVerifyReq := mkRegVerifyReq {
  rv_token : string;
  rv_client_data_json : string;
  rv_attestation_object : string;
  rv_name : option string
}.

(** Without a name, only an ordinary token goes on. *)
Definition name_required (token : string) (name : option string) : prog provE (result Response unit) :=
  match name with
  | Some _ => mret (Ok tt)
  | None =>
      i ← sys (peek_invite token);
      mret (match i with
            | Ok (Some _) => Err (plain_error "name required")
            | Ok None => Ok tt
            | Err _ => Err internal_error
            end)
  end.
(** The address and the account of the two challenges, both consumed. *)
Definition reg_challenges (req : RegVerifyReq) : prog provE (result Response (string * string * string)) :=
  e ← sys (consume_email_challenge (rv_token req));
  email1 ←? mret (match e with
                  | Ok (Some email) => Ok email
                  | Ok None => Err (text_reply 400 "invalid or expired token")
                  | Err _ => Err internal_error
                  end);
  challenge ←? mret (ok_or (text_reply 400 "no challenge") (extract_challenge (rv_client_data_json req)));
  ch ← sys (consume_webauthn_challenge challenge);
  t ←? mret (match ch with
             | Ok (Some t) => Ok t
             | Ok None => Err (text_reply 400 "challenge invalid/expired")
             | Err _ => Err internal_error
             end);
  let '(email2, kind, _, account_id) := t in
  mret (if negb (bool_decide (kind = Reg)) || negb (bool_decide (email2 = email1)) || str_is_empty account_id
        then Err (text_reply 400 "challenge context mismatch")
        else Ok (email1, challenge, account_id)).

Definition register_passkey_verify (p : Provider) (req : RegVerifyReq) : prog provE Response :=
  finish (
    if negb (p_firestore p) then mret (Err no_firestore)
    else
      _ ←? refuse_invite_for_registered (rv_token req);
      name ←? mret (map_err plain_error (normalize_name (rv_name req)));
      _ ←? name_required (rv_token req) name;
      x ←? reg_challenges req;
      let '(email1, challenge, account_id) := x in
      outcome ←? mret (map_err (fun e => text_reply 400 ("registration failed: " +:+ e))
                         (verify_registration (rv_client_data_json req) (rv_attestation_object req) challenge (origin p) (rp_id p)));
      s ← sys (save_credential email1 account_id outcome);
      match s with
      | Err _ => mret (Err internal_error)
      | Ok _ =>
          _ ← (match name with
               | Some name => _ ← sys (save_profile account_id {[ "name" := name ]}); mret tt
               | None => mret tt
               end);
          mret (Ok (Reply 201 [] (JsonBody (Object [("ok", Bool true); ("redirect", Str (path p "/"))]))))
      end).
End signup.
