(* ===== verification/AdminWeb.v ===== *)
(** * The administration console

    [src/src/web/admin.rs]: the pages and forms of administrators over the accounts, the
    registry, the clients, the initial access tokens and the audit log.  The reads of a
    [join!] are independent; they stand in the order in which the macro starts them. *)

From S2P Require Import Prelude Prog Json Model Decimal Calendar Firestore Externals Es256 WebAuthn Sys Nonce Ciba Dcr.
From S2P Require Import Claims Accounts AdminStore DcrStore Store Provider Http I18n Fcm.

#[local] Open Scope Z_scope.

(** ** Helpers *)

Fixpoint esc (s : string) : string :=
  match s with
  | "" => ""
  | String c r =>
      (if bool_decide (c = "&"%char) then "&amp;"
       else if bool_decide (c = "<"%char) then "&lt;"
       else if bool_decide (c = ">"%char) then "&gt;"
       else if bool_decide (c = ascii_of_nat 34) then "&quot;"
       else if bool_decide (c = "'"%char) then "&#39;"
       else String c "") +:+ esc r
  end.

(** [split] at each of the characters. *)
Fixpoint split_any (stop : list ascii) (s : string) : list string :=
  match s with
  | "" => [""]
  | String c r =>
      if bool_decide (c ∈ stop) then "" :: split_any stop r
      else match split_any stop r with x :: l => String c x :: l | [] => [String c ""] end
  end.
Definition items (stop : list ascii) (s : string) : list string :=
  List.filter (fun x => negb (str_is_empty x)) (map str_trim (split_any stop s)).
Definition CR : ascii := ascii_of_nat 13.
Definition LF : ascii := ascii_of_nat 10.

Fixpoint concat_map {A} (f : A -> string) (l : list A) : string :=
  match l with [] => "" | x :: l' => f x +:+ concat_map f l' end.

Definition nav (p : Provider) : string :=
  template "<nav><a href=`" +:+ path p "/admin" +:+ template "`>Admin</a><a href=`" +:+ path p "/admin/users"
  +:+ template "`>Users</a><a href=`" +:+ path p "/admin/clients" +:+ template "`>Clients</a><a href=`"
  +:+ path p "/admin/iats" +:+ template "`>IATs</a><a href=`" +:+ path p "/admin/audit"
  +:+ template "`>Audit</a><a href=`" +:+ path p "/end-session" +:+ template "`>Sign out</a></nav>".

Definition page (p : Provider) (lang : Lang) (title body : string) : Body :=
  HtmlBody (localize
    (template "<!doctype html><html lang=`__LANG__`><head><meta charset=`utf-8`>
<meta name=`viewport` content=`width=device-width,initial-scale=1`><title>" +:+ title +:+ template "</title>
<style>
:root{--indigo:#3f51b5;--indigo-d:#303f9f;--bg:#fafafa;--border:#e0e0e0}
body{font-family:-apple-system,'Helvetica Neue',sans-serif;max-width:960px;margin:0 auto;padding:24px 16px;line-height:1.6;color:#1a1a1a}
nav{margin-bottom:24px;padding-bottom:12px;border-bottom:1px solid var(--border)}
nav a{margin-right:16px;color:var(--indigo);text-decoration:none;font-weight:500}
nav a:hover{text-decoration:underline}
h1{font-size:1.4rem}
table{width:100%;border-collapse:collapse;margin:16px 0}
th,td{text-align:left;padding:8px 12px;border-bottom:1px solid var(--border);font-size:14px;vertical-align:top}
th{color:#666;font-weight:600}
tr:hover{background:var(--bg)}
.badge{display:inline-block;padding:2px 8px;border-radius:10px;font-size:12px;font-weight:600}
.badge-warn{background:#fce8e6;color:#c5221f}
.badge-ok{background:#e6f4ea;color:#137333}
.btn{display:inline-block;padding:8px 16px;font-size:14px;font-weight:500;background:var(--indigo);color:#fff;border:0;border-radius:6px;cursor:pointer;text-decoration:none}
.btn:hover{background:var(--indigo-d)}
.btn-danger{background:#c5221f}
.btn-danger:hover{background:#a3170f}
form.inline{display:inline-block;margin-right:8px}
input,textarea{display:block;width:100%;box-sizing:border-box;padding:8px;margin:6px 0 14px;font-size:14px;border:1px solid var(--border);border-radius:4px;font-family:inherit}
label{display:block;font-size:13px;color:#666;font-weight:600;margin-top:10px}
code{background:var(--bg);padding:2px 6px;border-radius:4px;font-size:13px}
</style>
</head><body>" +:+ nav p +:+ body +:+ "</body></html>") lang).

Definition shown (b : Body) : Response := Reply 200 [] b.
Definition text (status : Z) (lang : Lang) (tpl : string) : Response := text_reply status (localize tpl lang).
Definition redirect (p : Provider) (to : string) : Response := RedirectTo (path p to).
Definition server_error : Response := text_reply 500 "internal error".
Definition user_not_found : Response := text_reply 404 "user not found".

Section admin.
Context `{Externals, AdminCodec, IatCodec}.

(** ** Who may enter *)

Definition require_admin (p : Provider) (jar : gmap string string) : prog provE (result Response string) :=
  a ← session_account jar;
  account_id ←? mret (ok_or (text_reply 401 "login required") a);
  if negb (p_firestore p) then mret (Err (text_reply 503 "admin console unavailable"))
  else
    r ← sys (is_admin account_id);
    mret (match r with
          | Ok true => Ok account_id
          | Ok false => Err (text_reply 403 "admin only")
          | Err _ => Err (text_reply 503 "admin check failed")
          end).

Definition whoami (p : Provider) (jar : gmap string string) : prog provE Response :=
  finish (
    account_id ←? require_admin p jar;
    mret (Ok (Reply 200 [] (JsonBody (Object [("account_id", Str account_id)]))))).

Definition admin_home (p : Provider) (hs : HeaderMap) (jar : gmap string string) : prog provE Response :=
  finish (
    _ ←? require_admin p jar;
    mret (Ok (shown (page p (from_headers hs) "[[Admin console]]"
      "<h1>[[Admin console]]</h1><p>[[Choose an action from the navigation above.]]</p>")))).

(** ** Users *)

Definition user_path (account_id : string) : string := "/admin/users/" +:+ account_id.
Definition user_row (p : Provider) (admins : list string) (a : AccountSummary) : string :=
  let status := template (if as_disabled a then "<span class=`badge badge-warn`>disabled</span>"
                          else "<span class=`badge badge-ok`>active</span>") in
  let admin_badge := if bool_decide (as_account_id a ∈ admins) then template " <span class=`badge badge-ok`>admin</span>" else "" in
  template "<tr><td><a href=`" +:+ esc (path p (user_path (as_account_id a))) +:+ template "`>" +:+ esc (as_email a)
  +:+ "</a>" +:+ admin_badge +:+ "</td><td>" +:+ status +:+ "</td><td>" +:+ u64_to_string (as_sign_count a)
  +:+ "</td><td>" +:+ esc (rfc3339 (as_created_at a)) +:+ "</td></tr>".
Definition users_list (p : Provider) (hs : HeaderMap) (jar : gmap string string) : prog provE Response :=
  finish (
    _ ←? require_admin p jar;
    a ← sys list_accounts;
    ad ← sys list_admins;
    mret (match a with
          | Err _ => Err server_error
          | Ok accounts =>
              let accounts := sort_by (fun x y => str_cmp (as_email x) (as_email y)) accounts in
              let admins := default [] (result_ok ad) in
              Ok (shown (page p (from_headers hs) "Users"
                ("<h1>Users (" +:+ u64_to_string (Z.of_nat (List.length accounts))
                 +:+ ")</h1><table><tr><th>Email</th><th>[[Status]]</th><th>sign_count</th><th>[[Registered]]</th></tr>"
                 +:+ concat_map (user_row p admins) accounts +:+ "</table>")))
          end)).

Definition delete_control (p : Provider) (account_id : string) (is_admin_user : bool) : string :=
  if is_admin_user
  then template "<span style=`color:#666;font-size:13px`>[[Admins cannot be deleted (revoke admin first).]]</span>"
  else
    template "<form class=`inline` method=`post` action=`" +:+ esc (path p (user_path account_id +:+ "/delete"))
    +:+ template "` onsubmit=`return confirm('[[Delete this account permanently? Its passkey, profile, and notification registration are also removed, and this cannot be undone (the CIBA approval history is kept).]]')`><button class=`btn btn-danger` type=`submit`>[[Delete]]</button></form>".
Definition disable_control (p : Provider) (account_id : string) (disabled is_self is_admin_user : bool) : string :=
  if disabled
  then
    template "<form class=`inline` method=`post` action=`" +:+ esc (path p (user_path account_id +:+ "/enable"))
    +:+ template "`><button class=`btn` type=`submit`>[[Enable]]</button></form> " +:+ delete_control p account_id is_admin_user
  else if is_self
  then template "<span style=`color:#666;font-size:13px`>[[You cannot disable yourself (your session would end immediately).]]</span>"
  else
    template "<form class=`inline` method=`post` action=`" +:+ esc (path p (user_path account_id +:+ "/disable"))
    +:+ template "` onsubmit=`return confirm('[[Disable this account? Its sessions and tokens are also revoked.]]')`><button class=`btn btn-danger` type=`submit`>[[Disable]]</button></form>".
Definition admin_control (p : Provider) (account_id : string) (is_self is_admin_user : bool) : string :=
  if is_admin_user
  then
    template "<form class=`inline` method=`post` action=`" +:+ esc (path p (user_path account_id +:+ "/revoke-admin"))
    +:+ template "` onsubmit=`return confirm('" +:+ (if is_self then "[[Revoke your own admin rights?]]" else "[[Revoke admin rights?]]")
    +:+ template "')`><button class=`btn btn-danger` type=`submit`>[[Revoke admin]]</button></form>"
  else
    template "<form class=`inline` method=`post` action=`" +:+ esc (path p (user_path account_id +:+ "/grant-admin"))
    +:+ template "`><button class=`btn` type=`submit`>[[Make admin]]</button></form>".
Definition history_row (e : AuditEntry) : string :=
  "<tr><td>" +:+ esc (rfc3339 (au_at e)) +:+ "</td><td>" +:+ esc (au_actor e) +:+ "</td><td>" +:+ esc (au_action e)
  +:+ "</td><td>" +:+ esc (au_detail e) +:+ "</td></tr>".
Definition audit_table (audit : list AuditEntry) : string :=
  match audit with
  | [] => "<p>[[No history.]]</p>"
  | _ => "<table><tr><th>[[Time]]</th><th>[[Actor]]</th><th>[[Action]]</th><th>[[Details]]</th></tr>"
         +:+ concat_map history_row audit +:+ "</table>"
  end.
Definition user_body (p : Provider) (email account_id : string) (cred : Credential) (is_self is_admin_user : bool)
    (audit : list AuditEntry) : string :=
  "<h1>" +:+ esc email +:+ "</h1>
<p>account_id: <code>" +:+ esc account_id +:+ "</code></p>
<p>credential_id: <code>" +:+ esc (cr_credential_id cred) +:+ "</code></p>
<p>sign_count: " +:+ u64_to_string (cr_sign_count cred) +:+ "</p>
<p>[[Status]]: " +:+ (if cr_disabled cred then "[[Disabled]]" else "[[Active]]") +:+ " / [[Role]]: "
  +:+ (if is_admin_user then "[[Admin]]" else "[[Regular user]]") +:+ "</p>
<p>" +:+ disable_control p account_id (cr_disabled cred) is_self is_admin_user +:+ " "
  +:+ admin_control p account_id is_self is_admin_user +:+ "</p>
<h2>[[History]]</h2>
" +:+ audit_table audit +:+ template "
<p><a href=`" +:+ esc (path p "/admin/users") +:+ template "`>&larr; [[Back to the list]]</a></p>".
Definition user_detail (p : Provider) (hs : HeaderMap) (jar : gmap string string) (account_id : string) : prog provE Response :=
  finish (
    viewer ←? require_admin p jar;
    em ← sys (find_email_by_account_id account_id);
    ad ← sys (is_admin account_id);
    au ← sys (list_for_target account_id);
    email ←? mret (match em with Ok (Some e) => Ok e | Ok None => Err user_not_found | Err _ => Err server_error end);
    c ← sys (get_credential email);
    cred ←? mret (match c with Ok (Some c) => Ok c | Ok None => Err user_not_found | Err _ => Err server_error end);
    is_admin_user ←? mret (map_err (fun _ => server_error) ad);
    mret (Ok (shown (page p (from_headers hs) ("User: " +:+ esc email)
      (user_body p email account_id cred (bool_decide (account_id = viewer)) is_admin_user (default [] (result_ok au))))))).

(** The account of a path, for the operations that work on addresses. *)
Definition email_of_path (account_id : string) : prog provE (result Response string) :=
  em ← sys (find_email_by_account_id account_id);
  mret (match em with Ok (Some e) => Ok e | Ok None => Err user_not_found | Err _ => Err server_error end).

Definition user_disable (p : Provider) (hs : HeaderMap) (jar : gmap string string) (account_id : string) : prog provE Response :=
  finish (
    viewer ←? require_admin p jar;
    if bool_decide (account_id = viewer)
    then mret (Err (text 403 (from_headers hs) "[[You cannot disable yourself]]"))
    else
      email ←? email_of_path account_id;
      r ← sys (disable_account viewer email);
      mret (match r with Ok _ => Ok (redirect p (user_path account_id)) | Err _ => Err server_error end)).

Definition user_enable (p : Provider) (jar : gmap string string) (account_id : string) : prog provE Response :=
  finish (
    viewer ←? require_admin p jar;
    email ←? email_of_path account_id;
    r ← sys (enable_account viewer email);
    mret (match r with Ok _ => Ok (redirect p (user_path account_id)) | Err _ => Err server_error end)).

Definition user_delete (p : Provider) (hs : HeaderMap) (jar : gmap string string) (account_id : string) : prog provE Response :=
  finish (
    viewer ←? require_admin p jar;
    a ← sys (is_admin account_id);
    _ ←? mret (match a with
               | Ok true => Err (text 409 (from_headers hs) "[[Admins cannot be deleted. Revoke admin first]]")
               | Ok false => Ok tt
               | Err _ => Err server_error
               end);
    email ←? email_of_path account_id;
    r ← sys (delete_account viewer email);
    mret (match r with
          | Ok (Deleted _) => Ok (redirect p "/admin/users")
          | Ok NotDisabled =>
              Err (text 409 (from_headers hs) "[[An account that is not disabled cannot be deleted. Disable it first]]")
          | Ok DeleteNotFound => Err user_not_found
          | Err _ => Err server_error
          end)).

Definition conflicted (hs : HeaderMap) : Response :=
  text 409 (from_headers hs) "[[This conflicted with another change. Please try again]]".

Definition user_grant_admin (p : Provider) (hs : HeaderMap) (jar : gmap string string) (account_id : string) : prog provE Response :=
  finish (
    viewer ←? require_admin p jar;
    r ← sys (grant_admin account_id viewer);
    match r with
    | Ok Granted =>
        _ ← sys (audit_record viewer "grant_admin" account_id "");
        mret (Ok (redirect p (user_path account_id)))
    | Ok AlreadyAdmin => mret (Ok (redirect p (user_path account_id)))
    | Ok GrantConflict => mret (Err (conflicted hs))
    | Err _ => mret (Err server_error)
    end).

(** After giving up the own rights every page of the console answers 403: the last page
    is shown instead of a redirection. *)
Definition user_revoke_admin (p : Provider) (hs : HeaderMap) (jar : gmap string string) (account_id : string) : prog provE Response :=
  finish (
    viewer ←? require_admin p jar;
    r ← sys (revoke_admin account_id);
    match r with
    | Ok Revoked =>
        _ ← sys (audit_record viewer "revoke_admin" account_id "");
        mret (Ok (if bool_decide (account_id = viewer)
                  then shown (page p (from_headers hs) "[[You gave up admin rights]]"
                         "<h1>[[You gave up admin rights]]</h1><p>[[You can no longer access the admin console.]]</p>")
                  else redirect p (user_path account_id)))
    | Ok NotAdmin => mret (Ok (redirect p (user_path account_id)))
    | Ok LastAdminGuard => mret (Err (text 409 (from_headers hs) "[[The last admin cannot be revoked]]"))
    | Ok RevokeConflict => mret (Err (conflicted hs))
    | Err _ => mret (Err server_error)
    end).

Definition audit_row (e : AuditEntry) : string :=
  "<tr><td>" +:+ esc (rfc3339 (au_at e)) +:+ "</td><td>" +:+ esc (au_actor e) +:+ "</td><td>" +:+ esc (au_action e)
  +:+ "</td><td>" +:+ esc (au_target e) +:+ "</td><td>" +:+ esc (au_detail e) +:+ "</td></tr>".
Definition audit_list (p : Provider) (hs : HeaderMap) (jar : gmap string string) : prog provE Response :=
  finish (
    _ ←? require_admin p jar;
    r ← sys (list_recent 200);
    mret (match r with
          | Err _ => Err server_error
          | Ok entries =>
              let lang := from_headers hs in
              let heading := str_replace "{n}" (u64_to_string (Z.of_nat (List.length entries)))
                               (localize "[[Audit log (latest {n})]]" lang) in
              Ok (shown (page p lang "Audit Log"
                ("<h1>" +:+ heading +:+ "</h1><table><tr><th>[[Time]]</th><th>[[Actor]]</th><th>[[Action]]</th><th>[[Target]]</th><th>[[Details]]</th></tr>"
                 +:+ concat_map audit_row entries +:+ "</table>")))
          end)).

(** ** Clients *)

Definition client_path (client_id : string) : string := "/admin/clients/" +:+ client_id.
Definition client_row (p : Provider) (c : Client) : string :=
  template "<tr><td><a href=`" +:+ esc (path p (client_path (cl_client_id c))) +:+ template "`>" +:+ esc (cl_client_id c)
  +:+ "</a></td><td>" +:+ esc (cl_token_endpoint_auth_method c) +:+ "</td><td>" +:+ esc (join ", " (cl_grant_types c))
  +:+ "</td></tr>".
Definition clients_list (p : Provider) (hs : HeaderMap) (jar : gmap string string) : prog provE Response :=
  finish (
    _ ←? require_admin p jar;
    r ← sys list_clients;
    mret (match r with
          | Err _ => Err server_error
          | Ok clients =>
              let clients := sort_by (fun a b => str_cmp (cl_client_id a) (cl_client_id b)) clients in
              Ok (shown (page p (from_headers hs) "Clients"
                ("<h1>Clients (" +:+ u64_to_string (Z.of_nat (List.length clients))
                 +:+ ")</h1><table><tr><th>client_id</th><th>[[Auth method]]</th><th>grant_types</th></tr>"
                 +:+ concat_map (client_row p) clients +:+ "</table>")))
          end)).

Definition uri_items (none : string) (uris : list string) : string :=
  match uris with [] => none | _ => concat_map (fun u => "<li><code>" +:+ esc u +:+ "</code></li>") uris end.
Definition client_body (p : Provider) (c : Client) : string :=
  let jwks := match cl_jwks c with
              | [] => "<li>[[(none)]]</li>"
              | ks => concat_map (fun k => "<li>kid=<code>" +:+ esc (jwk_kid k) +:+ "</code></li>") ks
              end in
  "<h1>" +:+ esc (cl_client_id c) +:+ "</h1>
<p>token_endpoint_auth_method: <code>" +:+ esc (cl_token_endpoint_auth_method c) +:+ "</code></p>
<p>client_secret: " +:+ (if bool_decide (is_Some (cl_client_secret c)) then "[[Set]]" else "[[None]]") +:+ "</p>
<p>grant_types: " +:+ esc (join ", " (cl_grant_types c)) +:+ "</p>
<p>redirect_uris:</p><ul>" +:+ uri_items "<li>[[(none)]]</li>" (cl_redirect_uris c) +:+ "</ul>
<p>post_logout_redirect_uris:</p><ul>"
  +:+ uri_items "<li>[[(none — this client has no return address after sign-out)]]</li>" (cl_post_logout_redirect_uris c)
  +:+ template "</ul>
<form method=`post` action=`" +:+ esc (path p (client_path (cl_client_id c) +:+ "/post-logout")) +:+ template "`>
<label for=`post_logout_redirect_uris`>[[post_logout_redirect_uris (one per line; leave empty for no return address)]]</label>
<textarea id=`post_logout_redirect_uris` name=`post_logout_redirect_uris` rows=`3` cols=`60`>"
  +:+ esc (join NL (cl_post_logout_redirect_uris c)) +:+ template "</textarea>
<button class=`btn` type=`submit`>[[Save return addresses]]</button>
</form>
<p>jwks_uri: " +:+ match cl_jwks_uri c with Some u => esc u | None => "[[None]]" end +:+ "</p>
<p>jwks kids:</p><ul>" +:+ jwks +:+ "</ul>
<p>require_par: " +:+ bool_to_string (cl_require_par c) +:+ " / require_pkce: " +:+ bool_to_string (cl_require_pkce c)
  +:+ " / dpop_bound: " +:+ bool_to_string (cl_dpop_bound c) +:+ template "</p>
<form method=`post` action=`" +:+ esc (path p (client_path (cl_client_id c) +:+ "/revoke"))
  +:+ template "` onsubmit=`return confirm('[[Revoke this client? This cannot be undone.]]')`><button class=`btn btn-danger` type=`submit`>Revoke</button></form>
<p><a href=`" +:+ esc (path p "/admin/clients") +:+ template "`>&larr; [[Back to the list]]</a></p>".
Definition client_not_found : Response := text_reply 404 "client not found".
Definition client_detail (p : Provider) (hs : HeaderMap) (jar : gmap string string) (client_id : string) : prog provE Response :=
  finish (
    _ ←? require_admin p jar;
    c ← sys (load_client client_id);
    mret (match c with
          | None => Err client_not_found
          | Some c => Ok (shown (page p (from_headers hs) ("Client: " +:+ esc (cl_client_id c)) (client_body p c)))
          end)).

Definition set_post_logout (uris : list string) (c : Client) : Client :=
  mkClient (cl_client_id c) (cl_redirect_uris c) (cl_token_endpoint_auth_method c) (cl_client_secret c) (cl_grant_types c)
    uris (cl_dpop_bound c) (cl_jwks c) (cl_jwks_uri c) (cl_require_par c) (cl_require_pkce c) (cl_id_token_signed_response_alg c).
(** [form] is the text area of the form. *)
Definition client_set_post_logout (p : Provider) (hs : HeaderMap) (jar : gmap string string) (client_id form : string) :
    prog provE Response :=
  finish (
    viewer ←? require_admin p jar;
    let uris := items [LF; CR] form in
    r ← sys (load_client_with_version client_id);
    cv ←? mret (match r with Ok (Some x) => Ok x | Ok None => Err client_not_found | Err _ => Err server_error end);
    _ ←? mret (map_err plain_error (check_admin_post_logout_uris uris (cl_redirect_uris cv.1)));
    w ← sys (put_client_if_unchanged (set_post_logout uris cv.1) cv.2);
    match w with
    | Ok true =>
        _ ← sys (audit_record viewer "set_post_logout_redirect_uris" client_id (join " " uris));
        mret (Ok (redirect p (client_path client_id)))
    | Ok false =>
        mret (Err (text 409 (from_headers hs) "[[This client was changed by another update. Reopen it and try again.]]"))
    | Err _ => mret (Err server_error)
    end).

Definition client_revoke (p : Provider) (jar : gmap string string) (client_id : string) : prog provE Response :=
  finish (
    viewer ←? require_admin p jar;
    r ← sys (revoke_client client_id);
    match r with
    | Ok true =>
        _ ← sys (audit_record viewer "revoke_client" client_id "");
        mret (Ok (redirect p "/admin/clients"))
    | Ok false => mret (Ok (redirect p "/admin/clients"))
    | Err _ => mret (Err server_error)
    end).

(** ** Initial access tokens *)

Definition profile_label (pr : ClientProfile) : string :=
  match pr with Public => "public" | ConfidentialSecret => "confidential-secret" | ConfidentialKey => "confidential-key" end.
Definition profile_of_label (s : string) : option ClientProfile :=
  if bool_decide (s = "public") then Some Public
  else if bool_decide (s = "confidential-secret") then Some ConfidentialSecret
  else if bool_decide (s = "confidential-key") then Some ConfidentialKey
  else None.

Definition iat_row (p : Provider) (now : Z) (i : PendingIat) : string :=
  let badge := template (if pi_expires_at i <? now then "<span class=`badge badge-warn`>expired</span>"
                         else "<span class=`badge badge-ok`>pending</span>") in
  "<tr><td><code>" +:+ esc (slice 0 (Nat.min (String.length (pi_hash i)) 16) (pi_hash i)) +:+ "&hellip;</code></td><td>"
  +:+ profile_label (ic_profile (pi_constraints i)) +:+ "</td><td>"
  +:+ esc (join ", " (ic_allowed_redirect_hosts (pi_constraints i))) +:+ "</td><td>"
  +:+ esc (join ", " (ic_allowed_grant_types (pi_constraints i))) +:+ "</td><td>" +:+ badge
  +:+ (if pi_reusable i then template " <span class=`badge`>reusable</span>" else "")
  +:+ template "</td>
<td><form method=`post` action=`" +:+ esc (path p ("/admin/iats/" +:+ pi_hash i +:+ "/revoke"))
  +:+ template "` onsubmit=`return confirm('[[Discard this IAT?]]')`>
<input type=`hidden` name=`update_time` value=`" +:+ esc (pi_update_time i) +:+ template "`>
<button class=`btn btn-danger` type=`submit`>Revoke</button></form></td></tr>".
Definition iats_pending_list (p : Provider) (hs : HeaderMap) (jar : gmap string string) : prog provE Response :=
  finish (
    _ ←? require_admin p jar;
    r ← sys list_pending_iats;
    match r with
    | Err _ => mret (Err server_error)
    | Ok iats =>
        let iats := sort_by (fun a b => Z.compare (pi_expires_at b) (pi_expires_at a)) iats in
        t ← now;
        mret (Ok (shown (page p (from_headers hs) "Pending IATs"
          ("<h1>[[Unused IATs]] (" +:+ u64_to_string (Z.of_nat (List.length iats)) +:+ template ")</h1><p><a class=`btn` href=`"
           +:+ esc (path p "/admin/iats/new") +:+ template "`>+ [[New mint]]</a></p>
<table><tr><th>hash</th><th>profile</th><th>redirect hosts</th><th>grant types</th><th>[[Status]]</th><th></th></tr>"
           +:+ concat_map (iat_row p t) iats +:+ "</table>"))))
    end).

Definition iat_revoke (p : Provider) (jar : gmap string string) (hash update_time : string) : prog provE Response :=
  finish (
    viewer ←? require_admin p jar;
    r ← sys (consume_iat hash update_time);
    match r with
    | Ok true =>
        _ ← sys (audit_record viewer "revoke_iat" hash "");
        mret (Ok (redirect p "/admin/iats"))
    | Ok false => mret (Ok (redirect p "/admin/iats"))
    | Err _ => mret (Err server_error)
    end).

Definition iat_mint_form (p : Provider) (hs : HeaderMap) (jar : gmap string string) : prog provE Response :=
  finish (
    _ ←? require_admin p jar;
    mret (Ok (shown (page p (from_headers hs) "Mint IAT"
      (template "<h1>[[Mint a new IAT]]</h1>
<form method=`post` action=`" +:+ esc (path p "/admin/iats/new") +:+ template "`>
<label>[[Client profile]]</label>
<label style=`font-weight:normal`><input type=`radio` name=`profile` value=`confidential-key` checked> [[Confidential Key (private_key_jwt, FAPI2 equivalent)]]</label>
<label style=`font-weight:normal`><input type=`radio` name=`profile` value=`confidential-secret`> [[Confidential Secret (client_secret_basic)]]</label>
<label style=`font-weight:normal`><input type=`radio` name=`profile` value=`public`> [[Public (none)]]</label>
<label>[[Allowed redirect hosts (one per line or comma-separated; at least one required)]]</label>
<textarea name=`redirect_hosts` rows=`3` required placeholder=`rp.example.com`></textarea>
<label>[[Allowed grant_type (default: authorization_code, refresh_token)]]</label>
<input name=`grant_types` placeholder=`authorization_code, refresh_token`>
<label>[[Expires in (hours)]]</label>
<input name=`ttl_hours` type=`number` value=`24` min=`1`>
<button class=`btn` type=`submit`>Mint</button>
</form>"))))).

Record IatMintForm := mkIatMintForm {
  im_profile : string;
  im_redirect_hosts : string;
  im_grant_types : string;
  im_ttl_hours : Z
}.
Definition MAX_TTL_HOURS : Z := 24 * 365.
(** The constraints of the form, checked. *)
Definition mint_constraints (lang : Lang) (form : IatMintForm) : result Response IatConstraints :=
  profile ← ok_or (text_reply 400 "invalid profile") (profile_of_label (im_profile form));
  let hosts := items [","%char; LF; CR] (im_redirect_hosts form) in
  if (List.length hosts =? 0)%nat then Err (text 400 lang "[[Specify at least one redirect host]]")
  else
    let grants := items [","%char; LF; CR; " "%char] (im_grant_types form) in
    let grants := match grants with [] => ["authorization_code"; "refresh_token"] | _ => grants end in
    if (im_ttl_hours form =? 0) || (MAX_TTL_HOURS <? im_ttl_hours form)
    then Err (text_reply 400 (str_replace "{max}" (u64_to_string MAX_TTL_HOURS)
                (localize "[[ttl_hours must be between 1 and {max} (365 days)]]" lang)))
    else Ok (mkIatConstraints hosts grants profile).
(** [checked_mul] and [checked_add]. *)
Definition u64_checked (z : Z) : option Z := if (0 <=? z) && (z <=? u64_max) then Some z else None.
Definition mint_expiry (now ttl_hours : Z) : option Z := secs ← u64_checked (ttl_hours * 3600); u64_checked (now + secs).
Definition mint_detail (c : IatConstraints) (ttl_hours : Z) : string :=
  "profile=" +:+ profile_label (ic_profile c) +:+ " hosts=" +:+ join "," (ic_allowed_redirect_hosts c) +:+ " grants="
  +:+ join "," (ic_allowed_grant_types c) +:+ " ttl_hours=" +:+ u64_to_string ttl_hours.
Definition draw_token : prog provE (string * string) := rnd ← sys random_bytes; mret (gen_random_token rnd).

(** The raw token never appears in a URL: it waits in a document of its own for the one page that shows it. *)
Definition iat_mint_submit (p : Provider) (hs : HeaderMap) (jar : gmap string string) (form : IatMintForm) : prog provE Response :=
  finish (
    viewer ←? require_admin p jar;
    let lang := from_headers hs in
    c ←? mret (mint_constraints lang form);
    token ← draw_token;
    t ← now;
    expires_at ←? mret (ok_or (text 400 lang "[[ttl_hours is too large]]") (mint_expiry t (im_ttl_hours form)));
    r ← sys (put_iat token.2 c expires_at false);
    match r with
    | Err _ => mret (Err server_error)
    | Ok _ =>
        _ ← sys (audit_record viewer "mint_iat" token.2 (mint_detail c (im_ttl_hours form)));
        flash ← draw_token;
        t ← now;
        w ← sys (fs (SetDoc "adminIatFlash" flash.1 (Object [("raw_token", fs_s token.1); ("expires_at", fs_int (t + 300))])));
        mret (match w with
              | Ok _ => Ok (redirect p ("/admin/iats/flash/" +:+ flash.1))
              | Err _ =>
                  Err (text_reply 500 (str_replace "{hash}" token.2
                    (localize "[[The IAT was issued (hash={hash}), but the raw token cannot be shown because saving it for display failed.]]" lang)))
              end)
    end).

Definition iat_show_once (p : Provider) (hs : HeaderMap) (jar : gmap string string) (flash_id : string) : prog provE Response :=
  finish (
    _ ←? require_admin p jar;
    let lang := from_headers hs in
    r ← sys (fs (GetDoc "adminIatFlash" flash_id));
    match r with
    | Err _ => mret (Err server_error)
    | Ok None =>
        mret (Ok (shown (page p lang "IAT"
          "<h1>[[Already shown]]</h1><p>[[This token was already shown or has expired. Mint a new one.]]</p>")))
    | Ok (Some fields) =>
        _ ← sys (fs (DeleteDoc "adminIatFlash" flash_id));
        t ← now;
        mret (Ok (shown (
          if default 0 (field_u64 fields "expires_at") <? t
          then page p lang "IAT" "<h1>[[Expired]]</h1><p>[[It took too long to show it. Mint a new one.]]</p>"
          else
            page p lang "[[IAT issuance complete]]"
              (template "<h1>[[IAT issued]]</h1>
<p style=`color:#c5221f;font-weight:600`>[[This screen is shown only once. Copy the token now.]]</p>
<input type=`text` readonly value=`" +:+ esc (default "" (field_str fields "raw_token"))
               +:+ template "` onclick=`this.select()` style=`font-family:monospace`>
<p><a href=`" +:+ esc (path p "/admin/iats") +:+ template "`>&larr; [[Back to the list]]</a></p>"))))
    end).
End admin.
