(* ===== verification/PasskeyFacts.v ===== *)
(** * Who may approve, log in and register

    What stands before the operation that decides: the approval of a back-channel
    request, the session of a login, the credential of a registration. *)

From S2P Require Import Prelude Prog Json Model Firestore Externals Es256 WebAuthn Sys Nonce Ciba Dcr.
From S2P Require Import Claims Accounts AdminStore DcrStore Store Provider ClientAuth Http I18n Fcm Passkey.
From S2P Require Import CibaEndpoints Login.

#[local] Open Scope Z_scope.

Abbreviation trace := (list (event provE)).

(** Goes through a program of database operations. *)
Ltac no_writes :=
  repeat match goal with
    | |- True => exact I
    | |- _ /\ _ => split
    | |- ~ _ => solve [intros [] | intros [=]]
    | |- forall _, _ => intro
    | |- context [match ?x with _ => _ end] => destruct x
    | |- _ => progress cbn
    end.

Section facts.
Context `{Externals}.

(** ** Evidence in the events before an operation *)

(** The document of the ceremony, read and not expired. *)
Definition challenge_read (tr : trace) (ch : string) (kind : ChallengeKind) (uid email account : string) : Prop :=
  exists i f j t, Ev i (SysOp (FsOp (GetDoc "webauthnChallenges" ch))) (Ok (Some f)) ∈ tr /\
    Ev j (SysOp NowSecs) t ∈ tr /\ t <= expires_at f /\ ceremony_of f = Some (email, kind, uid, account).
Definition credential_read (tr : trace) (email : string) (cred : Credential) : Prop :=
  exists i f, Ev i (SysOp (FsOp (GetDoc "accounts" email))) (Ok (Some f)) ∈ tr /\ credential_of_doc f = Some cred.
(** An assertion by the key of the credential, for this ceremony and this server. *)
Definition asserted (p : Provider) (req : AuthVerifyReq) (challenge : string) (cred : Credential) (uv : bool) : Prop :=
  exists client_data auth_data sig ad,
    client_data_for client_data "webauthn.get" challenge (origin p) /\
    parse_auth_data auth_data = Ok ad /\ ad_rp_id_hash ad = sha256_digest (rp_id p) /\
    flag_set (ad_flags ad) FLAG_UP = true /\ (uv = true -> flag_set (ad_flags ad) FLAG_UV = true) /\
    signed_by (cr_pub_x cred) (cr_pub_y cred) (auth_data +:+ sha256_digest client_data) sig /\
    (ad_sign_count ad = 0 \/ cr_sign_count cred < ad_sign_count ad).

Lemma asserted_Ok p req challenge cred uv n : assertion_check p req challenge cred uv = Ok n -> asserted p req challenge cred uv.
Proof.
  intros Ha. apply assertion_verified in Ha as (cd & adb & sig & ad & _ & Hc & _ & Hp & Hr & Hu & Hv & _ & Hs & -> & _ & Hn).
  exists cd, adb, sig, ad. tauto.
Qed.

Lemma challenge_read_mono tr tr' ch kind uid email account :
  challenge_read tr ch kind uid email account -> (forall ev, ev ∈ tr -> ev ∈ tr') -> challenge_read tr' ch kind uid email account.
Proof. intros (i & f & j & t & ? & ? & ? & ?) Hs. exists i, f, j, t. auto. Qed.
Lemma credential_read_mono tr tr' email cred :
  credential_read tr email cred -> (forall ev, ev ∈ tr -> ev ∈ tr') -> credential_read tr' email cred.
Proof. intros (i & f & ? & ?) Hs. exists i, f. auto. Qed.

Lemma consume_read ch :
  always (fun tr r => forall email kind uid account, r = Ok (Some (email, kind, uid, account)) -> challenge_read tr ch kind uid email account)
    (sys (consume_webauthn_challenge ch)).
Proof.
  unfold consume_webauthn_challenge. destruct (token_ok ch); [|by apply always_ret].
  apply always_vis. intros i [[f|]|e]; [|by apply always_ret..].
  apply always_vis. intros k x. apply always_vis. intros j t. apply always_ret.
  intros email kind uid account. destruct (Z.ltb_spec (expires_at f) t); [done|]. intros [= Hc].
  exists i, f, j, t. split; [by left|]. split; [right; right; by left|]. split; [done|exact Hc].
Qed.
Lemma get_credential_read email :
  always (fun tr r => forall cred, r = Ok (Some cred) -> credential_read tr email cred) (sys (get_credential email)).
Proof.
  apply always_vis. intros i [[f|]|e]; apply always_ret; [|done..]. intros cred [= Hc].
  exists i, f. split; [by left | exact Hc].
Qed.
Lemma verified_count_asserted p req challenge email cred uv :
  always (fun _ r => r = Ok tt -> asserted p req challenge cred uv) (verified_count p req challenge email cred uv).
Proof.
  unfold verified_count. destruct (assertion_check p req challenge cred uv) as [n|e] eqn:Ha; [|by apply always_ret].
  intros tr a _ _. by apply (asserted_Ok _ _ _ _ _ n).
Qed.

(** Operations of the process and of the database are no operations of a store. *)
Definition no_sys (D : event provE -> Prop) : Prop := forall i X (o : sysE X) (x : X), ~ D (Ev i (SysOp o) x).
Lemma avoids_sys D {A} (p : prog sysE A) : no_sys D -> avoids D (sys p).
Proof. intros Hd. induction p as [a|X o k IH]; simpl; [done|]. intros i x. split; [apply Hd | apply IH]. Qed.
Lemma verified_count_avoids D p req challenge email cred uv : no_sys D -> avoids D (verified_count p req challenge email cred uv).
Proof.
  intros Hd. unfold verified_count. destruct (assertion_check _ _ _ _ _); [|done].
  apply avoids_bind; [by apply avoids_sys | done].
Qed.
(** Operations of the database: the ones of [Bad], and the programs without them. *)
Definition fs_event_of (Bad : forall X, fsE X -> Prop) (ev : event provE) : Prop :=
  match ev with
  | Ev _ e _ => match e with SysOp s => match s with FsOp o => Bad _ o | _ => False end | _ => False end
  | EvEnv => False
  end.
Fixpoint fs_avoids (Bad : forall X, fsE X -> Prop) {A} (p : prog sysE A) : Prop :=
  match p with
  | Ret _ => True
  | Vis e k => match e with FsOp o => ~ Bad _ o | _ => True end /\ forall x, fs_avoids Bad (k x)
  end.
Lemma fs_avoids_sys Bad {A} (p : prog sysE A) : fs_avoids Bad p -> avoids (fs_event_of Bad) (sys p).
Proof.
  induction p as [a|X e k IH]; simpl; [done|]. intros [He Hk] i x. split; [|by apply IH].
  destruct e as [| | | X o]; simpl; tauto.
Qed.
(** ** Approving a back-channel request *)

Definition approves (ev : event provE) : Prop :=
  match ev with
  | Ev _ e _ => match e with CibaOp o => match o with TransitionIfPending _ Approved => True | _ => False end | _ => False end
  | EvEnv => False
  end.
Definition may_approve (p : Provider) (auth_req_id : string) (req : AuthVerifyReq) (tr : trace) (ev : event provE) : Prop :=
  (exists i r, ev = Ev i (CibaOp (TransitionIfPending auth_req_id Approved)) r) /\
  exists challenge email account cred q j t k,
    challenge_read tr challenge CibaApprove auth_req_id email account /\
    credential_read tr email cred /\ cr_disabled cred = false /\ cr_credential_id cred = av_id req /\
    Ev j (CibaOp (CibaGet auth_req_id)) (Ok (Some q)) ∈ tr /\ br_account q = cr_account_id cred /\ br_account q <> "" /\
    Ev k (SysOp NowSecs) t ∈ tr /\ t <= br_expires_at q /\
    asserted p req challenge cred true.

Lemma no_sys_approves : no_sys approves.
Proof. intros i X o x []. Qed.

Lemma approve_preceded p auth_req_id req :
  preceded approves (may_approve p auth_req_id req) [] (ciba_approve p auth_req_id req).
Proof.
  apply preceded_finish. destruct (p_firestore p); [|done]. cbn [negb].
  apply preceded_check. intros challenge _.
  eapply preceded_skip; [apply avoids_sys, no_sys_approves | apply consume_read |]. intros tr1 ch Hch.
  apply preceded_check. intros [[[email kind] uid] account] Ht.
  assert (Hread : challenge_read tr1 challenge kind uid email account).
  { destruct ch as [[?|]|]; simplify_eq. by apply Hch. }
  destruct (bool_decide (kind = CibaApprove)) eqn:Hk; [|done]. destruct (bool_decide (uid = auth_req_id)) eqn:Hu; [|done].
  apply bool_decide_eq_true in Hk as ->. apply bool_decide_eq_true in Hu as ->. cbn [negb orb].
  eapply preceded_skip; [apply avoids_sys, no_sys_approves | apply get_credential_read |]. intros tr2 c Hc.
  apply preceded_check. intros cred Hcred.
  assert (Hcr : credential_read tr2 email cred /\ cr_account_id cred <> "").
  { destruct c as [[c|]|]; try done. destruct (str_is_empty (cr_account_id c)) eqn:He; simplify_eq. split; [by apply Hc|].
    intros Hz. by rewrite Hz in He. }
  destruct Hcr as [Hcr Hne]. intros j r. split; [by intros []|]. intros k t. split; [by intros []|].
  cbn beta iota. set (pre := (_ ++ [Ev k _ _])). refine (preceded_check _ _ _ _ _ _). intros q Hq.
  apply ok_or_Ok in Hq. unfold approvable in Hq. destruct r as [[q'|]|]; try done.
  destruct (bool_decide (br_account q' = cr_account_id cred)) eqn:Hacc; [|done]. apply bool_decide_eq_true in Hacc.
  destruct (br_expired t q') eqn:Hex; [done|]. simpl in Hq. injection Hq as ->.
  destruct (bool_decide (cr_credential_id cred = av_id req)) eqn:Hid; [|done]. apply bool_decide_eq_true in Hid. cbn [negb].
  eapply preceded_skip_try; [apply verified_count_avoids, no_sys_approves | apply verified_count_asserted |].
  intros tr3 [] Has. specialize (Has eq_refl). destruct (cr_disabled cred) eqn:Hdis; [done|].
  intros i x. split; [|by destruct x as [[]|]].
  intros _. split; [by exists i, x|]. exists challenge, email, account, cred, q, j, t, k.
  unfold br_expired in Hex. apply Z.ltb_ge in Hex.
  assert (Hin : forall ev, ev ∈ tr1 \/ ev ∈ tr2 -> ev ∈ pre ++ tr3).
  { intros ev Hev. unfold pre. rewrite !elem_of_app. tauto. }
  split; [apply (challenge_read_mono tr1); auto|]. split; [apply (credential_read_mono tr2); auto|].
  split; [done|]. split; [done|]. split; [unfold pre; rewrite !elem_of_app, !list_elem_of_singleton; auto 7|].
  split; [done|]. split; [congruence|]. split; [unfold pre; rewrite !elem_of_app, !list_elem_of_singleton; auto 7|]. done.
Qed.

(** C7: a back-channel request is approved only after its account's own passkey has
    signed, with the user verified, the challenge that was issued for approving this very
    request: the challenge, the credential, the request and the clock were read before,
    neither has expired, the request belongs to the account of the credential and the
    account is not frozen. *)
Theorem approval_authentic p auth_req_id req q tr tr1 ev tr2 :
  thread_path (ciba_approve p auth_req_id req) tr q -> tr = tr1 ++ ev :: tr2 -> approves ev ->
  may_approve p auth_req_id req tr1 ev.
Proof.
  intros Hp Heq Hd. exact (preceded_path approves (may_approve p auth_req_id req) [] _ tr q tr1 ev tr2
    (approve_preceded p auth_req_id req) Hp Heq Hd).
Qed.

(** ** Logging in *)

Definition logs_in (ev : event provE) : Prop :=
  match ev with
  | Ev _ e _ => match e with StoreOp o => match o with SaveSession _ | SaveInteraction _ => True | _ => False end | _ => False end
  | EvEnv => False
  end.
Lemma no_sys_logs_in : no_sys logs_in.
Proof. intros i X o x []. Qed.

(** The address of the login: the one of the challenge, or the one of the account that
    the authenticator names. *)
Definition email_resolved (tr : trace) (user_handle : option string) (challenge_email email : string) : Prop :=
  email = challenge_email /\ (user_handle = None \/ user_handle = Some "") \/
  exists uh i f, user_handle = Some uh /\
    Ev i (SysOp (FsOp (GetDoc "accountsByUuid" (handle_account uh)))) (Ok (Some f)) ∈ tr /\ field_str f "email" = Some email.
(** What a login writes: the account into the transaction, and a session for it. *)
Definition login_write (interaction : Interaction) (account : Account) (t : Z) (ev : event provE) : Prop :=
  exists i, ev = Ev i (StoreOp (SaveInteraction (logged_in interaction (acct_sub account) t))) tt \/
    exists sid, ev = Ev i (StoreOp (SaveSession (mkSession sid (acct_sub account) t))) tt.
Definition may_log_in (p : Provider) (uid : string) (req : AuthVerifyReq) (tr : trace) (ev : event provE) : Prop :=
  exists challenge challenge_email email account_id cred interaction account t i j k,
    challenge_read tr challenge Auth uid challenge_email account_id /\
    email_resolved tr (avr_user_handle (av_response req)) challenge_email email /\
    credential_read tr email cred /\ cr_disabled cred = false /\ cr_account_id cred <> "" /\
    cr_credential_id cred = av_id req /\ asserted p req challenge cred false /\
    Ev i (StoreOp (GetInteraction uid)) (Some interaction) ∈ tr /\
    Ev j (StoreOp (FindAccount (cr_account_id cred))) account ∈ tr /\
    Ev k (SysOp NowSecs) t ∈ tr /\ login_write interaction account t ev.

Lemma login_email_resolved uh ce :
  always (fun tr r => forall email, r = Ok email -> email_resolved tr uh ce email) (login_email uh ce).
Proof.
  unfold login_email. destruct uh as [uh|]; cbn [mbind option_bind].
  2:{ apply always_ret. intros email [= ->]. left. auto. }
  destruct (str_is_empty uh) eqn:He.
  { apply always_ret. intros email [= ->]. left. split; [done|]. right. by destruct uh. }
  apply always_vis. intros i r. destruct r as [[f|]|]; apply always_ret; try done.
  cbn. destruct (field_str f "email") as [e|] eqn:Hf; [|done].
  intros email [= ->]. right. exists uh, i, f. split; [done|]. split; [by left | done].
Qed.
Lemma login_email_avoids D uh ce : no_sys D -> avoids D (login_email uh ce).
Proof.
  intros Hd. unfold login_email. destruct (uh ≫= _); [|done]. apply avoids_bind; [by apply avoids_sys | done].
Qed.

Lemma login_preceded p uid req : preceded logs_in (may_log_in p uid req) [] (login_passkey_verify p uid req).
Proof.
  apply preceded_finish. destruct (p_firestore p); [|done]. cbn [negb].
  apply preceded_check. intros challenge _.
  eapply preceded_skip; [apply avoids_sys, no_sys_logs_in | apply consume_read |]. intros tr1 ch Hch.
  apply preceded_check. intros [[[ce kind] uid2] account_id] Ht.
  assert (Hread : challenge_read tr1 challenge kind uid2 ce account_id) by (destruct ch as [[?|]|]; simplify_eq; by apply Hch).
  destruct (bool_decide (kind = Auth)) eqn:Hk; [|done]. destruct (bool_decide (uid2 = uid)) eqn:Hu; [|done].
  apply bool_decide_eq_true in Hk as ->. apply bool_decide_eq_true in Hu as ->. cbn [negb orb].
  eapply preceded_skip_try; [apply login_email_avoids, no_sys_logs_in | apply login_email_resolved |].
  intros tr2 email Hem. specialize (Hem email eq_refl). destruct (str_is_empty email); [done|].
  eapply preceded_skip; [apply avoids_sys, no_sys_logs_in | apply get_credential_read |]. intros tr3 c Hc.
  apply preceded_check. intros cred Hcred.
  assert (Hcr : credential_read tr3 email cred) by (destruct c as [[?|]|]; simplify_eq; by apply Hc).
  destruct (bool_decide (cr_credential_id cred = av_id req)) eqn:Hid; [|done]. apply bool_decide_eq_true in Hid. cbn [negb].
  eapply preceded_skip_try; [apply verified_count_avoids, no_sys_logs_in | apply verified_count_asserted |].
  intros tr4 [] Has. specialize (Has eq_refl). destruct (cr_disabled cred) eqn:Hdis; [done|].
  destruct (str_is_empty (cr_account_id cred)) eqn:Hne; [done|].
  set (pre := (_ ++ tr4)). intros i r. split; [by intros []|]. apply preceded_check. intros interaction Hi.
  apply ok_or_Ok in Hi. subst r. intros j account. split; [by intros []|].
  set (pre2 := ((pre ++ [Ev i (StoreOp (GetInteraction uid)) (Some interaction)]) ++
                [Ev j (StoreOp (FindAccount (cr_account_id cred))) account])).
  intros k t. split; [by intros []|]. set (pre3 := pre2 ++ [Ev k (SysOp NowSecs) t]).
  assert (Hgood : forall tr ev, login_write interaction account t ev -> may_log_in p uid req (pre3 ++ tr) ev).
  { intros tr ev Hw. exists challenge, ce, email, account_id, cred, interaction, account, t, i, j, k.
    assert (Hin : forall e, e ∈ tr1 \/ e ∈ tr2 \/ e ∈ tr3 -> e ∈ pre) by (intros e He; unfold pre; rewrite !elem_of_app; tauto).
    assert (Hpre : forall e, e ∈ pre -> e ∈ pre3 ++ tr) by (intros e He; unfold pre3, pre2; rewrite !elem_of_app; auto).
    split; [apply (challenge_read_mono tr1); auto|]. split.
    { destruct Hem as [?|(uh & l & f & ? & ? & ?)]; [by left | right]. exists uh, l, f. split; [done|]. split; [|done]. auto. }
    split; [apply (credential_read_mono tr3); auto|]. split; [done|]. split; [by intros Hz; rewrite Hz in Hne|].
    split; [done|]. split; [done|]. unfold pre3, pre2. repeat (split; [rewrite !elem_of_app, !list_elem_of_singleton; auto 7|]). done. }
  intros l u. split.
  { intros _. rewrite <- (app_nil_r pre3). apply Hgood. exists l. left. by destruct u. }
  intros m sid. split; [by intros []|]. intros n u2. split; [|done].
  intros _. rewrite <- app_assoc. apply Hgood. exists n. right. exists sid. by destruct u2.
Qed.

(** C8: a login writes a session, and an account into the transaction, only after the passkey of
    that account has signed the challenge issued for logging in to this very
    transaction: the challenge has not expired, the credential is the one of the address
    of the challenge or of the account that the authenticator names, it is not frozen,
    and the session is for its account and carries the time that the clock showed. *)
Theorem login_authentic p uid req q tr tr1 ev tr2 :
  thread_path (login_passkey_verify p uid req) tr q -> tr = tr1 ++ ev :: tr2 -> logs_in ev -> may_log_in p uid req tr1 ev.
Proof.
  intros Hp Heq Hd. exact (preceded_path logs_in (may_log_in p uid req) [] _ tr q tr1 ev tr2
    (login_preceded p uid req) Hp Heq Hd).
Qed.

(** ** Registering a passkey *)

(** The write of a credential. *)
Definition writes_credential X (o : fsE X) : Prop := match o with SetDoc c _ _ => c = "accounts" | _ => False end.
Definition stores_credential : event provE -> Prop := fs_event_of writes_credential.
Abbreviation no_credential := (fs_avoids writes_credential).
Lemma no_credential_avoids {A} (p : prog sysE A) : no_credential p -> avoids stores_credential (sys p).
Proof. apply fs_avoids_sys. Qed.

Lemma peek_invite_no_credential token : no_credential (peek_invite token).
Proof. unfold peek_invite, challenge_expired. no_writes. Qed.
Lemma account_exists_no_credential email : no_credential (account_exists email).
Proof. unfold account_exists. no_writes. Qed.
Lemma consume_email_no_credential token : no_credential (consume_email_challenge token).
Proof. unfold consume_email_challenge, challenge_expired. no_writes. Qed.
Lemma consume_no_credential ch : no_credential (consume_webauthn_challenge ch).
Proof. unfold consume_webauthn_challenge, challenge_expired. no_writes. Qed.

(** The address of the confirmation mail, read and not expired. *)
Definition email_read (tr : trace) (token email : string) : Prop :=
  exists i f j t, Ev i (SysOp (FsOp (GetDoc "emailChallenges" token))) (Ok (Some f)) ∈ tr /\
    Ev j (SysOp NowSecs) t ∈ tr /\ t <= expires_at f /\ field_str f "email" = Some email.
Lemma email_read_mono tr tr' token email :
  email_read tr token email -> (forall ev, ev ∈ tr -> ev ∈ tr') -> email_read tr' token email.
Proof. intros (i & f & j & t & ? & ? & ? & ?) Hs. exists i, f, j, t. auto. Qed.
Lemma consume_email_read token :
  always (fun tr r => forall email, r = Ok (Some email) -> email_read tr token email) (sys (consume_email_challenge token)).
Proof.
  unfold consume_email_challenge. destruct (token_ok token); [|by apply always_ret].
  apply always_vis. intros i [[f|]|e]; [|by apply always_ret..].
  apply always_vis. intros k x. apply always_vis. intros j t. apply always_ret.
  intros email. destruct (Z.ltb_spec (expires_at f) t); [done|]. intros [= Hc].
  exists i, f, j, t. split; [by left|]. split; [right; right; by left|]. split; [done|exact Hc].
Qed.

Lemma reg_challenges_read req :
  always (fun tr r => forall email challenge account, r = Ok (email, challenge, account) ->
      email_read tr (rv_token req) email /\ account <> "" /\ exists uid, challenge_read tr challenge Reg uid email account)
    (reg_challenges req).
Proof.
  unfold reg_challenges. eapply always_bind; [apply consume_email_read|]. intros tr1 e He.
  apply always_check; [done|]. intros email1 He1.
  assert (Hread : email_read tr1 (rv_token req) email1) by (destruct e as [[?|]|]; simplify_eq; by apply He).
  apply always_check; [done|]. intros challenge _.
  eapply always_bind; [apply consume_read|]. intros tr2 ch Hch.
  apply always_check; [done|]. intros [[[email2 kind] uid] account] Ht.
  assert (Hcr : challenge_read tr2 challenge kind uid email2 account) by (destruct ch as [[?|]|]; simplify_eq; by apply Hch).
  apply always_ret. intros email c acc Hr.
  destruct (bool_decide (kind = Reg)) eqn:Hk; [|done]. destruct (bool_decide (email2 = email1)) eqn:Hm; [|done].
  apply bool_decide_eq_true in Hk as ->. apply bool_decide_eq_true in Hm as ->.
  destruct (str_is_empty account) eqn:Hz; [done|]. simpl in Hr. injection Hr as <- <- <-. split; [|split].
  - apply (email_read_mono tr1); [done|]. intros ev. rewrite !elem_of_app. auto.
  - by intros ->.
  - exists uid. apply (challenge_read_mono tr2); [done|]. intros ev. rewrite !elem_of_app. auto.
Qed.

(** What is written, and what was read before it. *)
Definition may_register (p : Provider) (req : RegVerifyReq) (tr : trace) (ev : event provE) : Prop :=
  exists challenge email account uid outcome t (d : option Credential) i j k r,
    ev = Ev i (SysOp (FsOp (SetDoc "accounts" email
           (credential_doc t email account outcome (default false (cr_disabled <$> d)))))) r /\
    email_read tr (rv_token req) email /\ challenge_read tr challenge Reg uid email account /\ account <> "" /\
    verify_registration (rv_client_data_json req) (rv_attestation_object req) challenge (origin p) (rp_id p) = Ok outcome /\
    (exists f : option Value, Ev j (SysOp (FsOp (GetDoc "accounts" email))) (Ok f) ∈ tr /\ d = f ≫= credential_of_doc) /\
    Ev k (SysOp NowSecs) t ∈ tr.

Lemma refuse_invite_avoids token : avoids stores_credential (refuse_invite_for_registered token).
Proof.
  unfold refuse_invite_for_registered. apply avoids_bind; [apply no_credential_avoids, peek_invite_no_credential|].
  intros [[[? ?]|]|]; try done. apply avoids_bind; [apply no_credential_avoids, account_exists_no_credential | done].
Qed.
Lemma name_required_avoids token name : avoids stores_credential (name_required token name).
Proof.
  unfold name_required. destruct name; [done|].
  apply avoids_bind; [apply no_credential_avoids, peek_invite_no_credential | done].
Qed.
Lemma reg_challenges_avoids req : avoids stores_credential (reg_challenges req).
Proof.
  unfold reg_challenges. apply avoids_bind; [apply no_credential_avoids, consume_email_no_credential|].
  intros e. apply avoids_bind; [done|]. intros [email|]; [|done]. apply avoids_bind; [done|]. intros [ch|]; [|done].
  apply avoids_bind; [apply no_credential_avoids, consume_no_credential|]. intros c.
  apply avoids_bind; [done|]. intros [[[[? ?] ?] ?]|]; done.
Qed.
Lemma save_profile_no_credential account updates : no_credential (save_profile account updates).
Proof. unfold save_profile, get_profile. no_writes; done. Qed.

(** C9: a registration stores a credential only for the address that a confirmation
    mail, read before and not expired, was sent to; a challenge issued for the same address
    and for this account was read before; the attestation was verified for this challenge,
    this origin and this relying party.  The document is written with the frozen flag that
    the account had when this request read it: the passkey alone does not unfreeze an
    account, but a freeze between that read and the write is lost. *)
Theorem registration_authentic p req q tr tr1 ev tr2 :
  thread_path (register_passkey_verify p req) tr q -> tr = tr1 ++ ev :: tr2 -> stores_credential ev ->
  may_register p req tr1 ev.
Proof.
  intros Hp Heq Hd. refine (preceded_path stores_credential (may_register p req) [] _ tr q tr1 ev tr2 _ Hp Heq Hd).
  clear. apply preceded_finish. destruct (p_firestore p); [|done]. cbn [negb].
  eapply (preceded_skip_try _ _ _ (fun _ _ => True)); [apply refuse_invite_avoids | by intros ? ? ? |]. intros tr1 [] _.
  apply preceded_check. intros name _.
  eapply (preceded_skip_try _ _ _ (fun _ _ => True)); [apply name_required_avoids | by intros ? ? ? |]. intros tr2 [] _.
  eapply preceded_skip_try; [apply reg_challenges_avoids | apply reg_challenges_read |].
  intros tr3 [[email challenge] account] Hch. destruct (Hch _ _ _ eq_refl) as (Hem & Hne & uid & Hcr).
  apply preceded_check. intros outcome Hout. apply map_err_Ok in Hout. set (pre := ((_ ++ tr2) ++ tr3)).
  intros j r. split; [by intros []|]. destruct r as [d|]; [|done].
  intros k t. split; [by intros []|]. intros i x. split.
  - intros _. exists challenge, email, account, uid, outcome, t, (d ≫= credential_of_doc), i, j, k, x.
    split; [done|]. assert (Hin : forall e, e ∈ tr3 -> e ∈ (pre ++ [Ev j (SysOp (FsOp (GetDoc "accounts" email))) (Ok d)]) ++ [Ev k (SysOp NowSecs) t])
      by (intros e He; unfold pre; rewrite !elem_of_app; auto).
    split; [by apply (email_read_mono tr3)|]. split; [by apply (challenge_read_mono tr3)|]. split; [done|]. split; [done|].
    split; [exists d; rewrite !elem_of_app, !list_elem_of_singleton; auto|]. rewrite !elem_of_app, !list_elem_of_singleton. auto.
  - destruct x as [u|]; [|done]. intros l y. split; [by intros [=]|]. destruct name as [name|]; [|done].
    apply avoids_preceded. cbn [mret prog_ret]. apply avoids_bind; [|done].
    apply avoids_bind; [apply no_credential_avoids, save_profile_no_credential | done].
Qed.
End facts.
