(* ===== verification/AdminWebFacts.v ===== *)
(** * Properties of the administration console

    No handler touches the database before the registry named the session's account an
    administrator, no text of a user leaves the place of a page it is put into, and how
    long a minted token lives. *)

From S2P Require Import Prelude Prog Json Model Decimal Calendar Firestore Externals Es256 WebAuthn Sys DocStore DocTable Nonce Ciba Dcr.
From S2P Require Import Claims Accounts AdminStore AdminFacts DcrStore Store Cli Provider ProviderFacts Http I18n Fcm PasskeyFacts AdminWeb.

#[local] Open Scope Z_scope.

(** ** The requests of the console *)

Inductive console_request : Type :=
| Whoami | Home | Users | User (account : string) | Disable (account : string) | Enable (account : string)
| Delete (account : string) | GrantAdmin (account : string) | RevokeAdmin (account : string) | Audit | Clients
| ClientPage (id : string) | SetPostLogout (id form : string) | RevokeClient (id : string) | Iats
| RevokeIat (hash update_time : string) | MintForm | Mint (form : IatMintForm) | ShowOnce (flash : string).

Section facts.
Context `{Externals, AdminCodec, IatCodec}.

Definition console (p : Provider) (hs : HeaderMap) (jar : gmap string string) (rq : console_request) : prog provE Response :=
  match rq with
  | Whoami => whoami p jar
  | Home => admin_home p hs jar
  | Users => users_list p hs jar
  | User a => user_detail p hs jar a
  | Disable a => user_disable p hs jar a
  | Enable a => user_enable p jar a
  | Delete a => user_delete p hs jar a
  | GrantAdmin a => user_grant_admin p hs jar a
  | RevokeAdmin a => user_revoke_admin p hs jar a
  | Audit => audit_list p hs jar
  | Clients => clients_list p hs jar
  | ClientPage c => client_detail p hs jar c
  | SetPostLogout c f => client_set_post_logout p hs jar c f
  | RevokeClient c => client_revoke p jar c
  | Iats => iats_pending_list p hs jar
  | RevokeIat h u => iat_revoke p jar h u
  | MintForm => iat_mint_form p hs jar
  | Mint f => iat_mint_submit p hs jar f
  | ShowOnce f => iat_show_once p hs jar f
  end.

(** Every operation but the two reads of the gate itself. *)
Definition behind_gate (ev : event provE) : Prop :=
  match ev with
  | Ev _ e _ =>
      match e with
      | StoreOp o => match o with GetSession _ => False | _ => True end
      | SysOp s => match s with
                   | FsOp o => match o with GetDocWithUpdateTime c _ => c <> REGISTRY_COL | _ => True end
                   | _ => True
                   end
      | _ => True
      end
  | EvEnv => False
  end.
(** The cookie's session was read, and the registry, which lists its account. *)
Definition administrator (p : Provider) (jar : gmap string string) (tr : trace) : Prop :=
  p_firestore p = true /\
  exists sid se i j doc, jar !! SID_COOKIE = Some sid /\
    Ev i (StoreOp (GetSession sid)) (Some se) ∈ tr /\
    Ev j (SysOp (FsOp (GetDocWithUpdateTime REGISTRY_COL REGISTRY_ID))) (Ok doc) ∈ tr /\
    listed (se_account_id se) (match doc with Some (f, _) => parse_entries f | None => [] end) = true.

Lemma administrator_mono p jar tr tr' : administrator p jar tr -> administrator p jar (tr ++ tr').
Proof.
  intros (Hf & sid & se & i & j & doc & ? & ? & ? & ?). split; [done|]. exists sid, se, i, j, doc.
  rewrite !elem_of_app. auto.
Qed.

Lemma always_preceded D (P : trace -> Prop) pre {A} (q : prog provE A) :
  (forall tr tr', P tr -> P (tr ++ tr')) -> P pre -> preceded D (fun tr _ => P tr) pre q.
Proof.
  intros Hm. revert pre. induction q as [a|X e k IH]; simpl; [done|]. intros pre Hp i x. split; [done|]. apply IH. by apply Hm.
Qed.
Lemma require_admin_read p jar :
  avoids behind_gate (require_admin p jar) /\
  always (fun tr r => is_ok r = true -> administrator p jar tr) (require_admin p jar).
Proof.
  unfold require_admin, session_account. destruct (jar !! SID_COOKIE) as [sid|] eqn:Hsid; [|by split; [|apply always_ret]].
  destruct (p_firestore p) eqn:Hf.
  2:{ split.
      - intros i [se|]; (split; [by intros []|]); exact I.
      - apply always_vis. intros i [se|]; by apply always_ret. }
  split.
  - intros i [se|]; (split; [by intros []|]); [|exact I]. intros j r. split; [by intros []|]. destruct r as [[[f u]|]|]; exact I.
  - apply always_vis. intros i [se|]; [|by apply always_ret]. apply always_vis. intros j [doc|]; [|by apply always_ret].
    destruct doc as [[f u]|]; apply always_ret; cbn; intros Hr.
    + split; [done|]. exists sid, se, i, j, (Some (f, u)). split; [done|]. split; [by left|]. split; [right; by left|].
      unfold listed. by destruct (existsb _ _).
    + done.
Qed.
(** Whatever stands behind the gate. *)
Lemma gated p jar (f : string -> prog provE (result Response Response)) :
  preceded behind_gate (fun tr _ => administrator p jar tr) [] (finish (x ←? require_admin p jar; f x)).
Proof.
  apply preceded_finish. destruct (require_admin_read p jar) as [Ha Hr].
  eapply preceded_skip_try; [exact Ha | exact Hr|]. intros tr x Hx. apply always_preceded; [apply administrator_mono | by apply Hx].
Qed.

(** C10: whatever the request, the console reads and writes nothing, draws no token and looks
    up no account before it has read the session of the cookie and the registry, and the
    registry lists the account of that session. *)
Theorem console_needs_admin p hs jar rq q tr tr1 ev tr2 :
  thread_path (console p hs jar rq) tr q -> tr = tr1 ++ ev :: tr2 -> behind_gate ev -> administrator p jar tr1.
Proof.
  intros Hp Heq Hd.
  refine (preceded_path behind_gate (fun tr _ => administrator p jar tr) [] _ tr q tr1 ev tr2 _ Hp Heq Hd).
  destruct rq; apply gated.
Qed.
End facts.

(** ** The escaping of the pages *)

(** The five characters that end a text, an attribute value or a script string. *)
Definition harmless (c : ascii) : bool :=
  negb (bool_decide (c = "<"%char) || bool_decide (c = ">"%char) || bool_decide (c = ascii_of_nat 34) || bool_decide (c = "'"%char)).
(** HTML: the five character references the console writes. *)
Fixpoint unescape (s : string) : string :=
  match s with
  | String "&" (String "a" (String "m" (String "p" (String ";" r)))) => String "&" (unescape r)
  | String "&" (String "l" (String "t" (String ";" r))) => String "<" (unescape r)
  | String "&" (String "g" (String "t" (String ";" r))) => String ">" (unescape r)
  | String "&" (String "q" (String "u" (String "o" (String "t" (String ";" r))))) => String (ascii_of_nat 34) (unescape r)
  | String "&" (String "#" (String "3" (String "9" (String ";" r)))) => String "'" (unescape r)
  | String c r => String c (unescape r)
  | "" => ""
  end.

Lemma unescape_other c r : c <> "&"%char -> unescape (String c r) = String c (unescape r).
Proof. intros Hc. destruct c as [[] [] [] [] [] [] [] []]; try reflexivity. by destruct Hc. Qed.

(** An escaped text contains no character that ends an HTML text, an attribute value or a
    script string, and a browser that resolves the character references shows the text it was made from. *)
Theorem esc_round_trip s : str_forall harmless (esc s) = true /\ unescape (esc s) = s.
Proof.
  induction s as [|c s [IHh IHu]]; [done|]. cbn [esc]. rewrite str_forall_app, IHh, andb_true_r.
  repeat case_bool_decide; subst; try (split; [reflexivity | simpl; change ("" +:+ esc s) with (esc s); by rewrite IHu]).
  split.
  - unfold harmless. cbn [str_forall]. by rewrite !bool_decide_eq_false_2.
  - change (String c "" +:+ esc s) with (String c (esc s)). rewrite unescape_other by done. by rewrite IHu.
Qed.

(** ** The lifetime of an initial access token *)

Section lifetime.
Context `{Externals, AdminCodec, IatCodec}.

(** The write of a token, with the lifetime it gives. *)
Definition token_write {E : Type -> Type} (sysop : forall X, sysE X -> E X) (expires_at : Z) (ev : event E) : Prop :=
  exists i x hash fields, ev = Ev i (sysop _ (FsOp (CreateIfAbsent DCR_TOKENS hash fields))) x /\
    get fields "expires_at" = Some (fs_int expires_at).
Definition writes_token (ev : event provE) : Prop :=
  match ev with
  | Ev _ e _ => match e with SysOp s => match s with FsOp o => match o with CreateIfAbsent c _ _ => c = DCR_TOKENS | _ => False end | _ => False end | _ => False end
  | EvEnv => False
  end.
Definition cli_writes_token (ev : event sysE) : Prop :=
  match ev with
  | Ev _ e _ => match e with FsOp o => match o with CreateIfAbsent c _ _ => c = DCR_TOKENS | _ => False end | _ => False end
  | EvEnv => False
  end.

(** Through the operations of a program that do not write a token. *)
Ltac no_token := repeat first [ intros ? ?; split; [let Hw := fresh in intros Hw; hnf in Hw; first [done | discriminate Hw]|]
                              | match goal with |- avoids _ (match ?x with _ => _ end) => destruct x end | exact I ].
Lemma mint_expiry_exact t h e : in_u64 h -> mint_expiry t h = Some e -> e = t + 3600 * h /\ in_u64 e.
Proof.
  unfold mint_expiry, u64_checked, in_u64. intros Hh. destruct ((0 <=? h * 3600) && (h * 3600 <=? u64_max)); [|done]. cbn.
  destruct ((0 <=? t + h * 3600) && (t + h * 3600 <=? u64_max)) eqn:Hb; [|done]. intros [= <-].
  apply andb_prop in Hb as [?%Z.leb_le ?%Z.leb_le]. split; lia.
Qed.
Lemma mint_constraints_hours lang form c : in_u64 (im_ttl_hours form) -> mint_constraints lang form = Ok c -> 1 <= im_ttl_hours form <= MAX_TTL_HOURS.
Proof.
  unfold mint_constraints, in_u64. intros Hu. destruct (profile_of_label _); [|done]. cbn [ok_or mbind result_bind].
  destruct (_ =? 0)%nat; [done|]. destruct (Z.eqb_spec (im_ttl_hours form) 0); [done|].
  destruct (Z.ltb_spec MAX_TTL_HOURS (im_ttl_hours form)); [done|]. lia.
Qed.

(** C40: a token minted at the console lives exactly the hours of the form, between one and
    a year, and its expiry fits 64 bits; a token minted at the command line lives the hours
    asked for only as far as the expiry fits 64 bits, and beyond that the sum wraps around. *)
Theorem mint_lifetime_bounds p hs jar form args :
  in_u64 (im_ttl_hours form) ->
  (forall tr q tr1 ev tr2, thread_path (iat_mint_submit p hs jar form) tr q -> tr = tr1 ++ ev :: tr2 -> writes_token ev ->
     exists j t, Ev j (SysOp NowSecs) t ∈ tr1 /\ 1 <= im_ttl_hours form <= MAX_TTL_HOURS /\
       in_u64 (t + 3600 * im_ttl_hours form) /\ token_write (@SysOp) (t + 3600 * im_ttl_hours form) ev) /\
  (forall tr q tr1 ev tr2, thread_path (mint_iat args) tr q -> tr = tr1 ++ ev :: tr2 -> cli_writes_token ev ->
     exists m j t, mint_request args = Ok m /\ Ev j NowSecs t ∈ tr1 /\
       token_write (fun X o => o) ((t + 3600 * ma_ttl_hours m) mod 2 ^ 64) ev).
Proof.
  intros Hu. split; intros tr q tr1 ev tr2 Hp Heq Hd.
  - refine (preceded_path writes_token (fun pre ev => exists j t, Ev j (SysOp NowSecs) t ∈ pre /\ 1 <= im_ttl_hours form <= MAX_TTL_HOURS /\
       in_u64 (t + 3600 * im_ttl_hours form) /\ token_write (@SysOp) (t + 3600 * im_ttl_hours form) ev) [] _ tr q tr1 ev tr2 _ Hp Heq Hd).
    clear -Hu. apply preceded_finish. eapply (preceded_skip_try _ _ _ (fun _ _ => True)); [|done|].
    { eapply avoids_mono; [|apply require_admin_read]. intros [i X e x|] Hw; [|done]. simpl in *.
      destruct e as [X s|X s| | | | |]; try done. destruct s as [| | |X o]; try done. by destruct o. }
    intros tr viewer _. apply preceded_check. intros c Hc. apply mint_constraints_hours in Hc; [|done].
    intros i rnd. split; [by intros []|]. intros j t. split; [by intros []|].
    apply preceded_check. intros e He%ok_or_Ok. apply mint_expiry_exact in He as [-> He]; [|done].
    intros k x. split.
    { intros _. exists j, t. split; [rewrite !elem_of_app, !list_elem_of_singleton; auto|]. split; [done|]. split; [done|].
      eexists k, x, _, _. by split. }
    apply avoids_preceded. destruct x as [[]|]; [|exact I..].
    no_token.
  - refine (preceded_path cli_writes_token (fun pre ev => exists m j t, mint_request args = Ok m /\ Ev j NowSecs t ∈ pre /\
       token_write (fun X o => o) ((t + 3600 * ma_ttl_hours m) mod 2 ^ 64) ev) [] _ tr q tr1 ev tr2 _ Hp Heq Hd).
    clear. unfold mint_iat, conclude. eapply (preceded_bind _ _ _ (fun _ _ => True)); [|done|done].
    apply preceded_check. intros m Hm. intros i rnd. split; [by intros []|]. intros j t. split; [by intros []|].
    intros k x. split.
    { intros _. exists m, j, t. split; [done|]. split; [rewrite !elem_of_app, !list_elem_of_singleton; auto|].
      eexists k, x, _, _. split; [done|]. apply (f_equal (fun z => Some (fs_int z))). unfold wrap_u64.
      rewrite Z.add_mod_idemp_r by done. f_equal. lia. }
    apply avoids_preceded. destruct x as [[]|]; [|exact I..]. no_token.
Qed.
End lifetime.

(** The witness mints at the command line for more hours than fit. *)
Section wrapping.
#[local] Existing Instance binary_codec.
#[local] Existing Instance table_backend.
#[local] Instance wrapping_externals : Externals := sample_externals [].
#[local] Instance wrapping_iats : IatCodec := sample_codec (mkIatConstraints [] [] Public).
Definition long_mint : list string := ["--redirect-host"; "rp.example"; "--ttl-hours"; "5124095576030431"].
Definition minting_world : sys_world := mkSysWorld (1700000000 * NS) 0 0 empty_table.
Definition minting_trace : list (event sysE) := run_trace sys_handler 0 (mint_iat long_mint) minting_world.
Definition hours_form : IatMintForm := mkIatMintForm "public" "rp.example" "" 24.
Lemma mint_lifetime_bounds_witness :
  (exists m j t, mint_request long_mint = Ok m /\ Ev j NowSecs t ∈ take 2 minting_trace /\
     token_write (fun X o => o) ((t + 3600 * ma_ttl_hours m) mod 2 ^ 64) (nth 2 minting_trace EvEnv)) /\
  (1700000000 + 3600 * 5124095576030431) mod 2 ^ 64 < 1700000000.
Proof.
  split; [|reflexivity].
  refine (proj2 (mint_lifetime_bounds (Provider_new "https://op.example" sample_signer) [] ∅ hours_form long_mint _)
    minting_trace _ _ _ (drop 3 minting_trace) (run_trace_path sys_handler 0 (mint_iat long_mint) minting_world) _ _).
  - split; vm_compute; discriminate.
  - apply split_at. vm_compute. lia.
  - vm_compute. reflexivity.
Defined.
End wrapping.
