(* ===== verification/VettingFacts.v ===== *)
(** * What a relying party may cause

    The requests that relying parties make without the user: invitations, the freezing of
    an account, back-channel requests.  What stands before the operation by which each
    of them takes effect. *)

From S2P Require Import Prelude Prog Json Model Firestore Externals Es256 WebAuthn Sys Nonce Ciba Dcr.
From S2P Require Import Claims Accounts AdminStore DcrStore Store Provider ClientAuth RequestObject Http I18n Fcm Passkey.
From S2P Require Import CibaEndpoints Login PasskeyFacts.

#[local] Open Scope Z_scope.

(** ** Origins *)

Lemma until_any_spec stop s :
  exists rest, s = until_any stop s +:+ rest /\
    (rest = "" \/ exists c r, rest = String c r /\ c ∈ stop) /\
    str_forall (fun a => negb (bool_decide (a ∈ stop))) (until_any stop s) = true.
Proof.
  induction s as [|a s (rest & Hs & Hr & Hf)]; cbn [until_any]; [exists ""; auto|].
  case_bool_decide as Ha.
  - exists (String a s). split; [done|]. split; [|done]. right. eauto.
  - exists rest. cbn [str_forall]. rewrite bool_decide_eq_false_2 by done. split; [|by auto].
    change (String a (until_any stop s) +:+ rest) with (String a (until_any stop s +:+ rest)). by rewrite <- Hs.
Qed.

(** [u] lies under the origin [o]: scheme and authority, and then nothing or a delimiter. *)
Definition web_origin (o : string) : Prop :=
  exists scheme host, o = scheme +:+ "://" +:+ host /\ host <> "" /\ str_contains "@"%char host = false /\
    str_forall (fun a => negb (bool_decide (a ∈ ["/"; "?"; "#"]%char))) host = true /\
    (scheme = "https" \/
     scheme = "http" /\ (first_of ":"%char host = "localhost" \/ first_of ":"%char host = "127.0.0.1")).
Definition under_origin (o u : string) : Prop :=
  u = o \/ exists c r, u = o +:+ String c r /\ c ∈ ["/"; "?"; "#"]%char.

Lemma url_origin_Some u o : url_origin u = Some o -> web_origin o /\ under_origin o u.
Proof.
  unfold url_origin. destruct (str_split_once_str "://" u) as [[scheme rest]|] eqn:Hs; cbn [mbind option_bind fst snd]; [|done].
  apply split_once_str_Some in Hs as ->. set (host := until_any _ rest).
  destruct (until_any_spec ["/"; "?"; "#"]%char rest) as (tail & Hr & Ht & Hf). fold host in Hr, Hf.
  destruct (str_is_empty host) eqn:He; [done|]. destruct (str_contains "@"%char host) eqn:Hat; [done|]. cbn [orb].
  assert (Hne : host <> "") by (by intros Hz; rewrite Hz in He).
  assert (Hu : forall sch, under_origin (sch +:+ "://" +:+ host) (sch +:+ "://" +:+ rest)).
  { intros sch. rewrite Hr. destruct Ht as [-> |(c & r & -> & Hc)]; [left; by rewrite str_app_nil_r | right].
    exists c, r. split; [|done]. by rewrite !str_app_assoc. }
  case_bool_decide as Hh.
  - intros [= <-]. subst scheme. split; [|apply (Hu "https")]. exists "https", host. auto 10.
  - case_bool_decide as Hp; cbn [andb]; [|done].
    destruct (bool_decide (_ = "localhost") || bool_decide (_ = "127.0.0.1")) eqn:Hl; [|done].
    intros [= <-]. subst scheme. split; [|apply (Hu "http")]. exists "http", host.
    apply orb_true_iff in Hl. rewrite !bool_decide_eq_true in Hl. auto 10.
Qed.

(** Where an invitation may lead: under the origin of a registered redirect URI, and
    without a character that could leave a script or an attribute. *)
Definition safe_return (c : Client) (u : string) : Prop :=
  (exists o r, web_origin o /\ (u = o \/ exists rest, u = o +:+ "/" +:+ rest) /\
     r ∈ cl_redirect_uris c /\ under_origin o r) /\
  (String.length u <= 2000)%nat /\ str_forall (fun a => negb (unsafe_char a)) u = true /\
  any_char (fun s => starts_white s || starts_control s) u = false.

Lemma return_to_allowed_safe c u : return_to_allowed c u = true -> safe_return c u.
Proof.
  unfold return_to_allowed. destruct (2000 <? String.length u)%nat eqn:Hl; [done|]. apply Nat.ltb_ge in Hl.
  destruct (any_char _ u) eqn:Hw; [done|]. destruct (str_forall _ u) eqn:Hf; [cbn [negb orb] | done].
  destruct (url_origin u) as [o|] eqn:Ho; [|done]. intros [Hu Ha]%andb_true_iff.
  apply list_any_true in Ha as (r & Hr & Hro). apply bool_decide_eq_true in Hro.
  split; [|done]. exists o, r. split; [by apply url_origin_Some in Ho as [? _]|]. split.
  - apply orb_true_iff in Hu as [Hu|Hu]; [left; by apply bool_decide_eq_true in Hu | right].
    apply starts_with_Some in Hu as (rest & ->). exists rest. by rewrite str_app_assoc.
  - split; [done|]. by apply url_origin_Some in Hro as [_ ?].
Qed.

(** Every operation of the kind [Bad] is an effect. *)
Ltac fs_effect Bad :=
  intros [i X e x|] Hev; [|done]; unfold fs_event_of, Bad in Hev;
  repeat match type of Hev with match ?e with _ => _ end => destruct e; try done end.

Section facts.
Context `{Externals}.

(** ** The authentication of the client *)

(** Operations that neither the authentication of a client nor the check of a request
    object performs: changes of documents and of back-channel requests. *)
Definition effect (ev : event provE) : Prop :=
  match ev with
  | Ev _ e _ =>
      match e with
      | SysOp s => match s with
                   | FsOp o => match o with
                               | SetDoc _ _ _ | UpdateField _ _ _ _ | MergeDoc _ _ _ | DeleteDoc _ _ => True
                               | _ => False
                               end
                   | _ => False
                   end
      | CibaOp _ => True
      | _ => False
      end
  | EvEnv => False
  end.
(** The events [D] are among those. *)
Definition effects (D : event provE -> Prop) : Prop := forall ev, D ev -> effect ev.

Lemma resolve_client_harmless p id : avoids effect (resolve_client p id).
Proof.
  unfold resolve_client. destruct (p_clients p !! id); [done|]. destruct (p_firestore p); [|done].
  intros i x. split; [by intros []|]. done.
Qed.
Lemma claim_harmless p t key ttl : avoids effect (claim p t key ttl).
Proof.
  unfold claim. destruct (p_nonce p t).
  - intros i x. split; [by intros [] | exact I].
  - intros i x. split; [by intros []|]. intros j y. split; [by intros [] | exact I].
Qed.
Lemma avoids_check D {Er A B} (r : result Er A) (f : A -> prog provE (result Er B)) :
  (forall a, avoids D (f a)) -> avoids D (try_bind (mret r) f).
Proof. intros Hf. destruct r as [a|e]; [apply Hf | exact I]. Qed.

Lemma private_key_jwt_harmless p input : avoids effect (private_key_jwt p input).
Proof.
  unfold private_key_jwt. apply avoids_check. intros assertion. apply avoids_check. intros a.
  apply avoids_bind; [apply resolve_client_harmless|]. intros c. apply avoids_check. intros client. apply avoids_check. intros [].
  apply avoids_bind.
  { unfold select_key. destruct (list_find_first _ _); [done|]. destruct (cl_jwks_uri client); [|done].
    intros i x. split; [by intros [] | exact I]. }
  intros [jwk|e]; [|done]. apply avoids_check. intros []. intros i t. split; [by intros []|].
  apply avoids_check. intros jt. apply avoids_bind; [apply claim_harmless | done].
Qed.
Lemma authenticate_client_harmless p hs form : avoids effect (authenticate_client p hs form).
Proof.
  unfold authenticate_client. apply avoids_check. intros m. apply avoids_bind; [|done].
  destruct m; simpl.
  - unfold none_auth. apply avoids_check. intros id. apply avoids_bind; [apply resolve_client_harmless|].
    intros c. apply avoids_check. done.
  - unfold client_secret_basic. apply avoids_check. intros cred. apply avoids_bind; [apply resolve_client_harmless|].
    intros c. apply avoids_check. done.
  - apply private_key_jwt_harmless.
Qed.
Lemma ro_verify_harmless p client jwt issuer : avoids effect (ro_verify p client jwt issuer).
Proof.
  unfold ro_verify. apply avoids_check. intros payload. intros i t. split; [by intros []|].
  apply avoids_check. intros jt. apply avoids_bind; [apply claim_harmless | done].
Qed.

(** The events begin with an authentication that answered the client. *)
Definition authenticated (p : Provider) (hs : HeaderMap) (form : gmap string string) (tr : trace) (client : Client) : Prop :=
  exists tr1 tr2, tr = tr1 ++ tr2 /\ thread_path (authenticate_client p hs form) tr1 (Ret (Ok client)).

Lemma always_self {A} (q : prog provE A) : always (fun tr a => thread_path q tr (Ret a)) q.
Proof. by intros tr a. Qed.

Lemma authenticated_app p hs form tr tr' client :
  authenticated p hs form tr client -> authenticated p hs form (tr ++ tr') client.
Proof. intros (tr1 & tr2 & -> & Hp). exists tr1, (tr2 ++ tr'). by rewrite app_assoc. Qed.

(** ** Back-channel requests *)

Definition creates_request (ev : event provE) : Prop :=
  match ev with
  | Ev _ e _ => match e with CibaOp o => match o with CibaCreate _ _ _ _ _ => True | _ => False end | _ => False end
  | EvEnv => False
  end.
(** The parameters: the form, or those of a request object that was verified; a client
    with private_key_jwt has only the latter. *)
Definition parameters_of (p : Provider) (client : Client) (form params : gmap string string) (tr : trace) : Prop :=
  form !! "request" = None /\ cl_token_endpoint_auth_method client <> "private_key_jwt" /\ params = form \/
  exists req tr1 tr2 tr3, form !! "request" = Some req /\ tr = tr1 ++ tr2 ++ tr3 /\
    thread_path (ro_verify p client req (p_issuer p)) tr2 (Ret (Ok params)).
(** The details of an authorization: at most 4096 bytes of JSON, one to five entries, each with a type. *)
Definition details_ok (raw : string) : Prop :=
  (String.length raw <= 4096)%nat /\
  exists l, json_from_slice raw = Ok (Array l) /\ (1 <= List.length l <= 5)%nat /\
    Forall (fun e => exists s, get_str e "type" = Some s) l.
Definition may_create (p : Provider) (hs : HeaderMap) (form : gmap string string) (tr : trace) (ev : event provE) : Prop :=
  exists client params hint scope details cred i r k l,
    ev = Ev i (CibaOp (CibaCreate (cl_client_id client) (cr_account_id cred) scope (default "" (params !! "binding_message")) details)) r /\
    authenticated p hs form tr client /\ allows_grant client CIBA_GRANT = true /\
    parameters_of p client form params tr /\
    params !! "login_hint" = Some hint /\ params !! "id_token_hint" = None /\ params !! "login_hint_token" = None /\
    "openid" ∈ split_whitespace scope /\ details = params !! "authorization_details" /\
    (forall raw, details = Some raw -> details_ok raw) /\
    credential_read tr (str_to_lowercase (str_trim hint)) cred /\ cr_disabled cred = false /\ cr_account_id cred <> "" /\
    Ev k (RateCheck CibaRate (cl_client_id client) (str_to_lowercase (str_trim hint))) true ∈ tr /\
    (exists rows, Ev l (CibaOp (ListPending (str_to_lowercase (str_trim hint)))) (Ok rows) ∈ tr /\
       Forall (fun q => br_client_id q <> cl_client_id client) rows).

Lemma check_details_ok raw : check_details raw = Ok tt -> details_ok raw.
Proof.
  unfold check_details. destruct (4096 <? String.length raw)%nat eqn:Hl; [done|]. apply Nat.ltb_ge in Hl.
  destruct (json_from_slice raw) as [v|] eqn:Hj; cbn [map_err mbind result_bind]; [|done].
  destruct v; cbn [as_array ok_or mbind result_bind]; try done. unfold details_entries.
  destruct (length l =? 0)%nat eqn:H0; [done|]. destruct (5 <? length l)%nat eqn:H5; [done|]. cbn [orb].
  apply Nat.eqb_neq in H0. apply Nat.ltb_ge in H5. destruct (forallb _ l) eqn:Hf; [|done]. intros _. split; [done|].
  exists l. split; [done|]. split; [lia|]. apply Forall_forall. intros e He%list_elem_of_In.
  rewrite forallb_forall in Hf. apply Hf, bool_decide_eq_true in He as [s Hs]. eauto.
Qed.
(** What passed the checks of the parameters. *)
Lemma backchannel_checks_ok params q :
  backchannel_checks params = Ok q ->
  exists hint, params !! "login_hint" = Some hint /\ params !! "id_token_hint" = None /\ params !! "login_hint_token" = None /\
    bq_login_hint q = str_to_lowercase (str_trim hint) /\ "openid" ∈ split_whitespace (bq_scope q) /\
    bq_binding q = default "" (params !! "binding_message") /\ bq_details q = params !! "authorization_details" /\
    (forall raw, bq_details q = Some raw -> details_ok raw).
Proof.
  unfold backchannel_checks, hint_count, HINTS. cbn [List.filter].
  destruct (params !! "login_hint") as [hint|] eqn:Hh; destruct (params !! "id_token_hint") eqn:Hi;
    destruct (params !! "login_hint_token") eqn:Ht; simpl; try done.
  destruct (existsb _ _) eqn:He; [cbn [negb]|done].
  apply existsb_exists in He as (s & Hs & Hb). apply list_elem_of_In in Hs. apply bool_decide_eq_true in Hb as ->.
  destruct (params !! "authorization_details") as [raw|] eqn:Hd; simpl.
  - destruct (check_details raw) as [[]|] eqn:Hc; simpl; [|done]. intros [= <-]. exists hint. simpl.
    repeat (split; [done|]). intros raw' [= <-]. by apply check_details_ok.
  - intros [= <-]. exists hint. simpl. repeat (split; [done|]). done.
Qed.
Lemma hinted_account_ok r account :
  hinted_account r = Ok account ->
  exists cred, r = Ok (Some cred) /\ cr_account_id cred = account /\ account <> "" /\ cr_disabled cred = false.
Proof.
  destruct r as [[c|]|]; simpl; try done. destruct (str_is_empty (cr_account_id c)) eqn:He; [done|].
  destruct (cr_disabled c) eqn:Hd; [done|]. intros [= <-]. exists c. split; [done|]. split; [done|]. split; [|done].
  intros Hz. by rewrite Hz in He.
Qed.

Lemma parameters_read p client form :
  avoids effect (backchannel_parameters p client form) /\
  always (fun tr r => forall params, r = Ok params ->
      form !! "request" = None /\ cl_token_endpoint_auth_method client <> "private_key_jwt" /\ params = form \/
      exists req, form !! "request" = Some req /\ thread_path (ro_verify p client req (p_issuer p)) tr (Ret (Ok params)))
    (backchannel_parameters p client form).
Proof.
  unfold backchannel_parameters. destruct (form !! "request") as [req|].
  - split; [apply avoids_bind; [apply ro_verify_harmless | by intros ?]|].
    eapply always_bind; [apply always_self|]. intros tr r Hr. apply always_ret. rewrite app_nil_r.
    intros params ->%map_err_Ok. right. eauto.
  - split; [done|]. apply always_ret. case_bool_decide; [done|]. intros params [= <-]. auto.
Qed.
Lemma find_pending_read client_id account :
  always (fun tr r => r = Ok None -> exists i rows, Ev i (CibaOp (ListPending account)) (Ok rows) ∈ tr /\
      Forall (fun q => br_client_id q <> client_id) rows)
    (Prog.translate (@CibaOp) (find_pending_for client_id account)).
Proof.
  apply always_vis. intros i [rows|e]; apply always_ret; [|done]. intros [= Hn]. exists i, rows. split; [by left|].
  apply Forall_forall. intros q Hq Hc. apply (list_find_first_None _ _ q) in Hn; [|done].
  by apply bool_decide_eq_false in Hn.
Qed.

(** C23: A back-channel request is created only for a client that authenticated and may use
    the grant, and for the registered account of the one hint, which is not frozen; with
    private_key_jwt all parameters come from a verified request object; openid is in the
    scope, the authorization details are small, typed and at most five, the client has no
    request pending that the lookup finds, and the rate limit granted. *)
Theorem backchannel_vetted p hs form q tr tr1 ev tr2 :
  thread_path (backchannel_auth p hs form) tr q -> tr = tr1 ++ ev :: tr2 -> creates_request ev ->
  may_create p hs form tr1 ev.
Proof.
  intros Hp Heq Hd. refine (preceded_path creates_request (may_create p hs form) [] _ tr q tr1 ev tr2 _ Hp Heq Hd).
  clear. assert (Hw : forall ev, creates_request ev -> effect ev) by (intros [? ? [] ?|]; simpl; tauto).
  assert (Hsys : no_sys creates_request) by (intros i X o x []).
  apply preceded_finish. destruct (p_firestore p); [|done]. cbn [negb].
  eapply preceded_skip_try; [eapply avoids_mono, authenticate_client_harmless; exact Hw | apply always_self|].
  intros tr1 client Hauth. destruct (allows_grant client CIBA_GRANT) eqn:Hg; [cbn [negb] | done].
  destruct (parameters_read p client form) as [Hpa Hpr].
  eapply preceded_skip_try; [eapply avoids_mono, Hpa; exact Hw | exact Hpr|]. intros tr2 params Hpar. specialize (Hpar _ eq_refl).
  apply preceded_check. intros b Hb. apply backchannel_checks_ok in Hb as (hint & Hh & Hi & Ht & Hhint & Hscope & Hbind & Hdet & Hok).
  eapply preceded_skip; [by apply avoids_sys | apply get_credential_read|]. intros tr3 c Hc.
  apply preceded_check. intros account Ha. apply hinted_account_ok in Ha as (cred & -> & <- & Hne & Hdis). specialize (Hc _ eq_refl).
  eapply preceded_skip; [| apply find_pending_read|].
  { intros i x. split; [by intros []|]. destruct x; exact I. }
  intros tr4 [[existing|]|] Hf; [done| | done]. destruct (Hf eq_refl) as (l & rows & Hrows & Hnone). rewrite Hhint in Hc, Hrows.
  set (pre := (_ ++ tr4)). intros k granted. split; [by intros []|]. destruct granted; [cbn [negb] | done].
  intros i r. split.
  - intros _. exists client, params, hint, (bq_scope b), (bq_details b), cred, i, r, k, l. rewrite Hhint.
    split; [by rewrite Hbind|]. split.
    { do 4 apply authenticated_app. exists tr1, []. by rewrite app_nil_r. }
    assert (Hin : forall e, e ∈ tr3 \/ e ∈ tr4 -> e ∈ pre) by (intros e He; unfold pre; rewrite !elem_of_app; tauto).
    split; [done|]. split.
    { destruct Hpar as [?|(req & Hreq & Hv)]; [by left | right]. exists req, tr1, tr2. unfold pre. rewrite <- !app_assoc. eauto. }
    do 6 (split; [done|]). split.
    { apply (credential_read_mono tr3); [done|]. intros e He. rewrite elem_of_app. auto. }
    split; [done|]. split; [done|]. rewrite !elem_of_app, !list_elem_of_singleton. split; [auto|].
    exists rows. rewrite elem_of_app. auto.
  - destruct r as [id_|e]; [|done]. apply avoids_preceded, avoids_bind; [by apply avoids_sys | done].
Qed.

(** ** Invitations *)

(** A confidential client of the allow list that authenticated, and the address it names. *)
Definition inviter (p : Provider) (hs : HeaderMap) (form : gmap string string) (tr : trace) (client : Client) (email : string) : Prop :=
  authenticated p hs form tr client /\ is_public client = false /\ cl_client_id client ∈ p_invite_clients p /\
  (exists raw, form !! "email" = Some raw /\ email = str_to_lowercase (str_trim raw)) /\ email_shape email = true.
Lemma inviter_app p hs form tr tr' client email : inviter p hs form tr client email -> inviter p hs form (tr ++ tr') client email.
Proof. intros [Ha ?]. split; [by apply authenticated_app | done]. Qed.

Lemma authorize_invite_read p hs form :
  avoids effect (authorize_invite_client p hs form) /\
  always (fun tr r => forall client email, r = Ok (client, email) -> inviter p hs form tr client email)
    (authorize_invite_client p hs form).
Proof.
  unfold authorize_invite_client. split.
  { apply avoids_bind; [apply authenticate_client_harmless|]. intros [c|]; [|done]. by destruct (is_public c || _). }
  eapply always_bind; [apply always_self|]. intros tr [c|e] Hc; [|by apply always_ret].
  destruct (is_public c) eqn:Hpub; [by apply always_ret|]. cbn [orb].
  destruct (list_any _ _) eqn:Hl; [cbn [negb] | by apply always_ret]. apply always_ret. rewrite app_nil_r.
  apply list_any_true in Hl as (id & Hid & He). apply bool_decide_eq_true in He as ->.
  intros client email Hr. destruct (email_shape _) eqn:Hs in Hr; [|done]. simpl in Hr. injection Hr as <- <-.
  split; [exists tr, []; by rewrite app_nil_r|]. split; [done|]. split; [done|]. split; [|done].
  destruct (form !! "email") as [raw|]; [exists raw; done|]. done.
Qed.

Definition writes_challenge X (o : fsE X) : Prop := match o with SetDoc c _ _ => c = "emailChallenges" | _ => False end.
Definition may_invite (p : Provider) (hs : HeaderMap) (form : gmap string string) (tr : trace) (ev : event provE) : Prop :=
  exists client email return_to token t (d : option Value) i j k r,
    ev = Ev i (SysOp (FsOp (SetDoc "emailChallenges" token
           (Object [("email", fs_s email); ("returnTo", fs_s return_to); ("expiresAt", fs_ts (Calendar.rfc3339 (t + INVITE_TTL_SECS)))])))) r /\
    inviter p hs form tr client email /\ form !! "return_to" = Some return_to /\ safe_return client return_to /\
    Ev j (SysOp (FsOp (GetDoc "accounts" email))) (Ok d) ∈ tr /\ d ≫= credential_of_doc = None /\
    Ev k (SysOp NowSecs) t ∈ tr.

(** An invitation is written only for a confidential client of the allow list that
    authenticated, for the address it names, which has no passkey yet, and for the return
    target it names, which lies under the origin of one of its redirect URIs and contains no
    character that could leave a script or an attribute: whoever follows the link never
    ends at another origin. *)
Theorem invitation_vetted p hs form q tr tr1 ev tr2 :
  thread_path (invite_create p hs form) tr q -> tr = tr1 ++ ev :: tr2 -> fs_event_of writes_challenge ev ->
  may_invite p hs form tr1 ev.
Proof.
  intros Hp Heq Hd. refine (preceded_path (fs_event_of writes_challenge) (may_invite p hs form) [] _ tr q tr1 ev tr2 _ Hp Heq Hd).
  clear. assert (Hw : forall ev, fs_event_of writes_challenge ev -> effect ev).
  { fs_effect writes_challenge. }
  apply preceded_finish. destruct (p_firestore p); [|done]. cbn [negb].
  destruct (authorize_invite_read p hs form) as [Ha Hr].
  eapply preceded_skip_try; [eapply avoids_mono, Ha; exact Hw | exact Hr|]. intros tr1 [client email] Hinv.
  specialize (Hinv _ _ eq_refl). cbn [fst snd].
  destruct (return_to_allowed client _) eqn:Hret; [cbn [negb] | done].
  intros j r. split; [by intros []|]. destruct r as [d|]; [|done].
  cbn [Prog.translate prog_bind prog_bind_go mret prog_ret]. destruct (d ≫= credential_of_doc) as [c|] eqn:Hd; [exact I|].
  intros l token. split; [by intros []|]. intros k t. split; [by intros []|]. intros i x. split; [|by destruct x].
  intros _. assert (Hsafe := return_to_allowed_safe _ _ Hret). destruct (form !! "return_to") as [ret|] eqn:Hf; [|done].
  exists client, email, ret, (Es256.b64url_encode token), t, d, i, j, k, x. split; [done|].
  split; [by do 3 apply inviter_app|]. rewrite !elem_of_app, !list_elem_of_singleton. auto 10.
Qed.

(** ** Freezing an account *)

Definition freezes X (o : fsE X) : Prop := match o with UpdateField c _ _ _ => c = "accounts" | _ => False end.
Definition may_freeze `{AdminCodec} (p : Provider) (hs : HeaderMap) (form : gmap string string) (tr : trace) (ev : event provE) : Prop :=
  exists client email (d : option Value) i j r,
    ev = Ev i (SysOp (FsOp (UpdateField "accounts" email "disabled" (fs_b true)))) r /\
    inviter p hs form tr client email /\
    Ev j (SysOp (FsOp (GetDoc "accounts" email))) (Ok d) ∈ tr /\
    forall cred, d ≫= credential_of_doc = Some cred ->
      exists k doc, Ev k (SysOp (FsOp (GetDocWithUpdateTime REGISTRY_COL REGISTRY_ID))) (Ok doc) ∈ tr /\
        listed (cr_account_id cred) (match doc with Some (f, _) => parse_entries f | None => [] end) = false.

Lemma protection_read `{AdminCodec} email :
  avoids effect (protection email) /\
  always (fun tr r => r = Ok tt -> exists j (d : option Value), Ev j (SysOp (FsOp (GetDoc "accounts" email))) (Ok d) ∈ tr /\
      forall cred, d ≫= credential_of_doc = Some cred ->
        exists k doc, Ev k (SysOp (FsOp (GetDocWithUpdateTime REGISTRY_COL REGISTRY_ID))) (Ok doc) ∈ tr /\
          listed (cr_account_id cred) (match doc with Some (f, _) => parse_entries f | None => [] end) = false)
    (protection email).
Proof.
  unfold protection. split.
  { intros j [d|]; (split; [by intros []|]); [|done]. cbn. destruct (d ≫= credential_of_doc); [|done].
    intros k [[[f u]|]|]; (split; [by intros []|done]). }
  apply always_vis. intros j [d|]; [|by apply always_ret]. cbn. destruct (d ≫= credential_of_doc) as [c|] eqn:Hc.
  - apply always_vis. intros k [doc|]; [|by apply always_ret].
    destruct doc as [[f u]|]; cbn; apply always_ret; intros Hr; exists j, d; (split; [by left|]); intros cred Hcred; assert (cred = c) as -> by congruence.
    + exists k, (Some (f, u)). split; [right; by left|]. unfold listed. by destruct (existsb _ _).
    + exists k, None. split; [right; by left | done].
  - apply always_ret. intros _. exists j, d. split; [by left|]. intros cred Hcred. congruence.
Qed.

Lemma fs_avoids_bind Bad {A B} (q : prog sysE A) (f : A -> prog sysE B) :
  fs_avoids Bad q -> (forall a, fs_avoids Bad (f a)) -> fs_avoids Bad (q ≫= f).
Proof. intros Hq Hf. induction q as [a|X e k IH]; simpl in *; [apply Hf|]. destruct Hq as [? Hk]. split; [done|]. intros x. by apply IH. Qed.
Lemma revoke_rows_quiet col n rows : fs_avoids freezes (revoke_rows col n rows).
Proof. revert n. induction rows as [|[id_ f] rows IH]; intros n; simpl; [done|]. split; [by intros []|]. intros x. apply IH. Qed.
Lemma revoke_all_quiet account : fs_avoids freezes (revoke_all account).
Proof.
  unfold revoke_all, revoke_by_account.
  repeat (apply fs_avoids_bind; [split; [by intros []|]; intros [rows|]; [|done]; apply fs_avoids_bind; [apply revoke_rows_quiet | done] | intros ?]).
  done.
Qed.

(** A relying party freezes an account only when it is a confidential client of the
    allow list and authenticated, only the account of the address it names, and never one
    that the registry, read before, lists as an administrator. *)
Theorem freeze_vetted `{AdminCodec} p hs form q tr tr1 ev tr2 :
  thread_path (account_disable p hs form) tr q -> tr = tr1 ++ ev :: tr2 -> fs_event_of freezes ev ->
  may_freeze p hs form tr1 ev.
Proof.
  intros Hp Heq Hd. refine (preceded_path (fs_event_of freezes) (may_freeze p hs form) [] _ tr q tr1 ev tr2 _ Hp Heq Hd).
  clear. assert (Hw : forall ev, fs_event_of freezes ev -> effect ev).
  { fs_effect freezes. }
  apply preceded_finish. destruct (p_firestore p); [|done]. cbn [negb].
  destruct (authorize_invite_read p hs form) as [Ha Hr].
  eapply preceded_skip_try; [eapply avoids_mono, Ha; exact Hw | exact Hr|]. intros tr1 [client email] Hinv.
  specialize (Hinv _ _ eq_refl). cbn [fst snd]. destruct (protection_read email) as [Hpa Hpr].
  eapply preceded_skip_try; [eapply avoids_mono, Hpa; exact Hw | exact Hpr|]. intros tr2 [] Hprot.
  destruct (Hprot eq_refl) as (j & d & Hj & Hadm).
  eapply (preceded_bind _ _ _ (fun _ _ => True)); [| by intros ? ? ? | intros ? [[]|] _; exact I].
  intros l r. split; [by intros []|]. destruct r as [d'|]; [|done].
  cbn [Prog.translate prog_bind prog_bind_go mret prog_ret]. destruct (d' ≫= credential_of_doc) as [c|]; [|exact I].
  assert (Hrest : forall x : RevocationCounts -> DisableOutcome, fs_avoids freezes
    (counts ← revoke_all (cr_account_id c);
     _ ← audit_record ("client:" +:+ cl_client_id client) "disable_account" (cr_account_id c) (counts_detail email counts);
     mret (Ok (x counts) : result string DisableOutcome))).
  { intros x. apply fs_avoids_bind; [apply revoke_all_quiet|]. intros counts. unfold audit_record. no_writes. }
  destruct (cr_disabled c); [apply avoids_preceded, fs_avoids_sys, (Hrest AlreadyDisabled)|].
  intros i x. split.
  - intros _. exists client, email, d, i, j, x. split; [done|]. split; [by do 2 apply inviter_app|].
    rewrite !elem_of_app. split; [auto|]. intros cred Hcred. destruct (Hadm cred Hcred) as (k & doc & Hk & Hl).
    exists k, doc. rewrite !elem_of_app. auto.
  - destruct x as [[]|]; [|exact I]. apply avoids_preceded, fs_avoids_sys, (Hrest Disabled).
Qed.
End facts.
