(* ===== verification/PasskeyWitnesses.v ===== *)
(** * Concrete ceremonies

    One approval, one login, one registration, a token minted at the console, and vetted
    requests, run on the reference document service of [DocTable], at which the theorems
    of [PasskeyFacts], [AdminWebFacts] and [VettingFacts] are applied. *)

From S2P Require Import Prelude Prog Json Model Store Decimal Calendar Firestore Externals Es256 WebAuthn Sys DocStore DocTable.
From S2P Require Import Nonce Ciba Dcr Claims Accounts AdminStore AdminFacts DcrStore Provider ProviderFacts ClientAuth Http I18n Fcm.
From S2P Require Import Passkey CibaEndpoints Login AdminWeb PasskeyFacts AdminWebFacts VettingFacts.

#[local] Open Scope Z_scope.

Definition challenge : string := "challenge-of-20-characters".
Definition mail_token : string := "token-of-20-characters".
Definition client_data (type : string) : Value :=
  Object [("type", Str type); ("challenge", Str challenge); ("origin", Str "https://op.te.st")].
Definition passkey_externals : Externals :=
  sample_externals [("get", client_data "webauthn.get"); ("create", client_data "webauthn.create")].
#[local] Existing Instance passkey_externals.

Definition passkey_provider : Provider :=
  mkProvider "https://op.te.st" "" sample_signer [] true (fun _ => MemoryNonce) ∅ [] ∅ ∅ ∅ [].

(** Authenticator data with the given flags and a counter of 65. *)
Definition auth_data (flags : nat) (rest : string) : string :=
  sha256_digest "op.te.st" +:+ String (ascii_of_nat flags)
    (String (ascii_of_nat 0) (String (ascii_of_nat 0) (String (ascii_of_nat 0) (String (ascii_of_nat 65) rest)))).
Definition coordinate : string := "0123456789abcdef0123456789abcdef".
Definition request : AuthVerifyReq := mkAuthVerifyReq "cred" (mkAuthResponse "get" (auth_data 5 "") "good" None).

Definition stored_credential : Value :=
  Object [("accountId", fs_s "acc"); ("credentialId", fs_s "cred"); ("pubX", fs_s coordinate); ("pubY", fs_s coordinate);
          ("signCount", fs_int 8); ("disabled", fs_b false)].
Definition known_tables (kind : ChallengeKind) (uid : string) : Table :=
  write "webauthnChallenges" challenge (webauthn_doc 1000 "a@x" kind uid "acc") (write "accounts" "a@x" stored_credential empty_table).
Definition pending : BackchannelAuthRequest := mkBackchannelAuthRequest "r1" "rp" "acc" "openid" "pay" Pending 2000 None.
Definition ceremony_world (t : Table) : @world table_backend :=
  @mkWorld table_backend (1010 * NS) 0 0 t (save_interaction 1000 (mkInteraction "u1" "query" None None None) MemoryStore_default)
    (mkMemoryCibaStore {[ "r1" := pending ]} []) (fun _ => ∅) (fun _ => CibaRateLimiter_new (60 * NS) 5).
Definition ceremony_handler := @prov_handler passkey_externals table_backend sample_services.
Definition ceremony_trace {A} (q : prog provE A) (t : Table) : list (event provE) := run_trace ceremony_handler 0 q (ceremony_world t).

(** ** An approval *)

Definition approval := ciba_approve passkey_provider "r1" request.
Definition approval_trace := ceremony_trace approval (known_tables CibaApprove "r1").
Lemma approval_authentic_witness :
  may_approve passkey_provider "r1" request (take 7 approval_trace) (nth 7 approval_trace EvEnv).
Proof.
  refine (approval_authentic passkey_provider "r1" request (Ret (run ceremony_handler approval (ceremony_world (known_tables CibaApprove "r1"))).1)
    approval_trace _ _ _ (run_trace_path ceremony_handler 0 approval _) (split_at approval_trace 7 _) _); vm_compute; [lia | exact I].
Defined.

(** ** A login *)

Definition login := login_passkey_verify passkey_provider "u1" request.
Definition login_trace := ceremony_trace login (known_tables Auth "u1").
Lemma login_authentic_witness :
  may_log_in passkey_provider "u1" request (take 10 login_trace) (nth 10 login_trace EvEnv).
Proof.
  refine (login_authentic passkey_provider "u1" request (Ret (run ceremony_handler login (ceremony_world (known_tables Auth "u1"))).1)
    login_trace _ _ _ (run_trace_path ceremony_handler 0 login _) (split_at login_trace 10 _) _); vm_compute; [lia | exact I].
Defined.

(** ** A registration *)

Definition registered_tables : Table :=
  write "emailChallenges" mail_token (Object [("email", fs_s "a@x"); ("expiresAt", fs_ts (rfc3339 2000))]) (known_tables Reg "").
Definition attested : string :=
  "0123456789abcdef" +:+ String (ascii_of_nat 0) (String (ascii_of_nat 3) ("new" +:+ "K" +:+ coordinate +:+ coordinate)).
Definition reg_request : RegVerifyReq := mkRegVerifyReq mail_token "create" ("A" +:+ auth_data 65 attested) None.
Definition registration := register_passkey_verify passkey_provider reg_request.
Definition registration_trace := ceremony_trace registration registered_tables.
Lemma registration_authentic_witness :
  may_register passkey_provider reg_request (take 12 registration_trace) (nth 12 registration_trace EvEnv).
Proof.
  refine (registration_authentic passkey_provider reg_request
    (Ret (run ceremony_handler registration (ceremony_world registered_tables)).1)
    registration_trace _ _ _ (run_trace_path ceremony_handler 0 registration _) (split_at registration_trace 12 _) _);
    vm_compute; [lia | done].
Defined.

(** * An administrator at the console *)

#[local] Existing Instance passkey_externals.
#[local] Existing Instance binary_codec.
Definition console_codec : IatCodec := sample_codec sample_constraints.
#[local] Existing Instance console_codec.

Definition admin_jar : gmap string string := {[ SID_COOKIE := "s1" ]}.
Definition console_world : @world table_backend :=
  @mkWorld table_backend (1010 * NS) 0 0 (write REGISTRY_COL REGISTRY_ID (entries_field two_admins) empty_table)
    (save_session 1000 (mkSession "s1" "alice" 1000) MemoryStore_default) MemoryCibaStore_default (fun _ => ∅)
    (fun _ => CibaRateLimiter_new (60 * NS) 5).
Definition mint_request : console_request := Mint (mkIatMintForm "public" "rp.example" "" 24).
Definition minting := console passkey_provider [] admin_jar mint_request.
Definition minting_trace : list (event provE) := run_trace ceremony_handler 0 minting console_world.
Lemma console_needs_admin_witness : administrator passkey_provider admin_jar (take 4 minting_trace).
Proof.
  refine (console_needs_admin passkey_provider [] admin_jar mint_request (Ret (run ceremony_handler minting console_world).1)
    minting_trace _ (nth 4 minting_trace EvEnv) _ (run_trace_path ceremony_handler 0 minting _) (split_at minting_trace 4 _) _);
    vm_compute; [lia | exact I].
Defined.

(** * Vetted requests *)

#[local] Existing Instance passkey_externals.
#[local] Existing Instance binary_codec.

Definition relying_party : Client :=
  mkClient "rp" ["https://rp.example/cb"] "client_secret_basic" (Some (hash_token "s")) [CIBA_GRANT] [] false [] None false false None.
Definition rp_provider : Provider :=
  mkProvider "https://op.te.st" "" sample_signer [] true (fun _ => MemoryNonce) {[ "rp" := relying_party ]} [] ∅
    (register_auth ClientSecretBasic ∅) ∅ ["rp"].
Definition rp_auth : HeaderMap := [("authorization", "Basic rp:s")].

(** ** A back-channel request *)

Definition hint_form : gmap string string := {[ "login_hint" := "a@x" ]}.
Definition asking := backchannel_auth rp_provider rp_auth hint_form.
Definition asking_trace := ceremony_trace asking (known_tables Reg "").
Lemma backchannel_vetted_witness :
  may_create rp_provider rp_auth hint_form (take 3 asking_trace) (nth 3 asking_trace EvEnv).
Proof.
  refine (backchannel_vetted rp_provider rp_auth hint_form (Ret (run ceremony_handler asking (ceremony_world (known_tables Reg ""))).1)
    asking_trace _ _ _ (run_trace_path ceremony_handler 0 asking _) (split_at asking_trace 3 _) _); vm_compute; [lia | exact I].
Defined.

(** The lookup for a pending request uses the address of the hint, and requests belong to
    account identifiers: the same request sent twice creates two requests. *)
Definition asked_once := run ceremony_handler asking (ceremony_world (known_tables Reg "")).
Definition asked_twice := run ceremony_handler asking asked_once.2.
Definition pending_for (account : string) (w : @world table_backend) : list string :=
  map br_auth_req_id (List.filter (pending_of account) (map snd (map_to_list (mc_map (w_ciba w))))).
Theorem repeated_request_not_recognised :
  pending_for "acc" asked_once.2 = ["id"; "r1"] /\ pending_for "acc" asked_twice.2 = ["id1"; "id"; "r1"].
Proof. vm_compute. split; reflexivity. Qed.

(** ** An invitation *)

Definition invite_form : gmap string string := <["email" := "new@x"]> {[ "return_to" := "https://rp.example/welcome" ]}.
Definition inviting := invite_create rp_provider rp_auth invite_form.
Definition inviting_trace := ceremony_trace inviting (known_tables Reg "").
Lemma invitation_vetted_witness :
  may_invite rp_provider rp_auth invite_form (take 3 inviting_trace) (nth 3 inviting_trace EvEnv).
Proof.
  refine (invitation_vetted rp_provider rp_auth invite_form (Ret (run ceremony_handler inviting (ceremony_world (known_tables Reg ""))).1)
    inviting_trace _ _ _ (run_trace_path ceremony_handler 0 inviting _) (split_at inviting_trace 3 _) _); vm_compute; [lia | done].
Defined.

(** ** A frozen account *)

Definition freeze_form : gmap string string := {[ "email" := "a@x" ]}.
Definition freezing := account_disable rp_provider rp_auth freeze_form.
Definition freezing_trace := ceremony_trace freezing (known_tables Reg "").
Lemma freeze_vetted_witness :
  may_freeze rp_provider rp_auth freeze_form (take 3 freezing_trace) (nth 3 freezing_trace EvEnv).
Proof.
  refine (freeze_vetted rp_provider rp_auth freeze_form (Ret (run ceremony_handler freezing (ceremony_world (known_tables Reg ""))).1)
    freezing_trace _ _ _ (run_trace_path ceremony_handler 0 freezing _) (split_at freezing_trace 3 _) _); vm_compute; [lia | done].
Defined.

(** ** The login page

    The identifier of the transaction stands in a script string of the page as the path
    of the request has it: a quote in it ends the string. *)

Definition hostile_uid : string := template "`;alert(1);`".
Definition login_page (uid : string) : string :=
  match login_form rp_provider [] uid with Reply _ _ (HtmlBody b) => b | _ => "" end.
Theorem login_page_reflects_uid :
  str_contains_str (template "const OPT=`/login/`;alert(1);`/passkey/options`") (login_page hostile_uid) = true.
Proof. vm_compute. reflexivity. Qed.
