(* ===== verification/FakeFirestore.v ===== *)
(** * The fake Firestore server

    [fake_firestore] of [src/src/firestore.rs]: the in-memory document server the
    client's tests run against, request by request.  [fake_backend] is the client
    of [FsClient] talking to it. *)

From Stdlib Require Strings.String.
From S2P Require Import Prelude Prog Json Decimal Firestore Externals Sys Http FsClient.

#[local] Open Scope Z_scope.

(** [poisoned]: a handler panicked while it held the lock of the documents (the test
    build checks overflow), and every later one that takes it panics too.  A handler
    that panics gives no answer. *)

Module Fake.

Record Doc := mkDoc { fields : Value; update_time : Z }.
Record FakeState := mkFakeState {
  docs : gmap (string * string) Doc;
  next_version : Z;
  fcm_sent : list Value;
  poisoned : bool
}.
Definition FakeState_default : FakeState := mkFakeState ∅ 0 [] false.

Definition version_str (v : Z) : string := "v" +:+ u64_to_string v.

Record Precondition := mkPrecondition {
  pre_update_time : option string;
  pre_exists : option string;
  pre_update_mask_field : option string
}.

Definition status (st : Z) : HttpResponse := mkHttpResponse st (WireText "").
Definition json (v : Value) : HttpResponse := mkHttpResponse 200 (WireJson v).
Definition text (st : Z) (s : string) : HttpResponse := mkHttpResponse st (WireText s).

(** [Query]: a repeated name is refused. *)
Definition query_values (k : string) (q : list (string * string)) : list string :=
  omap (fun kv => if decide (kv.1 = k) then Some kv.2 else None) q.
Definition query_opt (k : string) (q : list (string * string)) : result string (option string) :=
  match query_values k q with
  | [] => Ok None
  | [v] => Ok (Some v)
  | _ => Err "duplicate field"
  end.
Definition precondition_of (q : list (string * string)) : result string Precondition :=
  ut ← query_opt "currentDocument.updateTime" q;
  ex ← query_opt "currentDocument.exists" q;
  mask ← query_opt "updateMask.fieldPaths" q;
  Ok (mkPrecondition ut ex mask).
Record ListQuery := mkListQuery { page_size : option Z; page_token : option string }.
Definition list_query_of (q : list (string * string)) : result string ListQuery :=
  size ← query_opt "pageSize" q;
  n ← match size with None => Ok None | Some t => Some <$> ok_or "invalid digit" (parse_u64 t) end;
  tok ← query_opt "pageToken" q;
  Ok (mkListQuery n tok).

Definition get_doc (key : (string * string)) (st : FakeState) : option HttpResponse * FakeState :=
  (Some match docs st !! key with
   | Some d => json (Object [("fields", fields d); ("updateTime", Str (version_str (update_time d)))])
   | None => status 404
   end, st).

(** Whether a document has the version asked for. *)
Definition version_matches (key : (string * string)) (want : string) (st : FakeState) : bool :=
  match docs st !! key with Some d => bool_decide (version_str (update_time d) = want) | None => false end.
Definition exists_matches (key : (string * string)) (want : string) (st : FakeState) : bool :=
  bool_decide (bool_decide (is_Some (docs st !! key)) = bool_decide (want = "true")).

(** The new content under an update mask. *)
Definition merged (key : (string * string)) (mask : option string) (new : Value) (st : FakeState) : Value :=
  match mask with
  | Some field =>
      let base := match docs st !! key with Some d => fields d | None => Object [] end in
      match base, get new field with
      | Object m, Some v => Object (assoc_insert field v m)
      | _, _ => base
      end
  | None => new
  end.

Definition patch_doc (key : (string * string)) (pre : Precondition) (body : Value) (st : FakeState) :
    option HttpResponse * FakeState :=
  if match pre_exists pre with Some want => negb (exists_matches key want st) | None => false end
  then (Some (text 409 "precondition failed: exists"), st)
  else if match pre_update_time pre with Some want => negb (version_matches key want st) | None => false end
  then (Some (text 400 "precondition failed: updateTime"), st)
  else if next_version st =? u64_max
  then (None, mkFakeState (docs st) (next_version st) (fcm_sent st) true)
  else
    let new := default (Object []) (get body "fields") in
    let v := next_version st + 1 in
    let m := merged key (pre_update_mask_field pre) new st in
    (Some (json (Object [("fields", m); ("updateTime", Str (version_str v))])),
     mkFakeState (<[key := mkDoc m v]> (docs st)) v (fcm_sent st) (poisoned st)).

Definition delete_doc (key : (string * string)) (pre : Precondition) (st : FakeState) : option HttpResponse * FakeState :=
  if match pre_update_time pre with Some want => negb (version_matches key want st) | None => false end
  then (Some (text 400 "precondition failed: updateTime"), st)
  else (Some (status 200), mkFakeState (delete key (docs st)) (next_version st) (fcm_sent st) (poisoned st)).

Definition fcm_send (body : Value) (st : FakeState) : option HttpResponse * FakeState :=
  (Some (json (Object [("name", Str "projects/fake/messages/1")])),
   mkFakeState (docs st) (next_version st) (fcm_sent st ++ [body]) (poisoned st)).

(** The documents of a collection, in the order of [HashMap::iter] (here [map_to_list]'s). *)
Definition collection (col : string) (st : FakeState) : list ((string * string) * Doc) :=
  List.filter (fun kd => bool_decide (kd.1.1 = col)) (map_to_list (docs st)).

Definition field_sort_key (f : Value) (field : string) : string :=
  match get f field with
  | None => ""
  | Some v =>
      default "" (match get_str v "timestampValue" with Some s => Some s | None => get_str v "stringValue" end)
  end.

Fixpoint compare_orders (orders : list (string * bool)) (a b : (string * string) * Doc) : comparison :=
  match orders with
  | [] => Eq
  | (field, desc) :: orders' =>
      let ord := if bool_decide (field = "__name__") then str_cmp a.1.2 b.1.2
                 else str_cmp (field_sort_key (fields a.2) field) (field_sort_key (fields b.2) field) in
      match (if (desc : bool) then CompOpp ord else ord) with Eq => compare_orders orders' a b | o => o end
  end.

Definition resource_name (key : (string * string)) : string :=
  "projects/fake/databases/(default)/documents/" +:+ key.1 +:+ "/" +:+ key.2.

(** [v[k]]: [Null] when absent. *)
Definition index (v : Value) (k : string) : Value := default Null (get v k).
Definition str_at (v : Value) : string := default "" (as_str v).
Definition first_element (v : Value) : Value := default Null (as_array v ≫= head).

Definition run_query (body : Value) (st : FakeState) : option HttpResponse * FakeState :=
  let sq := index body "structuredQuery" in
  let col := str_at (index (first_element (index sq "from")) "collectionId") in
  let matching := collection col st in
  let matching :=
    match get sq "where" with
    | Some filter =>
        let ff := index filter "fieldFilter" in
        let field := str_at (index (index ff "field") "fieldPath") in
        let want := str_at (index (index ff "value") "stringValue") in
        List.filter (fun kd => bool_decide (field_str (fields kd.2) field = Some want)) matching
    | None => matching
    end in
  let matching :=
    match get sq "orderBy" ≫= as_array with
    | Some order_list =>
        let orders := map (fun o => (str_at (index (index o "field") "fieldPath"),
                                     bool_decide (as_str (index o "direction") = Some "DESCENDING"))) order_list in
        sort_by (compare_orders orders) matching
    | None => matching
    end in
  let matching := match get sq "limit" ≫= as_u64 with Some n => take (Z.to_nat n) matching | None => matching end in
  (Some (json (Array (map (fun kd => Object [("document", Object [("name", Str (resource_name kd.1)); ("fields", fields kd.2)])])
                        matching))), st).

Definition by_id (a b : (string * string) * Doc) : comparison := str_cmp a.1.2 b.1.2.

Definition list_docs (col : string) (q : ListQuery) (st : FakeState) : option HttpResponse * FakeState :=
  let matching := sort_by by_id (collection col st) in
  let size := Z.to_nat (Z.max (default 300 (page_size q)) 1) in
  let offset := Z.to_nat (default 0 (page_token q ≫= parse_u64)) in
  let page := take size (drop offset matching) in
  let consumed := (offset + length page)%nat in
  let documents := map (fun kd => Object [("name", Str (resource_name kd.1)); ("fields", fields kd.2);
                                          ("updateTime", Str (version_str (update_time kd.2)))]) page in
  let total := length (collection col st) in
  (Some (json (Object (("documents", Array documents) ::
     if (consumed <? total)%nat then [("nextPageToken", Str (u64_to_string (Z.of_nat consumed)))] else []))), st).

(** ** The router *)

Inductive route : Type :=
| DocRoute (col id : string)
| SendRoute
| RunQueryRoute
| ListRoute (col : string).

Section app.
Context `{Externals}.

Definition route_of (path : string) : option route :=
  match str_split "/"%char path with
  | [""; "v1"; "projects"; p; "databases"; "(default)"; "documents"; col; id] =>
      if str_is_empty p || str_is_empty col || str_is_empty id then None
      else Some (DocRoute (percent_decode col) (percent_decode id))
  | [""; "v1"; "projects"; p; "messages:send"] => if str_is_empty p then None else Some SendRoute
  | [""; "v1"; "projects"; p; "databases"; "(default)"; "documents:runQuery"] =>
      if str_is_empty p then None else Some RunQueryRoute
  | [""; "v1"; "projects"; p; "databases"; "(default)"; "documents"; col] =>
      if str_is_empty p || str_is_empty col then None else Some (ListRoute (percent_decode col))
  | _ => None
  end.

Definition with_body (body : option Value) (k : Value -> option HttpResponse * FakeState) (st : FakeState) :
    option HttpResponse * FakeState :=
  match body with Some v => k v | None => (Some (status 415), st) end.
Definition with_query {Q} (q : result string Q) (k : Q -> option HttpResponse * FakeState) (st : FakeState) :
    option HttpResponse * FakeState :=
  match q with Ok x => k x | Err e => (Some (text 400 e), st) end.

(** A handler that takes the lock of the documents. *)
Definition locked (k : option HttpResponse * FakeState) (st : FakeState) : option HttpResponse * FakeState :=
  if poisoned st then (None, st) else k.

(** The application: the route, the method, the extractors, the handler. *)
Definition app (r : HttpRequest) (path : string) (st : FakeState) : option HttpResponse * FakeState :=
  match route_of path, rq_method r with
  | Some (DocRoute col id), GET => locked (get_doc (col, id) st) st
  | Some (DocRoute col id), PATCH =>
      with_query (precondition_of (rq_query r)) (fun pre =>
        with_body (rq_body r) (fun body => locked (patch_doc (col, id) pre body st) st) st) st
  | Some (DocRoute col id), DELETE =>
      with_query (precondition_of (rq_query r)) (fun pre => locked (delete_doc (col, id) pre st) st) st
  | Some SendRoute, POST => with_body (rq_body r) (fun body => fcm_send body st) st
  | Some RunQueryRoute, POST => with_body (rq_body r) (fun body => locked (run_query body st) st) st
  | Some (ListRoute col), GET => with_query (list_query_of (rq_query r)) (fun q => locked (list_docs col q st) st) st
  | Some _, _ => (Some (status 405), st)
  | None, _ => (Some (status 404), st)
  end.

Definition send_error (r : HttpRequest) : HttpError :=
  mkHttpError ("error sending request for url (" +:+ rq_url r +:+ ")") "error sending request".

(** The network of one server; nothing else answers. *)
Definition fake_http (host : string) : handler httpE FakeState :=
  fun X e st =>
    match e in httpE X return X * FakeState with
    | Send r =>
        match strip_prefix ("http://" +:+ host) (rq_url r) with
        | Some path => let '(resp, st') := app r path st in (ok_or (send_error r) resp, st')
        | None => (Err (send_error r), st)
        end
    | InstantNow => (0, st)
    | CachedToken => (None, st)
    | CacheToken _ _ => (tt, st)
    end.

(** A client of this server, as a database; [fuel] bounds the pages of a listing. *)
Definition fake_backend (project host : string) (fuel : nat) : FsBackend := {|
  fs_db := FakeState;
  fs_handle X o st := run (fake_http host) (fs_client (new_for_test project host) fuel X o) st
|}.
End app.

End Fake.
