(* ===== verification/FakeFacts.v ===== *)
(** * The fake server keeps the contract

    The client of [FsClient] talking to the server of [FakeFirestore] is a database
    in the sense of [DocStore]: routing, escaping, preconditions, versions and the
    reading of the answers fit together. *)

From S2P Require Import Prelude Prog Json Decimal Firestore Externals Sys DocStore Http FsClient.
From S2P Require Import FakeFirestore Dcr.

#[local] Open Scope Z_scope.

(** ** Texts *)

Lemma str_split_no c s : str_contains c s = false -> str_split c s = [s].
Proof.
  induction s as [|a s IH]; simpl; [done|]. case_decide; [done|]. intros Hs. by rewrite IH.
Qed.
Lemma str_split_cons c s t : str_contains c s = false -> str_split c (s +:+ String c t) = s :: str_split c t.
Proof.
  induction s as [|a s IH]; simpl; [by rewrite decide_True|]. case_decide; [done|]. intros Hs. by rewrite IH.
Qed.
Lemma str_contains_app c s t : str_contains c (s +:+ t) = str_contains c s || str_contains c t.
Proof. induction s as [|a s IH]; simpl; [done|]. case_decide; [done | apply IH]. Qed.
Lemma forall_not_contains (P : ascii -> bool) c s : P c = false -> str_forall P s = true -> str_contains c s = false.
Proof.
  intros Hc. induction s as [|a s IH]; simpl; [done|]. intros [Ha Hs]%andb_prop. case_decide; [congruence | by apply IH].
Qed.

Lemma enc_no_slash id : str_contains "/"%char (enc id) = false.
Proof. apply (forall_not_contains url_char); [done|]. induction id; [done|]. simpl. by rewrite str_forall_app, enc_char_url. Qed.
Lemma enc_plain c : str_forall is_unreserved c = true -> enc c = c.
Proof.
  induction c as [|a c IH]; simpl; [done|]. intros [Ha Hc]%andb_prop. unfold enc_char. rewrite Ha.
  simpl. by rewrite IH.
Qed.
Lemma enc_empty id : str_is_empty (enc id) = str_is_empty id.
Proof. destruct id as [|a id]; [done|]. simpl. unfold enc_char. by case_match. Qed.

Lemma u64_to_string_inj a b : in_u64 a -> in_u64 b -> u64_to_string a = u64_to_string b -> a = b.
Proof.
  intros Ha Hb He. apply parse_u64_to_string in Ha, Hb. rewrite He in Ha. congruence.
Qed.

(** [percent_decode] undoes [enc] in the sample instance. *)
Lemma hex_value_upper n : (n < 16)%nat -> hex_value (hex_upper n) = n.
Proof. intros H. do 16 (destruct n as [|n]; [by vm_compute|]). lia. Qed.
Lemma pct_decode_enc id : pct_decode (enc id) = id.
Proof.
  induction id as [|a id IH]; [done|]. cbn [enc]. unfold enc_char. destruct (is_unreserved a) eqn:Ha.
  - cbn [String.app]. change (String a "" +:+ enc id) with (String a (enc id)).
    assert (Hne : a <> "%"%char) by (intros ->; discriminate Ha).
    destruct (enc id) as [|b [|c r]] eqn:He; cbn [pct_decode] in *; try (by rewrite IH).
    rewrite bool_decide_eq_false_2 by done. by rewrite IH.
  - destruct (nibbles a) as (H1 & H2 & H3).
    change (String "%"%char (String (hex_upper (nat_of_ascii a / 16)) (String (hex_upper (nat_of_ascii a mod 16)) "")) +:+ enc id)
      with (String "%"%char (String (hex_upper (nat_of_ascii a / 16)) (String (hex_upper (nat_of_ascii a mod 16)) (enc id)))).
    cbn [pct_decode]. rewrite bool_decide_eq_true_2 by done. rewrite IH, !hex_value_upper by done.
    rewrite <- H3. by rewrite ascii_nat_embedding.
Qed.

Class PercentDecoding `{Externals} := percent_decode_enc : forall id, percent_decode (enc id) = id.
#[export] Instance sample_percent table params : @PercentDecoding (sample_externals_with table params).
Proof. exact pct_decode_enc. Qed.

Module FakeProofs.
Import Fake.

Section proofs.
Context `{HX : Externals, !PercentDecoding}.
Context (project host : string) (fuel : nat).
Context (Hproject : str_is_empty project = false) (Hslash : str_contains "/"%char project = false).

Abbreviation client := (new_for_test project host).
Abbreviation handle := (fake_http host).

(** ** Routing *)

Definition doc_path (col id : string) : string :=
  "/v1/projects/" +:+ project +:+ "/databases/(default)/documents/" +:+ col +:+ "/" +:+ enc id.

Lemma route_doc col id :
  collection_name col = true -> route_of (doc_path col id) = if str_is_empty id then None else Some (DocRoute col id).
Proof.
  intros [Hne Hcol]%andb_prop. unfold route_of, doc_path.
  assert (Hc : str_contains "/"%char col = false) by (by apply (forall_not_contains is_unreserved)).
  change ("/v1/projects/" +:+ ?x) with (String "/" ("v1" +:+ String "/" ("projects" +:+ String "/" x))).
  change ("/databases/(default)/documents/" +:+ ?x)
    with (String "/" ("databases" +:+ String "/" ("(default)" +:+ String "/" ("documents" +:+ String "/" x)))).
  change ("/" +:+ ?x) with (String "/" x).
  change (String "/" ("v1" +:+ ?x)) with ("" +:+ String "/" ("v1" +:+ x)).
  rewrite !str_split_cons by done. rewrite str_split_no by apply enc_no_slash.
  rewrite Hproject, enc_empty. apply negb_true_iff in Hne. rewrite Hne. simpl. destruct (str_is_empty id); [done|].
  rewrite percent_decode_enc. by rewrite <- (enc_plain col) at 1; [rewrite percent_decode_enc|].
Qed.

(** What the server answers to a request on a document. *)
Definition doc_answer (m : Method) (q : list (string * string)) (body : option Value) (col id : string) (st : FakeState) :
    option HttpResponse * FakeState :=
  if str_is_empty id then (Some (status 404), st) else
  match m with
  | GET => locked (get_doc (col, id) st) st
  | PATCH =>
      with_query (precondition_of q) (fun pre =>
        with_body body (fun b => locked (patch_doc (col, id) pre b st) st) st) st
  | DELETE => with_query (precondition_of q) (fun pre => locked (delete_doc (col, id) pre st) st) st
  | POST => (Some (status 405), st)
  end.

Lemma doc_url_path col id : doc_url client col id = ("http://" +:+ host) +:+ doc_path col id.
Proof. unfold doc_url, documents_url, doc_path, base_url, base_url_or. simpl. by rewrite !str_app_assoc. Qed.

Lemma run_call ctx m q body col id st :
  collection_name col = true ->
  run handle (call client ctx m (doc_url client col id) q body) st =
    (map_err ctx (ok_or (send_error (mkHttpRequest m (doc_url client col id) q [pair_bearer "owner"] body))
                    (doc_answer m q body col id st).1), (doc_answer m q body col id st).2).
Proof.
  intros Hcol. unfold call, firestore_token. cbn [fc_emulator_host new_for_test]. rewrite try_ok, run_bind, run_trigger.
  cbn [fake_http rq_url]. rewrite (proj2 (strip_prefix_Some _ _ _) (doc_url_path col id)).
  unfold app, doc_answer. rewrite route_doc by done. cbn [rq_method rq_query rq_body].
  destruct (str_is_empty id); [done|]. destruct m; try done; by destruct (_ : option HttpResponse * FakeState).
Qed.

(** ** The documents as the contract sees them *)

Definition at_ (st : FakeState) (c i : string) : option (Value * string) :=
  (fun d => (fields d, version_str (update_time d))) <$> docs st !! (c, i).
Definition used (st : FakeState) (v : string) : Prop := exists n, 0 <= n <= next_version st /\ v = version_str n.
Definition doc_ok (st : FakeState) (key : (string * string)) (d : Doc) : Prop :=
  key.2 <> "" /\ is_object (fields d) /\ 0 <= update_time d <= next_version st.
Definition state_ok (st : FakeState) : Prop :=
  (0 <= next_version st <= u64_max /\ Z.of_nat (size (docs st)) <= next_version st) /\
  map_Forall (doc_ok st) (docs st).

Lemma version_str_inj a b : in_u64 a -> in_u64 b -> version_str a = version_str b -> a = b.
Proof. intros Ha Hb [= He]. by apply u64_to_string_inj. Qed.

Lemma at_seen st c i f v : state_ok st -> at_ st c i = Some (f, v) -> used st v.
Proof.
  intros [Hn Hd] Ha. unfold at_ in Ha. destruct (docs st !! (c, i)) as [d|] eqn:Hk; [|done]. injection Ha as <- <-.
  exists (update_time d). split; [|done]. by apply (Hd _ _ Hk).
Qed.
Lemma at_object st c i f v : state_ok st -> at_ st c i = Some (f, v) -> is_object f.
Proof.
  intros [Hn Hd] Ha. unfold at_ in Ha. destruct (docs st !! (c, i)) as [d|] eqn:Hk; [|done]. injection Ha as <- <-.
  by apply (Hd _ _ Hk).
Qed.
Lemma at_empty st c : state_ok st -> at_ st c "" = None.
Proof.
  intros [Hn Hd]. unfold at_. destruct (docs st !! (c, "")) as [d|] eqn:Hk; [|done]. by destruct (Hd _ _ Hk).
Qed.

Lemma unchanged_refl st : unchanged at_ used st st.
Proof. done. Qed.
(** The flag and the messages are not part of the documents. *)
Lemma same_docs st st' : docs st' = docs st -> next_version st' = next_version st -> unchanged at_ used st st'.
Proof. intros Hd Hn. split; [intros c i; unfold at_; by rewrite Hd | intros v; unfold used; by rewrite Hn]. Qed.

Definition written (key : (string * string)) (f : Value) (st : FakeState) : FakeState :=
  mkFakeState (<[key := mkDoc f (next_version st + 1)]> (docs st)) (next_version st + 1) (fcm_sent st) (poisoned st).
Definition erased (key : (string * string)) (st : FakeState) : FakeState :=
  mkFakeState (delete key (docs st)) (next_version st) (fcm_sent st) (poisoned st).

Lemma size_insert_le (m : gmap (string * string) Doc) k d : (size (<[k := d]> m) <= S (size m))%nat.
Proof. rewrite map_size_insert. destruct (m !! k); simpl; lia. Qed.
Lemma size_delete_le (m : gmap (string * string) Doc) k : (size (delete k m) <= size m)%nat.
Proof. rewrite map_size_delete. destruct (m !! k); simpl; lia. Qed.

Lemma written_ok c i f st :
  state_ok st -> next_version st < u64_max -> i <> "" -> is_object f -> state_ok (written (c, i) f st).
Proof.
  intros [Hn Hd] Hlt Hi Hf. split.
  { pose proof (size_insert_le (docs st) (c, i) (mkDoc f (next_version st + 1))). simpl. lia. }
  simpl. apply map_Forall_insert_2.
  - split; [done|]. split; [done|]. simpl. lia.
  - eapply map_Forall_impl; [exact Hd|]. intros k d (? & ? & ?). split; [done|]. split; [done|]. simpl. lia.
Qed.
Lemma written_put c i f st :
  state_ok st -> next_version st < u64_max -> put at_ used c i f st (written (c, i) f st).
Proof.
  intros [Hn Hd] Hlt. split; [split|].
  - intros c' i' Hne. unfold at_. simpl. by rewrite lookup_insert_ne by congruence.
  - intros v (n & Hr & ->). exists n. split; [simpl; lia | done].
  - exists (version_str (next_version st + 1)). split.
    + intros (n & Hr & He). apply version_str_inj in He; unfold in_u64, u64_max in *; lia.
    + unfold at_. simpl. by rewrite lookup_insert_eq.
Qed.
Lemma erased_ok key st : state_ok st -> state_ok (erased key st).
Proof.
  intros [Hn Hd]. split; [|simpl; by apply map_Forall_delete].
  pose proof (size_delete_le (docs st) key). simpl. lia.
Qed.
Lemma erased_removed c i st : removed at_ used c i st (erased (c, i) st).
Proof.
  split; [split|].
  - intros c' i' Hne. unfold at_. simpl. by rewrite lookup_delete_ne by congruence.
  - done.
  - unfold at_. simpl. by rewrite lookup_delete_eq.
Qed.

Lemma version_matches_spec c i v st : version_matches (c, i) v st = true <-> has_version at_ st c i v.
Proof.
  unfold version_matches, has_version, at_. destruct (docs st !! (c, i)) as [d|]; cbn [fmap option_fmap option_map].
  - rewrite bool_decide_eq_true. split; [intros <-; eauto | intros [f [= _ Hv]]; by f_equal].
  - split; [done | intros [? ?]; done].
Qed.

(** ** Writes *)

Definition holds (pre : Precondition) (key : string * string) (st : FakeState) : Prop :=
  (forall want, pre_exists pre = Some want -> exists_matches key want st = true) /\
  (forall want, pre_update_time pre = Some want -> version_matches key want st = true).

(** Nothing was written: the name is empty, or the server does not answer. *)
Definition refused (id : string) (a : option HttpResponse * FakeState) (st : FakeState) : Prop :=
  match a.1 with Some r => rs_status r = 404 /\ id = "" | None => True end /\
  docs a.2 = docs st /\ next_version a.2 = next_version st.

Lemma refused_ok id a st : refused id a st -> state_ok st -> state_ok a.2.
Proof. intros (_ & Hd & Hn). unfold state_ok, doc_ok. by rewrite Hd, Hn. Qed.
Lemma refused_unchanged id a st : refused id a st -> unchanged at_ used st a.2.
Proof. intros (_ & Hd & Hn). by apply same_docs. Qed.

(** The three outcomes of a write. *)
Definition write_outcome (room : Prop) (pre : Precondition) (col id : string) (done : FakeState)
    (a : option HttpResponse * FakeState) (st : FakeState) : Prop :=
  refused id a st \/
  (exists s t, a = (Some (text s t), st) /\ (s = 400 \/ s = 409) /\ ~ holds pre (col, id) st) \/
  (exists r, a = (Some r, done) /\ rs_status r = 200 /\ id <> "" /\ room /\ holds pre (col, id) st).

Lemma is_empty id : str_is_empty id = true -> id = "".
Proof. by destruct id. Qed.
Lemma not_empty id : str_is_empty id = false -> id <> "".
Proof. by destruct id. Qed.

Lemma patch_outcome q pre body f col id st :
  precondition_of q = Ok pre -> get body "fields" = Some f -> 0 <= next_version st <= u64_max ->
  write_outcome (next_version st < u64_max) pre col id
    (written (col, id) (merged (col, id) (pre_update_mask_field pre) f st) st)
    (doc_answer PATCH q (Some body) col id st) st.
Proof.
  intros Hq Hb Hn. unfold doc_answer. destruct (str_is_empty id) eqn:Hid; [left; by split; [split; [|apply is_empty]|]|].
  rewrite Hq. cbn [with_query with_body]. unfold locked. destruct (poisoned st); [by left|].
  unfold patch_doc. rewrite Hb. change (default (Object []) (Some f)) with f.
  destruct (pre_exists pre) as [we|] eqn:He; [destruct (exists_matches (col, id) we st) eqn:Hem|]; cbn [negb].
  2: { right; left. do 2 eexists. split; [done|]. split; [by right|].
       intros [Hx _]. rewrite (Hx _ He) in Hem. done. }
  all: destruct (pre_update_time pre) as [wu|] eqn:Hu; [destruct (version_matches (col, id) wu st) eqn:Hvm|]; cbn [negb].
  all: try (right; left; do 2 eexists; split; [done|]; split; [by left|];
            intros [_ Hx]; rewrite (Hx _ Hu) in Hvm; done).
  all: destruct (Z.eqb_spec (next_version st) u64_max) as [Hm|Hm]; [by left|].
  all: right; right; eexists; split; [reflexivity|]; split; [done|]; split; [by apply not_empty|]; split; [lia|];
    split; intros want Hw; congruence.
Qed.

Lemma delete_outcome q pre body col id st :
  precondition_of q = Ok pre -> pre_exists pre = None ->
  write_outcome True pre col id (erased (col, id) st) (doc_answer DELETE q body col id st) st.
Proof.
  intros Hq He. unfold doc_answer. destruct (str_is_empty id) eqn:Hid; [left; by split; [split; [|apply is_empty]|]|].
  rewrite Hq. cbn [with_query]. unfold locked. destruct (poisoned st); [by left|].
  unfold delete_doc. destruct (pre_update_time pre) as [wu|] eqn:Hu; [destruct (version_matches (col, id) wu st) eqn:Hvm|]; cbn [negb].
  2: { right; left. do 2 eexists. split; [done|]. split; [by left|]. intros [_ Hx]. rewrite (Hx _ Hu) in Hvm. done. }
  all: right; right; eexists; split; [reflexivity|]; split; [done|]; split; [by apply not_empty|]; split; [done|];
    split; intros want Hw; congruence.
Qed.

(** A request, then a reading of its answer. *)
Lemma run_call_then {T} ctx m q body col id st (k : HttpResponse -> result string T) :
  collection_name col = true ->
  run handle (r ←? call client ctx m (doc_url client col id) q body; mret (k r)) st =
    (match (doc_answer m q body col id st).1 with
     | Some r => k r
     | None => Err (ctx (send_error (mkHttpRequest m (doc_url client col id) q [pair_bearer "owner"] body)))
     end, (doc_answer m q body col id st).2).
Proof. intros Hc. rewrite run_try_bind, run_call by done. by destruct (doc_answer m q body col id st) as [[r|] st']. Qed.

(** How an operation reads the three outcomes. *)
Definition reads_write (k : HttpResponse -> result string unit) : Prop :=
  forall r, (rs_status r = 200 -> k r = Ok tt) /\ (rs_status r = 404 \/ rs_status r = 400 \/ rs_status r = 409 -> is_ok (k r) = false).
Definition reads_conditional (k : HttpResponse -> result string bool) : Prop :=
  forall r, (rs_status r = 200 -> k r = Ok true) /\ (rs_status r = 400 \/ rs_status r = 409 -> k r = Ok false) /\
            (rs_status r = 404 -> is_ok (k r) = false).

Definition refused_answer {T} (k : HttpResponse -> result string T) (e : string) (a : option HttpResponse) : result string T :=
  match a with Some r => k r | None => Err e end.

Lemma write_law effect (room : Prop) pre col id done a st k e :
  state_ok st -> reads_write k -> write_outcome room pre col id done a st ->
  (id <> "" -> room -> holds pre (col, id) st -> state_ok done /\ effect st done) ->
  state_ok a.2 /\ plain_write at_ used effect st (refused_answer k e a.1) a.2.
Proof.
  intros Hok Hk [Hr|[(s' & t & -> & Hs & Hn)|(r & -> & Hs & Hid & Hroom & Hh)]] He.
  - split; [by eapply refused_ok|]. pose proof (refused_unchanged _ _ _ Hr) as Hu. destruct Hr as [Hst _].
    destruct a as [[r|] st']; simpl in *; [destruct Hst as [Hst _]|by left]. destruct (Hk r) as [_ Hf].
    specialize (Hf (or_introl Hst)). destruct (k r); [done | by left].
  - split; [done|]. simpl. destruct (Hk (text s' t)) as [_ Hf]. specialize (Hf (or_intror Hs)).
    destruct (k _); [done | left; apply unchanged_refl].
  - destruct (He Hid Hroom Hh) as [? ?]. split; [done|]. simpl. destruct (Hk r) as [Hf _]. by rewrite Hf.
Qed.
Lemma conditional_law effect (room cond : Prop) pre col id done a st k e :
  state_ok st -> reads_conditional k -> write_outcome room pre col id done a st ->
  (cond <-> holds pre (col, id) st) ->
  (id <> "" -> room -> holds pre (col, id) st -> state_ok done /\ effect st done) ->
  state_ok a.2 /\ conditional at_ used cond effect st (refused_answer k e a.1) a.2.
Proof.
  intros Hok Hk [Hr|[(s' & t & -> & Hs & Hn)|(r & -> & Hs & Hid & Hroom & Hh)]] Hc He.
  - split; [by eapply refused_ok|]. pose proof (refused_unchanged _ _ _ Hr) as Hu. destruct Hr as [Hst _].
    destruct a as [[r|] st']; simpl in *; [destruct Hst as [Hst _]|by left]. destruct (Hk r) as (_ & _ & Hf).
    specialize (Hf Hst). destruct (k r); [done | by left].
  - split; [done|]. simpl. destruct (Hk (text s' t)) as (_ & Hf & _). rewrite (Hf Hs). split; [by rewrite Hc|].
    apply unchanged_refl.
  - destruct (He Hid Hroom Hh) as [? ?]. split; [done|]. simpl. destruct (Hk r) as [Hf _]. rewrite Hf by done.
    split; [by apply Hc | done].
Qed.

Lemma reads_write_err label (r' : HttpResponse -> string) :
  reads_write (fun r => if is_success (rs_status r) then Ok tt else Err (label +:+ r' r)).
Proof. intros r. split; [by intros ->|]. by intros [-> |[-> | ->]]. Qed.
Lemma reads_conditional_err label (r' : HttpResponse -> string) :
  reads_conditional (fun r => if is_success (rs_status r) then Ok true
    else if precondition_lost (rs_status r) then Ok false else Err (label +:+ r' r)).
Proof. intros r. split; [by intros ->|]. split; [by intros [-> | ->] | by intros ->]. Qed.

Lemma set_doc_law col id f st x st' :
  state_ok st -> collection_name col = true -> is_object f -> run handle (set_doc client col id f) st = (x, st') ->
  state_ok st' /\ plain_write at_ used (put at_ used col id f) st x st'.
Proof.
  intros Hok Hc Hf. unfold set_doc. rewrite run_call_then by done. intros [= <- <-].
  eapply (write_law _ _ (mkPrecondition None None None) col id); [done | apply reads_write_err | by apply patch_outcome; [..|apply (proj1 (proj1 Hok))] |].
  intros Hid Hroom _. split; [by apply written_ok | by apply written_put].
Qed.
Lemma set_if_unchanged_law col id f v st x st' :
  state_ok st -> collection_name col = true -> is_object f ->
  run handle (set_doc_if_unchanged client col id f v) st = (x, st') ->
  state_ok st' /\ conditional at_ used (has_version at_ st col id v) (put at_ used col id f) st x st'.
Proof.
  intros Hok Hc Hf. unfold set_doc_if_unchanged. rewrite run_call_then by done. intros [= <- <-].
  eapply (conditional_law _ _ _ (mkPrecondition (Some v) None None) col id); [done | apply reads_conditional_err | by apply patch_outcome; [..|apply (proj1 (proj1 Hok))] | |].
  - rewrite <- version_matches_spec. unfold holds. simpl. split; [intros ?; split; congruence | intros [_ Hh]; by apply Hh].
  - intros Hid Hroom _. split; [by apply written_ok | by apply written_put].
Qed.
Lemma create_if_absent_law col id f st x st' :
  state_ok st -> collection_name col = true -> is_object f ->
  run handle (create_if_absent client col id f) st = (x, st') ->
  state_ok st' /\ conditional at_ used (at_ st col id = None) (put at_ used col id f) st x st'.
Proof.
  intros Hok Hc Hf. unfold create_if_absent. rewrite run_call_then by done. intros [= <- <-].
  eapply (conditional_law _ _ _ (mkPrecondition None (Some "false") None) col id); [done | apply reads_conditional_err | by apply patch_outcome; [..|apply (proj1 (proj1 Hok))] | |].
  - assert (Heq : at_ st col id = None <-> exists_matches (col, id) "false" st = true).
    { unfold at_, exists_matches. by destruct (docs st !! (col, id)). }
    rewrite Heq. unfold holds. simpl. split; [intros ?; split; congruence | intros [Hh _]; by apply Hh].
  - intros Hid Hroom _. split; [by apply written_ok | by apply written_put].
Qed.

Lemma delete_if_unchanged_law col id v st x st' :
  state_ok st -> collection_name col = true -> run handle (delete_doc_if_unchanged client col id v) st = (x, st') ->
  state_ok st' /\ conditional at_ used (has_version at_ st col id v) (removed at_ used col id) st x st'.
Proof.
  intros Hok Hc. unfold delete_doc_if_unchanged. rewrite run_call_then by done. intros [= <- <-].
  destruct (delete_outcome [("currentDocument.updateTime", v)] (mkPrecondition (Some v) None None) None col id st eq_refl eq_refl)
    as [Hr|[(s' & t & -> & Hs & Hn)|(r & -> & Hs & Hid & _ & Hh)]].
  - split; [by eapply refused_ok|]. pose proof (refused_unchanged _ _ _ Hr) as Hu. destruct Hr as [Hst _].
    destruct (doc_answer _ _ _ _ _ _) as [[r|] st']; simpl in *; [|by left]. destruct Hst as [-> ->].
    cbn [is_success precondition_lost]. split; [|done]. intros [g Hg]. by rewrite at_empty in Hg.
  - split; [done|]. simpl. assert (Hv : ~ has_version at_ st col id v).
    { rewrite <- version_matches_spec. intros Hv. apply Hn. split; simpl; congruence. }
    by destruct Hs as [-> | ->].
  - split; [by apply erased_ok|]. simpl. rewrite Hs. cbn [is_success]. split; [|apply erased_removed].
    apply version_matches_spec. by apply Hh.
Qed.
Lemma delete_doc_law col id st x st' :
  state_ok st -> collection_name col = true -> run handle (FsClient.delete_doc client col id) st = (x, st') ->
  state_ok st' /\ plain_write at_ used (removed at_ used col id) st x st'.
Proof.
  intros Hok Hc. unfold FsClient.delete_doc. rewrite run_call_then by done. intros [= <- <-].
  destruct (delete_outcome [] (mkPrecondition None None None) None col id st eq_refl eq_refl)
    as [Hr|[(s' & t & -> & Hs & Hn)|(r & -> & Hs & Hid & _ & Hh)]].
  - split; [by eapply refused_ok|]. pose proof (refused_unchanged _ _ _ Hr) as Hu. destruct Hr as [Hst _].
    destruct (doc_answer _ _ _ _ _ _) as [[r|] st']; simpl in *; [|by left]. destruct Hst as [-> ->].
    simpl. split; [by apply unchanged_only|]. rewrite (proj1 Hu). by apply at_empty.
  - destruct Hn. by split.
  - split; [by apply erased_ok|]. simpl. rewrite Hs. simpl. apply erased_removed.
Qed.

Lemma overlay_insert k v m : overlay (Object [(k, v)]) (Object m) (Object (assoc_insert k v m)).
Proof.
  intros k'. simpl. case_decide as Hk.
  - subst. by rewrite assoc_insert_eq.
  - by rewrite assoc_insert_ne.
Qed.
Lemma at_Some st c i d : docs st !! (c, i) = Some d -> at_ st c i = Some (fields d, version_str (update_time d)).
Proof. unfold at_. by intros ->. Qed.
Lemma merged_object key mask new st :
  state_ok st -> is_object new -> is_object (merged key mask new st).
Proof.
  intros [_ Hd] Hn. unfold merged. destruct mask as [k|]; [|done].
  assert (Hb : is_object match docs st !! key with Some d => fields d | None => Object [] end).
  { destruct (docs st !! key) as [d|] eqn:Hk; [by apply (Hd _ _ Hk) | by eexists]. }
  destruct Hb as [m ->]. destruct (get new k); by eexists.
Qed.

Lemma update_field_law col id k v st x st' :
  state_ok st -> collection_name col = true -> run handle (update_field client col id k v) st = (x, st') ->
  state_ok st' /\ plain_write at_ used (updated at_ used col id k v) st x st'.
Proof.
  intros Hok Hc. unfold update_field. rewrite run_call_then by done. intros [= <- <-].
  eapply (write_law _ _ (mkPrecondition None (Some "true") (Some k)) col id); [done | apply reads_write_err | by apply patch_outcome; [..|apply (proj1 (proj1 Hok))] |].
  intros Hid Hroom [Hex _]. specialize (Hex "true" eq_refl).
  split; [apply written_ok; [done..|apply merged_object; [done | by eexists]]|].
  unfold exists_matches in Hex. destruct (docs st !! (col, id)) as [d|] eqn:Hk; [|by vm_compute in Hex].
  destruct Hok as [Hn Hd]. destruct (Hd _ _ Hk) as (_ & [m Hm] & _).
  eexists (fields d), (version_str (update_time d)), _. split; [by apply at_Some|]. split; [|by apply written_put].
  unfold merged. cbn [pre_update_mask_field]. rewrite Hk, Hm. simpl. rewrite decide_True by done. apply overlay_insert.
Qed.

Lemma mask_query keys : query_values "updateMask.fieldPaths" (map (fun k => ("updateMask.fieldPaths", k)) keys) = keys.
Proof.
  induction keys as [|k keys IH]; [done|]. unfold query_values in *. cbn [map omap list_omap fst snd].
  rewrite decide_True by done. f_equal. exact IH.
Qed.
Lemma mask_query_other k keys :
  k <> "updateMask.fieldPaths" -> query_values k (map (fun k => ("updateMask.fieldPaths", k)) keys) = [].
Proof.
  intros Hk. induction keys as [|k' keys IH]; [done|]. unfold query_values in *.
  cbn [map omap list_omap fst snd]. rewrite decide_False by done. exact IH.
Qed.

Lemma merge_doc_law col id m st x st' :
  state_ok st -> collection_name col = true -> run handle (merge_doc client col id (Object m)) st = (x, st') ->
  state_ok st' /\ plain_write at_ used (merged_into at_ used col id (Object m)) st x st'.
Proof.
  intros Hok Hc. unfold merge_doc. rewrite run_call_then by done. intros [= <- <-].
  cbn [as_object option_map]. change (default [] (Some (map fst m))) with (map fst m).
  set (q := map _ _).
  destruct (precondition_of q) as [pre|e] eqn:Hq.
  - assert (Hpre : pre_update_time pre = None /\ pre_exists pre = None /\
      (m = [] /\ pre_update_mask_field pre = None \/ exists k v, m = [(k, v)] /\ pre_update_mask_field pre = Some k)).
    { subst q. unfold precondition_of, query_opt in Hq. rewrite (mask_query_other "currentDocument.updateTime"),
        (mask_query_other "currentDocument.exists"), mask_query in Hq by done.
      simpl in Hq. destruct m as [|[k v] [|? ?]]; simpl in Hq; [| |done]; injection Hq as <-; eauto 10. }
    destruct Hpre as (_ & _ & Hm).
    eapply (write_law _ _ pre col id); [done | apply reads_write_err | apply patch_outcome; [done..|apply (proj1 (proj1 Hok))] |].
    intros Hid Hroom Hh. split; [apply written_ok; [done..|apply merged_object; [done | by eexists]]|].
    eexists. split; [by apply written_put|]. intros Hne.
    destruct Hm as [[-> _]|(k & v & -> & Hk)]; [done|]. unfold merged. rewrite Hk. simpl. rewrite decide_True by done.
    destruct Hok as [_ Hd]. unfold at_. destruct (docs st !! (col, id)) as [d|] eqn:Hdoc; simpl.
    + destruct (Hd _ _ Hdoc) as (_ & [m ->] & _). apply overlay_insert.
    + apply overlay_insert.
  - unfold doc_answer. destruct (str_is_empty id); [split; [done | by left]|]. rewrite Hq. split; [done | by left].
Qed.

(** ** Reads *)

Lemma fetch_answer col id st x st' :
  state_ok st -> collection_name col = true -> run handle (fetch client col id) st = (x, st') ->
  st' = st /\ forall d, x = Ok d ->
    option_map (fun j => (default Null (get j "fields"), default "" (get_str j "updateTime"))) d = at_ st col id /\
    (d ≫= fun j => get j "fields") = fst <$> at_ st col id.
Proof.
  intros Hok Hc. unfold fetch. rewrite run_try_bind, run_call by done. unfold doc_answer.
  destruct (str_is_empty id) eqn:Hid.
  { apply is_empty in Hid as ->. cbn. intros [= <- <-]. split; [done|]. intros d [= <-]. by rewrite at_empty. }
  unfold locked. destruct (poisoned st); [by intros [= <- <-]|]. unfold get_doc, at_.
  destruct (docs st !! (col, id)) as [d|]; cbn; intros [= <- <-]; (split; [done|]); by intros ? [= <-].
Qed.

Lemma get_doc_law col id st x st' :
  state_ok st -> collection_name col = true -> run handle (FsClient.get_doc client col id) st = (x, st') ->
  state_ok st' /\ plain_read at_ used (fun d => d = fst <$> at_ st col id) st x st'.
Proof.
  intros Hok Hc. unfold FsClient.get_doc. rewrite run_try_bind.
  destruct (run handle (fetch client col id) st) as [y st1] eqn:Hf.
  apply fetch_answer in Hf as [-> Hy]; [|done..]. destruct y as [d|e]; intros [= <- <-].
  - split; [done|]. split; [done|]. intros a [= <-]. by apply Hy.
  - split; [done|]. split; [done|]. by intros a.
Qed.
Lemma get_with_version_law col id st x st' :
  state_ok st -> collection_name col = true -> run handle (get_doc_with_update_time client col id) st = (x, st') ->
  state_ok st' /\ plain_read at_ used (fun d => d = at_ st col id) st x st'.
Proof.
  intros Hok Hc. unfold get_doc_with_update_time. rewrite run_try_bind.
  destruct (run handle (fetch client col id) st) as [y st1] eqn:Hf.
  apply fetch_answer in Hf as [-> Hy]; [|done..]. destruct y as [d|e]; intros [= <- <-].
  - split; [done|]. split; [done|]. intros a [= <-]. by apply Hy.
  - split; [done|]. split; [done|]. by intros a.
Qed.

(** A request that does not concern one document: same network, other routes. *)
Lemma run_request ctx m rest q body st :
  run handle (call client ctx m (("http://" +:+ host) +:+ rest) q body) st =
    (map_err ctx (ok_or (send_error (mkHttpRequest m (("http://" +:+ host) +:+ rest) q [pair_bearer "owner"] body))
                    (app (mkHttpRequest m (("http://" +:+ host) +:+ rest) q [pair_bearer "owner"] body) rest st).1),
     (app (mkHttpRequest m (("http://" +:+ host) +:+ rest) q [pair_bearer "owner"] body) rest st).2).
Proof.
  unfold call, firestore_token. cbn [fc_emulator_host new_for_test]. rewrite try_ok, run_bind, run_trigger.
  cbn [fake_http rq_url]. rewrite (proj2 (strip_prefix_Some _ _ rest) eq_refl).
  by destruct (app _ rest st).
Qed.

Definition query_path : string := "/v1/projects/" +:+ project +:+ "/databases/(default)/documents:runQuery".
Definition list_path (col : string) : string :=
  "/v1/projects/" +:+ project +:+ "/databases/(default)/documents/" +:+ col.
Lemma query_url_path : query_url client = ("http://" +:+ host) +:+ query_path.
Proof. unfold query_url, documents_url, query_path, base_url, base_url_or. simpl. by rewrite !str_app_assoc. Qed.
Lemma list_url_path col : list_url client col = ("http://" +:+ host) +:+ list_path col.
Proof. unfold list_url, documents_url, list_path, base_url, base_url_or. simpl. by rewrite !str_app_assoc. Qed.

Lemma route_query : route_of query_path = Some RunQueryRoute.
Proof.
  unfold route_of, query_path.
  change ("/v1/projects/" +:+ ?x) with ("" +:+ String "/" ("v1" +:+ String "/" ("projects" +:+ String "/" x))).
  change ("/databases/(default)/documents:runQuery")
    with (String "/" ("databases" +:+ String "/" ("(default)" +:+ String "/" "documents:runQuery"))).
  rewrite !str_split_cons by done. simpl. by rewrite Hproject.
Qed.
Definition send_path : string := "/v1/projects/" +:+ project +:+ "/messages:send".
Lemma fcm_url_path : FsClient.fcm_url client = ("http://" +:+ host) +:+ send_path.
Proof. unfold fcm_url, send_path, base_url_or. simpl. by rewrite !str_app_assoc. Qed.
Lemma route_send : route_of send_path = Some SendRoute.
Proof.
  unfold route_of, send_path.
  change ("/v1/projects/" +:+ ?x) with ("" +:+ String "/" ("v1" +:+ String "/" ("projects" +:+ String "/" x))).
  change "/messages:send" with (String "/" "messages:send").
  rewrite !str_split_cons by done. simpl. by rewrite Hproject.
Qed.
Lemma percent_plain c : str_forall is_unreserved c = true -> percent_decode c = c.
Proof. intros Hc. rewrite <- (enc_plain c Hc) at 1. apply percent_decode_enc. Qed.
Lemma route_list col : collection_name col = true -> route_of (list_path col) = Some (ListRoute col).
Proof.
  intros [Hne Hcol]%andb_prop. unfold route_of, list_path.
  assert (Hc : str_contains "/"%char col = false) by (by apply (forall_not_contains is_unreserved)).
  change ("/v1/projects/" +:+ ?x) with ("" +:+ String "/" ("v1" +:+ String "/" ("projects" +:+ String "/" x))).
  change ("/databases/(default)/documents/" +:+ ?x)
    with (String "/" ("databases" +:+ String "/" ("(default)" +:+ String "/" ("documents" +:+ String "/" x)))).
  rewrite !str_split_cons by done. rewrite str_split_no by done.
  apply negb_true_iff in Hne. rewrite Hproject, Hne. simpl. by rewrite percent_plain.
Qed.

(** *** Listings *)

Lemma str_split_app c s t : str_split c (s +:+ String c t) = str_split c s ++ str_split c t.
Proof.
  induction s as [|a s IH]; simpl; [by rewrite decide_True|].
  case_decide; [by rewrite IH|]. rewrite IH.
  destruct (str_split c s) as [|p ps] eqn:Hs; [|done].
  destruct s; simpl in Hs; [done|]. case_decide; [done|]. by case_match.
Qed.
Lemma last_segment_app p i : str_contains "/"%char i = false -> last_segment (p +:+ String "/"%char i) = i.
Proof. intros Hi. unfold last_segment. rewrite str_split_app, (str_split_no "/" i) by done. by rewrite last_snoc. Qed.
Lemma last_segment_name c i : str_contains "/"%char i = false -> last_segment (resource_name (c, i)) = i.
Proof.
  intros Hi. unfold resource_name. cbn [fst snd]. change ("/" +:+ i) with (String "/" i).
  rewrite <- str_app_assoc. by apply last_segment_app.
Qed.

Definition row_of (kd : (string * string) * Doc) : string * Value := (last_segment (resource_name kd.1), fields kd.2).

Lemma elem_of_collection st c kd :
  kd ∈ collection c st <-> kd.1.1 = c /\ docs st !! kd.1 = Some kd.2.
Proof.
  unfold collection. rewrite list_elem_of_In, filter_In, <- list_elem_of_In, bool_decide_eq_true.
  destruct kd as [k d]. rewrite elem_of_map_to_list. naive_solver.
Qed.
Lemma list_filter_NoDup {A} (f : A -> bool) l : NoDup l -> NoDup (List.filter f l).
Proof. rewrite !NoDup_ListNoDup. apply List.NoDup_filter. Qed.
Lemma collection_NoDup st c : NoDup (collection c st).
Proof. apply list_filter_NoDup, NoDup_map_to_list. Qed.
Lemma collection_size st c : (length (collection c st) <= size (docs st))%nat.
Proof.
  unfold collection. rewrite <- length_map_to_list. generalize (map_to_list (docs st)). intros l.
  induction l as [|x l IH]; simpl; [done|]. destruct (bool_decide _); simpl; lia.
Qed.

(** The rows of a duplicate-free list of the documents with [Q]. *)
Lemma lists_rows st c (Q : Value -> Prop) (L : list ((string * string) * Doc)) :
  plain_ids at_ st c -> NoDup L ->
  (forall kd, kd ∈ L <-> (kd.1.1 = c /\ docs st !! kd.1 = Some kd.2) /\ Q (fields kd.2)) ->
  lists at_ st c Q (map row_of L).
Proof.
  intros Hids Hnd HL.
  assert (Hid : forall kd, kd ∈ L -> last_segment (resource_name kd.1) = kd.1.2).
  { intros [[c' i] d] Hin. apply HL in Hin as [[<- Hd] _]. apply last_segment_name, Hids.
    eexists. by apply (at_Some st c' i d). }
  split.
  - assert (Hmap : (map row_of L).*1 = map (fun kd => kd.1.2) L).
    { clear -Hid. induction L as [|kd L IH]; [done|]. cbn. f_equal.
      - apply Hid. left.
      - apply IH. intros. apply Hid. by right. }
    rewrite Hmap. clear Hmap. apply NoDup_fmap_2_strong; [|done].
    intros [[c1 i1] d1] [[c2 i2] d2] H1 H2 Hi.
    apply HL in H1 as [[Hc1 H1] _]. apply HL in H2 as [[Hc2 H2] _]. simpl in *. by simplify_eq.
  - intros i f. rewrite (list_elem_of_fmap row_of). split.
    + intros ([[c' i'] d] & Heq & Hin). pose proof (Hid _ Hin) as Hi. apply HL in Hin as [[<- Hd] Hq].
      unfold row_of in Heq. rewrite Hi in Heq. injection Heq as -> ->. simpl in *. split; [done|].
      exists (version_str (update_time d)). by apply at_Some.
    + intros [Hq [v Hv]]. unfold at_ in Hv. destruct (docs st !! (c, i)) as [d|] eqn:Hd; [|done].
      injection Hv as <- <-. exists ((c, i), d).
      assert (Hin : ((c, i), d) ∈ L) by (by apply HL). split; [|done]. unfold row_of. by rewrite (Hid _ Hin).
Qed.

Lemma omap_map {A B C} (f : B -> option C) (g : A -> B) (h : A -> C) l :
  (forall x, f (g x) = Some (h x)) -> omap f (map g l) = map h l.
Proof. intros Hf. induction l as [|x l IH]; [done|]. cbn. rewrite Hf. f_equal. exact IH. Qed.

Lemma query_eq_law col k v st x st' :
  state_ok st -> run handle (query_eq client col k v) st = (x, st') ->
  state_ok st' /\ plain_read at_ used (fun rows => plain_ids at_ st col ->
    lists at_ st col (fun f => field_str f k = Some v) rows) st x st'.
Proof.
  intros Hok. unfold query_eq, FsClient.run_query. rewrite query_url_path, run_try_bind, run_request.
  unfold app. rewrite route_query. cbn [rq_method rq_body with_body]. unfold locked.
  destruct (poisoned st); [intros [= <- <-]; split; [done|]; split; [done|]; by intros a|].
  cbn. intros [= <- <-]. split; [done|]. split; [done|]. intros rows [= <-] Hids.
  erewrite (omap_map _ _ row_of) by done. apply lists_rows; [done | by apply list_filter_NoDup, collection_NoDup |].
  intros kd. rewrite list_elem_of_In, filter_In, <- list_elem_of_In, bool_decide_eq_true.
  by rewrite elem_of_collection.
Qed.

(** *** Pages *)

Definition page_row (kd : (string * string) * Doc) : string * Value * string :=
  (last_segment (resource_name kd.1), fields kd.2, version_str (update_time kd.2)).
Definition listing (col : string) (st : FakeState) : list ((string * string) * Doc) := sort_by by_id (collection col st).
(** The parameters of the request for the page after [offset] documents. *)
Definition page_token_at (offset : nat) : option string :=
  match offset with O => None | _ => Some (u64_to_string (Z.of_nat offset)) end.
Definition page_query (offset : nat) : list (string * string) :=
  ("pageSize", u64_to_string (Z.of_nat PAGE_SIZE)) ::
  match page_token_at offset with Some pt => [("pageToken", pt)] | None => [] end.

Lemma page_query_reads offset :
  list_query_of (page_query offset) = Ok (mkListQuery (Some 100) (page_token_at offset)).
Proof. unfold page_query. by destruct (page_token_at offset). Qed.
Lemma page_offset offset :
  Z.of_nat offset <= u64_max -> Z.to_nat (default 0 (page_token_at offset ≫= parse_u64)) = offset.
Proof.
  intros Ho. destruct offset as [|n]; [done|]. cbn [page_token_at mbind option_bind].
  rewrite parse_u64_to_string by (unfold in_u64; lia). change (default 0 (Some ?x)) with x. lia.
Qed.
Lemma printed_not_empty z : in_u64 z -> str_is_empty (u64_to_string z) = false.
Proof.
  intros Hz. apply parse_u64_to_string in Hz. destruct (u64_to_string z); [|done]. vm_compute in Hz. done.
Qed.
Lemma listing_length col st : length (listing col st) = length (collection col st).
Proof. apply Permutation_length, sort_by_Permutation. Qed.

Lemma page_rows docs :
  omap listed_doc (map (fun kd : (string * string) * Doc => Object [("name", Str (resource_name kd.1)); ("fields", fields kd.2);
     ("updateTime", Str (version_str (update_time kd.2)))]) docs) = map page_row docs.
Proof. by apply omap_map. Qed.

(** One page. *)
Lemma list_page ctx col st offset :
  collection_name col = true -> poisoned st = false -> Z.of_nat (length (listing col st)) <= u64_max ->
  (offset <= length (listing col st))%nat ->
  let page := take PAGE_SIZE (drop offset (listing col st)) in
  let last := (length (listing col st) <=? offset + length page)%nat in
  exists j, run handle (call client ctx GET (list_url client col) (page_query offset) None) st =
      (Ok (mkHttpResponse 200 (WireJson j)), st) /\
    omap listed_doc (default [] (get j "documents" ≫= as_array)) = map page_row page /\
    get_str j "nextPageToken" = if last then None else Some (u64_to_string (Z.of_nat (offset + length page))).
Proof.
  intros Hc Hp Hlen Ho page last. rewrite list_url_path, run_request. unfold app. rewrite route_list by done.
  cbn [rq_method rq_query]. rewrite page_query_reads. cbn [with_query]. unfold locked. rewrite Hp.
  unfold list_docs. cbn [page_size page_token]. rewrite page_offset by lia.
  change (Z.to_nat (Z.max (default 300 (Some 100)) 1)) with PAGE_SIZE.
  change (sort_by by_id (collection col st)) with (listing col st). fold page.
  eexists. split; [reflexivity|]. rewrite <- listing_length. unfold last.
  destruct (Nat.ltb_spec (offset + length page) (length (listing col st))), (Nat.leb_spec (length (listing col st)) (offset + length page));
    try lia; (split; [apply page_rows | done]).
Qed.

Lemma take_page {A} (l : list A) n m : take n l ++ take m (drop n l) = take (n + m) l.
Proof.
  revert n. induction l as [|x l IH]; intros [|n]; simpl; try done; [by rewrite !take_nil|]. by rewrite IH.
Qed.
(** The loop from [offset] on: with enough fuel it collects the whole listing. *)
Lemma list_pages_run fuel' col st offset :
  collection_name col = true -> poisoned st = false -> Z.of_nat (length (listing col st)) <= u64_max ->
  (offset = 0 \/ offset < length (listing col st))%nat ->
  run handle (list_pages client fuel' col (take offset (map page_row (listing col st))) (page_token_at offset)) st =
    (if bool_decide (fuel' <> 0 /\ length (listing col st) <= offset + PAGE_SIZE * fuel')%nat
     then Ok (map page_row (listing col st)) else Err "list: out of fuel", st).
Proof.
  intros Hc Hp Hlen. revert offset. induction fuel' as [|fuel' IH]; intros offset Ho.
  { rewrite bool_decide_eq_false_2 by lia. done. }
  cbn [list_pages]. rewrite run_try_bind. fold (page_query offset).
  destruct (list_page (hide_url "list") col st offset) as (j & Hrun & Hdocs & Htok); [done..|lia|].
  rewrite Hrun. cbn [rs_status is_success negb rs_body body_json map_err]. rewrite try_ok. rewrite Hdocs, Htok.
  set (page := take PAGE_SIZE (drop offset (listing col st))).
  assert (Hpage : (length page = Nat.min PAGE_SIZE (length (listing col st) - offset))%nat).
  { unfold page. by rewrite length_take, length_drop. }
  assert (Hout : take offset (map page_row (listing col st)) ++ map page_row page =
                 take (offset + PAGE_SIZE) (map page_row (listing col st))).
  { unfold page. rewrite <- take_page. f_equal. by rewrite skipn_map, firstn_map. }
  rewrite Hout. unfold PAGE_SIZE in *. destruct (Nat.leb_spec (length (listing col st)) (offset + length page)).
  - rewrite bool_decide_eq_true_2 by lia. cbn [run]. rewrite take_ge; [done|]. rewrite length_map. lia.
  - assert (Hnext : (offset + length page = offset + 100)%nat) by lia. rewrite Hnext.
    rewrite printed_not_empty by (unfold in_u64; lia).
    replace (Some (u64_to_string (Z.of_nat (offset + 100)))) with (page_token_at (offset + 100))
      by (by replace (offset + 100)%nat with (S (offset + 99)) by lia).
    cbn [is_success negb Z.leb Z.ltb Z.compare Pos.compare Pos.compare_cont andb]. rewrite IH by lia. f_equal. apply (f_equal (fun b : bool => if b then _ else _)). apply bool_decide_ext. lia.
Qed.

Lemma page_rows_fst L : (map page_row L).*1 = map row_of L.
Proof. rewrite <- list_fmap_compose. done. Qed.
Lemma listing_lists col st :
  plain_ids at_ st col -> lists at_ st col (fun _ => True) (map page_row (listing col st)).*1.
Proof.
  intros Hids. rewrite page_rows_fst. apply lists_rows; [done|..].
  - unfold listing. rewrite sort_by_Permutation. apply collection_NoDup.
  - intros kd. unfold listing. rewrite sort_by_Permutation, elem_of_collection. naive_solver.
Qed.
Lemma listing_bound col st : state_ok st -> Z.of_nat (length (listing col st)) <= u64_max.
Proof.
  intros [Hn _]. rewrite listing_length. pose proof (collection_size st col). lia.
Qed.
Lemma list_collection_law col fuel' st x st' :
  state_ok st -> collection_name col = true -> run handle (list_collection client fuel' col) st = (x, st') ->
  state_ok st' /\ plain_read at_ used (fun rows => plain_ids at_ st col -> lists at_ st col (fun _ => True) rows.*1) st x st'.
Proof.
  intros Hok Hc. unfold list_collection. destruct (poisoned st) eqn:Hp.
  - destruct fuel' as [|fuel']; [intros [= <- <-]; by (split; [|split])|].
    cbn [list_pages]. rewrite run_try_bind.
    change (("pageSize", u64_to_string (Z.of_nat PAGE_SIZE)) :: []) with (page_query 0).
    rewrite list_url_path, run_request. unfold app. rewrite route_list by done. cbn [rq_method rq_query].
    rewrite page_query_reads. cbn [with_query]. unfold locked. rewrite Hp. intros [= <- <-]. by (split; [|split]).
  - pose proof (list_pages_run fuel' col st 0 Hc Hp (listing_bound col st Hok) (or_introl eq_refl)) as Hrun.
    cbn [page_token_at] in Hrun. change (take 0 ?l) with (@nil (string * Value * string)) in Hrun.
    rewrite Hrun. intros [= <- <-]. split; [done|]. split; [done|]. intros rows. destruct (bool_decide _); [|by intros].
    intros [= <-] Hids. by apply listing_lists.
Qed.

Lemma fake_law X (o : fsE X) st x st' :
  state_ok st -> named o = true -> run handle (fs_client client fuel X o) st = (x, st') ->
  state_ok st' /\ doc_step at_ used o st x st'.
Proof.
  intros Hok [Hc Hf]%andb_prop Hr. unfold collection_of in Hc.
  destruct o; cbn [fs_client doc_step fields_of] in *;
    repeat match type of Hf with (match ?f with _ => _ end) = true => destruct f; try done end.
  - by apply set_doc_law; [..|eexists|].
  - by apply update_field_law.
  - by apply get_doc_law.
  - by apply get_with_version_law.
  - by apply set_if_unchanged_law; [..|eexists|].
  - by apply create_if_absent_law; [..|eexists|].
  - by apply delete_if_unchanged_law.
  - by apply query_eq_law.
  - revert Hr. unfold list_recent_ordered, FsClient.run_query. rewrite query_url_path, run_try_bind, run_request.
    unfold app. rewrite route_query. cbn [rq_method rq_body with_body]. unfold locked.
    destruct (poisoned st); [by intros [= _ <-]|]. cbn. by intros [= _ <-].
  - by eapply list_collection_law.
  - by apply delete_doc_law.
  - by eapply merge_doc_law.
  - revert Hr. unfold access_secret, call, firestore_token. cbn [fc_emulator_host new_for_test].
    rewrite run_try_bind, try_ok, run_bind, run_trigger.
    cbn [fake_http rq_url]. destruct (strip_prefix _ _) as [p|] eqn:Hs; [|by intros [= _ <-]].
    apply strip_prefix_Some in Hs. discriminate Hs.
  - revert Hr. unfold FsClient.fcm_send. rewrite fcm_url_path, run_try_bind, run_request.
    unfold app. rewrite route_send. cbn [rq_method rq_body with_body]. unfold Fake.fcm_send. cbn. by intros [= _ <-].
Qed.
End proofs.
End FakeProofs.

#[export] Instance fake_docs `{Externals, !PercentDecoding} project host fuel :
  str_is_empty project = false -> str_contains "/"%char project = false ->
  DocDb (Fake.fake_backend project host fuel).
Proof.
  intros Hp Hs. unshelve econstructor.
  - exact FakeProofs.at_.
  - exact FakeProofs.used.
  - exact FakeProofs.state_ok.
  - exact FakeProofs.at_seen.
  - exact FakeProofs.at_object.
  - intros X o db x db' Hok Hn Hh. by apply (FakeProofs.fake_law project host fuel Hp).
Defined.

(** C29: the Firestore client keeps the contract of the document database: talking to
    the fake server, every operation has the effect and the answer that the contract
    states, through URLs, escaping, preconditions, versions and status codes, also
    when the server stops answering. *)
Theorem firestore_client_meets_contract `{Externals, !PercentDecoding} project host fuel X (o : fsE X) st x st' :
  str_is_empty project = false -> str_contains "/"%char project = false ->
  FakeProofs.state_ok st -> named o = true ->
  run (Fake.fake_http host) (fs_client (new_for_test project host) fuel X o) st = (x, st') ->
  FakeProofs.state_ok st' /\ doc_step FakeProofs.at_ FakeProofs.used o st x st'.
Proof. intros Hp Hs. by apply FakeProofs.fake_law. Qed.

(** ** Paging against any service *)

Section paging.
Context `{Externals} (f : FirestoreClient) {S : Type} (h : handler httpE S) (col : string).

(** One page: its documents, and the token of the next page, if it names one. *)
Definition a_page (token : option string) : prog httpE (result string (list (string * Value * string) * option string)) :=
  r ←? call f (hide_url "list") GET (list_url f col)
         (("pageSize", u64_to_string (Z.of_nat PAGE_SIZE)) ::
          match token with Some pt => [("pageToken", pt)] | None => [] end) None;
  if negb (is_success (rs_status r)) then mret (status_error "list" r)
  else
    j ←? mret (map_err (hide_url "list json") (body_json (rs_body r)));
    mret (Ok (omap listed_doc (default [] (get j "documents" ≫= as_array)),
              t ← get_str j "nextPageToken"; if str_is_empty t then None else Some t)).
(** The pages that the service answers, one after the other, each asked for with the token
    of the last: [n] of them, until one names no next page. *)
Inductive pages : nat -> option string -> S -> list (string * Value * string) -> S -> Prop :=
| last_page token s docs s' : run h (a_page token) s = (Ok (docs, None), s') -> pages 1 token s docs s'
| another_page n token s docs t s1 rows s' :
    run h (a_page token) s = (Ok (docs, Some t), s1) -> pages n (Some t) s1 rows s' -> pages (Datatypes.S n) token s (docs ++ rows) s'.

Lemma list_pages_S fuel out token s :
  run h (list_pages f (Datatypes.S fuel) col out token) s =
  match run h (a_page token) s with
  | (Ok (docs, None), s') => (Ok (out ++ docs), s')
  | (Ok (docs, Some t), s') => run h (list_pages f fuel col (out ++ docs) (Some t)) s'
  | (Err e, s') => (Err e, s')
  end.
Proof.
  cbn [list_pages]. unfold a_page. rewrite !run_try_bind.
  destruct (run h (call _ _ _ _ _ _) s) as [[r|e] s']; [|done]. destruct (is_success (rs_status r)); cbn [negb].
  2:{ unfold status_error. done. }
  destruct (body_json (rs_body r)) as [j|e]; cbn [map_err]; [|done]. rewrite !try_ok.
  destruct (get_str j "nextPageToken") as [t|]; [|done]. cbn [mbind option_bind]. by destruct (str_is_empty t).
Qed.
Lemma list_pages_exact fuel out token s rows s' :
  run h (list_pages f fuel col out token) s = (Ok rows, s') <->
  exists n docs, (n <= fuel)%nat /\ pages n token s docs s' /\ rows = out ++ docs.
Proof.
  revert out token s. induction fuel as [|fuel IH]; intros out token s.
  { split; [done|]. intros (n & docs & Hn & Hp & _). destruct Hp; lia. }
  rewrite list_pages_S. split.
  - destruct (run h (a_page token) s) as [[[docs [t|]]|e] s1] eqn:Hpage; [|intros [= <- <-]|done].
    + rewrite IH. intros (n & rest & Hn & Hp & ->). exists (Datatypes.S n), (docs ++ rest). split; [lia|].
      split; [by econstructor | by rewrite app_assoc].
    + exists 1%nat, docs. split; [lia|]. split; [by constructor | done].
  - intros (n & docs & Hn & Hp & ->). destruct Hp as [token s docs s' Hr | n token s docs t s1 rest s' Hr Hp]; rewrite Hr; [done|].
    rewrite IH. exists n, rest. split; [lia|]. split; [done|]. by rewrite app_assoc.
Qed.
End paging.

(** C30: the paging loop of list_collection.  Against any service it returns exactly when
    the service comes to a page without a next one, and then the documents of all pages in
    their order; the loop has no bound of its own, and the fuel counts its pages.  Against
    the service of the tests, when its lock is not poisoned and no other request changes
    the collection meanwhile, it ends after one request per hundred documents and leaves
    the service as it was; there are as many rows as documents, and when no identifier
    holds a slash every document is listed once, under its identifier. *)
Theorem list_collection_terminates `{Externals, !PercentDecoding} project host fuel col st :
  (forall (f : FirestoreClient) S (h : handler httpE S) s rows s',
     run h (list_collection f fuel col) s = (Ok rows, s') <->
     exists n, (n <= fuel)%nat /\ pages f h col n None s rows s') /\
  (str_is_empty project = false -> str_contains "/"%char project = false -> collection_name col = true ->
   FakeProofs.state_ok st -> Fake.poisoned st = false ->
   (0 < fuel)%nat -> (length (Fake.collection col st) <= PAGE_SIZE * fuel)%nat ->
   exists rows, run (Fake.fake_http host) (list_collection (new_for_test project host) fuel col) st = (Ok rows, st) /\
     length rows = length (Fake.collection col st) /\
     (plain_ids FakeProofs.at_ st col -> lists FakeProofs.at_ st col (fun _ => True) rows.*1)).
Proof.
  split.
  - intros f S h s rows s'. unfold list_collection. rewrite list_pages_exact. split.
    + intros (n & docs & Hn & Hp & ->). by exists n.
    + intros (n & Hn & Hp). by exists n, rows.
  - intros Hp Hs Hc Hok Hpo Hf Hlen. exists (map FakeProofs.page_row (FakeProofs.listing col st)).
    pose proof (FakeProofs.list_pages_run project host Hp Hs fuel col st 0 Hc Hpo
      (FakeProofs.listing_bound col st Hok) (or_introl eq_refl)) as Hrun.
    rewrite bool_decide_eq_true_2 in Hrun by (rewrite FakeProofs.listing_length; lia).
    split; [exact Hrun|]. rewrite length_map, FakeProofs.listing_length. split; [done|].
    apply FakeProofs.listing_lists.
Qed.

(** ** On a small database *)

Definition small_externals : Externals := sample_externals [].
#[local] Existing Instance small_externals.
#[local] Instance small_percent : PercentDecoding := sample_percent [] [].

Definition small_client := new_for_test "p" "h".
Definition small_docs : Fake.FakeState :=
  (run (Fake.fake_http "h") (
     _ ← set_doc small_client "accounts" "a@b" (Object [("email", fs_s "a@b")]);
     set_doc small_client "accounts" "c" (Object [("email", fs_s "c")])) Fake.FakeState_default).2.
(** A decidable form of the invariant. *)
Lemma state_ok_check st :
  ((0 <=? Fake.next_version st) && (Fake.next_version st <=? u64_max) &&
   (Z.of_nat (size (Fake.docs st)) <=? Fake.next_version st) &&
   forallb (fun kd => negb (str_is_empty kd.1.2) && match Fake.fields kd.2 with Object _ => true | _ => false end &&
      (0 <=? Fake.update_time kd.2) && (Fake.update_time kd.2 <=? Fake.next_version st)) (map_to_list (Fake.docs st)))%bool = true ->
  FakeProofs.state_ok st.
Proof.
  intros [[[H1 H2]%andb_prop H3]%andb_prop Hf]%andb_prop. apply Z.leb_le in H1, H2, H3. split; [lia|].
  intros k d Hk. apply elem_of_map_to_list in Hk. apply list_elem_of_In in Hk.
  pose proof (proj1 (forallb_forall _ _) Hf _ Hk) as Hkd. simpl in Hkd.
  apply andb_prop in Hkd as [Hkd Hu]. apply andb_prop in Hkd as [Hkd Hl]. apply andb_prop in Hkd as [Hi Ho]. apply Z.leb_le in Hl, Hu.
  split; [by intros Hx; rewrite Hx in Hi|]. split; [|lia]. destruct (Fake.fields d); try done. by eexists.
Qed.

Definition stale_write := set_doc_if_unchanged small_client "accounts" "c" (Object []) "v1".
Lemma firestore_client_meets_contract_witness :
  conditional FakeProofs.at_ FakeProofs.used (has_version FakeProofs.at_ small_docs "accounts" "c" "v1")
    (put FakeProofs.at_ FakeProofs.used "accounts" "c" (Object [])) small_docs (Ok false) small_docs.
Proof.
  apply (firestore_client_meets_contract "p" "h" 1 _ (SetDocIfUnchanged "accounts" "c" (Object []) "v1") small_docs
    (Ok false) small_docs eq_refl eq_refl).
  - apply state_ok_check. vm_compute. reflexivity.
  - reflexivity.
  - vm_compute. reflexivity.
Defined.
Lemma list_collection_terminates_witness :
  exists rows, run (Fake.fake_http "h") (list_collection small_client 1 "accounts") small_docs = (Ok rows, small_docs) /\
    length rows = length (Fake.collection "accounts" small_docs) /\
    (plain_ids FakeProofs.at_ small_docs "accounts" -> lists FakeProofs.at_ small_docs "accounts" (fun _ => True) rows.*1).
Proof.
  apply (proj2 (list_collection_terminates "p" "h" 1 "accounts" small_docs)); try reflexivity.
  - apply state_ok_check. vm_compute. reflexivity.
  - lia.
  - vm_compute. lia.
Defined.
