(* ===== verification/Authorize.v ===== *)
(** * The authorization endpoint

    [authorize], [authorize_resume], [authorize_cancel] and [issue_code] of
    [src/src/web/oidc.rs]. *)

From S2P Require Import Prelude Prog Json Model Firestore Externals Sys Nonce Ciba Dcr DcrStore.
From S2P Require Import Store Provider AuthChecks Dpop ClientAuth.
From S2P Require Import RequestObject Http.

#[local] Open Scope Z_scope.

(** An absolute URI without fragment. *)
Definition valid_resource (r : string) : bool :=
  negb (str_contains "#"%char r) &&
  match str_split_once_str "://" r with
  | Some (s, rest) => negb (str_is_empty s) && negb (str_is_empty rest)
  | None => false
  end.

(** The parameters of an authorization request after the request object or the pushed
    request was resolved. *)
Record AuthSource := mkAuthSource {
  as_raw : string;
  as_par_creator : option string;
  as_par_request_uri : option string
}.

Section authorize.
Context `{Externals}.

Definition authorize_error (p : Provider) (req : AddressedRequest) (e : OAuthError) : Response :=
  RedirectTo (with_query (ar_redirect_uri req)
    ([("error", error_code e); ("error_description", error_description e); ("iss", p_issuer p)] ++
     match ap_state (ar_params req) with Some s => [("state", s)] | None => [] end)).

Definition describe (e : OAuthError) : string := error_code e +:+ ": " +:+ error_description e.

Definition response_mode (p : Provider) (params : AuthParams) : option ResponseMode :=
  match ap_response_mode params ≫= fun m => p_response_modes p !! m with
  | Some mode => Some mode
  | None => p_response_modes p !! "query"
  end.

(** The code that answers a request, without its text and its times. *)
Definition new_code (req : AddressedRequest) (account_id code : string) (auth_time expires_at : Z) :
    AuthorizationCode :=
  let ps := ar_params req in
  mkAuthorizationCode code (cl_client_id (ar_client req)) account_id (ar_redirect_uri req)
    (default "" (ap_scope ps)) (ap_nonce ps) (ap_code_challenge ps) (ap_code_challenge_method ps)
    auth_time (ap_acr_values ps ≫= fun s => head (split_whitespace s)) (ap_dpop_jkt ps) (ap_resource ps)
    expires_at.

Definition issue_code (p : Provider) (req : AddressedRequest) (account_id : string) (auth_time : option Z) :
    prog provE Response :=
  if match ap_resource (ar_params req) with Some r => negb (valid_resource r) | None => false end
  then mret (authorize_error p req (InvalidTarget "resource must be an absolute URI without fragment"))
  else
    code ← fresh_id;
    at' ← (match auth_time with Some t => mret t | None => now end);
    t ← now;
    _ ← store (SaveCode (new_code req account_id code at' (t + 60)));
    _ ← (match ar_request_uri req with
         | Some ru => if p_firestore p then sys (par_delete ru) else mret tt
         | None => mret tt
         end);
    mret (match response_mode p (ar_params req) with
          | None => Panicked
          | Some mode =>
              mode_build mode (ar_redirect_uri req)
                ([("code", code)] ++
                 match ap_state (ar_params req) with Some s => [("state", s)] | None => [] end ++
                 [("iss", p_issuer p)])
          end).

(** Where the parameters come from: a signed request object, a pushed request, or the
    query itself. *)
Definition auth_source (p : Provider) (q0 : gmap string string) (raw : string) :
    prog provE (result Response AuthSource) :=
  match q0 !! "request" with
  | Some req =>
      c ← resolve_client p (default "" (q0 !! "client_id"));
      client ←? mret (ok_or (plain_error "unknown client for request object") c);
      r ← ro_verify p client req (p_issuer p);
      mret (match r with
            | Ok params => Ok (mkAuthSource (form_encode (map_to_list params)) None None)
            | Err e => Err (plain_error ("invalid request object: " +:+ error_description e))
            end)
  | None =>
      match q0 !! "request_uri" with
      | Some ru =>
          if starts_with URN_PREFIX ru then
            if p_firestore p then
              r ← sys (par_peek ru);
              mret (match r with
                    | Ok (Some (cid, params)) => Ok (mkAuthSource params (Some cid) (Some ru))
                    | _ => Err (plain_error "invalid or expired request_uri")
                    end)
            else mret (Err (plain_error "PAR unavailable (no Firestore)"))
          else mret (Ok (mkAuthSource raw None None))
      | None => mret (Ok (mkAuthSource raw None None))
      end
  end.

(** The common part of the three handlers: parse, address, check. *)
Definition parse_params (what raw : string) : result Response AuthParams :=
  map_err (fun e => plain_error (what +:+ e)) (params_decode raw).
Definition address (p : Provider) (params : AuthParams) (request_uri : option string) :
    prog provE (result Response AddressedRequest) :=
  r ← resolve_addressee p (mkRawAuthRequest params request_uri);
  mret (map_err (fun e => plain_error (describe e)) r).
Definition checked (p : Provider) (req : AddressedRequest) : result Response unit :=
  map_err (authorize_error p req) (run_checks p req).

Definition is_nonpar_request_uri (q0 : gmap string string) : bool :=
  match q0 !! "request_uri" with Some u => negb (starts_with URN_PREFIX u) | None => false end.

Definition authorize (p : Provider) (jar : gmap string string) (query : option string) : prog provE Response :=
  finish (
    let raw := default "" query in
    let q0 := default ∅ (form_decode raw) in
    src ←? auth_source p q0 raw;
    _ ←? mret (match as_par_creator src, q0 !! "client_id" with
               | Some creator, Some req_cid =>
                   if bool_decide (req_cid = creator) then Ok tt
                   else Err (plain_error "request_uri was issued to a different client")
               | _, _ => Ok tt
               end);
    params ←? mret (parse_params "invalid query: " (as_raw src));
    req ←? address p params (as_par_request_uri src);
    _ ←? mret (checked p req);
    if is_nonpar_request_uri q0
    then mret (Err (authorize_error p req (RequestUriNotSupported "request_uri is not supported")))
    else if cl_require_par (ar_client req) && negb (bool_decide (is_Some (as_par_request_uri src)))
    then mret (Err (authorize_error p req (InvalidRequest "pushed authorization request required")))
    else
      session ← (match jar !! SID_COOKIE with
                 | Some sid => store (GetSession sid)
                 | None => mret None
                 end);
      t ← now;
      match decide_interaction (ar_params req) session t with
      | UseSession account_id auth_time =>
          r ← issue_code p req account_id (Some auth_time); mret (Ok r)
      | DecisionError e => mret (Err (authorize_error p req e))
      | Login =>
          u ← fresh_id;
          let uid := hyphenated u in
          _ ← store (SaveInteraction (mkInteraction uid (as_raw src) None None (as_par_request_uri src)));
          mret (Ok (RedirectTo (path p ("/login/" +:+ uid))))
      end).

Definition authorize_resume (p : Provider) (q : gmap string string) : prog provE Response :=
  finish (
    uid ←? mret (ok_or (plain_error "uid required") (q !! "uid"));
    got ← store (GetInteraction uid);
    interaction ←? mret (ok_or (plain_error "interaction not found") got);
    account_id ←? mret (ok_or (plain_error "interaction not completed") (in_account_id interaction));
    params ←? mret (parse_params "invalid stored query: " (in_raw_query interaction));
    req ←? address p params (in_request_uri interaction);
    _ ←? mret (checked p req);
    won ← store (ConsumeInteraction uid);
    if negb won then mret (Err (plain_error "interaction already used"))
    else r ← issue_code p req account_id (in_auth_time interaction); mret (Ok r)).

Definition authorize_cancel (p : Provider) (uid : string) : prog provE Response :=
  finish (
    got ← store (GetInteraction uid);
    interaction ←? mret (ok_or (plain_error "interaction not found") got);
    params ←? mret (parse_params "invalid stored query: " (in_raw_query interaction));
    req ←? address p params (in_request_uri interaction);
    _ ←? mret (checked p req);
    mret (Ok (authorize_error p req (AccessDenied "end-user denied the request")))).
End authorize.
