(* ===== verification/Endpoints.v ===== *)
(** * The token, introspection, revocation, logout and userinfo endpoints

    The remaining handlers of [src/src/web/oidc.rs] that need no database, and the
    profile, which does. *)

From S2P Require Import Prelude Prog Json Model Firestore Externals Es256 Sys Nonce Ciba Dcr.
From S2P Require Import DcrStore Claims Store Provider Dpop ClientAuth Grants Http.

#[local] Open Scope Z_scope.

Definition require_confidential (client : Client) : result OAuthError unit :=
  if is_public client then Err (InvalidClient "confidential client authentication required") else Ok tt.

Record EndSessionQuery := mkEndSessionQuery {
  es_id_token_hint : option string;
  es_post_logout_redirect_uri : option string;
  es_state : option string;
  es_client_id : option string
}.

Section endpoints.
Context `{Externals}.

(** ** Token *)

(** The DPoP proof of a token request: verified when presented, required of some clients. *)
Definition token_proof (p : Provider) (hs : HeaderMap) (client : Client) :
    prog provE (result Response (option string)) :=
  match dpop_header hs with
  | Some proof =>
      r ← dpop_verify p proof "POST" (p_issuer p +:+ "/token") None;
      mret (match r with Ok jkt => Ok (Some jkt) | Err e => Err (error_response (InvalidDpopProof e)) end)
  | None =>
      mret (if cl_dpop_bound client then Err (error_response (InvalidDpopProof "DPoP proof required")) else Ok None)
  end.

Definition token (p : Provider) (hs : HeaderMap) (form : gmap string string) : prog provE Response :=
  finish (
    gt ←? mret (ok_or (error_response (InvalidRequest "grant_type required")) (form !! "grant_type"));
    grant ←? mret (ok_or (error_response (UnsupportedGrantType gt)) (p_grants p !! gt));
    client ←? authenticate_client p hs form;
    if negb (allows_grant client gt)
    then mret (Err (error_response (UnauthorizedClient ("grant " +:+ gt +:+ " not allowed"))))
    else
      dpop_jkt ←? token_proof p hs client;
      r ← grant_handle grant p client form dpop_jkt;
      mret (match r with
            | Ok resp => Ok (Reply 200 no_store (TokenBody resp))
            | Err e => Err (error_response e)
            end)).

(** ** Introspection, mandates, revocation *)

Definition introspection_active_body (at_ : AccessToken) : Value :=
  let opt k (v : option Value) body := match v with Some x => set_field body k x | None => body end in
  opt "authorization_details" (at_authorization_details at_ ≫= fun ad => result_ok (json_from_slice ad))
    (opt "auth_time" (u64_value <$> at_auth_time at_)
       (opt "acr" (Str <$> at_acr at_)
          (opt "aud" (Str <$> at_aud at_)
             (opt "cnf" ((fun jkt => Object [("jkt", Str jkt)]) <$> at_jkt at_)
                (Object [("active", Bool true); ("scope", Str (at_scope at_));
                         ("client_id", Str (at_client_id at_)); ("sub", Str (at_account_id at_));
                         ("token_type", Str (match at_jkt at_ with Some _ => "DPoP" | None => "Bearer" end))]))))).
Definition inactive_body : Value := Object [("active", Bool false)].

(** The token parameter of a request by an authenticated confidential client. *)
Definition resource_server_token (p : Provider) (hs : HeaderMap) (form : gmap string string) :
    prog provE (result Response string) :=
  client ←? authenticate_client p hs form;
  _ ←? mret (map_err error_response (require_confidential client));
  mret (ok_or (error_response (InvalidRequest "token required")) (form !! "token")).

Definition introspect (p : Provider) (hs : HeaderMap) (form : gmap string string) : prog provE Response :=
  finish (
    token ←? resource_server_token p hs form;
    got ← store (GetAccessToken token);
    mret (Ok (Reply 200 no_store
                (JsonBody (match got with Some at_ => introspection_active_body at_ | None => inactive_body end))))).

Definition mandate_consume (p : Provider) (hs : HeaderMap) (form : gmap string string) : prog provE Response :=
  finish (
    token ←? resource_server_token p hs form;
    r ← store (ConsumeMandateIfUnused token);
    mret (match r with
          | Ok consumed => Ok (Reply 200 no_store (JsonBody (Object [("consumed", Bool consumed)])))
          | Err _ => Err (Reply 500 [] (TextBody "error"))
          end)).

Definition revoke (p : Provider) (hs : HeaderMap) (form : gmap string string) : prog provE Response :=
  finish (
    client ←? authenticate_client p hs form;
    token ←? mret (ok_or (error_response (InvalidRequest "token required")) (form !! "token"));
    at_ ← store (GetAccessToken token);
    _ ← (match at_ with
         | Some a => if bool_decide (at_client_id a = cl_client_id client)
                     then store (RevokeAccessToken token) else mret tt
         | None => mret tt
         end);
    rt ← store (GetRefreshToken token);
    _ ← (match rt with
         | Some r => if bool_decide (rt_client_id r = cl_client_id client)
                     then store (RevokeRefreshToken token) else mret tt
         | None => mret tt
         end);
    mret (Ok (Reply 200 no_store NoBody))).

(** ** Logout *)

Definition jwt_aud (jwt : string) : option string :=
  payload ← str_split "."%char jwt !! 1%nat;
  bytes ← result_ok (b64url_decode payload);
  v ← result_ok (json_from_slice bytes);
  match get v "aud" with
  | Some (Str s) => Some s
  | Some (Array a) => head a ≫= as_str
  | _ => None
  end.

Definition logout_target (uri : string) (state : option string) : string :=
  match state with Some s => with_query uri [("state", s)] | None => uri end.

Definition end_session (p : Provider) (jar : gmap string string) (q : EndSessionQuery) : prog provE Response :=
  _ ← (match jar !! SID_COOKIE with Some sid => store (DeleteSession sid) | None => mret tt end);
  let client_id := match es_client_id q with
                   | Some c => Some c
                   | None => es_id_token_hint q ≫= jwt_aud
                   end in
  match es_post_logout_redirect_uri q with
  | Some uri =>
      c ← (match client_id with Some id => resolve_client p id | None => mret None end);
      let registered :=
        match c with
        | Some c => list_any (fun u => bool_decide (u = uri)) (cl_post_logout_redirect_uris c)
        | None => false
        end in
      mret (WithoutCookie SID_COOKIE
              (if negb registered then plain_error "post_logout_redirect_uri not registered"
               else RedirectTo (logout_target uri (es_state q))))
  | None => mret (WithoutCookie SID_COOKIE (Reply 200 [] (LoggedOutPage (path p "/"))))
  end.

(** ** Userinfo and profile *)

Definition userinfo_respond (p : Provider) (hs : HeaderMap) (method : string) (body_token : option string) :
    prog provE Response :=
  finish (
    at_ ←? authenticate_token p hs method "/userinfo" body_token;
    account ← store (FindAccount (at_account_id at_));
    mret (Ok (Reply 200 [] (JsonBody (Object (map_to_list (released_claims (at_scope at_) account))))))).
Definition userinfo_get (p : Provider) (hs : HeaderMap) : prog provE Response := userinfo_respond p hs "GET" None.
Definition userinfo_post (p : Provider) (hs : HeaderMap) (body : string) : prog provE Response :=
  userinfo_respond p hs "POST" (form_decode body ≫= fun m => m !! "access_token").

Definition profile_view (sub : string) (profile : gmap string string) : Value :=
  Object [("sub", Str sub); ("editable_fields", Array (map Str EDITABLE));
          ("profile", Object (map (fun kv => (kv.1, Str kv.2)) (map_to_list profile)))].

Definition profile_get (p : Provider) (hs : HeaderMap) : prog provE Response :=
  finish (
    at_ ←? authenticate_token p hs "GET" "/me/profile" None;
    profile ← (if p_firestore p
               then r ← sys (get_profile (at_account_id at_)); mret (default ∅ (result_ok r))
               else mret ∅);
    mret (Ok (Reply 200 [] (JsonBody (profile_view (at_account_id at_) profile))))).

Definition profile_put (p : Provider) (hs : HeaderMap) (body : string) : prog provE Response :=
  finish (
    at_ ←? authenticate_token p hs "PUT" "/me/profile" None;
    if negb (p_firestore p) then mret (Err (Reply 501 [] (TextBody "profile store unavailable")))
    else
      updates ←? mret (map_err (fun e => Reply 400 [] (TextBody ("invalid body: " +:+ e)))
                         (string_map_from_json body));
      saved ← sys (save_profile (at_account_id at_) updates);
      _ ←? mret (map_err (fun e => Reply 500 [] (TextBody ("save: " +:+ e))) saved);
      r ← sys (get_profile (at_account_id at_));
      mret (Ok (Reply 200 [] (JsonBody (profile_view (at_account_id at_) (default ∅ (result_ok r))))))).
End endpoints.
