(* ===== verification/Registration.v ===== *)
(** * Pushed requests, client registration and discovery

    The handlers of [src/src/web/oidc.rs] that work on the database ([par],
    [register]), and the discovery documents with the routes of [src/src/web/mod.rs]
    they announce. *)

From S2P Require Import Prelude Prog Json Model Firestore Externals Es256 Sys Nonce Ciba Dcr.
From S2P Require Import DcrStore Claims Store Provider Dpop ClientAuth RequestObject Grants.
From S2P Require Import Http.

#[local] Open Scope Z_scope.

(** ** Registration *)

Definition dcr_error (status : Z) (error desc : string) : Response :=
  Reply status no_store (JsonBody (Object [("error", Str error); ("error_description", Str desc)])).

Definition json_string_array (v : Value) (key : string) : list string :=
  match get v key ≫= as_array with Some a => omap as_str a | None => [] end.

(** [if let Some(x) = v { resp[k] = x }]. *)
Definition with_field (k : string) (v : option Value) (resp : Value) : Value :=
  match v with Some x => set_field resp k x | None => resp end.

Definition register_response (now : Z) (c : Client) (raw_client_secret : option string) : Value :=
  let resp :=
    Object [("client_id", Str (cl_client_id c)); ("client_id_issued_at", u64_value now);
            ("token_endpoint_auth_method", Str (cl_token_endpoint_auth_method c));
            ("grant_types", Array (map Str (cl_grant_types c)));
            ("redirect_uris", Array (map Str (cl_redirect_uris c)));
            ("post_logout_redirect_uris", Array (map Str (cl_post_logout_redirect_uris c)));
            ("require_pushed_authorization_requests", Bool (cl_require_par c))] in
  let resp := with_field "jwks_uri" (Str <$> cl_jwks_uri c) resp in
  let resp := with_field "client_secret" (Str <$> raw_client_secret) resp in
  with_field "client_secret_expires_at" ((fun _ => u64_value 0) <$> raw_client_secret) resp.

Section registration.
Context `{Externals, IatCodec}.

Definition registration_request_from_json (v : Value) : RegistrationRequest :=
  mkRegistrationRequest (json_string_array v "redirect_uris") (json_string_array v "post_logout_redirect_uris")
    (json_string_array v "grant_types") (jwks_from_jwk_set (get v "jwks")) (get v "jwks_uri" ≫= as_str).

Definition registration_failed : Response := dcr_error 500 "server_error" "registration failed".

(** The initial access token of a registration: read, not consumed. *)
Definition presented_iat (hs : HeaderMap) : prog provE (result Response (string * Iat)) :=
  raw_iat ←? mret (match auth_scheme_token hs with
                   | Some (scheme, tok) =>
                       if bool_decide (scheme = "Bearer") then Ok tok
                       else Err (dcr_error 401 "invalid_token" "initial access token required")
                   | None => Err (dcr_error 401 "invalid_token" "initial access token required")
                   end);
  let hash := hash_token raw_iat in
  r ← sys (peek_iat hash);
  match r with
  | Ok (Some iat) => mret (Ok (hash, iat))
  | Ok None =>
      _ ← rate_check RegisterRate "dcr-register" (client_ip hs);
      mret (Err (dcr_error 401 "invalid_token" "unknown initial access token"))
  | Err _ => mret (Err registration_failed)
  end.

(** The single use of a token that is not reusable. *)
Definition spend_iat (hash : string) (iat : Iat) : prog provE (result Response unit) :=
  if iat_reusable iat then mret (Ok tt)
  else
    r ← sys (consume_iat hash (iat_update_time iat));
    mret (match r with
          | Ok true => Ok tt
          | Ok false => Err (dcr_error 400 "invalid_token" "initial access token already used")
          | Err _ => Err registration_failed
          end).

(** The random bytes of a secret are drawn for the profile that has one. *)
Definition draw_secret (profile : ClientProfile) : prog provE string :=
  match profile with ConfidentialSecret => sys random_bytes | _ => mret "" end.

Definition register (p : Provider) (hs : HeaderMap) (body : string) : prog provE Response :=
  finish (
    _ ←? mret (guard (p_firestore p)
                 (dcr_error 503 "temporarily_unavailable" "registration unavailable (no Firestore)"));
    hi ←? presented_iat hs;
    let '(hash, iat) := hi in
    t ← now;
    _ ←? mret (guard (negb (iat_expires_at iat <=? t))
                 (dcr_error 401 "invalid_token" "initial access token expired"));
    allowed ← (if iat_reusable iat then mret true else rate_check RegisterRate "dcr-register" (client_ip hs));
    _ ←? mret (guard allowed
                 (dcr_error 429 "too_many_requests" "registration rate limit exceeded; retry later"));
    v ←? mret (map_err (fun _ => dcr_error 400 "invalid_client_metadata" "request body is not valid JSON")
                 (json_from_slice body));
    let req := registration_request_from_json v in
    id ← fresh_id;
    rnd ← draw_secret (ic_profile (iat_constraints iat));
    outcome ←? mret (map_err (fun e => dcr_error 400 (dcr_error_code e) (dcr_error_description e))
                       (validate_registration rnd ("dcr-" +:+ id) req (iat_constraints iat)));
    let client := ro_client outcome in
    _ ←? spend_iat hash iat;
    saved ← sys (save_client client);
    _ ←? mret (map_err (fun _ => registration_failed) saved);
    t' ← now;
    mret (Ok (Reply 201 no_store (JsonBody (register_response t' client (ro_raw_client_secret outcome)))))).

(** ** Pushed authorization requests *)

(** The parameters that a pushed request stores: those of a verified request object,
    or the body itself. *)
Definition par_parameters (p : Provider) (client : Client) (form : gmap string string) (body : string) :
    prog provE (result Response string) :=
  match form !! "request" with
  | Some req =>
      r ← ro_verify p client req (p_issuer p);
      mret (match r with
            | Ok params => Ok (form_encode (map_to_list params))
            | Err e => Err (error_response e)
            end)
  | None => mret (Ok body)
  end.

(** The key of a DPoP proof on a pushed request binds the authorization to it. *)
Definition par_dpop (p : Provider) (hs : HeaderMap) (form : gmap string string) (body : string) :
    prog provE (result Response string) :=
  match dpop_header hs with
  | None => mret (Ok body)
  | Some proof =>
      r ← dpop_verify p proof "POST" (p_issuer p +:+ "/par") None;
      mret (jkt ← map_err (fun e => error_response (InvalidDpopProof e)) r;
            match form !! "dpop_jkt" with
            | Some req =>
                if bool_decide (req = jkt) then Ok body
                else Err (error_response (InvalidDpopProof
                       "dpop_jkt does not match the DPoP proof presented to the PAR endpoint"))
            | None => Ok (body +:+ "&dpop_jkt=" +:+ jkt)
            end)
  end.

Definition par (p : Provider) (hs : HeaderMap) (body : string) : prog provE Response :=
  finish (
    _ ←? mret (guard (p_firestore p) (Reply 503 [] (TextBody "no firestore")));
    let form := default ∅ (form_decode body) in
    _ ←? mret (guard (negb (bool_decide (is_Some (form !! "request_uri"))))
                 (error_response (InvalidRequest "request_uri must not be used in a PAR request")));
    client ←? authenticate_client p hs form;
    body ←? par_parameters p client form body;
    let form := default ∅ (form_decode body) in
    _ ←? mret (match form !! "client_id" with
               | Some cid => guard (bool_decide (cid = cl_client_id client))
                               (error_response (InvalidRequest "client_id mismatch"))
               | None => Ok tt
               end);
    body ←? par_dpop p hs form body;
    r ← sys (par_create (cl_client_id client) body);
    mret (match r with
          | Ok ru => Ok (Reply 201 no_store (JsonBody (Object [("request_uri", Str ru); ("expires_in", u64_value 60)])))
          | Err _ => Err (Reply 500 [] (TextBody "error"))
          end)).
End registration.

(** ** Discovery *)

Definition strs (l : list string) : Value := Array (map Str l).

Definition custom_endpoints (i : string) : Value :=
  Object [("signup_email_challenge", Str (i +:+ "/signup/email-challenge"));
          ("signup_verify_email", Str (i +:+ "/signup/verify-email"));
          ("signup_passkey_options", Str (i +:+ "/signup/passkey/options"));
          ("signup_passkey_verify", Str (i +:+ "/signup/passkey/verify"));
          ("profile", Str (i +:+ "/me/profile"));
          ("fcm_token", Str (i +:+ "/ciba/fcm-tokens"));
          ("mandate_consume", Str (i +:+ "/oauth/mandate/consume"));
          ("ciba_pending", Str (i +:+ "/ciba/pending"));
          ("ciba_history", Str (i +:+ "/ciba/history"))].

(** The order of the keys of a [HashMap] is unspecified; here it is [map_to_list]'s. *)
Definition map_keys {V} (m : gmap string V) : list string := (map_to_list m).*1.

Definition discovery (p : Provider) : Value :=
  let i := p_issuer p in
  Object [("issuer", Str i);
          ("authorization_endpoint", Str (i +:+ "/authorize"));
          ("token_endpoint", Str (i +:+ "/token"));
          ("introspection_endpoint", Str (i +:+ "/introspect"));
          ("revocation_endpoint", Str (i +:+ "/revoke"));
          ("userinfo_endpoint", Str (i +:+ "/userinfo"));
          ("jwks_uri", Str (i +:+ "/jwks"));
          ("response_types_supported", strs ["code"]);
          ("grant_types_supported", strs (map_keys (p_grants p)));
          ("subject_types_supported", strs ["public"]);
          ("id_token_signing_alg_values_supported", strs (map sg_alg (all_signers p)));
          ("scopes_supported", strs ["openid"; "profile"; "email"; "address"; "phone"; "offline_access"]);
          ("claims_supported", strs all_supported_claims);
          ("claims_parameter_supported", Bool false);
          ("acr_values_supported", strs ["0"; "1"; "urn:mace:incommon:iap:bronze"]);
          ("token_endpoint_auth_methods_supported", strs (map_keys (p_client_auth p)));
          ("code_challenge_methods_supported", strs ["S256"]);
          ("dpop_signing_alg_values_supported", strs ["ES256"]);
          ("token_endpoint_auth_signing_alg_values_supported", strs ["ES256"]);
          ("request_parameter_supported", Bool true);
          ("request_uri_parameter_supported", Bool false);
          ("require_request_uri_registration", Bool false);
          ("request_object_signing_alg_values_supported", strs ["ES256"]);
          ("backchannel_authentication_request_signing_alg_values_supported", strs ["ES256"]);
          ("pushed_authorization_request_endpoint", Str (i +:+ "/par"));
          ("registration_endpoint", Str (i +:+ "/oauth/register"));
          ("end_session_endpoint", Str (i +:+ "/end-session"));
          ("authorization_response_iss_parameter_supported", Bool true);
          ("backchannel_authentication_endpoint", Str (i +:+ "/backchannel-authentication"));
          ("backchannel_token_delivery_modes_supported", strs ["poll"]);
          ("backchannel_user_code_parameter_supported", Bool false);
          ("custom_endpoints", custom_endpoints i)].

Definition jwks (p : Provider) : Value := Object [("keys", Array (map sg_public_jwk (all_signers p)))].

(** The routes of [router] under the base path: path and methods. *)
Inductive method : Type := GET | POST | PUT.
#[export] Instance method_eq_dec : EqDecision method.
Proof. solve_decision. Defined.
Definition routes : list (string * list method) :=
  [("/.well-known/openid-configuration", [GET]); ("/jwks", [GET]); ("/authorize", [GET]);
   ("/authorize/resume", [GET]); ("/login/{uid}", [GET]); ("/login/{uid}/cancel", [GET]);
   ("/login/{uid}/passkey/options", [POST]); ("/login/{uid}/passkey/verify", [POST]); ("/token", [POST]);
   ("/introspect", [POST]); ("/oauth/mandate/consume", [POST]); ("/oauth/register", [POST]);
   ("/revoke", [POST]); ("/end-session", [GET]); ("/par", [POST]); ("/userinfo", [GET; POST]);
   ("/me/profile", [GET; PUT]); ("/backchannel-authentication", [POST]); ("/ciba", [GET]);
   ("/ciba/pending", [GET]); ("/ciba/history", [GET]); ("/ciba/fcm-tokens", [POST]);
   ("/ciba/{auth_req_id}/passkey-options", [POST]); ("/ciba/{auth_req_id}/approve", [POST]);
   ("/ciba/{auth_req_id}/reject", [POST]); ("/admin/whoami", [GET]); ("/admin", [GET]);
   ("/admin/users", [GET]); ("/admin/users/{account_id}", [GET]);
   ("/admin/users/{account_id}/disable", [POST]); ("/admin/users/{account_id}/enable", [POST]);
   ("/admin/users/{account_id}/delete", [POST]); ("/admin/users/{account_id}/grant-admin", [POST]);
   ("/admin/users/{account_id}/revoke-admin", [POST]); ("/admin/audit", [GET]); ("/admin/clients", [GET]);
   ("/admin/clients/{client_id}", [GET]); ("/admin/clients/{client_id}/revoke", [POST]);
   ("/admin/clients/{client_id}/post-logout", [POST]); ("/admin/iats", [GET]);
   ("/admin/iats/new", [GET; POST]); ("/admin/iats/{hash}/revoke", [POST]);
   ("/admin/iats/flash/{flash_id}", [GET]); ("/signup", [GET; POST]); ("/signup/verify", [GET]);
   ("/signup/email-challenge", [POST]); ("/signup/verify-email", [POST]);
   ("/signup/passkey/options", [POST]); ("/signup/passkey/verify", [POST]); ("/invites", [POST]);
   ("/accounts/disable", [POST]); ("/invite", [GET]); ("/", [GET]); ("/callback", [GET])].

(** * Properties *)

(** The announced endpoints, with the method a client uses. *)
Definition announced : list (string * string * method) :=
  [("authorization_endpoint", "/authorize", GET); ("token_endpoint", "/token", POST);
   ("introspection_endpoint", "/introspect", POST); ("revocation_endpoint", "/revoke", POST);
   ("userinfo_endpoint", "/userinfo", GET); ("jwks_uri", "/jwks", GET);
   ("pushed_authorization_request_endpoint", "/par", POST); ("registration_endpoint", "/oauth/register", POST);
   ("end_session_endpoint", "/end-session", GET);
   ("backchannel_authentication_endpoint", "/backchannel-authentication", POST)].
Definition announced_custom : list (string * string * method) :=
  [("signup_email_challenge", "/signup/email-challenge", POST); ("signup_verify_email", "/signup/verify-email", POST);
   ("signup_passkey_options", "/signup/passkey/options", POST); ("signup_passkey_verify", "/signup/passkey/verify", POST);
   ("profile", "/me/profile", GET); ("profile", "/me/profile", PUT); ("fcm_token", "/ciba/fcm-tokens", POST);
   ("mandate_consume", "/oauth/mandate/consume", POST); ("ciba_pending", "/ciba/pending", GET);
   ("ciba_history", "/ciba/history", GET)].
Definition routed (path : string) (m : method) : bool :=
  existsb (fun r => bool_decide (r.1 = path) && existsb (fun m' => bool_decide (m' = m)) r.2) routes.

Lemma map_keys_elem {V} (m : gmap string V) k : k ∈ map_keys m <-> is_Some (m !! k).
Proof.
  unfold map_keys. rewrite list_elem_of_fmap. split.
  - intros ([k' v] & -> & Hin). apply elem_of_map_to_list in Hin. by exists v.
  - intros [v Hv]. exists (k, v). split; [done|]. by apply elem_of_map_to_list.
Qed.

(** A value in a list of texts. *)
Definition lists (v : option Value) (s : string) : Prop := exists l, v = Some (strs l) /\ s ∈ l.
Lemma lists_strs l s : lists (Some (strs l)) s <-> s ∈ l.
Proof.
  split; [|by exists l]. intros (l' & [= Hl] & Hs). apply list_elem_of_In, (in_map Str) in Hs.
  rewrite <- Hl in Hs. apply in_map_iff in Hs as (s' & [= ->] & Hs). by apply list_elem_of_In.
Qed.

(** Discovery tells the truth: every announced endpoint is routed for its method,
    the announced grant types and client authentication methods are exactly the
    registered ones, and the algorithm and the public key of every signer that can sign
    an identity token are published. *)
Theorem discovery_truthful p :
  Forall (fun '(k, sfx, m) => get (discovery p) k = Some (Str (p_issuer p +:+ sfx)) /\ routed sfx m = true) announced /\
  Forall (fun '(k, sfx, m) =>
    (get (discovery p) "custom_endpoints" ≫= fun c => get c k) = Some (Str (p_issuer p +:+ sfx)) /\ routed sfx m = true)
    announced_custom /\
  (forall g, lists (get (discovery p) "grant_types_supported") g <-> is_Some (p_grants p !! g)) /\
  (forall a, lists (get (discovery p) "token_endpoint_auth_methods_supported") a <-> is_Some (p_client_auth p !! a)) /\
  (forall alg s, signer_for p alg = Ok s ->
     lists (get (discovery p) "id_token_signing_alg_values_supported") (sg_alg s) /\
     exists keys, get (jwks p) "keys" = Some (Array keys) /\ sg_public_jwk s ∈ keys).
Proof.
  split; [|split; [|split; [|split]]].
  - unfold announced. repeat (constructor; [split; reflexivity|]). constructor.
  - unfold announced_custom. repeat (constructor; [split; reflexivity|]). constructor.
  - intros g. change (get (discovery p) _) with (Some (strs (map_keys (p_grants p)))).
    by rewrite lists_strs, map_keys_elem.
  - intros a. change (get (discovery p) _) with (Some (strs (map_keys (p_client_auth p)))).
    by rewrite lists_strs, map_keys_elem.
  - intros alg s Hs. assert (Hin : s ∈ all_signers p).
    { unfold signer_for in Hs. unfold all_signers. destruct alg as [a|]; [|injection Hs as <-; by left].
      case_bool_decide; [injection Hs as <-; by left|].
      destruct (list_find_first _ _) as [s'|] eqn:Hf; [|done]. injection Hs as <-.
      right. by apply list_find_first_Some in Hf as [? _]. }
    split.
    + change (get (discovery p) _) with (Some (strs (map sg_alg (all_signers p)))). apply lists_strs.
      by apply list_elem_of_fmap_2.
    + eexists. split; [reflexivity|]. by apply list_elem_of_fmap_2.
Qed.
