(* ===== verification/WebFacts.v ===== *)
(** * Properties of the endpoints

    Where the endpoints redirect, how many codes an interaction gives, and what a
    request must present to be answered. *)

From S2P Require Import Prelude Prog Json Model Firestore Externals Es256 Sys Nonce Ciba Dcr.
From S2P Require Import DcrStore Claims Store StoreFacts Provider ProviderFacts AuthChecks.
From S2P Require Import Dpop ClientAuth RequestObject Grants GrantsFacts Http.
From S2P Require Import Authorize Endpoints Registration.

#[local] Open Scope Z_scope.

Section facts.
Context `{Externals}.

Definition merge (r : result Response Response) : Response := match r with Ok a => a | Err a => a end.

Lemma always_finish (P : list (event provE) -> Response -> Prop) (q : prog provE (result Response Response)) :
  always (fun tr r => P tr (merge r)) q -> always P (finish q).
Proof.
  intros Hq. unfold finish. eapply always_bind; [exact Hq|]. intros tr1 r Hr.
  apply always_ret. by rewrite app_nil_r.
Qed.
Lemma needs_finish W (good : Response -> Prop) (q : prog provE (result Response Response)) :
  needs_for W (fun r => good (merge r)) q -> needs_for W good (finish q).
Proof.
  intros Hq tr a Hp Hg. unfold finish in Hp. apply thread_path_bind in Hp as (r & tr1 & tr2 & -> & H1 & H2).
  destruct H2 as [-> [= ->]]. rewrite app_nil_r. by eapply Hq.
Qed.
Lemma guarded_finish W D (q : prog provE (result Response Response)) : guarded W D q -> guarded W D (finish q).
Proof. intros Hq. apply guarded_bind; [done|]. by intros [?|?]. Qed.

(** ** Redirections *)

(** [c] is the client registered as [id]: by configuration, or by a document that the
    database answered. *)
Definition client_known (p : Provider) (tr : list (event provE)) (id : string) (c : Client) : Prop :=
  p_clients p !! id = Some c \/
  p_clients p !! id = None /\ p_firestore p = true /\
  exists i fields json, Ev i (SysOp (FsOp (GetDoc CLIENTS id))) (Ok (Some fields)) ∈ tr /\
    field_str fields "json" = Some json /\ client_from_json json = Ok c.

Lemma resolve_known p id :
  always (fun tr c => match c with Some c => client_known p tr id c | None => True end) (resolve_client p id).
Proof.
  unfold resolve_client, client_known. destruct (p_clients p !! id) as [c|] eqn:Hc.
  { apply always_ret. by left. }
  destruct (p_firestore p) eqn:Hf; [|by apply always_ret].
  apply always_vis. intros i x. simpl. apply always_ret.
  destruct x as [[fields|]|e]; [|done..]. destruct (field_str fields "json") as [json|] eqn:Hj; simpl; [|done].
  destruct (client_from_json json) as [c|] eqn:Hcj; simpl; [|done]. right. split; [done|]. split; [done|].
  exists i, fields, json. split; [by left | done].
Qed.

(** The request is addressed to the client that [params] name, at the redirect URI that
    they name. *)
Definition addressed (p : Provider) (params : AuthParams) (tr : list (event provE)) (req : AddressedRequest) : Prop :=
  exists id, ap_client_id params = Some id /\ client_known p tr id (ar_client req) /\
    ap_redirect_uri params = Some (ar_redirect_uri req) /\ ar_redirect_uri req ∈ cl_redirect_uris (ar_client req).
(** A redirection goes to the redirect URI that [params] name, and it is registered for
    the client that they name. *)
Definition to_registered (p : Provider) (params : AuthParams) (tr : list (event provE)) (loc : string) : Prop :=
  exists id c ru ps, ap_client_id params = Some id /\ client_known p tr id c /\
    ap_redirect_uri params = Some ru /\ ru ∈ cl_redirect_uris c /\ loc = with_query ru ps.
(** The parameters of the request: of the query, the request object or the pushed
    request; or those stored with the interaction that was read. *)
Definition requested (p : Provider) (query : option string) (tr : list (event provE)) (params : AuthParams) : Prop :=
  exists tr0 tr1 src, tr = tr0 ++ tr1 /\
    thread_path (auth_source p (default ∅ (form_decode (default "" query))) (default "" query)) tr0 (Ret (Ok src)) /\
    params_decode (as_raw src) = Ok params.
Definition stored_request (uid : string) (tr : list (event provE)) (params : AuthParams) : Prop :=
  exists i inter, Ev i (StoreOp (GetInteraction uid)) (Some inter) ∈ tr /\ params_decode (in_raw_query inter) = Ok params.
Definition redirects (ok : list (event provE) -> string -> Prop) (tr : list (event provE)) (r : Response) : Prop :=
  match r with RedirectTo loc => ok tr loc | _ => True end.

Lemma client_known_keeps p tr tr' id c :
  client_known p tr id c -> (forall ev, ev ∈ tr -> ev ∈ tr') -> client_known p tr' id c.
Proof. intros [?|(? & ? & i & f & j & ? & ?)] Hs; [by left | right]. eauto 10. Qed.
Lemma to_registered_mono p params tr tr' loc :
  to_registered p params tr loc -> (forall ev, ev ∈ tr -> ev ∈ tr') -> to_registered p params tr' loc.
Proof.
  intros (id & c & ru & ps & Hid & Hk & Hr) Hs. exists id, c, ru, ps. split; [done|].
  split; [by eapply client_known_keeps | done].
Qed.
Lemma to_registered_keeps p params : keeps (redirects (to_registered p params)).
Proof. intros tr tr' [| loc | | |] Hp Hs; try done. by eapply to_registered_mono. Qed.

Lemma authorize_error_registered p params tr req e :
  addressed p params tr req -> redirects (to_registered p params) tr (authorize_error p req e).
Proof. intros (id & Hid & Hk & Hu & Hr). exists id, (ar_client req), (ar_redirect_uri req). eexists. eauto 10. Qed.

Lemma resolve_addressed p raw :
  always (fun tr r => match r with Ok req => addressed p (raw_params raw) tr req | Err _ => True end) (resolve_addressee p raw).
Proof.
  unfold resolve_addressee. destruct (ap_client_id (raw_params raw)) as [id|] eqn:Hid; cbn [ok_or]; [rewrite try_ok | by apply always_ret].
  eapply always_bind; [apply (resolve_known p id)|]. intros tr1 [c|] Hc; cbn [ok_or]; [rewrite try_ok | by apply always_ret].
  apply always_ret. rewrite app_nil_r. destruct (ap_redirect_uri (raw_params raw)) as [r|] eqn:Hru; cbn [ok_or mbind result_bind]; [|done].
  destruct (redirect_uri_registered r (cl_redirect_uris c)) eqn:Hr; cbn [negb]; [|done].
  exists id. split; [done|]. split; [done|]. split; [done | by apply redirect_uri_registered_true].
Qed.

Lemma address_addressed p params ru :
  always (fun tr r => match r with Ok req => addressed p params tr req | Err r => exists m, r = plain_error m end)
    (address p params ru).
Proof.
  unfold address. eapply always_bind; [apply resolve_addressed|]. intros tr1 [req|e] Hr; apply always_ret; simpl in *.
  - by rewrite app_nil_r.
  - eauto.
Qed.

(** The parameters are parsed, addressed and checked; then the handler goes on. *)
Lemma addressed_then p (ok : list (event provE) -> string -> Prop) params ru
    (f : AddressedRequest -> prog provE (result Response Response)) :
  keeps (redirects ok) -> (forall tr loc, to_registered p params tr loc -> ok tr loc) ->
  (forall req tr1, addressed p params tr1 req ->
     always (fun tr r => redirects ok (tr1 ++ tr) (merge r)) (f req)) ->
  always (fun tr r => redirects ok tr (merge r))
    (req ←? address p params ru; _ ←? mret (checked p req); f req).
Proof.
  intros Hk Hok Hf. eapply (always_try _ _ _ _); [ | apply address_addressed | |].
  - intros tr tr' r. apply Hk.
  - by intros tr e (m & ->).
  - intros tr1 req Hreq. apply always_check; [|by intros _ _; apply Hf].
    unfold checked. intros r Hr. destruct (run_checks p req) as [|e]; [done|]. simplify_eq/=.
    apply Hok. rewrite app_nil_r. exact (authorize_error_registered p params tr1 req e Hreq).
Qed.

Lemma issue_code_registered p params req acc at' tr1 :
  addressed p params tr1 req -> always (fun tr r => redirects (to_registered p params) (tr1 ++ tr) r) (issue_code p req acc at').
Proof.
  intros Hreq. pose proof (keeps_app _ tr1 (to_registered_keeps p params)) as Hk. unfold issue_code. destruct (match ap_resource _ with Some r => _ | None => _ end).
  { apply always_ret. rewrite app_nil_r. by apply authorize_error_registered. }
  apply always_skip; [done|]. intros code. apply always_skip; [done|]. intros t0. apply always_skip; [done|]. intros t.
  apply always_skip; [done|]. intros []. apply always_skip; [done|]. intros [].
  apply always_ret. rewrite app_nil_r. destruct (response_mode p (ar_params req)) as [[]|]; [|done].
  destruct Hreq as (id & Hid & Hc & Hu & Hr). exists id, (ar_client req), (ar_redirect_uri req). eexists. eauto 10.
Qed.

Lemma auth_source_plain p q0 raw : returns (fun r => match r with Ok _ => True | Err r => exists m, r = plain_error m end) (auth_source p q0 raw).
Proof.
  unfold auth_source. destruct (q0 !! "request") as [jar|].
  - eapply returns_bind; [apply returns_any|]. intros [c|] _; [|simpl; eauto].
    cbn [ok_or]. rewrite try_ok. eapply returns_bind; [apply returns_any|]. intros [m|e] _; simpl; eauto.
  - destruct (q0 !! "request_uri") as [ru|]; [|done]. destruct (starts_with _ _); [|done].
    destruct (p_firestore p); [|simpl; eauto].
    eapply returns_bind; [apply returns_any|]. intros [[[cid ps]|]|e] _; simpl; eauto.
Qed.

(** Where the endpoints may redirect. *)
Definition authorize_target (p : Provider) (query : option string) (tr : list (event provE)) (loc : string) : Prop :=
  (exists params, requested p query tr params /\ to_registered p params tr loc) \/ exists uid, loc = path p ("/login/" +:+ uid).
Definition stored_target (p : Provider) (uid : string) (tr : list (event provE)) (loc : string) : Prop :=
  exists params, stored_request uid tr params /\ to_registered p params tr loc.

Lemma stored_target_keeps p uid : keeps (redirects (stored_target p uid)).
Proof.
  intros tr tr' [| loc | | |] Hp Hs; try done. destruct Hp as (params & (i & inter & Hin & Hd) & Hr).
  exists params. split; [exists i, inter; auto | by eapply to_registered_mono].
Qed.
Lemma merge_keeps ok : keeps (redirects ok) -> keeps (fun tr r => redirects ok tr (merge r)).
Proof. intros Hk tr tr' r. apply Hk. Qed.

(** An early return of a plain error. *)
Lemma plain_check ok {A} (r : result Response A) (f : A -> prog provE (result Response Response)) :
  (forall e, r = Err e -> exists m, e = plain_error m) ->
  (forall a, r = Ok a -> always (fun tr r => redirects ok tr (merge r)) (f a)) ->
  always (fun tr r => redirects ok tr (merge r)) (try_bind (mret r) f).
Proof.
  intros He Hf. apply always_check; [|done]. intros e Hr. by destruct (He e Hr) as [m ->].
Qed.
Lemma ok_or_plain {A} m (o : option A) e : ok_or (plain_error m) o = Err e -> exists m, e = plain_error m.
Proof. destruct o; [done|]. intros [= <-]. eauto. Qed.
Lemma parse_params_plain m raw e : parse_params m raw = Err e -> exists m, e = plain_error m.
Proof. unfold parse_params. destruct (params_decode raw); [done|]. intros [= <-]. eauto. Qed.

(** [authorize] once it has its parameters. *)
Lemma authorize_keeps p params query tr0 :
  (forall tr1, requested p query (tr0 ++ tr1) params) ->
  let ok tr loc := to_registered p params (tr0 ++ tr) loc \/ exists uid, loc = path p ("/login/" +:+ uid) in
  keeps (redirects ok) /\ (forall tr loc, to_registered p params tr loc -> ok tr loc) /\
  (forall tr r, redirects ok tr r -> redirects (authorize_target p query) (tr0 ++ tr) r).
Proof.
  intros Hreq ok. split; [|split].
  - intros tr tr' [| loc | | |] Hp Hs; try done. destruct Hp as [Hp|?]; [left | by right].
    eapply to_registered_mono; [exact Hp|]. intros ev. rewrite !elem_of_app. intros [?|?]; auto.
  - intros tr loc Hr. left. eapply to_registered_mono; [exact Hr|]. intros ev Hev. apply elem_of_app. by right.
  - intros tr [| loc | | |] Hr; try done. destruct Hr as [Hr|?]; [left | by right]. by exists params.
Qed.

Lemma authorize_redirects p jar query : always (redirects (authorize_target p query)) (authorize p jar query).
Proof.
  unfold authorize. apply always_finish. set (raw := default "" query). set (q0 := default ∅ _).
  intros tr r Hp. apply thread_path_bind in Hp as (src & tr0 & tr1 & -> & Hsrc & Hp).
  destruct src as [src|e].
  2:{ destruct (returns_path _ _ tr0 _ (auth_source_plain p q0 raw) Hsrc) as [m ->]. by destruct Hp as [-> [= ->]]. }
  revert tr1 r Hp.
  assert (Hpre : forall params, params_decode (as_raw src) = Ok params -> forall tr1, requested p query (tr0 ++ tr1) params).
  { intros params Hd tr1. by exists tr0, tr1, src. }
  apply (always_check (fun tr r => redirects (authorize_target p query) (tr0 ++ tr) (merge r))).
  { destruct (as_par_creator src), (q0 !! "client_id"); try done. case_bool_decide; [done|]. by intros e [= <-]. }
  intros [] _. apply (always_check (fun tr r => redirects (authorize_target p query) (tr0 ++ tr) (merge r))).
  { intros e He. by destruct (parse_params_plain _ _ _ He) as [m ->]. }
  intros params Hparse. apply map_err_Ok in Hparse.
  destruct (authorize_keeps p params query tr0 (Hpre params Hparse)) as (Hk & Hto & Hout).
  set (ok := fun tr loc => to_registered p params (tr0 ++ tr) loc \/ _) in *.
  eapply (always_mono (fun tr r => redirects ok tr (merge r))); [intros tr r; apply Hout|].
  pose proof (merge_keeps _ Hk) as Hm. apply addressed_then; [done | exact Hto |]. intros req tr1 Hreq.
  pose proof (merge_keeps _ (keeps_app _ tr1 Hk)) as Hm1. pose proof (keeps_app _ tr1 Hm) as Hm2.
  assert (Hreg : forall tr r, redirects (to_registered p params) tr r -> redirects ok tr r) by (intros tr []; [done|apply Hto|done..]).
  assert (Herr : forall e, redirects ok (tr1 ++ []) (authorize_error p req e)).
  { intros e. apply Hreg. rewrite app_nil_r. by apply authorize_error_registered. }
  destruct (is_nonpar_request_uri q0); [apply always_ret, Herr|].
  destruct (cl_require_par _ && _); [apply always_ret, Herr|].
  apply always_skip; [done|]. intros session. apply always_skip; [done|]. intros t.
  destruct (decide_interaction _ _ _) as [acc at'| |e]; [| |apply always_ret, Herr].
  - eapply always_bind; [by apply (issue_code_registered p params req acc (Some at') tr1)|].
    intros tr2 r Hr. apply always_ret. rewrite app_nil_r. by apply Hreg.
  - apply always_skip; [done|]. intros u. apply always_skip; [done|]. intros []. apply always_ret.
    right. by exists (hyphenated u).
Qed.

(** The two handlers that read the interaction [uid]: what follows the read. *)
Lemma stored_keeps p uid i inter params :
  params_decode (in_raw_query inter) = Ok params ->
  let ok tr loc := stored_target p uid (Ev i (StoreOp (GetInteraction uid)) (Some inter) :: tr) loc in
  keeps (redirects ok) /\ (forall tr loc, to_registered p params tr loc -> ok tr loc).
Proof.
  intros Hd ok. split.
  - intros tr tr' r Hr Hs. destruct r; try done. refine (stored_target_keeps p uid _ _ (RedirectTo _) Hr _).
    intros ev. rewrite !elem_of_cons. intros [?|?]; auto.
  - intros tr loc Hr. exists params. split; [exists i, inter; split; [by left | done]|].
    eapply to_registered_mono; [exact Hr|]. intros ev ?. by right.
Qed.

Lemma resume_redirects p q uid :
  q !! "uid" = Some uid -> always (redirects (stored_target p uid)) (authorize_resume p q).
Proof.
  intros Hq. unfold authorize_resume. apply always_finish. rewrite Hq. cbn [ok_or]. rewrite try_ok.
  apply always_vis. intros i got. destruct got as [inter|]; [|by apply always_ret].
  set (P := fun tr r => redirects (stored_target p uid) (Ev i (StoreOp (GetInteraction uid)) (Some inter) :: tr) (merge r)).
  change (always P (account_id ←? mret (ok_or (plain_error "interaction not completed") (in_account_id inter));
     params ←? mret (parse_params "invalid stored query: " (in_raw_query inter));
     req ←? address p params (in_request_uri inter);
     _ ←? mret (checked p req);
     won ← store (ConsumeInteraction uid);
     (if negb won then mret (Err (plain_error "interaction already used"))
      else r ← issue_code p req account_id (in_auth_time inter); mret (Ok r)))).
  apply always_check; [by intros e He; destruct (ok_or_plain _ _ _ He) as [m ->]|]. intros acc _.
  apply always_check; [by intros e He; destruct (parse_params_plain _ _ _ He) as [m ->]|]. intros params Hparse.
  apply map_err_Ok in Hparse. destruct (stored_keeps p uid i inter params Hparse) as [Hk Hto].
  pose proof (merge_keeps _ Hk) as Hm. apply addressed_then; [done..|]. intros req tr1 Hreq.
  apply always_skip; [exact (keeps_app _ tr1 Hm)|]. intros [|]; [|by apply always_ret].
  eapply always_bind; [by apply (issue_code_registered p params req acc (in_auth_time inter) tr1)|].
  intros tr2 r Hr. apply always_ret. rewrite app_nil_r. destruct r; try done. by apply Hto.
Qed.

Lemma cancel_redirects p uid : always (redirects (stored_target p uid)) (authorize_cancel p uid).
Proof.
  unfold authorize_cancel. apply always_finish.
  apply always_vis. intros i got. destruct got as [inter|]; [|by apply always_ret].
  set (P := fun tr r => redirects (stored_target p uid) (Ev i (StoreOp (GetInteraction uid)) (Some inter) :: tr) (merge r)).
  change (always P (params ←? mret (parse_params "invalid stored query: " (in_raw_query inter));
     req ←? address p params (in_request_uri inter);
     _ ←? mret (checked p req);
     mret (Ok (authorize_error p req (AccessDenied "end-user denied the request"))))).
  apply always_check; [by intros e He; destruct (parse_params_plain _ _ _ He) as [m ->]|]. intros params Hparse.
  apply map_err_Ok in Hparse. destruct (stored_keeps p uid i inter params Hparse) as [Hk Hto].
  apply addressed_then; [done..|]. intros req tr1 Hreq. apply always_ret. rewrite app_nil_r.
  apply Hto. by apply authorize_error_registered.
Qed.

(** C14: no open redirect.  Whatever the stores, the database and concurrent requests
    answer, the authorization endpoint redirects only to its own login page or to the
    redirect URI that the request names, extended by a query, and only when that URI is
    registered for the client that the same request names (by configuration, or by the
    document that the database answered for it).  The request is the one in the query, in the verified request object or in
    the pushed request.  The resumption and the cancellation redirect only to the redirect
    URI of the request stored with the interaction, under the same condition. *)
Theorem no_open_redirect p jar query q uid tr loc :
  (thread_path (authorize p jar query) tr (Ret (RedirectTo loc)) ->
     (exists params, requested p query tr params /\ to_registered p params tr loc) \/
     exists u, loc = path p ("/login/" +:+ u)) /\
  (thread_path (authorize_resume p q) tr (Ret (RedirectTo loc)) ->
     exists u params, q !! "uid" = Some u /\ stored_request u tr params /\ to_registered p params tr loc) /\
  (thread_path (authorize_cancel p uid) tr (Ret (RedirectTo loc)) ->
     exists params, stored_request uid tr params /\ to_registered p params tr loc).
Proof.
  split; [|split]; intros Hp.
  - exact (authorize_redirects p jar query tr (RedirectTo loc) Hp).
  - destruct (q !! "uid") as [u|] eqn:Hq.
    + destruct (resume_redirects p q u Hq tr (RedirectTo loc) Hp) as (params & ? & ?). by exists u, params.
    + unfold authorize_resume in Hp. rewrite Hq in Hp. by destruct Hp as [_ [= ?]].
  - exact (cancel_redirects p uid tr (RedirectTo loc) Hp).
Qed.
End facts.
