(* ===== verification/EndpointFacts.v ===== *)
(** * What a request must present, and what it can do

    Sender-constrained tokens, introspection, revocation, logout, and the single use of
    interactions and mandates under every interleaving of the endpoints. *)

From S2P Require Import Prelude Prog Json Model Firestore Externals Es256 Sys Nonce Ciba CibaFacts.
From S2P Require Import Dcr DcrStore Claims Store StoreFacts Provider ProviderFacts AuthChecks.
From S2P Require Import Dpop ClientAuth RequestObject Grants GrantsFacts.
From S2P Require Import GrantSafety Http Authorize Endpoints Registration WebFacts.

#[local] Open Scope Z_scope.

Section runs.
Context `{Externals, FsBackend, Services}.

Lemma run_finish (q : prog provE (result Response Response)) w :
  run prov_handler (finish q) w = (merge (run prov_handler q w).1, (run prov_handler q w).2).
Proof. unfold finish. rewrite run_bind. by destruct (run prov_handler q w) as [[a|a] w']. Qed.

(** ** Proofs of possession *)

(** [k] is the thumbprint of the key that signed a proof for this request, now. *)
Definition possesses (w : world) (proof htm htu : string) (a : option string) (k : string) : Prop :=
  exists h jti, valid_proof (secs w) proof htm htu a h jti /\ k = jwk_thumbprint_p256 (dh_x h) (dh_y h).

Lemma dpop_verify_possesses p proof htm htu a w k w' :
  run prov_handler (dpop_verify p proof htm htu a) w = (Ok k, w') -> possesses w proof htm htu a k.
Proof.
  rewrite dpop_verify_run. destruct (dpop_check _ _ _ _ _) as [[h jti]|e] eqn:Hc; [|done].
  destruct (run prov_handler (claim _ _ _ _) w) as [[] w1]; [|done]. intros [= <- <-].
  exists h, jti. split; [by apply dpop_check_Ok | done].
Qed.

Lemma token_proof_Ok p hs client w jkt w' :
  run prov_handler (token_proof p hs client) w = (Ok jkt, w') ->
  match jkt with
  | Some k => exists proof, dpop_header hs = Some proof /\ possesses w proof "POST" (p_issuer p +:+ "/token") None k
  | None => dpop_header hs = None /\ cl_dpop_bound client = false
  end.
Proof.
  unfold token_proof. destruct (dpop_header hs) as [proof|].
  - rewrite run_bind. destruct (run prov_handler (dpop_verify _ _ _ _ _) w) as [[k|e] w1] eqn:Hv; [|done].
    intros [= <- <-]. exists proof. split; [done | by eapply dpop_verify_possesses].
  - destruct (cl_dpop_bound client) eqn:Hb; [done|]. intros [= <- <-]. done.
Qed.

(** A run of the token endpoint that ends in tokens. *)
Lemma token_run p hs form w hd resp w' :
  run prov_handler (token p hs form) w = (Reply 200 hd (TokenBody resp), w') ->
  exists gt grant client w1 jkt w2,
    form !! "grant_type" = Some gt /\ p_grants p !! gt = Some grant /\
    run prov_handler (authenticate_client p hs form) w = (Ok client, w1) /\ allows_grant client gt = true /\
    run prov_handler (token_proof p hs client) w1 = (Ok jkt, w2) /\
    run prov_handler (grant_handle grant p client form jkt) w2 = (Ok resp, w') /\ hd = no_store.
Proof.
  unfold token. rewrite run_finish.
  destruct (form !! "grant_type") as [gt|]; cbn [ok_or]; [rewrite try_ok | by rewrite try_err].
  destruct (p_grants p !! gt) as [grant|] eqn:Hg; cbn [ok_or]; [rewrite try_ok | by rewrite try_err].
  rewrite run_try_bind. destruct (run prov_handler (authenticate_client p hs form) w) as [[client|r] w1] eqn:Hc.
  2:{ cbn [merge fst snd]. intros [= -> <-]. exfalso.
      assert (Hret : returns (fun r => match r with Ok _ => True | Err r => exists e, r = error_response e end)
        (authenticate_client p hs form)).
      { unfold authenticate_client. destruct (p_client_auth p !! _); cbn [ok_or]; [rewrite try_ok | rewrite try_err; simpl; eauto].
        eapply returns_bind; [apply returns_any|]. intros [cl|er] _; simpl; eauto. }
      pose proof (returns_run prov_handler _ _ w Hret) as He. rewrite Hc in He. simpl in He.
      by destruct He as [e ?]. }
  destruct (allows_grant client gt) eqn:Ha; cbn [negb]; [|done].
  rewrite run_try_bind. destruct (run prov_handler (token_proof p hs client) w1) as [[jkt|r] w2] eqn:Hp.
  2:{ cbn [merge fst snd]. intros [= -> <-]. exfalso. unfold token_proof in Hp.
      destruct (dpop_header hs); [|by destruct (cl_dpop_bound client)]. rewrite run_bind in Hp.
      by destruct (run prov_handler (dpop_verify _ _ _ _ _) w1) as [[|] ?]. }
  rewrite run_bind. destruct (run prov_handler (grant_handle grant p client form jkt) w2) as [[r|e] w3] eqn:Hh; [|done].
  cbn. intros [= <- -> <-]. exists gt, grant, client, w1, jkt, w2. done.
Qed.

(** C4: tokens are sender-constrained.  The token endpoint answers with tokens only to
    an authenticated client, for a registered grant type the client may use; the stored
    access token is the client's and is bound exactly to the key whose possession a
    DPoP proof for this endpoint showed; without a proof it is a bearer token, which a
    client registered as DPoP-bound never gets. *)
Theorem token_sender_constrained p hs form w hd resp w' :
  run prov_handler (token p hs form) w = (Reply 200 hd (TokenBody resp), w') ->
  exists client w1 jkt a,
    run prov_handler (authenticate_client p hs form) w = (Ok client, w1) /\
    (exists gt, form !! "grant_type" = Some gt /\ is_Some (p_grants p !! gt) /\ allows_grant client gt = true) /\
    (get_access_token (secs w') (tr_access_token resp) (w_store w')).1 = Some a /\
    at_client_id a = cl_client_id client /\ at_jkt a = jkt /\
    match jkt with
    | Some k => tr_token_type resp = "DPoP" /\
        exists proof, dpop_header hs = Some proof /\ possesses w1 proof "POST" (p_issuer p +:+ "/token") None k
    | None => tr_token_type resp = "Bearer" /\ dpop_header hs = None /\ cl_dpop_bound client = false
    end /\
    hd = no_store.
Proof.
  intros Hrun. apply token_run in Hrun as (gt & grant & client & w1 & jkt & w2 & Hgt & Hg & Hc & Ha & Hp & Hh & Hhd).
  apply token_proof_Ok in Hp. apply grant_bound in Hh as (Htt & a & Hat & Hj & Hcl & _).
  exists client, w1, jkt, a. split; [done|]. split; [exists gt; eauto|]. do 3 (split; [done|]).
  split; [|done]. destruct jkt; by split.
Qed.

(** C21: an access token opens a protected endpoint only while it is live, and one bound
    to a key only under the DPoP scheme with a proof of that key for this method, this
    endpoint and this very token: a stolen bound token is useless without the key. *)
Theorem bound_token_needs_proof p hs method suffix body w a w' :
  run prov_handler (authenticate_token p hs method suffix body) w = (Ok a, w') ->
  exists scheme tok,
    (auth_scheme_token hs = Some (scheme, tok) \/
     auth_scheme_token hs = None /\ body = Some tok /\ scheme = "Bearer") /\
    (get_access_token (secs w) tok (w_store w)).1 = Some a /\
    (forall k, at_jkt a = Some k ->
       scheme = "DPoP" /\ exists proof, dpop_header hs = Some proof /\
         possesses w proof method (p_issuer p +:+ suffix) (Some (ath tok)) k).
Proof.
  unfold authenticate_token. rewrite try_mret. set (st := match auth_scheme_token hs with Some _ => _ | None => _ end).
  destruct st as [[scheme tok]|r] eqn:Hst; [|done]. cbn [fst snd]. rewrite run_bind, run_store, try_mret. cbn [mem_op].
  destruct (get_access_token (secs w) tok (w_store w)).1 as [a'|] eqn:Hg; cbn [ok_or]; [|done].
  set (w1 := set_store _ w). intros Hrun. exists scheme, tok.
  assert (Hsrc : auth_scheme_token hs = Some (scheme, tok) \/
     auth_scheme_token hs = None /\ body = Some tok /\ scheme = "Bearer").
  { subst st. destruct (auth_scheme_token hs) as [x|]; [left; congruence | right].
    destruct body; [|done]. injection Hst as <- <-. done. }
  split; [done|]. destruct (at_jkt a') as [k|] eqn:Hj.
  2:{ injection Hrun as <- _. split; [done|]. by rewrite Hj. }
  case_bool_decide as Hs; cbn [negb] in Hrun; [|done]. rewrite try_mret in Hrun.
  destruct (dpop_header hs) as [proof|] eqn:Hd; cbn [ok_or] in Hrun; [|done].
  rewrite run_bind in Hrun. destruct (run prov_handler (dpop_verify _ _ _ _ _) w1) as [[got|e] w2] eqn:Hv; [|done].
  case_bool_decide as Hgk; [|done]. injection Hrun as <- _. split; [done|]. intros k'. rewrite Hj. intros [= <-]. subst got.
  split; [done|]. exists proof. split; [done|]. by apply dpop_verify_possesses in Hv.
Qed.

(** ** Introspection *)

Lemma resource_server_token_Ok p hs form w tok w' :
  run prov_handler (resource_server_token p hs form) w = (Ok tok, w') ->
  exists client, run prov_handler (authenticate_client p hs form) w = (Ok client, w') /\
    is_public client = false /\ form !! "token" = Some tok.
Proof.
  unfold resource_server_token. rewrite run_try_bind.
  destruct (run prov_handler (authenticate_client p hs form) w) as [[client|r] w1]; [|done].
  rewrite try_mret. unfold require_confidential. destruct (is_public client) eqn:Hp; [done|]. cbn.
  destruct (form !! "token") as [t|]; [|done]. intros [= -> <-]. by exists client.
Qed.

Lemma resource_server_token_Err p hs form :
  returns (fun r => match r with Ok _ => True | Err r => exists e, r = error_response e end)
    (resource_server_token p hs form).
Proof.
  assert (Ha : returns (fun r => match r with Ok _ => True | Err r => exists e, r = error_response e end)
    (authenticate_client p hs form)).
  { unfold authenticate_client. destruct (p_client_auth p !! _); cbn [ok_or]; [rewrite try_ok | rewrite try_err; simpl; eauto].
    eapply returns_bind; [apply returns_any|]. intros [cl|er] _; simpl; eauto. }
  unfold resource_server_token. eapply returns_bind; [exact Ha|]. intros [cl|r] Hr; [|exact Hr].
  unfold require_confidential. destruct (is_public cl); cbn; [eauto|]. destruct (form !! "token"); simpl; eauto.
Qed.

(** The members of an active answer that a resource server decides by. *)
Lemma active_body_members a :
  get (introspection_active_body a) "active" = Some (Bool true) /\
  get (introspection_active_body a) "sub" = Some (Str (at_account_id a)) /\
  get (introspection_active_body a) "scope" = Some (Str (at_scope a)) /\
  (get (introspection_active_body a) "cnf" ≫= fun c => get_str c "jkt") = at_jkt a /\
  get_str (introspection_active_body a) "aud" = at_aud a /\
  get_str (introspection_active_body a) "acr" = at_acr a /\
  get (introspection_active_body a) "authorization_details" =
    (at_authorization_details a ≫= fun ad => result_ok (json_from_slice ad)).
Proof.
  destruct a as [tok cl acc sc jkt aud acr at' ad mc]. unfold introspection_active_body. cbn.
  destruct (ad ≫= _) as [v|], at' as [z|], acr as [x|], aud as [y|], jkt as [k|]; by repeat split.
Qed.

(** Introspection answers only confidential clients that authenticated.  Of a live
    access token it tells the account, the scope, the audience, the authentication
    context, the approved transaction and, exactly for a bound token, the key to check
    possession of; of any other token it tells only that it is not active. *)
Theorem introspection_exact p hs form w hd b w' :
  run prov_handler (introspect p hs form) w = (Reply 200 hd (JsonBody b), w') ->
  exists client tok w1,
    run prov_handler (authenticate_client p hs form) w = (Ok client, w1) /\ is_public client = false /\
    form !! "token" = Some tok /\ hd = no_store /\
    match (get_access_token (secs w1) tok (w_store w1)).1 with
    | Some a =>
        get b "active" = Some (Bool true) /\ get b "sub" = Some (Str (at_account_id a)) /\
        get b "scope" = Some (Str (at_scope a)) /\ (get b "cnf" ≫= fun c => get_str c "jkt") = at_jkt a /\
        get_str b "aud" = at_aud a /\ get_str b "acr" = at_acr a /\
        get b "authorization_details" =
          (at_authorization_details a ≫= fun ad => result_ok (json_from_slice ad))
    | None => b = Object [("active", Bool false)]
    end.
Proof.
  unfold introspect. rewrite run_finish, run_try_bind. intros Hrun.
  destruct (run prov_handler (resource_server_token p hs form) w) as [[tok|r] w1] eqn:Ht.
  2:{ pose proof (returns_run prov_handler _ _ w (resource_server_token_Err p hs form)) as He. rewrite Ht in He.
      destruct He as [e ->]. cbn in Hrun. unfold error_response, error_status in Hrun. by destruct e. }
  apply resource_server_token_Ok in Ht as (client & Hc & Hp & Hf). exists client, tok, w1.
  do 3 (split; [done|]). rewrite run_bind, run_store in Hrun. cbn [mem_op run mret prog_ret merge fst snd] in Hrun.
  injection Hrun as <- <- _. split; [done|].
  destruct (get_access_token (secs w1) tok (w_store w1)).1 as [a|]; [apply active_body_members | done].
Qed.

(** ** Revocation *)

Lemma lookup_get_access t k s a :
  (get_access_token t k s).1 = Some a <->
  exists e, ms_access_tokens s !! k = Some e /\ alive t e = true /\ ex_value e = a.
Proof.
  unfold get_access_token, get_live. destruct (ms_access_tokens s !! k) as [e|]; simpl.
  - destruct (alive t e) eqn:Ha; simpl.
    + split; [intros [= <-]; eauto | by intros (e' & [= <-] & _ & ->)].
    + split; [done | intros (e' & [= <-] & ? & _); congruence].
  - split; [done | by intros (e' & ? & _)].
Qed.

(** The access tokens and the refresh tokens that a reading operation leaves. *)
Lemma get_access_other t k k' s : k <> k' -> ms_access_tokens (get_access_token t k s).2 !! k' = ms_access_tokens s !! k'.
Proof.
  intros Hne. unfold get_access_token, get_live. destruct (ms_access_tokens s !! k) as [e|]; [|done].
  destruct (alive t e); [done|]. simpl. by apply lookup_delete_ne.
Qed.
Lemma get_access_alive t k s a : (get_access_token t k s).1 = Some a -> (get_access_token t k s).2 = s.
Proof.
  intros Hg. apply lookup_get_access in Hg as (e & He & Ha & _). unfold get_access_token, get_live.
  rewrite He, Ha. by destruct s.
Qed.
Lemma get_refresh_other t k k' s : k <> k' -> ms_refresh_tokens (get_refresh_token t k s).2 !! k' = ms_refresh_tokens s !! k'.
Proof.
  intros Hne. unfold get_refresh_token, get_live. destruct (ms_refresh_tokens s !! k) as [e|]; [|done].
  destruct (alive t e); [done|]. simpl. by apply lookup_delete_ne.
Qed.

(** The two halves of the revocation of [tok] by [cid]. *)
Definition revoke_access_half (t : Z) (cid tok : string) (s : MemoryStore) : MemoryStore :=
  match get_access_token t tok s with
  | (Some a, s') => if decide (at_client_id a = cid) then revoke_access_token tok s' else s'
  | (None, s') => s'
  end.
Definition revoke_refresh_half (t : Z) (cid tok : string) (s : MemoryStore) : MemoryStore :=
  match get_refresh_token t tok s with
  | (Some r, s') => if decide (rt_client_id r = cid) then revoke_refresh_token tok s' else s'
  | (None, s') => s'
  end.

Lemma revoke_run p hs form w client w1 tok :
  run prov_handler (authenticate_client p hs form) w = (Ok client, w1) -> form !! "token" = Some tok ->
  run prov_handler (revoke p hs form) w =
    (Reply 200 no_store NoBody,
     set_store (revoke_refresh_half (secs w1) (cl_client_id client) tok
                  (revoke_access_half (secs w1) (cl_client_id client) tok (w_store w1))) w1).
Proof.
  intros Hc Hf. unfold revoke. rewrite run_finish, run_try_bind, Hc, try_mret, Hf. cbn [ok_or].
  rewrite run_bind, run_store. cbn [mem_op]. unfold revoke_access_half, revoke_refresh_half.
  destruct (get_access_token (secs w1) tok (w_store w1)) as [oa s1]. cbn [fst snd]. rewrite run_bind.
  set (s2 := match oa with Some a => if decide (at_client_id a = cl_client_id client) then revoke_access_token tok s1 else s1
             | None => s1 end).
  assert (Hs2 : run prov_handler
    (match oa with
     | Some a => if bool_decide (at_client_id a = cl_client_id client) then store (RevokeAccessToken tok) else mret tt
     | None => mret tt end) (set_store s1 w1) = (tt, set_store s2 w1)).
  { subst s2. destruct oa as [a|]; [|done]. destruct (decide (at_client_id a = cl_client_id client)).
    - rewrite bool_decide_eq_true_2, run_store by done. done.
    - rewrite bool_decide_eq_false_2 by done. done. }
  rewrite Hs2, run_bind, run_store. cbn [mem_op]. rewrite set_store_secs, set_store_store.
  fold s2.
  destruct (get_refresh_token (secs w1) tok s2) as [orf s3]. cbn [fst snd]. rewrite run_bind.
  destruct orf as [r|]; [|done]. destruct (decide (rt_client_id r = cl_client_id client)).
  - rewrite bool_decide_eq_true_2, run_store by done. done.
  - rewrite bool_decide_eq_false_2 by done. done.
Qed.

Lemma revoke_access_half_spec t cid tok s :
  ms_refresh_tokens (revoke_access_half t cid tok s) = ms_refresh_tokens s /\
  (forall k a, (get_access_token t k s).1 = Some a -> k <> tok \/ at_client_id a <> cid ->
     (get_access_token t k (revoke_access_half t cid tok s)).1 = Some a) /\
  (forall a, (get_access_token t tok s).1 = Some a -> at_client_id a = cid ->
     (get_access_token t tok (revoke_access_half t cid tok s)).1 = None).
Proof.
  unfold revoke_access_half.
  destruct (get_access_token t tok s) as [oa s'] eqn:Hg.
  assert (Hr : ms_refresh_tokens s' = ms_refresh_tokens s).
  { pose proof (f_equal (fun x => ms_refresh_tokens x.2) Hg) as Hm. simpl in Hm. rewrite <- Hm.
    unfold get_access_token. by destruct (get_live _ _ _). }
  pose proof (get_access_other t tok) as Hoth. pose proof (get_access_alive t tok s) as Hal.
  rewrite Hg in Hal. cbn [fst snd] in *. split; [|split].
  - destruct oa as [a|]; [|done]. by case_decide.
  - intros k a Hk Hne. destruct (decide (k = tok)) as [->|Hkt].
    + rewrite Hg in Hk. cbn [fst] in Hk. subst oa. rewrite (Hal a eq_refl). destruct Hne as [?|Hne]; [done|].
      rewrite decide_False by done. by rewrite Hg.
    + rewrite (get_access_map t k s); [done|]. specialize (Hoth k s ltac:(congruence)). rewrite Hg in Hoth. cbn [snd] in Hoth.
      destruct oa as [a'|]; [|done]. case_decide; [|done]. simpl. by rewrite lookup_delete_ne.
  - intros a [= ->] Hc. rewrite decide_True by done. unfold get_access_token, get_live. simpl.
    by rewrite lookup_delete_eq.
Qed.

Lemma revoke_refresh_half_spec t cid tok s :
  ms_access_tokens (revoke_refresh_half t cid tok s) = ms_access_tokens s /\
  (forall k r, (get_refresh_token t k s).1 = Some r -> k <> tok \/ rt_client_id r <> cid ->
     (get_refresh_token t k (revoke_refresh_half t cid tok s)).1 = Some r) /\
  (forall r, (get_refresh_token t tok s).1 = Some r -> rt_client_id r = cid ->
     (get_refresh_token t tok (revoke_refresh_half t cid tok s)).1 = None).
Proof.
  unfold revoke_refresh_half.
  destruct (get_refresh_token t tok s) as [oa s'] eqn:Hg.
  assert (Hr : ms_access_tokens s' = ms_access_tokens s).
  { pose proof (f_equal (fun x => ms_access_tokens x.2) Hg) as Hm. simpl in Hm. rewrite <- Hm.
    unfold get_refresh_token. by destruct (get_live _ _ _). }
  pose proof (get_refresh_other t tok) as Hoth. pose proof (get_refresh_live t tok s) as Hal.
  rewrite Hg in Hal. cbn [fst snd] in *. split; [|split].
  - destruct oa as [a|]; [|done]. by case_decide.
  - intros k a Hk Hne. destruct (decide (k = tok)) as [->|Hkt].
    + rewrite Hg in Hk. cbn [fst] in Hk. subst oa. rewrite (Hal a eq_refl). destruct Hne as [?|Hne]; [done|].
      rewrite decide_False by done. by rewrite Hg.
    + rewrite (get_refresh_map t k s); [done|]. specialize (Hoth k s ltac:(congruence)). rewrite Hg in Hoth. cbn [snd] in Hoth.
      destruct oa as [a'|]; [|done]. case_decide; [|done]. simpl. by rewrite lookup_delete_ne.
  - intros a [= ->] Hc. rewrite decide_True by done. unfold get_refresh_token, get_live. simpl.
    by rewrite lookup_delete_eq.
Qed.

(** Revocation removes the named token, access or refresh, exactly when it belongs
    to the authenticated client, and no other token; the answer is the same whether the
    token existed, was someone else's, or was removed. *)
Theorem revoke_own_only p hs form w client w1 tok :
  run prov_handler (authenticate_client p hs form) w = (Ok client, w1) -> form !! "token" = Some tok ->
  let t := secs w1 in
  let '(r, w') := run prov_handler (revoke p hs form) w in
  r = Reply 200 no_store NoBody /\
  (forall k a, (get_access_token t k (w_store w1)).1 = Some a ->
     if decide (k = tok /\ at_client_id a = cl_client_id client)
     then (get_access_token t k (w_store w')).1 = None
     else (get_access_token t k (w_store w')).1 = Some a) /\
  (forall k r, (get_refresh_token t k (w_store w1)).1 = Some r ->
     if decide (k = tok /\ rt_client_id r = cl_client_id client)
     then (get_refresh_token t k (w_store w')).1 = None
     else (get_refresh_token t k (w_store w')).1 = Some r).
Proof.
  intros Hc Hf t. rewrite (revoke_run p hs form w client w1 tok Hc Hf). subst t. cbn [w_store set_store].
  set (cid := cl_client_id client). set (s1 := revoke_access_half (secs w1) cid tok (w_store w1)).
  destruct (revoke_access_half_spec (secs w1) cid tok (w_store w1)) as (Hr & Hkeep & Hgone).
  destruct (revoke_refresh_half_spec (secs w1) cid tok s1) as (Ha' & Hkeep' & Hgone').
  split; [done|]. split.
  - intros k a Hk. rewrite !(get_access_map _ k s1 (revoke_refresh_half _ _ _ s1)) by by rewrite Ha'.
    destruct (decide _) as [[-> Hcl]|Hn]; [by eapply Hgone|]. apply Hkeep; [done|].
    destruct (decide (k = tok)); [right; tauto | by left].
  - intros k r Hk. assert (Hk' : (get_refresh_token (secs w1) k s1).1 = Some r).
    { rewrite (get_refresh_map _ k (w_store w1)); [done|]. subst s1. by rewrite Hr. }
    destruct (decide _) as [[-> Hcl]|Hn]; [by eapply Hgone'|]. apply Hkeep'; [done|].
    destruct (decide (k = tok)); [right; tauto | by left].
Qed.
End runs.

(** ** Logout *)

Section logout.
Context `{Externals}.

(** Logout is no open redirect: whatever the stores and the database answer,
    [end_session] redirects only to a post-logout URI registered for the client it
    resolved, extended at most by the state; and it always removes the session cookie. *)
Theorem logout_redirects_registered p jar q tr r :
  thread_path (end_session p jar q) tr (Ret r) ->
  exists r', r = WithoutCookie SID_COOKIE r' /\
    forall loc, r' = RedirectTo loc ->
      exists id c uri, client_known p tr id c /\ uri ∈ cl_post_logout_redirect_uris c /\
        es_post_logout_redirect_uri q = Some uri /\ loc = logout_target uri (es_state q).
Proof.
  revert tr r. change (always (fun tr r => exists r', r = WithoutCookie SID_COOKIE r' /\
    forall loc, r' = RedirectTo loc -> exists id c uri, client_known p tr id c /\
      uri ∈ cl_post_logout_redirect_uris c /\ es_post_logout_redirect_uri q = Some uri /\
      loc = logout_target uri (es_state q)) (end_session p jar q)).
  unfold end_session. apply always_skip.
  { intros tr tr' r (r' & -> & Hl) Hs. exists r'. split; [done|]. intros loc Hloc.
    destruct (Hl loc Hloc) as (id & c & uri & Hk & ?). exists id, c, uri. split; [by eapply client_known_keeps | done]. }
  intros []. destruct (es_post_logout_redirect_uri q) as [uri|]; [|apply always_ret; eexists; by split].
  set (cid := match es_client_id q with Some c => Some c | None => _ end).
  eapply (always_bind (fun tr c => match c with Some c => exists id, client_known p tr id c | None => True end)).
  { destruct cid as [id|]; [|by apply always_ret]. eapply always_mono; [|apply (resolve_known p id)].
    intros tr [c|]; [by exists id | done]. }
  intros tr1 c Hc. apply always_ret. rewrite app_nil_r. eexists. split; [done|]. intros loc.
  destruct c as [c|]; [|done]. destruct Hc as [id Hc]. destruct (list_any _ _) eqn:Hl; cbn [negb]; [|done].
  intros [= <-]. apply list_any_true in Hl as (u & Hu & He). apply bool_decide_eq_true in He as ->.
  by exists id, c, uri.
Qed.
End logout.
