(* ===== verification/Interleavings.v ===== *)
(** * Endpoints running concurrently

    The single use of interactions and of approved transactions, and the order of the
    effects of a client registration, for every interleaving of the endpoints' steps
    and every answer of the database. *)

From S2P Require Import Prelude Prog Json Model Firestore Externals Es256 Sys Nonce Ciba CibaFacts.
From S2P Require Import Dcr DcrStore Claims Store StoreFacts Provider ProviderFacts AuthChecks.
From S2P Require Import Dpop ClientAuth RequestObject Grants GrantsFacts.
From S2P Require Import GrantSafety Http Authorize Endpoints Registration DocStore WebFacts EndpointFacts.

#[local] Open Scope Z_scope.

(** ** Events *)

Definition is_save_code {X} (e : provE X) : bool :=
  match as_store_op X e with Some (SaveCode _) => true | _ => false end.
Definition saves_code (ev : event provE) : Prop :=
  match ev with Ev _ e _ => is_save_code e = true | EvEnv => False end.

Section interleavings.
Context `{Externals, FsBackend, Services}.

(** ** Interactions *)

Lemma guarded_resolve W p id : guarded W saves_code (resolve_client p id).
Proof.
  unfold resolve_client. destruct (p_clients p !! id); [done|]. destruct (p_firestore p); [|done].
  intros i x. right. split; [done|]. exact I.
Qed.
Lemma guarded_address W p params ru : guarded W saves_code (address p params ru).
Proof.
  unfold address. apply guarded_bind; [|done]. unfold resolve_addressee. apply guarded_try.
  { by destruct (ap_client_id _). }
  intros id. apply guarded_bind; [apply guarded_resolve|]. intros c. apply guarded_try; [by destruct c | done].
Qed.

Lemma guarded_resume p q uid :
  q !! "uid" = Some uid ->
  guarded (ev_wins (lift_wins as_store_op (interaction_wins uid))) saves_code (authorize_resume p q).
Proof.
  intros Hq. unfold authorize_resume. apply guarded_finish. rewrite Hq. cbn [ok_or]. rewrite try_ok.
  intros i got. right. split; [done|]. destruct got as [inter|]; [|done]. change (guarded
    (ev_wins (lift_wins as_store_op (interaction_wins uid))) saves_code
    (account_id ←? mret (ok_or (plain_error "interaction not completed") (in_account_id inter));
     params ←? mret (parse_params "invalid stored query: " (in_raw_query inter));
     req ←? address p params (in_request_uri inter);
     _ ←? mret (checked p req);
     won ← store (ConsumeInteraction uid);
     (if negb won then mret (Err (plain_error "interaction already used"))
      else r ← issue_code p req account_id (in_auth_time inter); mret (Ok r)))).
  apply guarded_try; [by destruct (in_account_id inter)|]. intros acc.
  apply guarded_try; [by destruct (parse_params _ _)|]. intros params.
  apply guarded_try; [apply guarded_address|]. intros req.
  apply guarded_try; [by destruct (checked p req)|]. intros [].
  intros j [|]; [left; by apply bool_decide_eq_true_2 | right; by split].
Qed.

Definition resumes (uid : string) (q : prog provE Response) : Prop :=
  exists p m, m !! "uid" = Some uid /\ q = authorize_resume p m.
(** Thread [i] saved an authorization code. *)
Definition issued_code (i : nat) (tr : list (event provE)) : Prop := Exists saves_code (filter (of_thread i) tr).

(** One authentication gives one code: of all the requests that resume the same
    interaction, however they interleave, at most one issues an authorization code. *)
Theorem one_code_per_interaction uid (ps : list (prog provE Response)) w tr ps' w' i j qi qj :
  steps prov_handler prov_env (ps, w) tr (ps', w') -> never_saved_again (interaction_resets uid) tr ->
  ps !! i = Some qi -> ps !! j = Some qj -> resumes uid qi -> resumes uid qj -> i <> j ->
  issued_code i tr -> ~ issued_code j tr.
Proof.
  intros Hst Hr Hi Hj (p & m & Hm & ->) (p' & m' & Hm' & ->) Hne Hii Hij.
  destruct (steps_thread_path _ _ _ _ _ i _ Hst Hi) as (qi' & _ & Hpi).
  destruct (steps_thread_path _ _ _ _ _ j _ Hst Hj) as (qj' & _ & Hpj).
  pose proof (guarded_path _ _ _ _ _ (guarded_resume p m uid Hm) Hpi Hii) as Hwi.
  pose proof (guarded_path _ _ _ _ _ (guarded_resume p' m' uid Hm') Hpj Hij) as Hwj.
  exact (one_winner prov_handler prov_env _ _ ps w tr ps' w' i j Hst Hr Hne Hwi Hwj).
Qed.

(** ** Approved transactions *)

Definition says_consumed (r : Response) : bool :=
  match r with
  | Reply _ _ (JsonBody v) => match get v "consumed" with Some (Bool b) => b | _ => false end
  | _ => false
  end.

Lemma mandate_needs p hs form tok :
  form !! "token" = Some tok ->
  needs_for (ev_wins (lift_wins as_store_op (mandate_wins tok))) (fun r => says_consumed r = true)
    (mandate_consume p hs form).
Proof.
  intros Hf. unfold mandate_consume. apply needs_finish.
  intros tr a Hp Hg. apply thread_path_bind in Hp as (r & tr1 & tr2 & -> & H1' & H2').
  assert (Hr : match r with Ok t => t = tok | Err r => exists e, r = error_response e end).
  { pose proof (returns_path _ _ _ _ (resource_server_token_Err p hs form) H1') as He.
    destruct r as [t|r]; [|exact He]. unfold resource_server_token in H1'.
    apply thread_path_bind in H1' as ([cl|r] & ta & tb & -> & _ & Hp); [|by destruct Hp as [_ ?]].
    unfold require_confidential in Hp. destruct (is_public cl); cbn in Hp; [by destruct Hp as [_ ?]|].
    rewrite Hf in Hp. cbn in Hp. destruct Hp as [_ Hp]. congruence. }
  destruct r as [t|r].
  - subst t. apply Exists_app. right.
    assert (Hn : needs_for (ev_wins (lift_wins as_store_op (mandate_wins tok)))
      (fun r => says_consumed (merge r) = true)
      (r ← store (ConsumeMandateIfUnused tok);
       mret match r with
            | Ok consumed => Ok (Reply 200 no_store (JsonBody (Object [("consumed", Bool consumed)])))
            | Err _ => Err (Reply 500 [] (TextBody "error"))
            end)).
    { apply needs_vis. intros [[|]|e]; [left; intros k; by apply bool_decide_eq_true_2 | right; by apply needs_ret..]. }
    by eapply Hn.
  - destruct Hr as [e ->]. destruct H2' as [-> [= ->]]. destruct e; discriminate Hg.
Qed.

Definition consumes_mandate (tok : string) (q : prog provE Response) : Prop :=
  exists p hs form, form !! "token" = Some tok /\ q = mandate_consume p hs form.

(** An approved transaction is executed at most once: of all the requests that
    consume the mandate of the same access token, however they interleave, at most one
    is answered with consumed = true. *)
Theorem mandate_consumed_once tok (ps : list (prog provE Response)) w tr ps' w' i j qi qj ri rj :
  steps prov_handler prov_env (ps, w) tr (ps', w') -> never_saved_again (mandate_resets tok) tr ->
  ps !! i = Some qi -> ps !! j = Some qj -> consumes_mandate tok qi -> consumes_mandate tok qj -> i <> j ->
  ps' !! i = Some (Ret ri) -> ps' !! j = Some (Ret rj) -> says_consumed ri = true -> says_consumed rj = false.
Proof.
  intros Hst Hr Hi Hj (p & hs & f & Hf & ->) (p' & hs' & f' & Hf' & ->) Hne Hri Hrj.
  by apply (one_success prov_handler prov_env _ _ says_consumed _ _ _ _ _ _ _ _ _ _ _ Hst Hr Hi Hj
    (mandate_needs p hs f tok Hf) (mandate_needs p' hs' f' tok Hf') Hri Hrj).
Qed.
End interleavings.

(** ** Client registration *)

(** An operation that writes to the database. *)
Definition db_write {X} (e : provE X) : bool :=
  match e with SysOp (FsOp o) => bool_decide (is_Some (target_of o)) | _ => false end.
Definition writes_db (ev : event provE) : Prop :=
  match ev with Ev _ e _ => db_write e = true | EvEnv => False end.

Section registration.
Context `{Externals, IatCodec}.

Definition db_event {X} (o : fsE X) (x : X) (tr : list (event provE)) : Prop :=
  exists i, Ev i (SysOp (FsOp o)) x ∈ tr.
(** The initial access token that the database answered for [hash]. *)
Definition iat_read (tr : list (event provE)) (hash : string) (iat : Iat) : Prop :=
  exists fields, db_event (GetDocWithUpdateTime DCR_TOKENS hash) (Ok (Some (fields, iat_update_time iat))) tr /\
    parse_iat_fields fields = Ok (iat_constraints iat, iat_expires_at iat, iat_reusable iat).
Definition clock_read (tr : list (event provE)) (t : Z) : Prop := exists i, Ev i (SysOp NowSecs) t ∈ tr.

Definition created (r : Response) : bool := match r with Reply s _ _ => s =? 201 | _ => false end.

(** A registration that the initial access token allows: presented, read, unexpired, and
    the outcome of the validation under its constraints. *)
Definition validated (hs : HeaderMap) (body : string) (tr : list (event provE)) (hash : string) (iat : Iat)
    (outcome : RegistrationOutcome) : Prop :=
  (exists raw, auth_scheme_token hs = Some ("Bearer", raw) /\ hash = hash_token raw) /\
  iat_read tr hash iat /\ (exists t, clock_read tr t /\ t < iat_expires_at iat) /\
  exists v rnd id, json_from_slice body = Ok v /\
    validate_registration rnd ("dcr-" +:+ id) (registration_request_from_json v) (iat_constraints iat) = Ok outcome.

Definition spending (hash : string) (iat : Iat) : fsE (result string bool) :=
  DeleteDocIfUnchanged DCR_TOKENS hash (iat_update_time iat).
Definition storing (c : Client) : fsE (result string bool) :=
  CreateIfAbsent CLIENTS (cl_client_id c) (Object [("json", fs_s (client_to_json c))]).
(** The two writes of a registration, in their order: the token, unless it is reusable, is
    deleted at the version that was read, after the request was validated; and the client
    of that validation is created, after the token was deleted. *)
Definition spends_then_stores (hs : HeaderMap) (body : string) (pre : list (event provE)) (ev : event provE) : Prop :=
  exists hash iat outcome, validated hs body pre hash iat outcome /\
    ((iat_reusable iat = false /\ exists i x, ev = Ev i (SysOp (FsOp (spending hash iat))) x) \/
     ((iat_reusable iat = false -> db_event (spending hash iat) (Ok true) pre) /\
      exists i x, ev = Ev i (SysOp (FsOp (storing (ro_client outcome)))) x)).

Lemma db_event_keeps {X} (o : fsE X) x tr tr' :
  db_event o x tr -> (forall ev, ev ∈ tr -> ev ∈ tr') -> db_event o x tr'.
Proof. intros [i Hi] Hs. exists i. by apply Hs. Qed.
Lemma validated_keeps hs body tr tr' hash iat o :
  validated hs body tr hash iat o -> (forall ev, ev ∈ tr -> ev ∈ tr') -> validated hs body tr' hash iat o.
Proof.
  intros (? & (f & Hf & Hp) & (t & [i Hi] & Ht) & Hv) Hs. split; [done|]. split; [|split; [|done]].
  - exists f. split; [by eapply db_event_keeps | done].
  - exists t. split; [exists i; by apply Hs | done].
Qed.

Lemma presented_iat_avoids hs : avoids writes_db (presented_iat hs).
Proof.
  unfold presented_iat. destruct (auth_scheme_token hs) as [[scheme tok]|]; [|done]. case_bool_decide; [|done].
  rewrite try_ok. intros i x. split; [done|]. destruct x as [[[fields ut]|]|e]; cbn; [|by intros j y | done].
  by destruct (parse_iat_fields fields) as [[[c exp] reu]|e].
Qed.
Lemma presented_iat_read hs :
  always (fun tr r => match r with
    | Ok (hash, iat) => (exists raw, auth_scheme_token hs = Some ("Bearer", raw) /\ hash = hash_token raw) /\ iat_read tr hash iat
    | Err r => created r = false
    end) (presented_iat hs).
Proof.
  unfold presented_iat. destruct (auth_scheme_token hs) as [[scheme tok]|]; [|by apply always_ret].
  case_bool_decide as Hs; [subst scheme; rewrite try_ok | by apply always_ret].
  apply always_vis. intros i x. cbn. destruct x as [[[fields ut]|]|e]; cbn.
  - destruct (parse_iat_fields fields) as [[[c exp] reu]|e] eqn:Hp; cbn; apply always_ret; [|done].
    split; [eauto|]. exists fields. split; [exists i; by left | done].
  - apply always_vis. intros j y. by apply always_ret.
  - by apply always_ret.
Qed.

(** The token is spent by the one write of [spend_iat]. *)
Lemma spend_iat_preceded hs body pre hash iat o :
  validated hs body pre hash iat o -> preceded writes_db (spends_then_stores hs body) pre (spend_iat hash iat).
Proof.
  intros Hv. unfold spend_iat. destruct (iat_reusable iat) eqn:Hr; [done|]. intros i x. split; [|by destruct x as [[]|]].
  intros _. exists hash, iat, o. split; [done|]. left. split; [done | by exists i, x].
Qed.
Lemma spend_iat_spent hash iat :
  always (fun tr r => match r with
    | Ok _ => iat_reusable iat = false -> db_event (spending hash iat) (Ok true) tr
    | Err r => created r = false end) (spend_iat hash iat).
Proof.
  unfold spend_iat. destruct (iat_reusable iat); [by apply always_ret|]. apply always_vis. intros i x.
  apply always_ret. destruct x as [[|]|e]; [|done..]. intros _. exists i. by left.
Qed.

(** The end of a registration: spend, store, answer. *)
Definition register_tail (hash : string) (iat : Iat) (c : Client) (secret : option string) : prog provE (result Response Response) :=
  _ ←? spend_iat hash iat;
  saved ← sys (save_client c);
  _ ←? mret (map_err (fun _ => registration_failed) saved);
  t' ← now;
  mret (Ok (Reply 201 no_store (JsonBody (register_response t' c secret)))).

Lemma register_tail_preceded hs body pre hash iat o secret :
  validated hs body pre hash iat o ->
  preceded writes_db (spends_then_stores hs body) pre (register_tail hash iat (ro_client o) secret).
Proof.
  intros Hv. eapply preceded_try; [by eapply spend_iat_preceded | apply spend_iat_spent|]. intros tr [] Hsp.
  intros i x. split.
  - intros _. exists hash, iat, o. split; [eapply validated_keeps; [exact Hv|]; intros ev ?; apply elem_of_app; by left|].
    right. split; [|by exists i, x]. intros Hr. eapply db_event_keeps; [by apply Hsp|]. intros ev ?. apply elem_of_app. by right.
  - destruct x as [[|]|e]; cbn; [|done..]. by intros j t.
Qed.

Lemma register_preceded p hs body : preceded writes_db (spends_then_stores hs body) [] (register p hs body).
Proof.
  apply preceded_finish. apply preceded_check. intros [] _.
  eapply preceded_skip_try; [apply presented_iat_avoids | apply presented_iat_read|]. intros tr1 [hash iat] [Hraw Hread].
  intros i t. split; [done|]. apply preceded_check. intros [] Hexp. apply guard_Ok, negb_true_iff, Z.leb_gt in Hexp.
  eapply (preceded_skip _ _ _ (fun _ _ => True)); [by destruct (iat_reusable iat) | done|]. intros tr2 allowed _.
  apply preceded_check. intros [] _. apply preceded_check. intros v Hv. apply map_err_Ok in Hv.
  intros j id. split; [done|].
  eapply (preceded_skip _ _ _ (fun _ _ => True)); [by destruct (ic_profile _) | done|]. intros tr3 rnd _.
  apply preceded_check. intros o Ho. apply map_err_Ok in Ho. apply register_tail_preceded.
  split; [done|]. split; [|split].
  - destruct Hread as (f & Hf & Hp). exists f. split; [|done]. eapply db_event_keeps; [exact Hf|]. clear. set_solver.
  - exists t. split; [|done]. exists i. clear. set_solver.
  - by exists v, rnd, id.
Qed.

(** A registration answers 201 only when the client was created. *)
Definition client_created (tr : list (event provE)) : Prop := exists c, db_event (storing c) (Ok true) tr.
Lemma client_created_keeps : keeps (fun tr r => created (merge r) = true -> client_created tr).
Proof. intros tr tr' r Hp Hs Hc. destruct (Hp Hc) as [c Hd]. exists c. by eapply db_event_keeps. Qed.

Lemma register_tail_created hash iat c secret :
  always (fun tr r => created (merge r) = true -> client_created tr) (register_tail hash iat c secret).
Proof.
  eapply (always_try _ _ _ _ client_created_keeps); [apply spend_iat_spent | by intros tr e He; cbn in *; rewrite He|].
  intros tr1 [] _. apply always_vis. intros i x. destruct x as [[|]|e]; [|by apply always_ret..].
  cbn. apply always_vis. intros j t. apply always_ret. intros _. exists c, i. set_solver.
Qed.
Lemma always_pass {A} (q : prog provE A) (f : A -> prog provE (result Response Response)) :
  (forall a, always (fun tr r => created (merge r) = true -> client_created tr) (f a)) ->
  always (fun tr r => created (merge r) = true -> client_created tr) (q ≫= f).
Proof. intros Hf. by eapply (always_skip _ _ _ client_created_keeps). Qed.

Lemma guard_Err {E} b (e e' : E) : guard b e = Err e' -> e' = e.
Proof. destruct b; [done|]. by intros [= <-]. Qed.
Lemma register_created p hs body :
  always (fun tr r => created r = true -> client_created tr) (register p hs body).
Proof.
  apply always_finish. apply always_check; [by intros er Hg; apply guard_Err in Hg; subst er|]. intros [] _.
  eapply (always_try _ _ _ _ client_created_keeps); [apply presented_iat_read | by intros tr e He; cbn in *; rewrite He|].
  intros tr1 [hash iat] _. eapply always_mono; [intros tr a Hp Hc; eapply (client_created_keeps tr _ a Hp); [|exact Hc]; set_solver|].
  apply always_pass. intros t. apply always_check; [by intros er Hg; apply guard_Err in Hg; subst er|]. intros [] _.
  apply always_pass. intros allowed. apply always_check; [by intros er Hg; apply guard_Err in Hg; subst er|]. intros [] _.
  apply always_check; [by intros er He; destruct (json_from_slice body); [|injection He as <-]|]. intros v _.
  apply always_pass. intros id. apply always_pass. intros rnd.
  apply always_check; [by intros er He; destruct (validate_registration _ _ _ _); [|injection He as <-]|]. intros o _.
  apply register_tail_created.
Qed.

(** What a created client went through. *)
Definition is_storing (ev : event provE) : bool :=
  match ev with Ev _ e _ => match e with SysOp (FsOp (CreateIfAbsent _ _ _)) => true | _ => false end | EvEnv => false end.
Lemma created_spent p hs body tr q :
  thread_path (register p hs body) tr q -> client_created tr ->
  exists hash iat o, validated hs body tr hash iat o /\
    (iat_reusable iat = false -> db_event (spending hash iat) (Ok true) tr).
Proof.
  intros Hp (c & i & Hin). apply list_elem_of_split in Hin as (tr1 & tr2 & Htr).
  destruct (preceded_path writes_db (spends_then_stores hs body) [] _ tr q tr1 _ tr2 (register_preceded p hs body) Hp Htr
    ltac:(apply bool_decide_eq_true_2; by eexists)) as (hash & iat & o & Hv & [[_ (j & x & He)]|[Hsp _]]).
  { by apply (f_equal is_storing) in He. }
  assert (Hs : forall ev, ev ∈ tr1 -> ev ∈ tr) by (intros ev; rewrite Htr; set_solver).
  exists hash, iat, o. split; [by eapply validated_keeps|]. intros Hr. eapply db_event_keeps; [by apply Hsp | done].
Qed.
End registration.

(** A version of a document is deleted once. *)
Section one_deletion.
Context `{Externals, IatCodec, Services} (B : FsBackend) `{!DocDb B}.

(** Time passes, and other processes use the database within its contract. *)
Inductive contract_env : world -> world -> Prop :=
| contract_quiet w w' : prov_env w w' -> w_db w' = w_db w -> contract_env w w'
| contract_op w X (o : fsE X) : named o = true -> contract_env w (with_db B (fs_handle X o (w_db w)).2 w).
Definition naming {X} (e : provE X) : bool := match e with SysOp (FsOp o) => named o | _ => true end.
Definition naming_event (ev : event provE) : bool := match ev with Ev _ e _ => naming e | EvEnv => true end.

Definition deletion (hash v : string) (ev : event provE) : Prop :=
  exists i, ev = Ev i (SysOp (FsOp (DeleteDocIfUnchanged DCR_TOKENS hash v))) (Ok true).
(** The version was used, and is not there any more: it never comes back. *)
Definition gone (hash v : string) (db : fs_db) : Prop := db_ok db /\ seen db v /\ ~ has_version doc_at db DCR_TOKENS hash v.

Lemma gone_step hash v X (o : fsE X) db x db' :
  named o = true -> fs_handle X o db = (x, db') -> gone hash v db -> gone hash v db'.
Proof.
  intros Hn Hh (Hok & Hs & Hv). destruct (doc_law X o db x db' Hok Hn Hh) as [Hok' Hst].
  split; [done|]. split.
  { pose proof (doc_step_frame _ _ X o db x db' Hst) as Hf. destruct (target_of o) as [[c i]|]; by apply Hf. }
  intros [f Hf].
  destruct (doc_step_version _ _ X o db x db' DCR_TOKENS hash Hst) as [He|[He|(f' & v' & He & Hns)]]; [|congruence|].
  - apply Hv. exists f. congruence.
  - by assert (v' = v) as -> by congruence.
Qed.
Lemma contract_step X (e : provE X) w x w' (P : fs_db -> Prop) :
  (forall Y (o : fsE Y) db y db', named o = true -> fs_handle Y o db = (y, db') -> P db -> P db') ->
  prov_handler X e w = (x, w') -> naming e = true -> P (w_db w) -> P (w_db w').
Proof.
  intros HP He Hn Hw. destruct e as [X o|X o|X o|t k ttl|t k1 k2|u k|to sub html]; simpl in He.
  - destruct o as [| | |X o]; simpl in He; [by simplify_eq/=..|].
    destruct (fs_handle X o (w_db w)) as [y db] eqn:Hh. simplify_eq/=. by eapply HP.
  - destruct (mem_op _ o (w_store w)). by simplify_eq/=.
  - destruct (mem_ciba_op _ _ o _). by simplify_eq/=.
  - destruct (memory_claim _ _ _ _). by simplify_eq/=.
  - destruct (check_and_record _ _ _ _). by simplify_eq/=.
  - by simplify_eq.
  - by simplify_eq.
Qed.
Lemma contract_exec w tr w' (P : fs_db -> Prop) :
  (forall Y (o : fsE Y) db y db', named o = true -> fs_handle Y o db = (y, db') -> P db -> P db') ->
  wexec prov_handler contract_env w tr w' -> Forall (fun ev => naming_event ev = true) tr -> P (w_db w) -> P (w_db w').
Proof.
  intros HP Hw. induction Hw as [w | w i X e x w1 tr w' Hh Hw IH | w w1 tr w' Henv Hw IH]; intros Hn HPw; [done|..];
    apply Forall_cons in Hn as [Hn Hns]; apply (IH Hns).
  - by eapply contract_step.
  - destruct Henv as [w w1 _ -> | w X o Ho]; [done|]. cbn. by eapply HP; [exact Ho | apply surjective_pairing | exact HPw].
Qed.

Lemma deleted_gone hash v w w' :
  db_ok (w_db w) -> prov_handler _ (SysOp (FsOp (DeleteDocIfUnchanged DCR_TOKENS hash v))) w = (Ok true, w') ->
  has_version doc_at (w_db w) DCR_TOKENS hash v /\ gone hash v (w_db w').
Proof.
  simpl. destruct (fs_handle _ _ (w_db w)) as [y db] eqn:Hh. intros Hok [= -> <-]. cbn.
  destruct (doc_law _ _ _ _ _ Hok (eq_refl : named (DeleteDocIfUnchanged DCR_TOKENS hash v) = true) Hh) as [Hok' [Hv [Ho Hd]]].
  split; [done|]. destruct Hv as [f Hf]. split; [done|]. split.
  - apply Ho. by eapply doc_seen.
  - intros [f' Hf']. congruence.
Qed.
Lemma wexec_cons w ev tr w' :
  wexec prov_handler contract_env w (ev :: tr) w' ->
  match ev with
  | Ev i e x => exists w1, prov_handler _ e w = (x, w1) /\ wexec prov_handler contract_env w1 tr w'
  | EvEnv => exists w1, contract_env w w1 /\ wexec prov_handler contract_env w1 tr w'
  end.
Proof. intros Hw. inversion Hw; subst; eauto. Qed.
Lemma deleted_once hash v w tr w' n m evn evm :
  wexec prov_handler contract_env w tr w' -> Forall (fun ev => naming_event ev = true) tr -> db_ok (w_db w) ->
  tr !! n = Some evn -> tr !! m = Some evm -> deletion hash v evn -> deletion hash v evm -> ~ (n < m)%nat.
Proof.
  intros Hw Hn Hok Hin Him [i ->] [j ->] Hlt.
  apply list_elem_of_split_length in Hin as (l1 & l2 & -> & ->).
  rewrite lookup_app_r, lookup_cons_ne_0 in Him by lia.
  apply list_elem_of_split_length in Him as (l3 & l4 & -> & _).
  apply Forall_app in Hn as [Hn1 Hn]. apply Forall_cons in Hn as [_ Hn]. apply Forall_app in Hn as [Hn2 _].
  apply wexec_app in Hw as (wa & Hwa & Hw).
  assert (Hoka : db_ok (w_db wa)).
  { eapply (contract_exec _ _ _ db_ok); [|exact Hwa|exact Hn1|exact Hok]. intros Y o db y db' Ho Hh Hd. by apply (doc_law Y o db y db'). }
  apply wexec_cons in Hw as (wb & He & Hw2).
  apply wexec_app in Hw2 as (wc & Hwc & Hw3). apply deleted_gone in He as [_ Hg]; [|done].
  assert (Hgc : gone hash v (w_db wc)) by (eapply (contract_exec _ _ _ (gone hash v)); eauto using gone_step).
  apply wexec_cons in Hw3 as (wd & He' & _).
  apply deleted_gone in He' as [Hv _]; [|apply Hgc]. by apply Hgc.
Qed.
Lemma deleted_by_one hash v w tr w' i j :
  wexec prov_handler contract_env w tr w' -> Forall (fun ev => naming_event ev = true) tr -> db_ok (w_db w) ->
  db_event (DeleteDocIfUnchanged DCR_TOKENS hash v) (Ok true) (filter (of_thread i) tr) ->
  db_event (DeleteDocIfUnchanged DCR_TOKENS hash v) (Ok true) (filter (of_thread j) tr) -> i = j.
Proof.
  intros Hw Hn Hok [ti Hi] [tj Hj].
  apply list_elem_of_filter in Hi as [Hti Hi]. apply list_elem_of_filter in Hj as [Htj Hj].
  apply list_elem_of_lookup in Hi as [n Hi]. apply list_elem_of_lookup in Hj as [m Hj].
  destruct (lt_eq_lt_dec n m) as [[Hlt| ->]|Hlt].
  - destruct (deleted_once hash v w tr w' n m _ _ Hw Hn Hok Hi Hj (ex_intro _ ti eq_refl) (ex_intro _ tj eq_refl) Hlt).
  - simpl in *. congruence.
  - destruct (deleted_once hash v w tr w' m n _ _ Hw Hn Hok Hj Hi (ex_intro _ tj eq_refl) (ex_intro _ ti eq_refl) Hlt).
Qed.

(** C33: a registration spends its initial access token before it registers the client.
    Whatever the database answers and whatever else runs, a registration, finished or not,
    writes only two documents, and in this order: it deletes the presented token, unless
    that is reusable, at the version it read, when the token is known and unexpired and
    its constraints accept the request; and it creates the client of that validation, when
    the deletion has succeeded.  It answers 201 only when the client was created.  And of
    the registrations that run at once, on a database that meets its contract and that
    other processes use too, no two create a client by the same token: two that are not
    reusable were two documents, or two versions of one. *)
Theorem registration_spends_iat p hs body p' hs' body' tr q :
  (thread_path (register p hs body) tr q ->
     forall tr1 ev tr2, tr = tr1 ++ ev :: tr2 -> writes_db ev -> spends_then_stores hs body tr1 ev) /\
  (forall r, thread_path (register p hs body) tr (Ret r) -> created r = true -> client_created tr) /\
  (forall ps w c' i j,
     steps prov_handler contract_env (ps, w) tr c' -> db_ok (w_db w) -> Forall (fun ev => naming_event ev = true) tr ->
     ps !! i = Some (register p hs body) -> ps !! j = Some (register p' hs' body') -> i <> j ->
     client_created (filter (of_thread i) tr) -> client_created (filter (of_thread j) tr) ->
     exists hash iat o hash' iat' o',
       validated hs body (filter (of_thread i) tr) hash iat o /\
       validated hs' body' (filter (of_thread j) tr) hash' iat' o' /\
       (iat_reusable iat = false -> iat_reusable iat' = false ->
          (hash, iat_update_time iat) <> (hash', iat_update_time iat'))).
Proof.
  split; [|split].
  - intros Hp tr1 ev tr2 Heq Hd.
    exact (preceded_path writes_db (spends_then_stores hs body) [] _ tr q tr1 ev tr2 (register_preceded p hs body) Hp Heq Hd).
  - intros r Hp. by apply (register_created p hs body tr r).
  - intros ps w c' i j Hst Hok Hn Hi Hj Hne Hci Hcj.
    destruct (steps_thread_path _ _ _ _ _ i _ Hst Hi) as (qi & _ & Hpi).
    destruct (steps_thread_path _ _ _ _ _ j _ Hst Hj) as (qj & _ & Hpj).
    destruct (created_spent p hs body _ _ Hpi Hci) as (hash & iat & o & Hv & Hsp).
    destruct (created_spent p' hs' body' _ _ Hpj Hcj) as (hash' & iat' & o' & Hv' & Hsp').
    exists hash, iat, o, hash', iat', o'. split; [done|]. split; [done|]. intros Hr Hr' [= <- Hu].
    specialize (Hsp Hr). specialize (Hsp' Hr'). unfold spending in Hsp'. rewrite <- Hu in Hsp'.
    exact (Hne (deleted_by_one hash _ w tr _ i j (steps_wexec _ _ _ _ _ Hst) Hn Hok Hsp Hsp')).
Qed.
End one_deletion.
