(* ===== verification/WebWitnesses.v ===== *)
(** * The endpoints on concrete requests

    Each theorem about the endpoints that has hypotheses, at an input where they hold, and
    the theorems about shared databases on the fake server. *)


From S2P Require Import Prelude Prog Json Model Store StoreFacts Calendar Firestore Externals Es256 Sys DocStore CasFacts Nonce.
From S2P Require Import Ciba CibaFacts Dcr Claims DcrStore FirestoreStore Refinement SharedUse Provider ProviderFacts AuthChecks Dpop ClientAuth.
From S2P Require Import RequestObject Grants GrantsFacts GrantSafety Http FsClient FakeFirestore FakeFacts Authorize Endpoints Registration WebFacts EndpointFacts Interleavings.

#[local] Open Scope Z_scope.

#[local] Existing Instance no_database.

(** Proofs of possession for the token endpoint ("p") and for userinfo ("u"), the
    registration request "body", and the stored query "query". *)
Definition web_externals : Externals :=
  sample_externals_with
    [("h", sample_dpop_header); ("p", sample_dpop_payload);
     ("u", Object [("htm", Str "GET"); ("htu", Str "https://op.example/userinfo"); ("iat", Number (NInt 1000));
                   ("jti", Str "j2"); ("ath", Str "sha256(at)................")]);
     ("body", Object [("redirect_uris", Array [Str "https://rp.example/cb"])])]
    [("query", sample_params)].
#[local] Existing Instance web_externals.

Definition the_key : string := jwk_thumbprint_p256 "x" "y".

(** A resource server with a secret. *)
Definition resource_server : Client :=
  mkClient "rs" [] "client_secret_basic" (Some (hash_token "s")) [] ["https://rp.example/out"] false [] None false false None.
Definition web_provider : Provider := with_client resource_server sample_provider.
Definition rs_headers : HeaderMap := [("authorization", "Basic rs:s")].

(** ** Authorization *)

Definition login_done : Interaction := mkInteraction "u1" "query" (Some "alice") (Some 1000) None.
Definition login_world : world := sample_world (1010 * NS) (save_interaction 1000 login_done MemoryStore_default).
Definition cancellation := authorize_cancel web_provider "u1".
Lemma no_open_redirect_witness :
  exists params, stored_request "u1" (run_trace prov_handler 0 cancellation login_world) params /\
    to_registered web_provider params (run_trace prov_handler 0 cancellation login_world)
      "https://rp.example/cb?error=access_denied".
Proof.
  apply (proj2 (proj2 (no_open_redirect web_provider ∅ None ∅ "u1"
    (run_trace prov_handler 0 cancellation login_world) "https://rp.example/cb?error=access_denied"))).
  exact (run_trace_path prov_handler 0 cancellation login_world).
Defined.

Definition resumption := authorize_resume web_provider (<["uid" := "u1"]> ∅).
Definition two_resumptions : list (event provE) :=
  run_trace prov_handler 0 resumption login_world ++
  run_trace prov_handler 1 resumption (run prov_handler resumption login_world).2.
Lemma one_code_per_interaction_witness : ~ issued_code 1 two_resumptions.
Proof.
  apply (one_code_per_interaction "u1" [resumption; resumption] login_world two_resumptions _ _ 0 1 resumption resumption
    (steps_twice prov_handler prov_env resumption resumption login_world)).
  - apply no_resets. vm_compute. reflexivity.
  - reflexivity.
  - reflexivity.
  - exists web_provider, (<["uid" := "u1"]> ∅). split; reflexivity.
  - exists web_provider, (<["uid" := "u1"]> ∅). split; reflexivity.
  - discriminate.
  - unfold issued_code. vm_compute. repeat first [apply Exists_cons_hd; reflexivity | apply Exists_cons_tl].
Defined.

(** ** Tokens *)

Definition bearer_token (jkt : option string) : AccessToken :=
  mkAccessToken "at" "rs" "alice" "openid" jkt None None (Some 1000) (Some "ad") false.
Definition token_world (jkt : option string) : world :=
  sample_world (1010 * NS) (save_access_token 1000 (bearer_token jkt) MemoryStore_default).
Definition token_form : gmap string string := list_to_map [("token", "at")].

Definition grant_form : gmap string string :=
  list_to_map [("grant_type", "authorization_code"); ("client_id", "rp"); ("code", "code");
               ("redirect_uri", "https://rp.example/cb"); ("code_verifier", "verifier")].
Definition grant_code : AuthorizationCode :=
  mkAuthorizationCode "code" "rp" "alice" "https://rp.example/cb" "openid" None
    (Some (b64url_encode (sha256_digest "verifier"))) (Some "S256") 1000 None None None 1060.
Definition grant_world : world := sample_world (1010 * NS) (save_code grant_code MemoryStore_default).
Definition token_call := run prov_handler (token web_provider [("dpop", sample_proof)] grant_form) grant_world.
Lemma token_sender_constrained_witness :
  exists client w1 jkt a,
    run prov_handler (authenticate_client web_provider [("dpop", sample_proof)] grant_form) grant_world = (Ok client, w1) /\
    (exists gt, grant_form !! "grant_type" = Some gt /\ is_Some (p_grants web_provider !! gt) /\ allows_grant client gt = true) /\
    (get_access_token (secs token_call.2) "id" (w_store token_call.2)).1 = Some a /\
    at_client_id a = cl_client_id client /\ at_jkt a = jkt /\
    match jkt with
    | Some k => "DPoP" = "DPoP" /\ exists proof, dpop_header [("dpop", sample_proof)] = Some proof /\
        possesses w1 proof "POST" (p_issuer web_provider +:+ "/token") None k
    | None => "DPoP" = "Bearer" /\ dpop_header [("dpop", sample_proof)] = None /\ cl_dpop_bound client = false
    end /\ no_store = no_store.
Proof.
  apply (token_sender_constrained web_provider [("dpop", sample_proof)] grant_form grant_world no_store
    (mkTokenResponse "id" "DPoP" 900 "openid" (Some "signed") None None) token_call.2).
  vm_compute. reflexivity.
Defined.

Definition userinfo_headers : HeaderMap := [("authorization", "DPoP at"); ("dpop", "h.u.good")].
Definition userinfo_call :=
  run prov_handler (authenticate_token web_provider userinfo_headers "GET" "/userinfo" None) (token_world (Some the_key)).
Lemma bound_token_needs_proof_witness :
  possesses (token_world (Some the_key)) "h.u.good" "GET" "https://op.example/userinfo" (Some (ath "at")) the_key.
Proof.
  destruct (bound_token_needs_proof web_provider userinfo_headers "GET" "/userinfo" None (token_world (Some the_key))
    (bearer_token (Some the_key)) userinfo_call.2) as (scheme & tok & Hs & _ & Hk).
  - vm_compute. reflexivity.
  - destruct (Hk the_key eq_refl) as (_ & proof & Hd & Hp).
    assert (proof = "h.u.good") as -> by (vm_compute in Hd; congruence).
    assert (tok = "at") as ->; [|exact Hp].
    destruct Hs as [Hs|[Hs _]]; [vm_compute in Hs; congruence | discriminate Hs].
Defined.

Definition introspected := run prov_handler (introspect web_provider rs_headers token_form) (token_world (Some the_key)).
Definition answer_body (r : Response) : Value := match r with Reply _ _ (JsonBody v) => v | _ => Null end.
Lemma introspection_exact_witness :
  (get (answer_body introspected.1) "cnf" ≫= fun c => get_str c "jkt") = Some the_key.
Proof.
  destruct (introspection_exact web_provider rs_headers token_form (token_world (Some the_key)) no_store
    (answer_body introspected.1) introspected.2) as (client & tok & w1 & Hc & _ & Hf & _ & Hb).
  - vm_compute. reflexivity.
  - assert (tok = "at") as -> by (vm_compute in Hf; congruence).
    assert (w1 = token_world (Some the_key)) as -> by (vm_compute in Hc; vm_compute; congruence).
    exact (proj1 (proj2 (proj2 (proj2 Hb)))).
Defined.

Definition revocation := run prov_handler (revoke web_provider rs_headers token_form) (token_world None).
Lemma revoke_own_only_witness : (get_access_token 1010 "at" (w_store revocation.2)).1 = None.
Proof.
  assert (Hc : run prov_handler (authenticate_client web_provider rs_headers token_form) (token_world None) =
    (Ok resource_server, token_world None)) by (vm_compute; reflexivity).
  assert (Hf : token_form !! "token" = Some "at") by (vm_compute; reflexivity).
  pose proof (revoke_own_only web_provider rs_headers token_form (token_world None) resource_server (token_world None) "at" Hc Hf) as Hr.
  cbv zeta in Hr. unfold revocation. destruct (run prov_handler (revoke _ _ _) _) as [r w']. destruct Hr as (_ & Ha & _).
  assert (Hat : (get_access_token (secs (token_world None)) "at" (w_store (token_world None))).1 = Some (bearer_token None))
    by (vm_compute; reflexivity).
  specialize (Ha "at" (bearer_token None) Hat).
  rewrite decide_True in Ha by (split; reflexivity). exact Ha.
Defined.

Definition consumption := mandate_consume web_provider rs_headers token_form.
Definition first_consumption := run prov_handler consumption (token_world None).
Lemma mandate_consumed_once_witness : says_consumed (run prov_handler consumption first_consumption.2).1 = false.
Proof.
  refine (mandate_consumed_once "at" [consumption; consumption] (token_world None) _ _ _ 0 1 consumption consumption
    first_consumption.1 (run prov_handler consumption first_consumption.2).1
    (steps_twice prov_handler prov_env consumption consumption (token_world None))
    _ eq_refl eq_refl _ _ ltac:(discriminate) eq_refl eq_refl _).
  - apply no_resets. vm_compute. reflexivity.
  - exists web_provider, rs_headers, token_form. split; reflexivity.
  - exists web_provider, rs_headers, token_form. split; reflexivity.
  - vm_compute. reflexivity.
Defined.

(** ** Logout *)

Definition logout_query : EndSessionQuery :=
  mkEndSessionQuery None (Some "https://rp.example/out") (Some "s") (Some "rs").
Definition logout := end_session web_provider (<["sid" := "s1"]> ∅) logout_query.
Definition logout_trace : list (event provE) := run_trace prov_handler 0 logout (token_world None).
Lemma logout_redirects_registered_witness :
  exists id c uri, client_known web_provider logout_trace id c /\ uri ∈ cl_post_logout_redirect_uris c /\
    Some "https://rp.example/out" = Some uri /\ "https://rp.example/out?state=s" = logout_target uri (Some "s").
Proof.
  destruct (logout_redirects_registered web_provider (<["sid" := "s1"]> ∅) logout_query logout_trace
    (run prov_handler logout (token_world None)).1) as (r' & Hr & Hl).
  - exact (run_trace_path prov_handler 0 logout (token_world None)).
  - apply Hl. vm_compute in Hr. congruence.
Defined.

(** ** Registration *)

Definition web_codec : IatCodec := sample_codec sample_constraints.
#[local] Existing Instance web_codec.
Definition database_provider : Provider :=
  mkProvider "https://op.example" "" sample_signer [] true (fun _ => MemoryNonce) ∅ [] ∅ ∅ ∅ [].
Definition registration := register database_provider [("authorization", "Bearer iat")] "body".

(** ** Two registrations at once, each with a token of its own *)

Section registrations.
#[local] Instance web_percent : @PercentDecoding web_externals := sample_percent _ _.
#[local] Instance web_fake : FsBackend := Fake.fake_backend "p" "h" 1.
#[local] Instance web_docs : DocDb web_fake := fake_docs "p" "h" 1 eq_refl eq_refl.
Definition minted : @sys_world web_fake :=
  (run sys_handler (_ ← put_iat (hash_token "iat") sample_constraints 2000 false;
                    put_iat (hash_token "iat2") sample_constraints 2000 false)
     (mkSysWorld (1000 * NS) 0 0 Fake.FakeState_default)).2.
Definition minted_world : @world web_fake :=
  mkWorld (1010 * NS) 0 0 (sw_db minted) MemoryStore_default MemoryCibaStore_default (fun _ => ∅)
    (fun _ => CibaRateLimiter_new (60 * NS) 5).
Definition second_registration := register database_provider [("authorization", "Bearer iat2")] "body".
Definition both_registered : list (event provE) :=
  run_trace prov_handler 0 registration minted_world ++
  run_trace prov_handler 1 second_registration (run prov_handler registration minted_world).2.
Lemma first_thread : filter (of_thread 0%nat) both_registered = run_trace prov_handler 0 registration minted_world.
Proof. vm_compute. reflexivity. Qed.
Lemma second_thread :
  filter (of_thread 1%nat) both_registered =
  run_trace prov_handler 1 second_registration (run prov_handler registration minted_world).2.
Proof. vm_compute. reflexivity. Qed.
Lemma registration_spends_iat_witness :
  exists hash iat o hash' iat' o',
    validated [("authorization", "Bearer iat")] "body" (filter (of_thread 0%nat) both_registered) hash iat o /\
    validated [("authorization", "Bearer iat2")] "body" (filter (of_thread 1%nat) both_registered) hash' iat' o' /\
    (iat_reusable iat = false -> iat_reusable iat' = false ->
     (hash, iat_update_time iat) <> (hash', iat_update_time iat')).
Proof.
  refine (proj2 (proj2 (registration_spends_iat web_fake database_provider [("authorization", "Bearer iat")] "body"
    database_provider [("authorization", "Bearer iat2")] "body" both_registered (Ret (Reply 404 [] NoBody))))
    [registration; second_registration] minted_world _ 0%nat 1%nat
    (steps_twice prov_handler (contract_env web_fake) registration second_registration minted_world)
    _ _ eq_refl eq_refl ltac:(discriminate) _ _).
  - apply state_ok_check. vm_compute. reflexivity.
  - vm_compute. repeat constructor.
  - rewrite first_thread.
    apply (proj1 (proj2 (registration_spends_iat web_fake database_provider [("authorization", "Bearer iat")] "body"
      database_provider [] "" (run_trace prov_handler 0 registration minted_world) (Ret (Reply 404 [] NoBody))))
      (run prov_handler registration minted_world).1).
    + apply run_trace_path.
    + vm_compute. reflexivity.
  - rewrite second_thread.
    apply (proj1 (proj2 (registration_spends_iat web_fake database_provider [("authorization", "Bearer iat2")] "body"
      database_provider [] "" (run_trace prov_handler 1 second_registration (run prov_handler registration minted_world).2)
      (Ret (Reply 404 [] NoBody)))) (run prov_handler second_registration (run prov_handler registration minted_world).2).1).
    + apply run_trace_path.
    + vm_compute. reflexivity.
Defined.

End registrations.

(** ** Replays, with the replay tables on the fake server *)

Section replays.
#[local] Instance dpop_percent : @PercentDecoding dpop_externals := sample_percent _ [].
#[local] Instance assertion_percent : @PercentDecoding assertion_externals := sample_percent _ [].
Definition dpop_fake : FsBackend := @Fake.fake_backend dpop_externals "p" "h" 1.
Definition assertion_fake : FsBackend := @Fake.fake_backend assertion_externals "p" "h" 1.
(** The provider with its replay tables on the database. *)
Definition cloud (p : Provider) : Provider :=
  mkProvider (p_issuer p) (p_base_path p) (p_signer p) (p_extra_signers p) (p_firestore p) (fun _ => FirestoreNonce)
    (p_clients p) (p_checks p) (p_grants p) (p_client_auth p) (p_response_modes p) (p_invite_clients p).
Definition after {B : FsBackend} (t : Z) (w : @world B) : @world B :=
  mkWorld t (w_uuid w) (w_rand w) (w_db w) (w_store w) (w_ciba w) (w_nonces w) (w_rates w).

Definition dpop_start : @world dpop_fake :=
  @mkWorld dpop_fake (1010 * NS) 0 0 Fake.FakeState_default MemoryStore_default MemoryCibaStore_default (fun _ => ∅)
    (fun _ => CibaRateLimiter_default).
Definition prove_possession (w : @world dpop_fake) :=
  run (@prov_handler dpop_externals dpop_fake sample_services)
    (@dpop_verify dpop_externals (cloud sample_provider) sample_proof "POST" "https://op.example/token" None) w.
(** The proof is accepted, and refused 20 seconds later. *)
Lemma dpop_no_replay_witness :
  is_ok (prove_possession dpop_start).1 = true /\
  is_ok (prove_possession (after (1030 * NS) (prove_possession dpop_start).2)).1 = false.
Proof.
  split; [vm_compute; reflexivity|].
  apply (@dpop_no_replay dpop_externals sample_services dpop_fake
    (@fake_docs dpop_externals dpop_percent "p" "h" 1 eq_refl eq_refl) (cloud sample_provider) sample_proof "POST"
    "https://op.example/token" None dpop_start
    (@jwk_thumbprint_p256 dpop_externals "x" "y") (prove_possession dpop_start).2 [EvEnv]).
  - apply state_ok_check. vm_compute. reflexivity.
  - repeat constructor.
  - vm_compute. discriminate.
  - vm_compute. discriminate.
  - apply run_result. vm_compute. reflexivity.
  - eapply wexec_env; [|apply wexec_nil]. apply nonce_quiet; [|reflexivity]. apply env_tick. vm_compute. discriminate.
Defined.

Definition assertion_start : @world assertion_fake :=
  @mkWorld assertion_fake (1000 * NS) 0 0 Fake.FakeState_default MemoryStore_default MemoryCibaStore_default (fun _ => ∅)
    (fun _ => CibaRateLimiter_default).
Definition assert_identity (w : @world assertion_fake) :=
  run (@prov_handler assertion_externals assertion_fake sample_services)
    (@private_key_jwt assertion_externals (cloud key_provider) sample_assertion_input) w.
End replays.

(** * The shared database on the fake server *)

Section shared_database.
Definition fake_externals : Externals := sample_externals [].
#[local] Existing Instance fake_externals.
#[local] Instance fake_percent : PercentDecoding := sample_percent [] [].
#[local] Instance the_fake : FsBackend := Fake.fake_backend "p" "h" 1.
#[local] Instance the_fake_docs : DocDb the_fake := fake_docs "p" "h" 1 eq_refl eq_refl.

Definition empty_world : sys_world := mkSysWorld (1000 * NS) 0 0 Fake.FakeState_default.
Lemma empty_ok : db_ok (sw_db empty_world).
Proof. apply state_ok_check. vm_compute. reflexivity. Qed.

Lemma empty_docs c i : doc_at (sw_db empty_world) c i = None.
Proof. change (FakeProofs.at_ Fake.FakeState_default c i = None). unfold FakeProofs.at_. simpl. by rewrite lookup_empty. Qed.
Definition a_creation : cibaE (result string string) := CibaCreate "rp" "alice" "openid" "pay 10" (Some "[]").
Lemma firestore_ciba_refines_witness :
  exists y m', mem_ciba_op 1000 (uuid_v4 0) a_creation MemoryCibaStore_default = (y, m') /\ agree a_creation (Ok "id") y /\
    requests_of the_fake (sw_db (run sys_handler (firestore_ciba_op _ a_creation) empty_world).2) m' /\
    db_ok (sw_db (run sys_handler (firestore_ciba_op _ a_creation) empty_world).2).
Proof.
  apply (firestore_ciba_refines the_fake _ a_creation empty_world MemoryCibaStore_default (Ok "id")
    (run sys_handler (firestore_ciba_op _ a_creation) empty_world).2).
  - exact empty_ok.
  - split; [intros id; by rewrite empty_docs | apply map_Forall_empty].
  - exact eq_refl.
  - split; [reflexivity|]. split; [|done]. split; [vm_compute; discriminate | vm_compute; reflexivity].
  - apply run_result. vm_compute. reflexivity.
  - exact eq_refl.
Defined.

Definition pending_world : sys_world := (run sys_handler (firestore_ciba_op _ a_creation) empty_world).2.
Definition approval : prog sysE bool := run_attempt (Decide "id" Approved).
Definition denial : prog sysE bool := run_attempt (Decide "id" Denied).
Definition both : list (event sysE) :=
  run_trace sys_handler 0 approval pending_world ++ run_trace sys_handler 1 denial (run sys_handler approval pending_world).2.
Lemma pending_ok : db_ok (sw_db pending_world).
Proof. change (FakeProofs.state_ok (sw_db pending_world)). apply state_ok_check. vm_compute. reflexivity. Qed.
Definition decisions : list work := [Attempt (Decide "id" Approved); Attempt (Decide "id" Denied)].
Lemma single_use_across_processes_witness : (run sys_handler denial (run sys_handler approval pending_world).2).1 = false.
Proof.
  refine (single_use_across_processes the_fake decisions _ pending_world both _ 0 1 (Decide "id" Approved) (Decide "id" Denied) _
    pending_ok (steps_twice sys_handler sys_env approval denial pending_world) _ _ _ _ eq_refl eq_refl eq_refl _ eq_refl).
  - repeat constructor; by intros [=].
  - intros k Hin. vm_compute in Hin. repeat (apply elem_of_cons in Hin as [Hin|Hin]; [discriminate Hin|]). by apply elem_of_nil in Hin.
  - intros k ev [q Hq]. by destruct k as [|[|k]].
  - discriminate.
  - assert (Hw : (run sys_handler approval pending_world).1 = true) by (vm_compute; reflexivity).
    cbn [lookup list_lookup]. by rewrite Hw.
Defined.
End shared_database.
