(* ===== verification/JwsFacts.v ===== *)
(** * What the server signs is read back

    A token of a local ES256 signer, verified with the key set the server publishes, gives
    the claims it was made from; what the signer of the key service answers without a
    signature verifies under no key. *)

From S2P Require Import Prelude Prog Json Model Decimal Firestore Externals Es256 Sys Dcr DcrStore Store Provider Dpop RequestObject Http FsClient FakeFacts Registration Keys.

#[local] Open Scope Z_scope.

(** The alphabet of base64url. *)
Definition b64_char (a : ascii) : bool :=
  let n := nat_of_ascii a in
  ((48 <=? n) && (n <=? 57) || (65 <=? n) && (n <=? 90) || (97 <=? n) && (n <=? 122) || (n =? 45) || (n =? 95))%nat.

(** A value that is read back as an object with the same members. *)
Definition reads_back `{Externals} (v : Value) : Prop :=
  exists v', json_from_slice (json_to_string v) = Ok v' /\ forall k, get v' k = get v k.

(** What the crates base64, sha2 and p256 promise. *)
Class JoseLaws `{SigningKeys} : Prop := {
  b64_round b : url_safe_no_pad_decode (url_safe_no_pad_encode b) = Ok b;
  b64_empty : url_safe_no_pad_encode "" = "";
  b64_alphabet b : str_forall b64_char (url_safe_no_pad_encode b) = true;
  sha256_nonempty s : sha256_digest s <> "";
  coordinates k : String.length (p256_public k).1 = 32%nat /\ String.length (p256_public k).2 = 32%nat;
  signature_length s sg : signature_from_slice s = Ok sg -> String.length s = 64%nat;
  own_signature k m : exists vk sg, key_from_affine (p256_public k).1 (p256_public k).2 = Ok vk /\
    signature_from_slice (p256_sign k m) = Ok sg /\ ecdsa_verify vk m sg = true
}.

(** ** Base64url texts pass the accepted variations unchanged *)

Lemma b64_char_no_ws a s : b64_char a = true -> ws_prefix (String a s) = 0%nat.
Proof.
  destruct a as [[] [] [] [] [] [] [] []]; try discriminate; intros _; destruct s as [|b [|c s]]; reflexivity.
Qed.
Lemma trim_start_b64 s : str_forall b64_char s = true -> trim_start_go 0 s = s.
Proof. destruct s as [|a s]; [done|]. intros [Ha _]%andb_prop. cbn [trim_start_go]. by rewrite b64_char_no_ws. Qed.
Lemma trim_b64 s : str_forall b64_char s = true -> str_trim s = s.
Proof.
  intros Hs. unfold str_trim. rewrite trim_start_b64 by done. revert Hs.
  induction s as [|a s IH]; [done|]. intros Hs. pose proof Hs as [Ha Ht]%andb_prop. unfold trim_end. fold trim_end.
  rewrite trim_start_b64 by done. cbn [str_is_empty]. f_equal. by apply IH.
Qed.
Lemma map_b64 (f : ascii -> ascii) s : (forall a, b64_char a = true -> f a = a) -> str_forall b64_char s = true -> str_map f s = s.
Proof. intros Hf. induction s as [|a s IH]; [done|]. intros [Ha Hs]%andb_prop. cbn. by rewrite Hf, IH. Qed.
Lemma url_safe_kept a : b64_char a = true ->
  (if decide (a = "+"%char) then "-"%char else if decide (a = "/"%char) then "_"%char else a) = a.
Proof. intros Ha. destruct (decide (a = "+"%char)) as [->|]; [done|]. by destruct (decide (a = "/"%char)) as [->|]. Qed.
Lemma trim_end_b64 s : str_forall b64_char s = true -> trim_end_matches "="%char s = s.
Proof.
  induction s as [|a s IH]; [done|]. intros [Ha Hs]%andb_prop. cbn [trim_end_matches str_all].
  rewrite bool_decide_eq_false_2; [cbn; by rewrite IH|]. by intros ->.
Qed.
Lemma b64_no_dot s : str_forall b64_char s = true -> str_contains "."%char s = false.
Proof. by apply forall_not_contains. Qed.

Section facts.
Context `{JoseLaws}.

Lemma b64url_round b : b64url_decode (b64url_encode b) = Ok b.
Proof.
  unfold b64url_decode, b64url_encode. pose proof (b64_alphabet b) as Ha. rewrite (trim_b64 _ Ha), map_b64; [|apply url_safe_kept|exact Ha].
  by rewrite (trim_end_b64 _ Ha), b64_round.
Qed.
Lemma ro_dec_round b : ro_dec (b64url_encode b) = Ok b.
Proof. unfold ro_dec. by rewrite b64url_round. Qed.
Lemma encode_nonempty b : b <> "" -> str_is_empty (b64url_encode b) = false.
Proof.
  intros Hb. unfold b64url_encode. destruct (url_safe_no_pad_encode b) eqn:He; [|done]. exfalso. apply Hb.
  pose proof (b64_round b) as Hr. rewrite He in Hr. rewrite <- b64_empty, b64_round in Hr. by injection Hr.
Qed.
Lemma pad32_full b : String.length b = 32%nat -> pad32 b = Ok b.
Proof. intros Hl. unfold pad32. by rewrite Hl. Qed.
Lemma own_key k : exists vk, verifying_key_from_xy (p256_public k).1 (p256_public k).2 = Ok vk /\
  forall m, exists sg, signature_from_slice (p256_sign k m) = Ok sg /\ ecdsa_verify vk m sg = true.
Proof.
  destruct (coordinates k) as [Hx Hy]. destruct (own_signature k "") as (vk & sg0 & Hk & _). exists vk. split.
  { unfold verifying_key_from_xy. rewrite (pad32_full _ Hx), (pad32_full _ Hy). cbn [mbind result_bind]. by rewrite Hk. }
  intros m. destruct (own_signature k m) as (vk' & sg & Hk' & Hs & Hv). exists sg. rewrite Hk in Hk'. by injection Hk' as ->.
Qed.

Lemma ec_jwk_members x y kid : let v := ec_jwk x y kid in
  get_str v "kty" = Some "EC" /\ get_str v "crv" = Some "P-256" /\ get_str v "kid" = Some kid /\ get_str v "x" = Some x /\ get_str v "y" = Some y.
Proof. repeat split. Qed.
Lemma jws_header_members alg kid : get_str (jws_header alg kid) "kid" = Some kid /\ str_is (jws_header alg kid) "alg" alg = true.
Proof. split; [done|]. unfold str_is. by apply bool_decide_eq_true_2. Qed.
(** The published key is a usable key of a client. *)
Lemma published_key k : jwk_pub_of (es256_public_jwk (es256_from_key k)) =
  Some (mkJwkPub (es_kid (es256_from_key k)) (es_x (es256_from_key k)) (es_y (es256_from_key k))).
Proof.
  destruct (own_key k) as (vk & Hk & _). unfold es256_public_jwk. cbn [es256_from_key es_kid es_x es_y].
  set (x := b64url_encode _). set (y := b64url_encode (p256_public k).2). set (kid := jwk_thumbprint_p256 x y).
  unfold jwk_pub_of. destruct (ec_jwk_members x y kid) as (-> & -> & -> & -> & ->). cbn [mbind option_bind].
  rewrite !bool_decide_eq_true_2 by done. cbn [negb]. unfold kid at 1, jwk_thumbprint_p256. rewrite encode_nonempty by apply sha256_nonempty.
  rewrite (b64url_round _ : b64url_decode x = _), (b64url_round _ : b64url_decode y = _). cbn [result_ok mbind option_bind]. by rewrite Hk.
Qed.
Lemma published_first k rest : exists l, jwks_from_jwk_set (Some (Object [("keys", Array (es256_public_jwk (es256_from_key k) :: rest))])) =
  mkJwkPub (es_kid (es256_from_key k)) (es_x (es256_from_key k)) (es_y (es256_from_key k)) :: l.
Proof.
  exists (omap jwk_pub_of rest). change (match jwk_pub_of (es256_public_jwk (es256_from_key k)) with
    | Some y => y :: omap jwk_pub_of rest | None => omap jwk_pub_of rest end = mkJwkPub (es_kid (es256_from_key k)) (es_x (es256_from_key k)) (es_y (es256_from_key k)) :: omap jwk_pub_of rest).
  by rewrite published_key.
Qed.
Lemma refused_later {E A B} (r : result E A) (f : A -> result E B) : (forall a, is_ok (f a) = false) -> is_ok (r ≫= f) = false.
Proof. intros Hf. destruct r; [apply Hf | done]. Qed.
Lemma signed_parts alg kid claims sig :
  str_contains "."%char sig = false ->
  str_split "."%char (signing_input alg kid claims +:+ "." +:+ sig) =
    [b64url_encode (json_to_string (jws_header alg kid)); b64url_encode (json_to_string claims); sig].
Proof.
  intros Hs. unfold signing_input. rewrite !str_app_assoc.
  assert (Hdot : forall x, "." +:+ x = String "."%char x) by done. rewrite !Hdot.
  rewrite !str_split_cons by apply b64_no_dot, b64_alphabet. by rewrite str_split_no.
Qed.
Lemma get_str_same (v v' : Value) k : (forall k, get v' k = get v k) -> get_str v' k = get_str v k.
Proof. intros Hg. unfold get_str. by rewrite Hg. Qed.
Lemma str_is_same (v v' : Value) k s : (forall k, get v' k = get v k) -> str_is v' k s = str_is v k s.
Proof. intros Hg. unfold str_is. by rewrite (get_str_same v v' k Hg). Qed.
Lemma first_kid kid x y l : list_find_first (fun k => bool_decide (jwk_kid k = kid)) (mkJwkPub kid x y :: l) = Some (mkJwkPub kid x y).
Proof. cbn. by rewrite bool_decide_eq_true_2. Qed.

(** C19: a client that holds the key set the server publishes reads back exactly the claims of
    every token the server signs with its ES256 key, by the verification of this program;
    and what is handed out when the key service gives no signature is refused under
    every key set. *)
Theorem issued_tokens_verify (k : P256SigningKey) (p : Provider) (client : Client) (claims : Value) :
  let s := es256_from_key k in
  p_signer p = es256_signer s -> cl_jwks client = jwks_from_jwk_set (Some (jwks p)) ->
  reads_back (jws_header "ES256" (es_kid s)) -> reads_back claims ->
  (exists payload, ro_signed_payload client (sg_sign (p_signer p) claims) = Ok payload /\ forall m, get payload m = get claims m) /\
  forall other alg kid, is_ok (ro_signed_payload other (signing_input alg kid claims +:+ ".")) = false.
Proof.
  intros s Hsig Hjwks (hv & Hh & Hhg) (cv & Hc & Hcg). split.
  - exists cv. split; [|done]. rewrite Hsig. destruct (own_key k) as (vk & Hvk & Hsv).
    destruct (jws_header_members "ES256" (es_kid s)) as [Hkid Halg].
    unfold ro_signed_payload. cbn [sg_sign es256_signer]. unfold es256_sign. cbn zeta.
    rewrite signed_parts by apply b64_no_dot, b64_alphabet. rewrite !ro_dec_round. cbn [mbind result_bind].
    rewrite Hh. cbn [map_err mbind result_bind]. rewrite (str_is_same _ _ _ _ Hhg), Halg. cbn [guard mbind result_bind].
    rewrite (get_str_same _ _ "kid" Hhg), Hkid. cbn [default].
    rewrite Hjwks. unfold jwks, all_signers. rewrite Hsig. cbn [map es256_signer sg_public_jwk]. 
    destruct (published_first k (map sg_public_jwk (p_extra_signers p))) as [l Hl]. fold s in Hl. rewrite Hl.
    change (id (es_kid s)) with (es_kid s). rewrite first_kid. cbn [ok_or mbind result_bind jwk_x jwk_y].
    rewrite (ro_dec_round _ : ro_dec (es_x s) = _), (ro_dec_round _ : ro_dec (es_y s) = _). cbn [mbind result_bind].
    rewrite Hvk. cbn [map_err mbind result_bind].
    change (es_key s) with k. destruct (Hsv (signing_input "ES256" (es_kid s) claims)) as (sg & -> & Hv). cbn [map_err mbind result_bind].
    fold (signing_input "ES256" (es_kid s) claims). rewrite Hv. cbn [guard mbind result_bind]. by rewrite Hc.
  - intros other alg kid. unfold ro_signed_payload. change (signing_input alg kid claims +:+ ".") with (signing_input alg kid claims +:+ "." +:+ "").
    rewrite signed_parts by done. do 7 (apply refused_later; intros ?).
    assert (He : ro_dec "" = Ok "") by (rewrite <- b64_empty at 1; apply ro_dec_round). rewrite He. cbn [mbind result_bind].
    destruct (signature_from_slice "") as [sg|e] eqn:Hsg; [|done]. by apply signature_length in Hsg.
Qed.
End facts.

(** ** A server and its client *)

(** Hexadecimal digits as the encoding. *)
Fixpoint hex_enc (s : string) : string :=
  match s with
  | String a r => String (hex_upper (nat_of_ascii a / 16)) (String (hex_upper (nat_of_ascii a mod 16)) (hex_enc r))
  | "" => ""
  end.
Fixpoint hex_dec (s : string) : result string string :=
  match s with
  | String a (String b r) => rest ← hex_dec r; Ok (String (ascii_of_nat (16 * hex_value a + hex_value b)) rest)
  | "" => Ok ""
  | _ => Err "invalid length"
  end.
Lemma hex_round s : hex_dec (hex_enc s) = Ok s.
Proof.
  induction s as [|a s IH]; [done|]. cbn [hex_enc hex_dec]. rewrite IH. cbn [mbind result_bind]. f_equal. f_equal.
  by destruct a as [[] [] [] [] [] [] [] []].
Qed.
Lemma hex_alphabet s : str_forall b64_char (hex_enc s) = true.
Proof. induction s as [|a s IH]; [done|]. cbn [hex_enc str_forall]. rewrite IH. by destruct a as [[] [] [] [] [] [] [] []]. Qed.

Definition the_claims : Value := Object [("iss", Str "https://op.example"); ("sub", Str "alice")].
(** The key identifier is the thumbprint of the constant key. *)
Definition is_header (v : Value) : bool := match get_str v "typ" with Some _ => true | None => false end.
Definition header_kid (v : Value) : string := default "" (get_str v "kid").
Definition jose_externals : Externals :=
  with_encodings (sample_externals []) hex_enc hex_dec
    (fun s => if bool_decide (String.length s = 64%nat) then Ok s else Err "length")
    (fun _ _ s => bool_decide (s = zero_bytes 64))
    (fun s => match s with String "h" kid => Ok (jws_header "ES256" kid) | _ => Ok the_claims end)
    (fun v => if is_header v then String "h" (header_kid v) else "c") (@client_from_json (sample_externals [])).
#[local] Existing Instance jose_externals.
#[local] Instance jose_keys : SigningKeys := {|
  P256SigningKey := unit;
  p256_from_scalar s := Ok tt;
  p256_public _ := (zero_bytes 32, zero_bytes 32);
  p256_sign _ _ := zero_bytes 64;
  RsaPrivateKey := unit;
  rsa_from_pkcs8_pem s := Ok tt;
  rsa_public _ := ("n", "AQAB");
  rsa_sign _ m := m;
  p256_public_from_pem s := Err "no key";
  rsa_public_from_pem s := Err "no key";
  signature_to_bytes s := s
|}.
#[local] Instance jose_laws : JoseLaws.
Proof.
  split.
  - exact hex_round.
  - done.
  - exact hex_alphabet.
  - done.
  - done.
  - intros s sg. cbn. case_bool_decide; [by intros _ | done].
  - intros k m. exists (zero_bytes 32 +:+ zero_bytes 32), (zero_bytes 64). by repeat split.
Qed.
Definition own_signer : Es256Signer := es256_from_key (tt : @P256SigningKey jose_externals jose_keys).
Definition own_provider : Provider := Provider_new "https://op.example" (es256_signer own_signer).
Definition own_client : Client :=
  mkClient "rp" [] "private_key_jwt" None [] [] true (jwks_from_jwk_set (Some (jwks own_provider))) None true true None.
Lemma issued_tokens_verify_witness :
  exists payload, ro_signed_payload own_client (sg_sign (p_signer own_provider) the_claims) = Ok payload /\
    forall m, get payload m = get the_claims m.
Proof.
  apply (issued_tokens_verify (tt : @P256SigningKey jose_externals jose_keys) own_provider own_client the_claims eq_refl eq_refl).
  - exists (jws_header "ES256" (es_kid own_signer)). split; reflexivity.
  - exists the_claims. split; reflexivity.
Defined.
