(* ===== verification/App.v ===== *)
(** * The whole server: routes, dispatch, request identifiers

    [router] and [request_trace] of [src/src/web/mod.rs].  Every handler of the other
    files stands in one table of patterns and methods; a request of the network becomes
    one program over the operations of the web handlers and of the conformance server.
    Matching a path with the patterns, decoding the arguments of a handler and the two
    automatic answers of a route belong to the crate axum: one interface. *)

From S2P Require Import Prelude Prog Json Model Firestore Externals Es256 Sys X509 Mds Dcr DcrStore AdminStore Store Provider Http Fido I18n Fcm Cli.
From S2P Require Import Templates Passkey CibaEndpoints Login AdminWeb Authorize Endpoints Registration.

#[local] Open Scope Z_scope.

Record Request := mkRequest {
  rq_method : string;
  rq_path : string;
  rq_query : option string;
  rq_headers : HeaderMap;
  rq_body : string
}.

(** The arguments of the handlers after the state, the headers and the cookies. *)
Inductive Extractor : Type -> Type :=
| PathParam : Extractor string
| QueryMap : Extractor (gmap string string)
| QueryEndSession : Extractor EndSessionQuery
| QueryMagic : Extractor string
| QueryVerify : Extractor string
| FormMap : Extractor (gmap string string)
| FormRegister : Extractor string
| FormPostLogout : Extractor string
| FormIatRevoke : Extractor string
| FormIatMint : Extractor IatMintForm
| JsonFcmToken : Extractor FcmTokenReq
| JsonAuthVerify : Extractor AuthVerifyReq
| JsonLoginOptions : Extractor string
| JsonEmailChallenge : Extractor string
| JsonVerifyEmail : Extractor string
| JsonRegOptions : Extractor string
| JsonRegVerify : Extractor RegVerifyReq
| BodyString : Extractor string.

Class Axum := {
  (** the pattern a path matches among those of a router, and what its parameter captures *)
  match_route : list string -> string -> option (string * option string);
  (** an argument of a handler, or the rejection *)
  extract : forall T, Extractor T -> Request -> option string -> result Response T;
  cookie_jar : HeaderMap -> gmap string string;
  (** a path without the method, and the answer to HEAD *)
  method_not_allowed : list method -> Response;
  without_body : Response -> Response
}.

(** The operations of the process: of the web handlers, and of the conformance server. *)
Inductive appE : Type -> Type :=
| Web {X} (o : provE X) : appE X
| Conformance {X} (o : fidoE X) : appE X.

Definition method_of (s : string) : option method :=
  if bool_decide (s = "GET") then Some GET
  else if bool_decide (s = "POST") then Some POST
  else if bool_decide (s = "PUT") then Some PUT
  else None.

Section app.
Context `{Axum, Externals, AdminCodec, IatCodec, !X509, !MdsCodec}.

(** A handler of the table: its arguments come from the request and the captured parameter. *)
Definition Handler : Type := Request -> option string -> prog provE Response.

Definition with_arg {T} (x : Extractor T) (f : Request -> T -> prog provE Response) : Handler :=
  fun rq cap => match extract T x rq cap with Ok a => f rq a | Err r => mret r end.
Definition with_args {T U} (x : Extractor T) (y : Extractor U) (f : Request -> T -> U -> prog provE Response) : Handler :=
  fun rq cap =>
    match extract T x rq cap with
    | Ok a => match extract U y rq cap with Ok b => f rq a b | Err r => mret r end
    | Err r => mret r
    end.
Definition plain (f : Request -> prog provE Response) : Handler := fun rq _ => f rq.
Definition answers (f : Request -> Response) : Handler := fun rq _ => mret (f rq).
Definition jar (rq : Request) : gmap string string := cookie_jar (rq_headers rq).

Definition inner_routes (p : Provider) : list (string * list (method * Handler)) :=
  [("/.well-known/openid-configuration", [(GET, answers (fun _ => Reply 200 [] (JsonBody (discovery p))))]);
   ("/jwks", [(GET, answers (fun _ => Reply 200 [] (JsonBody (jwks p))))]);
   ("/authorize", [(GET, plain (fun rq => authorize p (jar rq) (rq_query rq)))]);
   ("/authorize/resume", [(GET, with_arg QueryMap (fun _ q => authorize_resume p q))]);
   ("/login/{uid}", [(GET, with_arg PathParam (fun rq uid => mret (login_form p (rq_headers rq) uid)))]);
   ("/login/{uid}/cancel", [(GET, with_arg PathParam (fun _ uid => authorize_cancel p uid))]);
   ("/login/{uid}/passkey/options", [(POST, with_args PathParam JsonLoginOptions (fun _ uid email => login_passkey_options p uid email))]);
   ("/login/{uid}/passkey/verify", [(POST, with_args PathParam JsonAuthVerify (fun _ uid req => login_passkey_verify p uid req))]);
   ("/token", [(POST, with_arg FormMap (fun rq form => token p (rq_headers rq) form))]);
   ("/introspect", [(POST, with_arg FormMap (fun rq form => introspect p (rq_headers rq) form))]);
   ("/oauth/mandate/consume", [(POST, with_arg FormMap (fun rq form => mandate_consume p (rq_headers rq) form))]);
   ("/oauth/register", [(POST, with_arg BodyString (fun rq body => register p (rq_headers rq) body))]);
   ("/revoke", [(POST, with_arg FormMap (fun rq form => revoke p (rq_headers rq) form))]);
   ("/end-session", [(GET, with_arg QueryEndSession (fun rq q => end_session p (jar rq) q))]);
   ("/par", [(POST, with_arg BodyString (fun rq body => par p (rq_headers rq) body))]);
   ("/userinfo", [(GET, plain (fun rq => userinfo_get p (rq_headers rq)));
                  (POST, with_arg BodyString (fun rq body => userinfo_post p (rq_headers rq) body))]);
   ("/me/profile", [(GET, plain (fun rq => profile_get p (rq_headers rq)));
                    (PUT, with_arg BodyString (fun rq body => profile_put p (rq_headers rq) body))]);
   ("/backchannel-authentication", [(POST, with_arg FormMap (fun rq form => backchannel_auth p (rq_headers rq) form))]);
   ("/ciba", [(GET, plain (fun rq => ciba_pending p (rq_headers rq) (jar rq)))]);
   ("/ciba/pending", [(GET, plain (fun rq => ciba_pending_list p (rq_headers rq)))]);
   ("/ciba/history", [(GET, plain (fun rq => ciba_history p (rq_headers rq)))]);
   ("/ciba/fcm-tokens", [(POST, with_arg JsonFcmToken (fun rq req => fcm_token_register p (rq_headers rq) req))]);
   ("/ciba/{auth_req_id}/passkey-options", [(POST, with_arg PathParam (fun _ id => ciba_approve_options p id))]);
   ("/ciba/{auth_req_id}/approve", [(POST, with_args PathParam JsonAuthVerify (fun _ id req => ciba_approve p id req))]);
   ("/ciba/{auth_req_id}/reject", [(POST, with_arg PathParam (fun _ id => ciba_reject id))]);
   ("/admin/whoami", [(GET, plain (fun rq => whoami p (jar rq)))]);
   ("/admin", [(GET, plain (fun rq => admin_home p (rq_headers rq) (jar rq)))]);
   ("/admin/users", [(GET, plain (fun rq => users_list p (rq_headers rq) (jar rq)))]);
   ("/admin/users/{account_id}", [(GET, with_arg PathParam (fun rq a => user_detail p (rq_headers rq) (jar rq) a))]);
   ("/admin/users/{account_id}/disable", [(POST, with_arg PathParam (fun rq a => user_disable p (rq_headers rq) (jar rq) a))]);
   ("/admin/users/{account_id}/enable", [(POST, with_arg PathParam (fun rq a => user_enable p (jar rq) a))]);
   ("/admin/users/{account_id}/delete", [(POST, with_arg PathParam (fun rq a => user_delete p (rq_headers rq) (jar rq) a))]);
   ("/admin/users/{account_id}/grant-admin", [(POST, with_arg PathParam (fun rq a => user_grant_admin p (rq_headers rq) (jar rq) a))]);
   ("/admin/users/{account_id}/revoke-admin", [(POST, with_arg PathParam (fun rq a => user_revoke_admin p (rq_headers rq) (jar rq) a))]);
   ("/admin/audit", [(GET, plain (fun rq => audit_list p (rq_headers rq) (jar rq)))]);
   ("/admin/clients", [(GET, plain (fun rq => clients_list p (rq_headers rq) (jar rq)))]);
   ("/admin/clients/{client_id}", [(GET, with_arg PathParam (fun rq c => client_detail p (rq_headers rq) (jar rq) c))]);
   ("/admin/clients/{client_id}/revoke", [(POST, with_arg PathParam (fun rq c => client_revoke p (jar rq) c))]);
   ("/admin/clients/{client_id}/post-logout",
      [(POST, with_args PathParam FormPostLogout (fun rq c f => client_set_post_logout p (rq_headers rq) (jar rq) c f))]);
   ("/admin/iats", [(GET, plain (fun rq => iats_pending_list p (rq_headers rq) (jar rq)))]);
   ("/admin/iats/new", [(GET, plain (fun rq => iat_mint_form p (rq_headers rq) (jar rq)));
                        (POST, with_arg FormIatMint (fun rq f => iat_mint_submit p (rq_headers rq) (jar rq) f))]);
   ("/admin/iats/{hash}/revoke", [(POST, with_args PathParam FormIatRevoke (fun rq h u => iat_revoke p (jar rq) h u))]);
   ("/admin/iats/flash/{flash_id}", [(GET, with_arg PathParam (fun rq f => iat_show_once p (rq_headers rq) (jar rq) f))]);
   ("/signup", [(GET, answers (fun rq => register_form p (rq_headers rq)));
                (POST, with_arg FormRegister (fun rq email => register_submit p (rq_headers rq) email))]);
   ("/signup/verify", [(GET, with_arg QueryVerify (fun rq t => mret (verify_form p (rq_headers rq) t)))]);
   ("/signup/email-challenge", [(POST, with_arg JsonEmailChallenge (fun rq email => register_email_challenge p (rq_headers rq) email))]);
   ("/signup/verify-email", [(POST, with_arg JsonVerifyEmail (fun _ t => register_verify_email p t))]);
   ("/signup/passkey/options", [(POST, with_arg JsonRegOptions (fun _ t => register_passkey_options p t))]);
   ("/signup/passkey/verify", [(POST, with_arg JsonRegVerify (fun _ req => register_passkey_verify p req))]);
   ("/invites", [(POST, with_arg FormMap (fun rq form => invite_create p (rq_headers rq) form))]);
   ("/accounts/disable", [(POST, with_arg FormMap (fun rq form => account_disable p (rq_headers rq) form))]);
   ("/invite", [(GET, with_arg QueryMagic (fun rq t => invite_page p (rq_headers rq) t))]);
   ("/", [(GET, answers (fun rq => demo_start p (rq_headers rq)))]);
   ("/callback", [(GET, answers (fun rq => demo_callback p (rq_headers rq)))])].

(** The links of mails, outside of the base path. *)
Definition magic_routes (p : Provider) : list (string * list (method * Handler)) :=
  [("/r", [(GET, with_arg QueryMagic (fun rq t => mret (magic_redirect p (rq_headers rq) t)))]);
   ("/.well-known/apple-app-site-association", [(GET, answers (fun _ => apple_app_site_association))])].

(** [nest]: the root of the nested router is the base path itself. *)
Definition mounted (p : Provider) (pattern : string) : string :=
  if str_is_empty (p_base_path p) then pattern
  else if bool_decide (pattern = "/") then p_base_path p
  else p_base_path p +:+ pattern.
Definition temporary_redirect (to : string) : Response := Reply 307 [("location", to)] NoBody.
Definition base_routes (p : Provider) : list (string * list (method * Handler)) :=
  if str_is_empty (p_base_path p) then []
  else [("/", [(GET, answers (fun _ => temporary_redirect (p_base_path p)))]);
        (p_base_path p +:+ "/", [(GET, answers (fun _ => temporary_redirect (p_base_path p)))])].
Definition web_routes (p : Provider) : list (string * list (method * Handler)) :=
  base_routes p ++ map (fun r => (mounted p r.1, r.2)) (inner_routes p) ++ magic_routes p.

(** ** Dispatch *)

Definition fido_conformance_enabled (var : Env) : bool :=
  match var "FIDO_CONFORMANCE_ENABLED" with
  | Some v => bool_decide (v = "1") || bool_decide (v = "true")
  | None => false
  end.
Context (header_value_from_str : string -> bool).

Definition find_route {A} (pattern : string) (routes : list (string * A)) : option A :=
  snd <$> list_find_first (fun r => bool_decide (r.1 = pattern)) routes.
Definition handler_of {A} (m : method) (hs : list (method * A)) : option A :=
  snd <$> list_find_first (fun h => bool_decide (h.1 = m)) hs.
(** A route for GET answers HEAD too. *)
Definition handle (hs : list (method * Handler)) (rq : Request) (cap : option string) : prog provE Response :=
  let refused := mret (method_not_allowed (map fst hs)) in
  match method_of (rq_method rq) with
  | Some m => match handler_of m hs with Some h => h rq cap | None => refused end
  | None =>
      if bool_decide (rq_method rq = "HEAD") then
        match handler_of GET hs with
        | Some h => r ← h rq cap; mret (without_body r)
        | None => refused
        end
      else refused
  end.
Definition handle_fido (h : string -> prog fidoE Response) (rq : Request) : prog fidoE Response :=
  cors header_value_from_str (rq_method rq) (rq_headers rq)
    (if bool_decide (rq_method rq = "POST")
     then match extract string BodyString rq None with Ok body => h body | Err r => mret r end
     else mret (method_not_allowed [POST])).

Definition log_unmatched : Response := text_reply 404 "not found".
(** Without a route: the handler of a server at the root, axum's own answer otherwise. *)
Definition fallback (p : Provider) : Response :=
  if str_is_empty (p_base_path p) then log_unmatched else Reply 404 [] NoBody.

Definition fido_routes (var : Env) (st : FidoState) : list (string * (string -> prog fidoE Response)) :=
  if fido_conformance_enabled var then fido_router st else [].
Definition patterns (var : Env) (p : Provider) (st : FidoState) : list string :=
  map fst (web_routes p) ++ map fst (fido_routes var st).
Definition web {A} (q : prog provE A) : prog appE A := Prog.translate (@Web) q.
Definition conformance {A} (q : prog fidoE A) : prog appE A := Prog.translate (@Conformance) q.
Definition dispatch (var : Env) (p : Provider) (st : FidoState) (rq : Request) : prog appE Response :=
  match match_route (patterns var p st) (rq_path rq) with
  | None => mret (fallback p)
  | Some (pattern, cap) =>
      match find_route pattern (web_routes p) with
      | Some hs => web (handle hs rq cap)
      | None =>
          match find_route pattern (fido_routes var st) with
          | Some h => conformance (handle_fido h rq)
          | None => mret (fallback p)
          end
      end
  end.

(** ** Request identifiers *)

Definition is_ascii_graphic (c : ascii) : bool := (33 <=? nat_of_ascii c)%nat && (nat_of_ascii c <=? 126)%nat.
(** A usable identifier of the caller: one to two hundred graphic characters. *)
Definition inbound_id (hs : HeaderMap) : option string :=
  v ← header_get "x-request-id" hs;
  s ← header_to_str v;
  let n := String.length s in
  if (1 <=? n)%nat && (n <=? 200)%nat && str_forall is_ascii_graphic s then Some s else None.
(** An answer with its header [x-request-id]. *)
Record Traced := mkTraced { x_request_id : string; tr_response : Response }.
Definition serve (var : Env) (p : Provider) (st : FidoState) (rq : Request) : prog appE Traced :=
  rid ← (match inbound_id (rq_headers rq) with Some rid => mret rid | None => web fresh_id end);
  resp ← dispatch var p st rq;
  mret (mkTraced rid resp).
End app.

(** The name of an account in the log. *)
Definition pseudonymize_sub `{Externals} (var : Env) (sub : string) : string :=
  let salt := default "" (var "LOG_PSEUDONYM_KEY") in
  "h:" +:+ String.substring 0 16 (b64url_encode (sha256_digest (salt +:+ String (ascii_of_nat 0) sub))).
