(* ===== verification/AppFacts.v ===== *)
(** * Properties of the whole server

    What each route may change: the records of the stores and the collections of the
    database, for every request and every answer of the services. *)

From S2P Require Import Prelude Prog Json Model Decimal Calendar Firestore Externals Es256 WebAuthn Sys X509 Mds DocStore Nonce Ciba Dcr Claims Accounts AdminStore DcrStore.
From S2P Require Import Store Provider AuthChecks Dpop ClientAuth RequestObject Grants Http FidoStore Fido I18n Fcm Cli Templates Passkey CibaEndpoints Login AdminWeb Authorize Endpoints Registration PasskeyFacts App.

#[local] Open Scope Z_scope.

(** ** What an operation changes *)

Inductive mutation : Type :=
| OpenTransaction | EndTransaction | OpenSession | CloseSession | IssueCode | RedeemCode
| IssueToken | RevokeToken | SpendMandate
| OpenRequest | DecideRequest | RedeemRequest | KeepHistory
| SendsMail
| WritesIn (collection : string)
| DeletesIn (collection : string).
#[export] Instance mutation_eq_dec : EqDecision mutation.
Proof. solve_decision. Defined.

Definition store_mutation {X} (o : storeE X) : option mutation :=
  match o with
  | SaveInteraction _ => Some OpenTransaction
  | ConsumeInteraction _ => Some EndTransaction
  | SaveSession _ => Some OpenSession
  | DeleteSession _ => Some CloseSession
  | SaveCode _ => Some IssueCode
  | TakeCode _ => Some RedeemCode
  | LinkIssuedTokens _ _ _ | SaveAccessToken _ | SaveRefreshToken _ | MarkRefreshUsed _ _ => Some IssueToken
  | RevokeAccessToken _ | RevokeRefreshToken _ | RevokeRefreshFamily _ => Some RevokeToken
  | ConsumeMandateIfUnused _ => Some SpendMandate
  | GetInteraction _ | GetSession _ | GetAccessToken _ | GetRefreshToken _ | FindAccount _ => None
  end.
Definition ciba_mutation {X} (o : cibaE X) : option mutation :=
  match o with
  | CibaCreate _ _ _ _ _ => Some OpenRequest
  | TransitionIfPending _ _ => Some DecideRequest
  | ConsumeIfApproved _ | CibaDelete _ => Some RedeemRequest
  | RecordHistory _ | CibaSweepExpired _ => Some KeepHistory
  | CibaGet _ | ListPending _ | ListHistory _ _ => None
  end.
Definition fs_mutation {X} (o : fsE X) : option mutation :=
  match o with
  | SetDoc c _ _ | UpdateField c _ _ _ | MergeDoc c _ _ | SetDocIfUnchanged c _ _ _ | CreateIfAbsent c _ _ => Some (WritesIn c)
  | DeleteDoc c _ | DeleteDocIfUnchanged c _ _ => Some (DeletesIn c)
  | GetDoc _ _ | GetDocWithUpdateTime _ _ | QueryEq _ _ _ | ListRecentOrdered _ _ _ | ListCollection _ | AccessSecret _ | FcmSend _ => None
  end.
Definition sys_mutation {X} (o : sysE X) : option mutation :=
  match o with FsOp o => fs_mutation o | NowSecs | UuidV4 | Random32 => None end.
Definition mutates {X} (o : provE X) : option mutation :=
  match o with
  | SysOp o => sys_mutation o
  | StoreOp o => store_mutation o
  | CibaOp o => ciba_mutation o
  | SendMail _ _ _ => Some SendsMail
  | MemoryClaim _ _ _ | RateCheck _ _ _ | JwksResolve _ _ => None
  end.

(** ** Programs that change only what a list names *)

Definition permits (L : list mutation) (m : option mutation) : Prop := match m with Some k => k ∈ L | None => True end.
(** A change that the list names; on the database, of a document that is an object in a
    collection with a plain name. *)
Definition sys_permits {X} (L : list mutation) (e : sysE X) : Prop :=
  permits L (sys_mutation e) /\ match e with FsOp o => DocStore.named o = true | _ => True end.
Definition op_permits {X} (L : list mutation) (e : provE X) : Prop :=
  permits L (mutates e) /\ match e with SysOp (FsOp o) => DocStore.named o = true | _ => True end.
Fixpoint within {A} (L : list mutation) (q : prog provE A) : Prop :=
  match q with Ret _ => True | Vis e k => op_permits L e /\ forall x, within L (k x) end.
Fixpoint sys_within {A} (L : list mutation) (q : prog sysE A) : Prop :=
  match q with Ret _ => True | Vis e k => sys_permits L e /\ forall x, sys_within L (k x) end.

Section rules.
Context (L : list mutation).

Lemma within_bind {A B} (q : prog provE A) (f : A -> prog provE B) : within L q -> (forall a, within L (f a)) -> within L (q ≫= f).
Proof. intros Hq Hf. induction q as [a|X e k IH]; [apply Hf|]. destruct Hq as [He Hk]. split; [done|]. intros x. by apply IH. Qed.
Lemma within_try {Er A B} (q : prog provE (result Er A)) (f : A -> prog provE (result Er B)) :
  within L q -> (forall a, within L (f a)) -> within L (try_bind q f).
Proof. intros Hq Hf. apply within_bind; [done|]. by intros [a|e]. Qed.
Lemma within_finish (q : prog provE (result Response Response)) : within L q -> within L (finish q).
Proof. intros Hq. apply within_bind; [done|]. by intros [?|?]. Qed.
Lemma within_sys {A} (q : prog sysE A) : sys_within L q -> within L (sys q).
Proof.
  induction q as [a|X e k IH]; [done|]. intros [He Hk]. split; [|intros x; by apply IH]. destruct He. by split; [|destruct e].
Qed.
Lemma within_op {X} (o : provE X) : op_permits L o -> within L (trigger o).
Proof. by split. Qed.
Lemma sys_within_bind {A B} (q : prog sysE A) (f : A -> prog sysE B) :
  sys_within L q -> (forall a, sys_within L (f a)) -> sys_within L (q ≫= f).
Proof. intros Hq Hf. induction q as [a|X e k IH]; [apply Hf|]. destruct Hq as [He Hk]. split; [done|]. intros x. by apply IH. Qed.
Lemma sys_within_try {Er A B} (q : prog sysE (result Er A)) (f : A -> prog sysE (result Er B)) :
  sys_within L q -> (forall a, sys_within L (f a)) -> sys_within L (try_bind q f).
Proof. intros Hq Hf. apply sys_within_bind; [done|]. by intros [a|e]. Qed.
Lemma sys_within_op {X} (o : sysE X) : sys_permits L o -> sys_within L (trigger o).
Proof. by split. Qed.
Lemma within_mono {A} (L' : list mutation) (q : prog provE A) : (forall k, k ∈ L -> k ∈ L') -> within L q -> within L' q.
Proof.
  intros Hs. induction q as [a|X e k IH]; [done|]. intros [[He Hn] Hk]. split; [|intros x; by apply IH].
  split; [|done]. unfold permits in *. destruct (mutates e); auto.
Qed.
End rules.

Lemma permits_decide L m : match m with Some k => bool_decide (k ∈ L) | None => true end = true -> permits L m.
Proof. destruct m as [k|]; [|done]. apply bool_decide_eq_true. Qed.
(** One step along a program; [confine] repeats it. *)
Create HintDb confine discriminated.
Create HintDb named.
Ltac head_of t := match t with ?f _ => head_of f | _ => t end.
Ltac names_leaf := first [exact I | reflexivity | solve [eauto with named]].
Ltac confine_leaf := split; [first [exact I | assumption | apply permits_decide; vm_compute; reflexivity] | names_leaf].
Ltac confine_step :=
  match goal with
  | |- within _ (Ret _) => exact I
  | |- within _ (mret _) => exact I
  | |- sys_within _ (Ret _) => exact I
  | |- sys_within _ (mret _) => exact I
  | |- forall _, _ => intros ?
  | |- within _ (sys _) => apply within_sys
  | |- within _ (finish _) => apply within_finish
  | |- within _ (try_bind _ _) => apply within_try
  | |- within _ (mbind _ _) => apply within_bind
  | |- within _ (trigger _) => apply within_op; confine_leaf
  | |- within _ (store _) => apply within_op; confine_leaf
  | |- within _ (ciba _) => apply within_op; confine_leaf
  | |- sys_within _ (try_bind _ _) => apply sys_within_try
  | |- sys_within _ (mbind _ _) => apply sys_within_bind
  | |- sys_within _ (trigger _) => apply sys_within_op; confine_leaf
  | |- sys_within _ (fs _) => apply sys_within_op; confine_leaf
  | |- within _ (match ?x with _ => _ end) => destruct x
  | |- sys_within _ (match ?x with _ => _ end) => destruct x
  | |- within _ (let '_ := ?x in _) => destruct x
  | |- within _ ?q => let h := head_of q in lazymatch h with match ?x with _ => _ end => destruct x end
  | |- within _ ?q => first [solve [auto 1 with confine nocore] | let h := head_of q in progress (unfold h; cbv beta zeta)]
  | |- sys_within _ ?q => first [solve [auto 1 with confine nocore] | let h := head_of q in progress (unfold h; cbv beta zeta)]
  end.
Ltac confine := repeat (cbv beta zeta; confine_step).

Section handlers.
Context `{Axum, Externals, AdminCodec, IatCodec}.

Section shared.
Context (L : list mutation).

Lemma find_pending_within c a : within L (Prog.translate (@CibaOp) (find_pending_for c a)).
Proof. split; [by split|]. by intros [?|?]. Qed.
Lemma resolve_client_within p id : within L (resolve_client p id).
Proof. confine. Qed.
Lemma claim_within p t key ttl : WritesIn "nonces" ∈ L -> within L (claim p t key ttl).
Proof. intros Hn. confine. Qed.
Lemma authenticate_client_within p hs form : WritesIn "nonces" ∈ L -> within L (authenticate_client p hs form).
Proof. intros Hn. confine. Qed.
Lemma authenticate_token_within p hs m path t : WritesIn "nonces" ∈ L -> within L (authenticate_token p hs m path t).
Proof. intros Hn. confine. Qed.
Lemma require_admin_within p jar : within L (require_admin p jar).
Proof. confine. Qed.
Lemma audit_within actor action target note : WritesIn "auditLog" ∈ L -> sys_within L (audit_record actor action target note).
Proof. intros Hn. confine. Qed.
End shared.


Lemma revoke_rows_within L col n rows : DeletesIn col ∈ L -> collection_name col = true -> sys_within L (revoke_rows col n rows).
Proof.
  intros Hc Hn. revert n. induction rows as [|[id v] rows IH]; intros n; [exact I|]. split; [|intros r; apply IH].
  split; [exact Hc|]. unfold DocStore.named. simpl. by rewrite Hn.
Qed.
End handlers.
#[export] Hint Resolve find_pending_within resolve_client_within require_admin_within : confine.

(** ** The matrix: what each route may change *)

Definition frozen_account : list mutation :=
  [WritesIn "accounts"; DeletesIn "sessions"; DeletesIn "accessTokens"; DeletesIn "refreshTokens"; WritesIn "auditLog"].
Definition matrix : list (string * method * list mutation) :=
  [("/authorize", GET, [OpenTransaction; IssueCode; DeletesIn "parRequests"; WritesIn "nonces"]);
   ("/authorize/resume", GET, [EndTransaction; IssueCode; DeletesIn "parRequests"]);
   ("/login/{uid}/passkey/options", POST, [WritesIn "webauthnChallenges"]);
   ("/login/{uid}/passkey/verify", POST, [OpenTransaction; OpenSession; DeletesIn "webauthnChallenges"; WritesIn "accounts"]);
   ("/token", POST, [RedeemCode; IssueToken; RevokeToken; RedeemRequest; WritesIn "nonces"]);
   ("/introspect", POST, [WritesIn "nonces"]);
   ("/oauth/mandate/consume", POST, [SpendMandate; WritesIn "nonces"]);
   ("/oauth/register", POST, [DeletesIn "dcrTokens"; WritesIn "clients"]);
   ("/revoke", POST, [RevokeToken; WritesIn "nonces"]);
   ("/end-session", GET, [CloseSession]);
   ("/par", POST, [WritesIn "nonces"; WritesIn "parRequests"]);
   ("/userinfo", GET, [WritesIn "nonces"]);
   ("/userinfo", POST, [WritesIn "nonces"]);
   ("/me/profile", GET, [WritesIn "nonces"]);
   ("/me/profile", PUT, [WritesIn "nonces"; WritesIn "profiles"]);
   ("/backchannel-authentication", POST, [OpenRequest; WritesIn "nonces"]);
   ("/ciba/pending", GET, [KeepHistory; WritesIn "nonces"]);
   ("/ciba/history", GET, [KeepHistory; WritesIn "nonces"]);
   ("/ciba/fcm-tokens", POST, [WritesIn "nonces"; WritesIn "fcmTokens"]);
   ("/ciba/{auth_req_id}/passkey-options", POST, [WritesIn "webauthnChallenges"]);
   ("/ciba/{auth_req_id}/approve", POST, [DecideRequest; KeepHistory; DeletesIn "webauthnChallenges"; WritesIn "accounts"]);
   ("/ciba/{auth_req_id}/reject", POST, [DecideRequest; KeepHistory]);
   ("/admin/users/{account_id}/disable", POST, frozen_account);
   ("/admin/users/{account_id}/enable", POST, [WritesIn "accounts"; WritesIn "auditLog"]);
   ("/admin/users/{account_id}/delete", POST,
      [DeletesIn "accounts"; DeletesIn "accountsByUuid"; DeletesIn "profiles"; DeletesIn "fcmTokens";
       DeletesIn "sessions"; DeletesIn "accessTokens"; DeletesIn "refreshTokens"; WritesIn "auditLog"]);
   ("/admin/users/{account_id}/grant-admin", POST, [WritesIn "admins"; WritesIn "auditLog"]);
   ("/admin/users/{account_id}/revoke-admin", POST, [WritesIn "admins"; WritesIn "auditLog"]);
   ("/admin/clients/{client_id}/revoke", POST, [DeletesIn "clients"; WritesIn "auditLog"]);
   ("/admin/clients/{client_id}/post-logout", POST, [WritesIn "clients"; WritesIn "auditLog"]);
   ("/admin/iats/new", POST, [WritesIn "dcrTokens"; WritesIn "adminIatFlash"; WritesIn "auditLog"]);
   ("/admin/iats/{hash}/revoke", POST, [DeletesIn "dcrTokens"; WritesIn "auditLog"]);
   ("/admin/iats/flash/{flash_id}", GET, [DeletesIn "adminIatFlash"]);
   ("/signup", POST, [SendsMail; WritesIn "emailChallenges"]);
   ("/signup/email-challenge", POST, [SendsMail; WritesIn "emailChallenges"]);
   ("/signup/passkey/options", POST, [WritesIn "webauthnChallenges"]);
   ("/signup/passkey/verify", POST,
      [DeletesIn "emailChallenges"; DeletesIn "webauthnChallenges"; WritesIn "accounts"; WritesIn "accountsByUuid"; WritesIn "profiles"]);
   ("/invites", POST, [WritesIn "emailChallenges"; WritesIn "nonces"]);
   ("/accounts/disable", POST, WritesIn "nonces" :: frozen_account)].
(** Every other route changes nothing. *)
Definition may (pattern : string) (m : method) : list mutation :=
  match list_find_first (fun e => bool_decide (e.1.1 = pattern) && bool_decide (e.1.2 = m)) matrix with
  | Some (_, L) => L
  | None => []
  end.


Section matrix.
Context `{Axum, Externals, AdminCodec, IatCodec}.

Definition confined (r : string * list (method * Handler)) (pattern : string) : Prop :=
  Forall (fun h => forall rq cap, within (may pattern h.1) (h.2 rq cap)) r.2.
Lemma inner_confined p : Forall (fun r => confined r r.1) (inner_routes p).
Proof.
  repeat apply Forall_cons_2; try apply Forall_nil_2;
    repeat apply Forall_cons_2; try apply Forall_nil_2; intros rq cap;
    match goal with |- within (may ?a ?m) _ => let L := eval vm_compute in (may a m) in change (may a m) with L end;
    unfold with_arg, with_args, plain, answers; cbn [snd]; confine;
    (apply revoke_rows_within; [apply (permits_decide _ (Some _)); vm_compute; reflexivity | reflexivity]).
Qed.

Lemma within_Forall (hs : list (method * Handler)) m h L :
  (forall h', (m, h') ∈ hs -> forall rq cap, within L (h' rq cap)) -> handler_of m hs = Some h ->
  forall rq cap, within L (h rq cap).
Proof.
  unfold handler_of. intros Hf Hh. destruct (list_find_first _ hs) as [[m' h']|] eqn:Hl; [|done].
  injection Hh as ->. apply list_find_first_Some in Hl as [Hin Hm]. apply bool_decide_eq_true in Hm as Hm. cbn in Hm. subst m'. by apply Hf.
Qed.
(** The method a route is taken with. *)
Definition effective_method (s : string) : option method := if bool_decide (s = "HEAD") then Some GET else method_of s.
Lemma handle_within (hs : list (method * Handler)) rq cap (L : method -> list mutation) :
  Forall (fun h => forall rq cap, within (L h.1) (h.2 rq cap)) hs ->
  within (match effective_method (rq_method rq) with Some m => L m | None => [] end) (handle hs rq cap).
Proof.
  intros Hf. rewrite Forall_forall in Hf. unfold handle, effective_method.
  assert (Hm : forall m h, handler_of m hs = Some h -> forall rq cap, within (L m) (h rq cap)).
  { intros m h. apply within_Forall. intros h' Hin. apply (Hf (m, h') Hin). }
  destruct (bool_decide (rq_method rq = "HEAD")) eqn:Hh.
  - apply bool_decide_eq_true in Hh as ->. cbn. destruct (handler_of GET hs) as [h|] eqn:Hg; [|exact I].
    apply within_bind; [by apply Hm | by intros r].
  - destruct (method_of (rq_method rq)) as [m|]; [|exact I]. destruct (handler_of m hs) as [h|] eqn:Hg; [by apply Hm | exact I].
Qed.

(** The routes outside of the nested router change nothing. *)
Lemma web_route_confined p pattern hs rq cap :
  find_route pattern (web_routes p) = Some hs ->
  within [] (handle hs rq cap) \/
  exists inner, pattern = mounted p inner /\
    within (match effective_method (rq_method rq) with Some m => may inner m | None => [] end) (handle hs rq cap).
Proof.
  unfold find_route. intros Hf. destruct (list_find_first _ _) as [r|] eqn:Hl; [|done]. injection Hf as <-.
  apply list_find_first_Some in Hl as [Hin Hp]. apply bool_decide_eq_true in Hp. subst pattern.
  assert (Hempty : Forall (fun h : method * Handler => forall rq cap, within [] (h.2 rq cap)) r.2 -> within [] (handle r.2 rq cap)).
  { intros Hr. pose proof (handle_within r.2 rq cap (fun _ => []) Hr) as Hw. by destruct (effective_method _). }
  unfold web_routes in Hin. rewrite !elem_of_app in Hin. destruct Hin as [Hb|[Hi|Hm]].
  - left. apply Hempty. unfold base_routes in Hb. destruct (str_is_empty (p_base_path p)); [by apply elem_of_nil in Hb|].
    rewrite !elem_of_cons in Hb. destruct Hb as [->|[->|Hb]]; [repeat constructor..|by apply elem_of_nil in Hb].
  - right. apply list_elem_of_fmap in Hi as (r' & -> & Hin). exists r'.1. split; [done|].
    apply handle_within. pose proof (inner_confined p) as Hall. rewrite Forall_forall in Hall. exact (Hall r' Hin).
  - left. apply Hempty. unfold magic_routes in Hm. rewrite !elem_of_cons in Hm. destruct Hm as [->|[->|Hm]]; [| |by apply elem_of_nil in Hm];
      (constructor; [|constructor]); intros rq' cap'; unfold with_arg, answers; cbn [snd]; confine.
Qed.
End matrix.

Section app_facts.
Context `{Axum, Externals, AdminCodec, IatCodec, !X509, !MdsCodec}.
Context (header_value_from_str : string -> bool).

(** What an event of the process may be for one request: a change of the matrix for the
    route and the method it was dispatched to, or an operation of the conformance server
    when that is switched on. *)
Definition accounted (var : Env) (p : Provider) (st : FidoState) (rq : Request) (ev : event appE) : Prop :=
  match ev with
  | Ev _ e _ =>
      match e with
      | Web o => forall k, mutates o = Some k ->
          exists pattern cap m, match_route (patterns var p st) (rq_path rq) = Some (mounted p pattern, cap) /\
            effective_method (rq_method rq) = Some m /\ k ∈ may pattern m
      | Conformance _ => fido_conformance_enabled var = true
      end
  | EvEnv => False
  end.
Fixpoint all_accounted {A} (P : event appE -> Prop) (q : prog appE A) : Prop :=
  match q with Ret _ => True | Vis e k => forall i x, P (Ev i e x) /\ all_accounted P (k x) end.
Lemma all_accounted_path {A} P (q : prog appE A) tr q' ev : all_accounted P q -> thread_path q tr q' -> ev ∈ tr -> P ev.
Proof.
  revert tr. induction q as [a|X e k IH]; intros tr Hq; simpl.
  - by intros [-> _] ?%elem_of_nil.
  - intros [[-> _]|(i & x & tr' & -> & Hp)] Hin; [by apply elem_of_nil in Hin|]. destruct (Hq i x) as [He Hk].
    apply elem_of_cons in Hin as [->|Hin]; [done | by eapply IH].
Qed.
Lemma all_accounted_bind {A B} P (q : prog appE A) (f : A -> prog appE B) :
  all_accounted P q -> (forall a, all_accounted P (f a)) -> all_accounted P (q ≫= f).
Proof.
  intros Hq Hf. induction q as [a|X e k IH]; [apply Hf|]. intros i x. destruct (Hq i x). split; [done | by apply IH].
Qed.
Lemma web_accounted {A} (P : event appE -> Prop) L (q : prog provE A) :
  (forall i X (o : provE X) (x : X), permits L (mutates o) -> P (Ev i (Web o) x)) -> within L q -> all_accounted P (web q).
Proof.
  intros Hp. induction q as [a|X e k IH]; [done|]. intros [[He Hn] Hk] i x. split; [by apply Hp | by apply IH].
Qed.
Lemma conformance_accounted {A} (P : event appE -> Prop) (q : prog fidoE A) :
  (forall i X (o : fidoE X) (x : X), P (Ev i (Conformance o) x)) -> all_accounted P (conformance q).
Proof. intros Hp. induction q as [a|X e k IH]; [done|]. intros i x. split; [apply Hp | apply IH]. Qed.

(** C13: for every request to the server, whatever the services answer: an operation that
    changes a record of the stores, a document of the database or sends a mail is one the
    matrix lists for the route and the method of the request (sessions are opened only by
    the verified login, codes issued only by the two authorization endpoints, tokens only
    by the token endpoint, credentials written only by sign-up, login and approval, ...), and no
    operation of the conformance server happens unless it was switched on. *)
Theorem routes_confined var p st rq tr q ev :
  thread_path (serve header_value_from_str var p st rq) tr q -> ev ∈ tr -> accounted var p st rq ev.
Proof.
  apply all_accounted_path. unfold serve. apply all_accounted_bind.
  { destruct (inbound_id _); [done|]. apply (web_accounted _ []); [|by split]. intros i X o x Ho k Hk.
    rewrite Hk in Ho. by apply elem_of_nil in Ho. }
  intros rid. apply all_accounted_bind; [|done]. unfold dispatch.
  destruct (match_route _ _) as [[pattern cap]|] eqn:Hm; [|done].
  destruct (find_route pattern (web_routes p)) as [hs|] eqn:Hw.
  - destruct (web_route_confined p pattern hs rq cap Hw) as [Hn|(inner & -> & Hn)]; (eapply web_accounted; [|exact Hn]);
      intros i X o x Ho k Hk; rewrite Hk in Ho; [by apply elem_of_nil in Ho|].
    destruct (effective_method (rq_method rq)) as [m|] eqn:He; [|by apply elem_of_nil in Ho].
    exists inner, cap, m. split; [exact Hm | done].
  - destruct (find_route pattern (fido_routes var st)) as [h|] eqn:Hf; [|done].
    apply conformance_accounted. intros i X o x. unfold accounted. unfold fido_routes in Hf.
    by destruct (fido_conformance_enabled var).
Qed.
End app_facts.

(** ** A request *)

From S2P Require Import AdminFacts PasskeyWitnesses FidoWitnesses.

Section witness.
#[local] Existing Instance conformance_externals.
#[local] Existing Instance conformance_x509.
#[local] Existing Instance conformance_codec.
#[local] Existing Instance binary_codec.
#[local] Existing Instance console_codec.
#[local] Instance plain_paths : Axum := {|
  match_route patterns path := if list_any (fun q => bool_decide (q = path)) patterns then Some (path, None) else None;
  extract T x rq cap :=
    match x in Extractor T return result Response T with
    | QueryEndSession => Ok (mkEndSessionQuery None None None None)
    | _ => Err (text_reply 400 "")
    end;
  cookie_jar hs := match header_get "cookie" hs with Some sid => {[ SID_COOKIE := sid ]} | None => ∅ end;
  method_not_allowed ms := Reply 405 [] NoBody;
  without_body r := r
|}.

(** Signing out under the base path /oidc, with the conformance server off. *)
Definition oidc_provider : Provider := with_base_path "/oidc" passkey_provider.
Definition sign_out : Request := mkRequest "GET" "/oidc/end-session" None [("cookie", "s1"); ("x-request-id", "r-1")] "".
Definition no_variables : Env := fun _ => None.
Definition sign_out_program := serve (fun _ => true) no_variables oidc_provider (FidoState_from_env no_variables) sign_out.
Definition closing : event appE := Ev 0 (Web (StoreOp (DeleteSession "s1"))) ().
Lemma routes_confined_witness :
  accounted no_variables oidc_provider (FidoState_from_env no_variables) sign_out closing /\ may "/end-session" GET = [CloseSession].
Proof.
  split; [|reflexivity].
  refine (routes_confined (fun _ => true) no_variables oidc_provider (FidoState_from_env no_variables) sign_out [closing] _ closing _ _).
  - vm_compute. right. exists 0%nat, (), []. by split.
  - by left.
Defined.
End witness.
