(* ===== verification/Records.v ===== *)
(** * The records of the database and what vouches for them

    The server as it is deployed: the operations of the stores are the programs of
    [FirestoreStore] and [Ciba] on the shared database, so that the requests interleave
    at the operations of the database.  What a thread writes into a record is related to
    what the same thread has read or verified before. *)

From S2P Require Import Prelude Prog Json Model Decimal Calendar Firestore Externals Es256 WebAuthn Sys DocStore Nonce Ciba Dcr Claims Accounts Store FirestoreStore Provider Http Passkey PasskeyFacts.

#[local] Open Scope Z_scope.

(** ** The stores on the database *)

Definition on_database_op X (o : provE X) : prog provE X :=
  match o in provE X return prog provE X with
  | StoreOp o => sys (firestore_store_op _ o)
  | CibaOp o => sys (firestore_ciba_op _ o)
  | SysOp o => trigger (SysOp o)
  | MemoryClaim t key ttl => trigger (MemoryClaim t key ttl)
  | RateCheck t a b => trigger (RateCheck t a b)
  | JwksResolve uri kid => trigger (JwksResolve uri kid)
  | SendMail to subject html => trigger (SendMail to subject html)
  end.
Definition stores_on_database {A} (q : prog provE A) : prog provE A := interp on_database_op q.

(** ** Records *)

Definition account_of (f : Value) : option string := nonempty_field f "accountId".
Definition time_of (f : Value) : option Z := field_u64 f "authTime".
Definition request_account (f : Value) : string := str_or_empty f "account".
Definition request_status (f : Value) : CibaStatus := status_parse (default "pending" (field_str f "status")).

(** Records of an authentication, records of a grant. *)
Definition fronts : list string := ["sessions"; "interactions"; "authCodes"].
Definition tokens : list string := ["accessTokens"; "refreshTokens"].
Definition records : list string := CIBA_COL :: fronts ++ tokens.

Section evidence.
Context `{Externals} (p : Provider).

Definition doc_read (tr : trace) (c i : string) (f : Value) : Prop :=
  exists j, Ev j (SysOp (FsOp (GetDoc c i))) (Ok (Some f)) ∈ tr \/
    exists v, Ev j (SysOp (FsOp (GetDocWithUpdateTime c i))) (Ok (Some (f, v))) ∈ tr.

(** A passkey of the account has signed a login, at the time [t] of the clock. *)
Definition signed_login (tr : trace) (a : string) (t : Z) : Prop :=
  exists uid req challenge challenge_email email account_id cred k,
    challenge_read tr challenge Auth uid challenge_email account_id /\
    email_resolved tr (avr_user_handle (av_response req)) challenge_email email /\
    credential_read tr email cred /\ cr_disabled cred = false /\ cr_credential_id cred = av_id req /\
    asserted p req challenge cred false /\ cr_account_id cred = a /\ Ev k (SysOp NowSecs) t ∈ tr.
(** A passkey of the account has signed the approval of the request. *)
Definition signed_approval (tr : trace) (auth_req_id a : string) : Prop :=
  exists req challenge email account cred,
    challenge_read tr challenge CibaApprove auth_req_id email account /\
    credential_read tr email cred /\ cr_disabled cred = false /\ cr_credential_id cred = av_id req /\
    asserted p req challenge cred true /\ cr_account_id cred = a.

(** ** What a thread may write *)

(** From an authentication record that was read. *)
Definition from_front (pre : trace) (a : string) (t : option Z) : Prop :=
  exists c i g, doc_read pre c i g /\ c ∈ fronts /\ account_of g = Some a /\ (time_of g = t \/ time_of g = None).
Definition front_record_ok (pre : trace) (f : Value) : Prop :=
  forall a, account_of f = Some a ->
    (exists t, (in_u64 t -> time_of f = Some t) /\ signed_login pre a t) \/ from_front pre a (time_of f).
Definition token_record_ok (pre : trace) (f : Value) : Prop :=
  forall a, account_of f = Some a ->
    from_front pre a (time_of f) \/
    (exists c i g, doc_read pre c i g /\ c ∈ tokens /\ account_of g = Some a /\ time_of g = time_of f) \/
    (time_of f = None /\ exists i g, doc_read pre CIBA_COL i g /\ request_status g = Approved /\ request_account g = a).
(** A new request is pending, under an identifier just drawn; the others keep the account
    of the one read. *)
Definition request_ok (pre : trace) (i : string) (f : Value) (created : bool) : Prop :=
  if created then
    request_status f = Pending /\ exists pre0 j k t, pre = pre0 ++ [Ev j (SysOp UuidV4) i; Ev k (SysOp NowSecs) t]
  else
    exists g, doc_read pre CIBA_COL i g /\ request_account g = request_account f /\
      (request_status f = Approved -> exists g', doc_read pre CIBA_COL i g' /\ signed_approval pre i (request_account g')).

Definition set_ok (pre : trace) (c i : string) (f : Value) (created : bool) : Prop :=
  (c ∈ fronts -> front_record_ok pre f) /\ (c ∈ tokens -> token_record_ok pre f) /\ (c = CIBA_COL -> request_ok pre i f created).
Definition op_ok (pre : trace) {X} (o : fsE X) : Prop :=
  ((forall c i f, doc_read pre c i f -> is_object f) -> named o = true) /\
  match o with
  | SetDoc c i f => set_ok pre c i f true
  | SetDocIfUnchanged c i f _ => set_ok pre c i f false
  | UpdateField c _ _ _ | CreateIfAbsent c _ _ => c ∉ records
  | MergeDoc c i f => c ∈ records -> c = "authCodes" /\ f <> Object [] /\ get f "accountId" = None /\ get f "authTime" = None
  | _ => True
  end.
Definition db_op (ev : event provE) : Prop :=
  match ev with Ev _ (SysOp (FsOp _)) _ => True | _ => False end.
Definition db_op_ok (pre : trace) (ev : event provE) : Prop :=
  match ev with Ev _ (SysOp (FsOp o)) _ => op_ok pre o | _ => True end.

(** ** What a thread of the handlers may save *)

(** The account of a record of the stores in the answers read so far. *)
Definition front_read (pre : trace) (a : string) (t : option Z) : Prop :=
  (exists j sid s, Ev j (StoreOp (GetSession sid)) (Some s) ∈ pre /\ se_account_id s = a /\ t = Some (se_auth_time s)) \/
  (exists j uid i, Ev j (StoreOp (GetInteraction uid)) (Some i) ∈ pre /\ in_account_id i = Some a /\
     (in_auth_time i = t \/ in_auth_time i = None)) \/
  (exists j code c, Ev j (StoreOp (TakeCode code)) (Some c) ∈ pre /\ ac_account_id c = a /\ t = Some (ac_auth_time c)).
Definition refresh_read (pre : trace) (a : string) (t : option Z) : Prop :=
  exists j rt r, Ev j (StoreOp (GetRefreshToken rt)) (Some r) ∈ pre /\ rt_account_id r = a /\ rt_auth_time r = t.
Definition request_consumed (pre : trace) (a : string) : Prop :=
  exists j id r, Ev j (CibaOp (ConsumeIfApproved id)) (Ok (Some r)) ∈ pre /\ br_account r = a.
Definition logged_in_by (pre : trace) (a : string) (t : Z) : Prop :=
  exists a0 j account, signed_login pre a0 t /\ Ev j (StoreOp (FindAccount a0)) account ∈ pre /\ a = acct_sub account.

Definition save_ok (pre : trace) {X} (o : provE X) : Prop :=
  match o with
  | StoreOp o =>
      match o with
      | SaveSession s => logged_in_by pre (se_account_id s) (se_auth_time s)
      | SaveInteraction i => forall a, in_account_id i = Some a -> exists t, in_auth_time i = Some t /\ logged_in_by pre a t
      | SaveCode c => front_read pre (ac_account_id c) (Some (ac_auth_time c))
      | SaveAccessToken t =>
          front_read pre (at_account_id t) (at_auth_time t) \/ refresh_read pre (at_account_id t) (at_auth_time t) \/
          at_auth_time t = None /\ request_consumed pre (at_account_id t)
      | SaveRefreshToken t =>
          front_read pre (rt_account_id t) (rt_auth_time t) \/ refresh_read pre (rt_account_id t) (rt_auth_time t)
      | _ => True
      end
  | CibaOp o =>
      match o with
      | TransitionIfPending id Approved =>
          exists j q, Ev j (CibaOp (CibaGet id)) (Ok (Some q)) ∈ pre /\ signed_approval pre id (br_account q)
      | _ => True
      end
  | _ => True
  end.
End evidence.

(** ** What the answers of the stores tell of the documents *)

Section carried.
Context `{Externals} (p : Provider).

Definition answer_read (pre : trace) {X} (o : storeE X) : X -> Prop :=
  match o in storeE X return X -> Prop with
  | GetSession sid => fun r => forall s, r = Some s -> exists g, doc_read pre "sessions" sid g /\ s = session_of_doc sid g
  | GetInteraction uid => fun r => forall i, r = Some i -> exists g, doc_read pre "interactions" uid g /\ i = interaction_of_doc uid g
  | TakeCode code => fun r => forall c, r = Some c ->
      exists g, doc_read pre "authCodes" code g /\ c = code_of_doc code (set_field g "used" (fs_b true))
  | GetRefreshToken rt => fun r => forall t, r = Some t -> exists g, doc_read pre "refreshTokens" rt g /\ t = rt_from_fields rt g
  | FindAccount sub => fun a => acct_sub a = sub
  | _ => fun _ => True
  end.
Definition request_answer_read (pre : trace) {X} (o : cibaE X) : X -> Prop :=
  match o in cibaE X return X -> Prop with
  | CibaGet id => fun r => forall q, r = Ok (Some q) -> exists g, doc_read pre CIBA_COL id g /\ q = br_from_fields id g
  | ConsumeIfApproved id => fun r => forall q, r = Ok (Some q) ->
      exists g, doc_read pre CIBA_COL id g /\ q = br_from_fields id g /\ request_status g = Approved
  | _ => fun _ => True
  end.
(** The event of a handler, in the trace of its operations on the database. *)
Definition carried (pre : trace) (ev : event provE) : Prop :=
  match ev with
  | Ev j e x =>
      match e in provE X return X -> Prop with
      | SysOp o => fun x => Ev j (SysOp o) x ∈ pre
      | StoreOp o => answer_read pre o
      | CibaOp o => request_answer_read pre o
      | _ => fun _ => True
      end x
  | EvEnv => True
  end.
Definition carried_all (pre pre' : trace) : Prop := forall ev, ev ∈ pre -> carried pre' ev.

Lemma doc_read_mono tr tr' c i f : doc_read tr c i f -> (forall ev, ev ∈ tr -> ev ∈ tr') -> doc_read tr' c i f.
Proof. intros (j & [Hj|(v & Hj)]) Hs; exists j; eauto. Qed.
Lemma signed_login_mono tr tr' a t : signed_login p tr a t -> (forall ev, ev ∈ tr -> ev ∈ tr') -> signed_login p tr' a t.
Proof.
  intros (uid & req & ch & ce & email & acc & cred & k & Hc & He & Hr & Hd & Hid & Ha & Hac & Hk) Hs.
  exists uid, req, ch, ce, email, acc, cred, k.
  split; [by eapply challenge_read_mono|]. split; [|split; [by eapply credential_read_mono | auto 10]].
  destruct He as [?|(uh & l & f & ? & ? & ?)]; [by left | right]. exists uh, l, f. auto.
Qed.
Lemma signed_approval_mono tr tr' id a : signed_approval p tr id a -> (forall ev, ev ∈ tr -> ev ∈ tr') -> signed_approval p tr' id a.
Proof.
  intros (req & ch & email & acc & cred & Hc & Hr & Hrest) Hs. exists req, ch, email, acc, cred.
  split; [by eapply challenge_read_mono|]. split; [by eapply credential_read_mono | done].
Qed.
Lemma carried_mono tr tr' ev : carried tr ev -> (forall ev, ev ∈ tr -> ev ∈ tr') -> carried tr' ev.
Proof.
  intros Hc Hs. destruct ev as [j X e x|]; [|done]. destruct e as [X o|X o|X o| | | |]; try done; [by apply Hs|..].
  - destruct o; simpl in *; try done; intros y Hy; destruct (Hc y Hy) as (g & Hg & ->); exists g;
      (split; [by eapply doc_read_mono | done]).
  - destruct o; simpl in *; try done; intros y Hy; destruct (Hc y Hy) as (g & Hg & Hr); exists g;
      (split; [by eapply doc_read_mono | done]).
Qed.

(** Evidence of a handler's trace holds in the trace of its operations. *)
Lemma carried_sys pre pre' : carried_all pre pre' ->
  forall j X (o : sysE X) (x : X), Ev j (SysOp o) x ∈ pre -> Ev j (SysOp o) x ∈ pre'.
Proof. intros Hc j X o x Hin. exact (Hc _ Hin). Qed.
Lemma carried_login pre pre' a t : carried_all pre pre' -> signed_login p pre a t -> signed_login p pre' a t.
Proof.
  intros Hc Hl. pose proof (carried_sys _ _ Hc) as Hs. clear Hc.
  destruct Hl as (uid & req & ch & ce & email & acc & cred & k & (i1 & f1 & j1 & t1 & Hf & Ht & Hch) & He & (i2 & f2 & Hg & Hcr) & Hd & Hid & Ha & Hac & Hk).
  exists uid, req, ch, ce, email, acc, cred, k.
  split; [exists i1, f1, j1, t1; auto|]. split.
  { destruct He as [?|(uh & l & f & ? & ? & ?)]; [by left | right]. exists uh, l, f. auto. }
  split; [exists i2, f2; auto|]. auto 10.
Qed.
Lemma carried_approval pre pre' id a : carried_all pre pre' -> signed_approval p pre id a -> signed_approval p pre' id a.
Proof.
  intros Hc Hl. pose proof (carried_sys _ _ Hc) as Hs. clear Hc.
  destruct Hl as (req & ch & email & acc & cred & (i1 & f1 & j1 & t1 & Hf & Ht & Hch) & (i2 & f2 & Hg & Hcr) & Hrest).
  exists req, ch, email, acc, cred. split; [exists i1, f1, j1, t1; auto|]. split; [exists i2, f2; auto | done].
Qed.

(** ** Accounts and times of the documents written *)

Lemma account_of_string f a : field_string f "accountId" = a -> a <> "" -> account_of f = Some a.
Proof.
  unfold field_string, account_of, nonempty_field. intros Hf Hne. destruct (field_str f "accountId") as [s|]; simpl in *; [|congruence].
  subst s. by destruct a.
Qed.
Lemma account_of_Some f a : account_of f = Some a -> field_str f "accountId" = Some a /\ a <> "".
Proof.
  unfold account_of, nonempty_field. destruct (field_str f "accountId") as [s|]; [|done]. simpl.
  destruct (str_is_empty s) eqn:He; [done|]. intros [= ->]. split; [done|]. by intros ->.
Qed.
Lemma account_of_session now s a : account_of (session_doc now s) = Some a -> se_account_id s = a.
Proof.
  intros [Hf _]%account_of_Some. assert (He : field_str (session_doc now s) "accountId" = Some (se_account_id s)) by (unfold session_doc; read_field).
  congruence.
Qed.
Lemma account_of_interaction now i a : account_of (interaction_doc now i) = Some a -> in_account_id i = Some a.
Proof.
  intros [Hf _]%account_of_Some. assert (He : field_str (interaction_doc now i) "accountId" = in_account_id i) by (unfold interaction_doc; read_field).
  congruence.
Qed.
Lemma account_of_code c a : account_of (code_doc c) = Some a -> ac_account_id c = a.
Proof.
  intros [Hf _]%account_of_Some. assert (He : field_str (code_doc c) "accountId" = Some (ac_account_id c)) by (unfold code_doc; read_field).
  congruence.
Qed.
Lemma account_of_access now t a : account_of (access_doc now t) = Some a -> at_account_id t = a.
Proof.
  intros [Hf _]%account_of_Some. assert (He : field_str (access_doc now t) "accountId" = Some (at_account_id t)) by (unfold access_doc; read_field).
  congruence.
Qed.
Lemma account_of_refresh now t a : account_of (refresh_doc now t) = Some a -> rt_account_id t = a.
Proof.
  intros [Hf _]%account_of_Some. assert (He : field_str (refresh_doc now t) "accountId" = Some (rt_account_id t)) by (unfold refresh_doc; read_field).
  congruence.
Qed.

Lemma time_of_session now s : in_u64 (se_auth_time s) -> time_of (session_doc now s) = Some (se_auth_time s).
Proof. intros Ht. unfold time_of, session_doc. read_field. Qed.
Lemma time_of_interaction now i : u64_opt (in_auth_time i) -> time_of (interaction_doc now i) = in_auth_time i.
Proof. intros Ht. unfold time_of, interaction_doc. read_field. Qed.
Lemma time_of_code c : in_u64 (ac_auth_time c) -> time_of (code_doc c) = Some (ac_auth_time c).
Proof. intros Ht. unfold time_of, code_doc. read_field. Qed.
Lemma time_of_access now t : u64_opt (at_auth_time t) -> time_of (access_doc now t) = at_auth_time t.
Proof. intros Ht. unfold time_of, access_doc. read_field. Qed.
Lemma time_of_refresh now t : u64_opt (rt_auth_time t) -> time_of (refresh_doc now t) = rt_auth_time t.
Proof. intros Ht. unfold time_of, refresh_doc. read_field. Qed.
Lemma time_of_range f z : time_of f = Some z -> in_u64 z.
Proof.
  unfold time_of, field_u64. destruct (get f "authTime") as [v|]; [|done]. simpl. destruct (get v "integerValue") as [w|]; [|done].
  simpl. destruct (as_str w) as [s|]; [|done]. apply parse_u64_range.
Qed.
Lemma same_account_time f g : (forall k, k = "accountId" \/ k = "authTime" -> get g k = get f k) ->
  account_of g = account_of f /\ time_of g = time_of f.
Proof.
  intros Hk. unfold account_of, nonempty_field, time_of, field_str, field_u64. by rewrite !Hk by auto.
Qed.

(** ** From the answers of the stores to the documents *)

Lemma front_read_doc pre pre' a t :
  carried_all pre pre' -> a <> "" -> front_read pre a t -> from_front pre' a t.
Proof.
  intros Hc Hne [(j & sid & s & Hin & Ha & Ht)|[(j & uid & i & Hin & Ha & Ht)|(j & code & c & Hin & Ha & Ht)]].
  - destruct (Hc _ Hin s eq_refl) as (g & Hg & ->). exists "sessions", sid, g. split; [done|]. split; [by left|].
    split; [by apply account_of_string|]. subst t. simpl. fold (time_of g). destruct (time_of g); simpl; auto.
  - destruct (Hc _ Hin i eq_refl) as (g & Hg & ->). exists "interactions", uid, g. split; [done|]. split; [right; by left|].
    simpl in *. fold (time_of g) in Ht. split; [|naive_solver]. apply account_of_string; [|done]. unfold field_string. by rewrite Ha.
  - destruct (Hc _ Hin c eq_refl) as (g & Hg & ->). exists "authCodes", code, g. split; [done|]. split; [right; right; by left|].
    simpl in *.
    destruct (same_account_time g (set_field g "used" (fs_b true))) as [Hsa Hst].
    { intros k [-> | ->]; by rewrite get_set_field_ne. }
    split; [rewrite <- Hsa; by apply account_of_string|]. subst t. fold (time_of (set_field g "used" (fs_b true))). rewrite Hst.
    destruct (time_of g); simpl; auto.
Qed.
Lemma from_front_write pre a t f : from_front pre a t -> (u64_opt t -> time_of f = t) -> from_front pre a (time_of f).
Proof.
  intros (c & i & g & Hg & Hc & Ha & [Ht|Ht]) Hf; exists c, i, g; (split; [done|]; split; [done|]; split; [done|]); [|by right].
  left. rewrite Ht, Hf; [done|]. intros z ->. by eapply time_of_range.
Qed.
Lemma refresh_read_doc pre pre' a t : carried_all pre pre' -> a <> "" -> refresh_read pre a t ->
  u64_opt t /\ exists i g, doc_read pre' "refreshTokens" i g /\ account_of g = Some a /\ time_of g = t.
Proof.
  intros Hc Hne (j & rt & r & Hin & Ha & Ht). destruct (Hc _ Hin r eq_refl) as (g & Hg & ->). simpl in *. fold (time_of g) in Ht.
  split; [intros z Hz; rewrite Hz in Ht; by eapply time_of_range|]. exists rt, g. split; [done|]. split; [by apply account_of_string | done].
Qed.
Lemma logged_in_doc pre pre' a t : carried_all pre pre' -> logged_in_by p pre a t -> signed_login p pre' a t.
Proof.
  intros Hc (a0 & j & account & Hl & Hin & ->). assert (Ha : acct_sub account = a0) by exact (Hc _ Hin). rewrite Ha.
  by eapply carried_login.
Qed.

(** ** The programs of the store *)

Lemma fronts_only c : c ∈ fronts -> (c ∉ tokens) /\ c <> CIBA_COL.
Proof. unfold fronts. intros Hc. repeat (apply elem_of_cons in Hc as [->|Hc]; [by vm_compute; set_solver|]). by apply elem_of_nil in Hc. Qed.
Lemma tokens_only c : c ∈ tokens -> (c ∉ fronts) /\ c <> CIBA_COL.
Proof. unfold tokens. intros Hc. repeat (apply elem_of_cons in Hc as [->|Hc]; [by vm_compute; set_solver|]). by apply elem_of_nil in Hc. Qed.
Lemma set_front pre c i f b : c ∈ fronts -> front_record_ok p pre f -> set_ok p pre c i f b.
Proof. intros Hc Hf. destruct (fronts_only c Hc). by repeat split. Qed.
Lemma set_token pre c i f b : c ∈ tokens -> token_record_ok pre f -> set_ok p pre c i f b.
Proof. intros Hc Hf. destruct (tokens_only c Hc). by repeat split. Qed.
Lemma set_request pre i f b : request_ok p pre i f b -> set_ok p pre CIBA_COL i f b.
Proof. intros Hr. repeat split; [intros Hz; by vm_compute in Hz; set_solver..|done]. Qed.
Lemma set_other pre c i f b : c ∉ records -> set_ok p pre c i f b.
Proof. intros Hc. unfold records in Hc. repeat split; [intros Hz; set_solver..|]. intros ->. set_solver. Qed.

(** A document rewritten with its account and its time. *)
Lemma front_rewritten pre c i f f' : c ∈ fronts -> doc_read pre c i f ->
  account_of f' = account_of f /\ time_of f' = time_of f -> front_record_ok p pre f'.
Proof. intros Hc Hr [Ha Ht] a. rewrite Ha, Ht. intros Hf. right. exists c, i, f. auto. Qed.
Lemma token_rewritten pre c i f f' : c ∈ tokens -> doc_read pre c i f ->
  account_of f' = account_of f /\ time_of f' = time_of f -> token_record_ok pre f'.
Proof. intros Hc Hr [Ha Ht] a. rewrite Ha, Ht. intros Hf. right. left. exists c, i, f. auto. Qed.
Lemma from_front_mono pre pre' a t : from_front pre a t -> (forall ev, ev ∈ pre -> ev ∈ pre') -> from_front pre' a t.
Proof. intros (c & i & g & Hg & Hr) Hs. exists c, i, g. split; [by eapply doc_read_mono | done]. Qed.

Lemma lowered_save_session pre pre' s :
  carried_all pre pre' -> logged_in_by p pre (se_account_id s) (se_auth_time s) ->
  preceded db_op (db_op_ok p) pre' (sys (fss_save_session s)).
Proof.
  intros Hc Hl i t. split; [done|]. intros j x. split; [|done]. intros _. split; [intros _; apply named_set; [done | by eexists]|].
  apply set_front; [by left|]. intros a Ha. left. exists (se_auth_time s).
  split; [apply time_of_session|]. rewrite <- (account_of_session t s a Ha). eapply signed_login_mono; [by eapply logged_in_doc|].
  intros ev Hev. apply elem_of_app. by left.
Qed.
Lemma lowered_save_interaction pre pre' it :
  carried_all pre pre' ->
  (forall a, in_account_id it = Some a -> exists t, in_auth_time it = Some t /\ logged_in_by p pre a t) ->
  preceded db_op (db_op_ok p) pre' (sys (fss_save_interaction it)).
Proof.
  intros Hc Hl i t. split; [done|]. intros j x. split; [|done]. intros _.
  split; [intros _; apply named_set; [done | unfold interaction_doc; eauto with oidc]|].
  apply set_front; [right; by left|]. intros a Ha. left.
  destruct (Hl a (account_of_interaction t it a Ha)) as (u & Hu & Hs). exists u. split.
  - intros Hr. rewrite time_of_interaction; [done|]. intros z. by rewrite Hu; intros [= <-].
  - eapply signed_login_mono; [by eapply logged_in_doc|]. intros ev Hev. apply elem_of_app. by left.
Qed.
Lemma lowered_save_code pre pre' c :
  carried_all pre pre' -> front_read pre (ac_account_id c) (Some (ac_auth_time c)) ->
  preceded db_op (db_op_ok p) pre' (sys (fss_save_code c)).
Proof.
  intros Hc Hl i x. split; [|done]. intros _.
  split; [intros _; apply named_set; [done | unfold code_doc; eauto 10 with oidc]|].
  apply set_front; [right; right; by left|]. intros a Ha. right. pose proof (account_of_Some _ _ Ha) as [_ Hne].
  apply account_of_code in Ha as <-. eapply from_front_write; [by eapply front_read_doc|].
  intros Ht. apply time_of_code. by apply Ht.
Qed.
Lemma lowered_save_access pre pre' t :
  carried_all pre pre' -> save_ok p pre (StoreOp (SaveAccessToken t)) ->
  preceded db_op (db_op_ok p) pre' (sys (fss_save_access_token t)).
Proof.
  intros Hc Hl i now. split; [done|]. intros j x. split; [|done]. intros _.
  split; [intros _; apply named_set; [done | unfold access_doc; eauto 10 with oidc]|].
  apply set_token; [by left|]. intros a Ha. pose proof (account_of_Some _ _ Ha) as [_ Hne].
  assert (Hin : forall ev, ev ∈ pre' -> ev ∈ pre' ++ [Ev i (SysOp NowSecs) now]) by (intros; apply elem_of_app; by left).
  apply account_of_access in Ha as <-. destruct Hl as [Hf|[Hr|[Hn (k & id & r & Hk & Hr)]]].
  - left. eapply from_front_mono; [|exact Hin]. eapply from_front_write; [by eapply front_read_doc | apply time_of_access].
  - right. left. destruct (refresh_read_doc _ _ _ _ Hc Hne Hr) as (Hu & id & g & Hg & Hga & Hgt). exists "refreshTokens", id, g.
    split; [by eapply doc_read_mono|]. split; [right; by left|]. split; [done|]. by rewrite time_of_access.
  - right. right. split; [rewrite time_of_access; [done | by rewrite Hn]|].
    destruct (Hc _ Hk r eq_refl) as (g & Hg & -> & Hst). exists id, g. split; [by eapply doc_read_mono | done].
Qed.
Lemma lowered_save_refresh pre pre' t :
  carried_all pre pre' -> save_ok p pre (StoreOp (SaveRefreshToken t)) ->
  preceded db_op (db_op_ok p) pre' (sys (fss_save_refresh_token t)).
Proof.
  intros Hc Hl i now. split; [done|]. intros j x. split; [|done]. intros _.
  split; [intros _; apply named_set; [done | unfold refresh_doc; eauto 10 with oidc]|].
  apply set_token; [right; by left|]. intros a Ha. pose proof (account_of_Some _ _ Ha) as [_ Hne].
  assert (Hin : forall ev, ev ∈ pre' -> ev ∈ pre' ++ [Ev i (SysOp NowSecs) now]) by (intros; apply elem_of_app; by left).
  apply account_of_refresh in Ha as <-. destruct Hl as [Hf|Hr].
  - left. eapply from_front_mono; [|exact Hin]. eapply from_front_write; [by eapply front_read_doc | apply time_of_refresh].
  - right. left. destruct (refresh_read_doc _ _ _ _ Hc Hne Hr) as (Hu & id & g & Hg & Hga & Hgt). exists "refreshTokens", id, g.
    split; [by eapply doc_read_mono|]. split; [right; by left|]. split; [done|]. by rewrite time_of_refresh.
Qed.
(** Reads and deletions. *)
Definition harmless {X} (o : fsE X) : bool :=
  named o && match o with
             | SetDoc c _ _ | SetDocIfUnchanged c _ _ _ | UpdateField c _ _ _ | CreateIfAbsent c _ _ | MergeDoc c _ _ => bool_decide (c ∉ records)
             | _ => true
             end.
Lemma harmless_ok pre X (o : fsE X) : harmless o = true -> op_ok p pre o.
Proof.
  unfold harmless. intros [Hn Ho]%andb_true_iff. split; [done|].
  destruct o; try done; apply bool_decide_eq_true in Ho; try done; try by apply set_other.
Qed.
Fixpoint db_reads {A} (q : prog sysE A) : Prop :=
  match q with
  | Ret _ => True
  | Vis e k => match e with FsOp o => harmless o = true | _ => True end /\ forall x, db_reads (k x)
  end.
Lemma db_reads_lowered pre {A} (q : prog sysE A) : db_reads q -> preceded db_op (db_op_ok p) pre (sys q).
Proof.
  revert pre. induction q as [a|X e k IH]; intros pre; [done|]. intros [He Hk] i x. split; [|by apply IH].
  intros _. destruct e; try done. by apply harmless_ok.
Qed.
Lemma db_reads_bind {A B} (q : prog sysE A) (f : A -> prog sysE B) : db_reads q -> (forall a, db_reads (f a)) -> db_reads (q ≫= f).
Proof. intros Hq Hf. induction q as [a|X e k IH]; [apply Hf|]. destruct Hq as [He Hk]. split; [done|]. intros x. by apply IH. Qed.
End carried.

(** Goes through a program that only reads and deletes. *)
Ltac only_reads :=
  repeat match goal with
    | |- True => exact I
    | |- _ /\ _ => split
    | |- _ = true => reflexivity
    | |- forall _, _ => intros ?
    | |- _ => progress cbn
    | |- context [match ?x with _ => _ end] => destruct x
    end.

Section store_programs.
Context `{Externals} (p : Provider).

Lemma get_live_reads {T} c i (of_doc : Value -> T) : collection_name c = true -> db_reads (fs_get_live c i of_doc).
Proof. intros Hc. split; [unfold harmless, named; simpl; by rewrite Hc|]. only_reads. Qed.
Lemma cas_take_reads c i : collection_name c = true -> db_reads (cas_take c i).
Proof. intros Hc. split; [unfold harmless, named; simpl; by rewrite Hc|]. intros [[[f v]|]|]; [|exact I..]. split; [|only_reads]. unfold harmless, named; simpl; by rewrite Hc. Qed.
Lemma revoke_loop_reads n cur : db_reads (fss_revoke_loop n cur).
Proof. revert cur. induction n as [|n IH]; intros [t|]; try exact I. split; [done|]. intros r. split; [done|]. intros u. apply IH. Qed.
Lemma find_account_reads sub : db_reads (fss_find_account sub).
Proof. unfold fss_find_account, get_profile, find_email_by_account_id. only_reads. Qed.
Lemma lowered_take_code pre code : preceded db_op (db_op_ok p) pre (sys (fss_take_code code)).
Proof.
  intros i r. split; [intros _; by apply harmless_ok|]. destruct r as [[[f v]|]|]; [|exact I..].
  cbn [prog_bind prog_bind_go]. destruct (default false (field_bool f "used")).
  { apply db_reads_lowered. destruct (field_str f "issuedAccessToken"), (field_str f "issuedRefreshToken"); only_reads. }
  intros j x. split; [|done]. intros _.
  assert (Hr : doc_read (pre ++ [Ev i (SysOp (FsOp (GetDocWithUpdateTime "authCodes" code))) (Ok (Some (f, v)))]) "authCodes" code f).
  { exists i. right. exists v. apply elem_of_app. right. by apply list_elem_of_singleton. }
  split; [intros Ho; apply named_set_if; [done | apply set_field_object; by eapply Ho]|].
  apply set_front; [right; right; by left|]. eapply front_rewritten; [|exact Hr|]; [right; right; by left|].
  apply same_account_time. intros k [-> | ->]; by rewrite get_set_field_ne.
Qed.
Lemma lowered_link pre code a r : preceded db_op (db_op_ok p) pre (sys (fss_link_issued_tokens code a r)).
Proof.
  intros i x. split; [|done]. intros _. split; [intros _; by destruct r|]. intros _. split; [done|]. by destruct r.
Qed.
Lemma lowered_mandate pre token : preceded db_op (db_op_ok p) pre (sys (fss_consume_mandate_if_unused token)).
Proof.
  intros i r. split; [intros _; by apply harmless_ok|]. destruct r as [[[f v]|]|]; [|exact I..].
  intros j t. split; [done|]. cbn [prog_bind prog_bind_go]. destruct (doc_expired t f); [exact I|]. destruct (default false (field_bool f "mandateConsumed")); [exact I|].
  intros k x. split; [|done]. intros _. set (pre1 := (_ ++ [Ev j _ _])).
  assert (Hr : doc_read pre1 "accessTokens" token f).
  { exists i. right. exists v. unfold pre1. rewrite !elem_of_app, !list_elem_of_singleton. auto. }
  split; [intros Ho; apply named_set_if; [done | apply set_field_object; by eapply Ho]|].
  apply set_token; [by left|]. eapply token_rewritten; [|exact Hr|]; [by left|].
  apply same_account_time. intros q [-> | ->]; by rewrite get_set_field_ne.
Qed.
Lemma lowered_mark_used pre token rep : preceded db_op (db_op_ok p) pre (sys (fss_mark_refresh_used token rep)).
Proof.
  intros i r. split; [intros _; by apply harmless_ok|]. destruct r as [[[f v]|]|]; [|exact I..].
  cbn [prog_bind prog_bind_go]. destruct (default false (field_bool f "used")); [exact I|].
  intros k x. split; [|done]. intros _. set (pre1 := (_ ++ [Ev i _ _])).
  assert (Hr : doc_read pre1 "refreshTokens" token f).
  { exists i. right. exists v. unfold pre1. rewrite !elem_of_app, !list_elem_of_singleton. auto. }
  split; [intros Ho; apply named_set_if; [done | apply set_opt_object, set_field_object; by eapply Ho]|].
  apply set_token; [right; by left|]. eapply token_rewritten; [|exact Hr|]; [right; by left|].
  apply same_account_time. intros q [-> | ->]; by rewrite get_set_opt_ne, get_set_field_ne.
Qed.

Lemma store_lowered pre pre' X (o : storeE X) :
  carried_all pre pre' -> save_ok p pre (StoreOp o) ->
  preceded db_op (db_op_ok p) pre' (sys (firestore_store_op X o)).
Proof.
  intros Hc Ho. destruct o.
  - by eapply lowered_save_interaction.
  - by apply db_reads_lowered, get_live_reads.
  - apply db_reads_lowered, db_reads_bind; [by apply cas_take_reads | intros [?|]; exact I].
  - by eapply lowered_save_session.
  - by apply db_reads_lowered, get_live_reads.
  - by apply db_reads_lowered.
  - by eapply lowered_save_code.
  - apply lowered_take_code.
  - apply lowered_link.
  - by eapply lowered_save_access.
  - by apply db_reads_lowered, get_live_reads.
  - by apply db_reads_lowered.
  - apply lowered_mandate.
  - by eapply lowered_save_refresh.
  - by apply db_reads_lowered, get_live_reads.
  - by apply db_reads_lowered.
  - apply lowered_mark_used.
  - apply db_reads_lowered, revoke_loop_reads.
  - apply db_reads_lowered, find_account_reads.
Qed.

(** *** Answers *)

Lemma returns_sys {A} (P : A -> Prop) (q : prog sysE A) : returns P q -> returns P (sys q).
Proof. induction q as [a|X e k IH]; [done|]. intros Hq x. apply IH, Hq. Qed.

Lemma get_live_answer {T} c i (of_doc : Value -> T) :
  always (fun tr r => forall s, r = Some s -> exists g, doc_read tr c i g /\ s = of_doc g) (sys (fs_get_live c i of_doc)).
Proof.
  apply always_vis. intros j r. destruct r as [[f|]|]; [|by apply always_ret..]. apply always_vis. intros k t. apply always_ret.
  destruct (doc_expired t f); [done|]. intros s [= <-]. exists f. split; [|done]. exists j. left. by left.
Qed.
Lemma take_code_answer code :
  always (fun tr r => forall c, r = Some c -> exists g, doc_read tr "authCodes" code g /\ c = code_of_doc code (set_field g "used" (fs_b true)))
    (sys (fss_take_code code)).
Proof.
  apply always_vis. intros j r. destruct r as [[[f v]|]|]; [|by apply always_ret..].
  cbn [prog_bind prog_bind_go]. destruct (default false (field_bool f "used")).
  { intros tr a Ha c ->. eapply (returns_path (fun r => r = None)) in Ha; [done|].
    by destruct (field_str f "issuedAccessToken"), (field_str f "issuedRefreshToken"). }
  apply always_vis. intros k x. apply always_ret. destruct x as [[]|]; [|done..]. intros c [= <-].
  exists f. split; [|done]. exists j. right. exists v. by left.
Qed.
Lemma store_answer X (o : storeE X) : always (fun tr x => answer_read tr o x) (sys (firestore_store_op X o)).
Proof.
  destruct o; try (by intros tr a Ha).
  - apply get_live_answer.
  - apply get_live_answer.
  - apply take_code_answer.
  - apply get_live_answer.
  - intros tr a Ha. eapply (returns_path (fun a => acct_sub a = sub)); [|exact Ha]. apply returns_sys.
    eapply returns_bind; [apply returns_any|]. intros saved _. eapply returns_bind; [apply returns_any|]. by intros email _.
Qed.

(** ** The programs of the back-channel requests *)

Lemma request_status_fields r : request_status (br_fields r) = br_status r.
Proof.
  unfold request_status, field_str, br_fields. destruct (br_authorization_details r); simpl; by destruct (br_status r).
Qed.
Lemma request_account_fields r : request_account (br_fields r) = br_account r.
Proof. unfold request_account, str_or_empty, field_str, br_fields. by destruct (br_authorization_details r). Qed.
Lemma br_fields_object r : is_object (br_fields r).
Proof. by eexists. Qed.

Lemma sweep_rows_reads t n rows : db_reads (fsc_sweep_rows t n rows).
Proof.
  revert n. induction rows as [|[id f] rows IH]; intros n; [exact I|]. simpl. destruct (bool_decide _); [|apply IH].
  split; [exact I|]. intros now. destruct (br_expired now _); [|apply IH]. split; [done|]. intros r.
  split; [done|]. intros r2. apply IH.
Qed.
Lemma live_rows_reads rows : db_reads (fsc_live_rows rows).
Proof.
  induction rows as [|[id f] rows IH]; [exact I|]. simpl. destruct (bool_decide _); [|apply IH].
  split; [exact I|]. intros now. apply db_reads_bind; [apply IH|]. intros l. exact I.
Qed.
Lemma lowered_create pre cl ac sc bm ad : preceded db_op (db_op_ok p) pre (sys (fsc_create cl ac sc bm ad)).
Proof.
  intros i id. split; [done|]. intros j t. split; [done|]. intros k x. split; [|by destruct x].
  intros _. split; [intros _; apply named_set; [done | apply br_fields_object]|].
  apply set_request. split; [apply request_status_fields|]. exists pre, i, j, t. by rewrite <- app_assoc.
Qed.
Lemma lowered_transition pre pre' id st :
  carried_all pre pre' -> save_ok p pre (CibaOp (TransitionIfPending id st)) ->
  preceded db_op (db_op_ok p) pre' (sys (fsc_transition id st)).
Proof.
  intros Hc Hs i r. split; [intros _; by apply harmless_ok|]. destruct r as [[[f v]|]|]; [|exact I..].
  cbn [prog_bind prog_bind_go]. destruct (bool_decide _); [|exact I]. intros j x. split; [|done]. intros _.
  set (pre1 := (_ ++ [Ev i _ _])).
  assert (Hin : forall ev, ev ∈ pre' -> ev ∈ pre1) by (intros ev Hev; apply elem_of_app; by left).
  split; [intros _; apply named_set_if; [done | apply br_fields_object]|].
  apply set_request. exists f. split; [exists i; right; exists v; apply elem_of_app; right; by apply list_elem_of_singleton|].
  rewrite request_account_fields, request_status_fields. split; [done|]. simpl. intros ->.
  destruct Hs as (k & q & Hk & Ha). destruct (Hc _ Hk q eq_refl) as (g & Hg & ->). exists g. split; [by eapply doc_read_mono|].
  eapply signed_approval_mono; [|exact Hin]. by eapply carried_approval.
Qed.
Lemma consume_reads id : db_reads (fsc_consume id).
Proof. split; [done|]. intros [[[f v]|]|]; [|exact I..]. simpl. destruct (bool_decide _); [|exact I]. split; [done|]. by intros [?|?]. Qed.

Lemma ciba_lowered pre pre' X (o : cibaE X) :
  carried_all pre pre' -> save_ok p pre (CibaOp o) -> preceded db_op (db_op_ok p) pre' (sys (firestore_ciba_op X o)).
Proof.
  intros Hc Ho. destruct o.
  - apply lowered_create.
  - apply db_reads_lowered. split; [done|]. by intros [?|?].
  - by eapply lowered_transition.
  - apply db_reads_lowered, consume_reads.
  - by apply db_reads_lowered.
  - apply db_reads_lowered. split; [done|]. intros [rows|?]; [|exact I]. cbn [prog_bind prog_bind_go].
    apply db_reads_bind; [apply live_rows_reads|]. intros l. exact I.
  - by apply db_reads_lowered.
  - apply db_reads_lowered. split; [done|]. by intros [?|?].
  - apply db_reads_lowered. split; [done|]. intros [rows|?]; [|exact I]. split; [exact I|]. intros t.
    cbn [prog_bind prog_bind_go]. apply db_reads_bind; [apply sweep_rows_reads|]. intros n. exact I.
Qed.
Lemma ciba_answer X (o : cibaE X) : always (fun tr x => request_answer_read tr o x) (sys (firestore_ciba_op X o)).
Proof.
  destruct o; try (by intros tr a Ha).
  - apply always_vis. intros j r. destruct r as [[f|]|]; apply always_ret; [|done..]. intros q Hq. simpl in Hq. injection Hq as <-.
    exists f. split; [|done]. exists j. left. by left.
  - apply always_vis. intros j r. destruct r as [[[f v]|]|]; [|by apply always_ret..].
    cbn [prog_bind prog_bind_go]. destruct (bool_decide _) eqn:Hst; [|by apply always_ret].
    apply bool_decide_eq_true in Hst. apply always_vis. intros k x. destruct x as [[]|]; apply always_ret; [|done..].
    intros q [= <-]. exists f. split; [exists j; right; exists v; by left|]. by split.
Qed.
End store_programs.

(** ** From a handler to its operations on the database *)

(** The operations that save the account of somebody. *)
Definition saving (ev : event provE) : Prop :=
  match ev with
  | Ev _ (StoreOp o) _ =>
      match o with
      | SaveSession _ | SaveInteraction _ | SaveCode _ | SaveAccessToken _ | SaveRefreshToken _ => True
      | _ => False
      end
  | Ev _ (CibaOp o) _ => match o with TransitionIfPending _ Approved => True | _ => False end
  | _ => False
  end.
Definition save_good `{Externals} (p : Provider) (pre : trace) (ev : event provE) : Prop :=
  match ev with Ev _ o _ => save_ok p pre o | EvEnv => True end.
(** The operations of a handler on the database itself stay out of the records. *)
Fixpoint outside {A} (q : prog provE A) : Prop :=
  match q with
  | Ret _ => True
  | Vis e k => match e with SysOp (FsOp o) => harmless o = true | _ => True end /\ forall x, outside (k x)
  end.

Lemma saving_dec ev : saving ev \/ ~ saving ev.
Proof.
  destruct ev as [j X e x|]; [|right; intros []]. destruct e as [X o|X o|X o| | | |]; try (right; intros []); destruct o; try (by left); try (right; intros []).
  destruct status; [right; intros [] | by left | right; intros []].
Qed.

Section lowering.
Context `{Externals} (p : Provider).

Lemma carried_snoc pre pre' tr j X (e : provE X) x :
  carried_all pre pre' -> carried (pre' ++ tr) (Ev j e x) -> carried_all (pre ++ [Ev j e x]) (pre' ++ tr).
Proof.
  intros Hc He ev [Hin| ->%list_elem_of_singleton]%elem_of_app; [|done]. eapply carried_mono; [by apply Hc|].
  intros ev' Hev. apply elem_of_app. by left.
Qed.
Lemma not_saving_ok pre j X (e : provE X) x : ~ saving (Ev j e x) -> save_ok p pre e.
Proof. intros Hs. destruct e as [X o|X o|X o| | | |]; try exact I; destruct o as []; try exact I; try by destruct Hs. by destruct status; [|destruct Hs|]. Qed.
Lemma fs_answer X (o : fsE X) : inhabited X.
Proof. destruct o; constructor; apply Err; exact "". Qed.
Lemma prov_answer X (e : provE X) : inhabited X.
Proof.
  destruct e as [X o|X o|X o| | | |]; try (constructor; first [exact true | exact None | exact (Ok tt)]).
  - destruct o as [| | |X o]; try (constructor; first [exact 0 | exact ""]). by apply (fs_answer X o).
  - destruct o; constructor; first [exact tt | exact None | exact true | exact (Ok true) | exact (mkAccount sub ∅)].
  - destruct o; constructor; apply Err; exact "".
Qed.

(** The operations on the database of one operation of a handler. *)
Lemma op_lowered pre pre' X (e : provE X) :
  carried_all pre pre' -> save_ok p pre e ->
  match e with SysOp (FsOp o) => harmless o = true | _ => True end ->
  preceded db_op (db_op_ok p) pre' (on_database_op X e).
Proof.
  intros Hc Hs He. destruct e as [X o|X o|X o| | | |]; try (intros i x; split; [done | exact I]).
  - intros i x. split; [|exact I]. intros _. destruct o as [| | |X o]; try exact I. by apply harmless_ok.
  - by eapply store_lowered.
  - by eapply ciba_lowered.
Qed.
Lemma op_carried pre pre' X (e : provE X) tr x :
  carried_all pre pre' -> thread_path (on_database_op X e) tr (Ret x) -> exists i, carried_all (pre ++ [Ev i e x]) (pre' ++ tr).
Proof.
  intros Hc. destruct e as [X o|X o|X o| | | |]; try (intros Ha; exists 0%nat; by apply carried_snoc).
  - intros [[_ ?]|(i & y & tr' & -> & [-> [= <-]])]; [done|]. exists i. apply carried_snoc; [done|].
    apply elem_of_app. right. by apply list_elem_of_singleton.
  - intros Ha. exists 0%nat. apply carried_snoc; [done|]. apply store_answer in Ha.
    eapply (carried_mono tr _ (Ev 0 (StoreOp o) x)); [exact Ha|]. intros ev Hev. apply elem_of_app. by right.
  - intros Ha. exists 0%nat. apply carried_snoc; [done|]. apply ciba_answer in Ha.
    eapply (carried_mono tr _ (Ev 0 (CibaOp o) x)); [exact Ha|]. intros ev Hev. apply elem_of_app. by right.
Qed.
End lowering.
