(* ===== verification/Provenance.v ===== *)
(** * Where the accounts of sessions, codes and tokens come from

    Every route of [App], thread by thread: an account that a handler saves is one whose
    passkey was verified in the same request, or one that it has read from a record of
    the store.  [deployed] puts the stores on the database ([Records]). *)

From S2P Require Import Prelude Prog Json Model Decimal Calendar Firestore Externals Es256 WebAuthn Sys X509 Mds DocStore Nonce Ciba Dcr Claims Accounts AdminStore DcrStore Store FirestoreStore Provider ProviderFacts AuthChecks Dpop ClientAuth RequestObject Grants Http Fido I18n Fcm Cli Templates Passkey CibaEndpoints Login AdminWeb Authorize Endpoints Registration PasskeyFacts App AppFacts Records.

#[local] Open Scope Z_scope.

(** ** Handlers *)

(** The operations of a handler that matter: what saves an account, and its own
    operations on the database. *)
Definition touching (ev : event provE) : Prop := saving ev \/ db_op ev.
Lemma touching_dec ev : touching ev \/ ~ touching ev.
Proof.
  destruct (saving_dec ev) as [?|Hs]; [by left; left|].
  destruct ev as [j X e x|]; [|right; intros [[]|[]]]. destruct e as [Y [| | |Y' o]| | | | | |];
    first [left; right; exact I | right; intros [Ht|[]]; by apply Hs].
Qed.
Definition touch_good `{Externals} (p : Provider) (pre : trace) (ev : event provE) : Prop :=
  save_good p pre ev /\ match ev with Ev _ (SysOp (FsOp o)) _ => harmless o = true | _ => True end.

Definition saves : list mutation := [OpenSession; OpenTransaction; IssueCode; IssueToken; DecideRequest].
Definition saves_none (L : list mutation) : bool := forallb (fun k => bool_decide (k ∉ saves)) L.
Definition keeps_out (L : list mutation) : bool :=
  forallb (fun k => match k with WritesIn c => bool_decide (c ∉ records) | _ => true end) L.

Section handlers.
Context `{Externals} (p : Provider).

Lemma saving_mutates j X (e : provE X) x : saving (Ev j e x) -> exists k, mutates e = Some k /\ k ∈ saves.
Proof.
  unfold saves. intros Hs. destruct e as [X o|X o|X o| | | |]; try destruct Hs; destruct o; try destruct Hs;
    eexists; (split; [reflexivity|]); rewrite !elem_of_cons; tauto.
Qed.
Lemma within_avoids {A} L (q : prog provE A) : saves_none L = true -> within L q -> avoids saving q.
Proof.
  intros HL. induction q as [a|X e k IH]; [done|]. intros [[He _] Hk] i x. split; [|by apply IH].
  intros (m & Hm & Hin)%saving_mutates. unfold permits in He. rewrite Hm in He.
  unfold saves_none in HL. rewrite forallb_forall in HL. apply list_elem_of_In, HL, bool_decide_eq_true in He. done.
Qed.
Lemma within_outside {A} L (q : prog provE A) : keeps_out L = true -> within L q -> outside q.
Proof.
  intros HL. induction q as [a|X e k IH]; [done|]. intros [[He Hn] Hk]. split; [|intros x; by apply IH].
  destruct e as [X o| | | | | |]; try done. destruct o as [| | |X o]; try done. unfold harmless. rewrite Hn. cbn [andb].
  unfold keeps_out in HL. rewrite forallb_forall in HL. unfold permits in He.
  destruct o; try done; by apply list_elem_of_In, HL in He.
Qed.
Lemma touching_intro {A} (q : prog provE A) pre :
  preceded saving (save_good p) pre q -> outside q -> preceded touching (touch_good p) pre q.
Proof.
  revert pre. induction q as [a|X e k IH]; intros pre Hq Ho; [done|]. destruct Ho as [He Hk]. intros i x.
  destruct (Hq i x) as [Hg Hk']. split; [|by apply IH]. intros _. split.
  - destruct (saving_dec (Ev i e x)) as [Hs|Hs]; [by apply Hg | by eapply not_saving_ok].
  - by destruct e as [X []| | | | | |].
Qed.
(** Every saving operation is one of [D], or avoided. *)
Lemma preceded_part {A} (D : event provE -> Prop) Good Good' (q : prog provE A) pre :
  preceded D Good pre q -> avoids (fun ev => saving ev /\ ~ D ev) q -> (forall ev, D ev \/ ~ D ev) ->
  (forall pre ev, Good pre ev -> saving ev -> Good' pre ev) -> preceded saving Good' pre q.
Proof.
  intros Hq Ha Hdec Hg. revert pre Hq. induction q as [a|X e k IH]; intros pre Hq; [done|]. intros i x.
  destruct (Hq i x) as [Hh Hk]. destruct (Ha i x) as [Hn Ha']. split; [|by apply IH].
  intros Hs. destruct (Hdec (Ev i e x)) as [Hd|Hd]; [by apply Hg; [apply Hh|] | by destruct Hn].
Qed.
End handlers.

(** ** The routes that save an account *)

(** Passes over a part of a program that changes nothing of interest. *)
Ltac skip_within L :=
  first [ eapply (preceded_skip_try _ _ _ (fun _ _ => True)); [apply (within_avoids L); [reflexivity | confine] | by intros ? ? ? |]
        | eapply (preceded_skip _ _ _ (fun _ _ => True)); [apply (within_avoids L); [reflexivity | confine] | by intros ? ? ? |] ];
  let w := fresh "w" in let r := fresh "r" in intros w r _.

Section routes.
Context `{Externals} (p : Provider).

Lemma decide_uses params session t a u :
  decide_interaction params session t = UseSession a u -> exists s, session = Some s /\ se_account_id s = a /\ se_auth_time s = u.
Proof.
  unfold decide_interaction, use_session. intros Hd. destruct session as [s|]; [|by destruct_matches_in Hd].
  exists s. by destruct_matches_in Hd.
Qed.
Lemma front_read_mono pre pre' a t : front_read pre a t -> (forall ev, ev ∈ pre -> ev ∈ pre') -> front_read pre' a t.
Proof.
  intros [(j & i & s & ? & ?)|[(j & i & s & ? & ?)|(j & i & s & ? & ?)]] Hs;
    [left | right; left | right; right]; exists j, i, s; auto.
Qed.
Lemma issue_code_saves req a at' pre :
  (forall t, at' = Some t \/ at' = None -> front_read pre a (Some t)) ->
  preceded saving (save_good p) pre (issue_code p req a at').
Proof.
  intros Hf. unfold issue_code. destruct (match ap_resource _ with Some _ => _ | None => _ end); [exact I|].
  skip_within (@nil mutation).
  eapply (preceded_skip _ _ _ (fun _ t => at' = Some t \/ at' = None)).
  { apply (within_avoids []); [reflexivity | confine]. }
  { destruct at' as [t|]; [|by intros ? ? ?; right]. apply always_ret. by left. }
  intros tr1 t Ht. skip_within (@nil mutation). intros i x. split.
  { intros _. simpl. eapply front_read_mono; [by apply Hf|]. intros ev Hev. rewrite !elem_of_app. auto. }
  apply avoids_preceded, (within_avoids [DeletesIn "parRequests"]); [reflexivity | confine].
Qed.
Lemma authorize_saves jar query : preceded saving (save_good p) [] (authorize p jar query).
Proof.
  unfold authorize. apply preceded_finish. skip_within [WritesIn "nonces"]. apply preceded_check. intros u Hu.
  apply preceded_check. intros params Hp. skip_within (@nil mutation). apply preceded_check. intros [] Hc.
  destruct (is_nonpar_request_uri _); [exact I|]. destruct (cl_require_par _ && _); [exact I|].
  eapply (preceded_skip _ _ _ (fun tr s => forall x, s = Some x -> exists j sid, Ev j (StoreOp (GetSession sid)) (Some x) ∈ tr)).
  { apply (within_avoids []); [reflexivity | confine]. }
  { destruct (jar !! SID_COOKIE) as [sid|]; [|by apply always_ret]. apply always_vis. intros j s. apply always_ret.
    intros x ->. exists j, sid. by left. }
  intros trs session Hs. skip_within (@nil mutation). destruct (decide_interaction _ _ _) as [a u'| |e] eqn:Hd.
  - apply decide_uses in Hd as (s & -> & Ha & Hu'). apply (preceded_bind _ _ _ (fun _ _ => True)); [|done|done].
    apply issue_code_saves. intros t [[= <-]|]; [|done]. left. destruct (Hs s eq_refl) as (j & sid & Hin). exists j, sid, s.
    split; [rewrite !elem_of_app; auto|]. by rewrite Hu'.
  - skip_within (@nil mutation). intros i x. split; [by intros _ a|exact I].
  - exact I.
Qed.
Lemma resume_saves q : preceded saving (save_good p) [] (authorize_resume p q).
Proof.
  unfold authorize_resume. apply preceded_finish. apply preceded_check. intros uid _. intros j got. split; [intros []|].
  apply preceded_check. intros it Hit%ok_or_Ok. subst got. apply preceded_check. intros a Ha%ok_or_Ok.
  apply preceded_check. intros params _. skip_within (@nil mutation). apply preceded_check. intros [] _.
  intros k won. split; [intros []|]. cbn [prog_bind prog_bind_go]. destruct won; [|exact I]. cbn [negb].
  apply (preceded_bind _ _ _ (fun _ _ => True)); [|done|done]. apply issue_code_saves. intros t Ht. right. left.
  exists j, uid, it. split; [rewrite !elem_of_app, !list_elem_of_singleton; auto|]. split; [done|]. tauto.
Qed.

Lemma logs_in_dec ev : logs_in ev \/ ~ logs_in ev.
Proof. destruct ev as [j X e x|]; [|right; intros []]. destruct e as [|X o| | | | |]; try (right; intros []); destruct o; (by left) || (right; intros []). Qed.
Lemma approves_dec ev : approves ev \/ ~ approves ev.
Proof.
  destruct ev as [j X e x|]; [|right; intros []]. destruct e as [| |X o| | | |]; try (right; intros []); destruct o; try (right; intros []).
  destruct status; (by left) || (right; intros []).
Qed.
Lemma refused L k : bool_decide (k ∈ L) = false -> ~ permits L (Some k).
Proof. intros Hk. by apply bool_decide_eq_false in Hk. Qed.
(** A program within [L] saves nothing but what [D] has. *)
Lemma within_part {A} (D : event provE -> Prop) L (q : prog provE A) :
  (forall i X (e : provE X) (x : X), op_permits L e -> saving (Ev i e x) -> D (Ev i e x)) -> within L q ->
  avoids (fun ev => saving ev /\ ~ D ev) q.
Proof.
  intros Hd. induction q as [a|X e k IH]; [done|]. intros [He Hk] i x. split; [|by apply IH].
  intros [Hs Hn]. by apply Hn, Hd.
Qed.
Lemma login_saves uid req : preceded saving (save_good p) [] (login_passkey_verify p uid req).
Proof.
  eapply preceded_part; [apply login_preceded | | apply logs_in_dec |].
  - eapply (within_part _ [OpenTransaction; OpenSession; DeletesIn "webauthnChallenges"; WritesIn "accounts"]); [|confine].
    intros i X e x [Hp _] Hs. destruct e as [X o|X o|X o| | | |]; try destruct Hs; destruct o; try destruct Hs; try exact I;
      by apply refused in Hp.
  - intros pre ev (ch & ce & email & acc & cred & it & account & t & i & j & k & Hch & Hem & Hcr & Hdis & Hne & Hid & Has & Hi & Hj & Hk & l & Hw) _.
    assert (Hl : logged_in_by p pre (acct_sub account) t).
    { exists (cr_account_id cred), j, account. split; [|done]. exists uid, req, ch, ce, email, acc, cred, k. auto 10. }
    destruct Hw as [->|(sid & ->)]; simpl; [|done]. intros a [= <-]. eauto.
Qed.
Lemma approve_saves id req : preceded saving (save_good p) [] (ciba_approve p id req).
Proof.
  eapply preceded_part; [apply approve_preceded | | apply approves_dec |].
  - eapply (within_part _ [DecideRequest; KeepHistory; DeletesIn "webauthnChallenges"; WritesIn "accounts"]); [|confine].
    intros i X e x [Hp _] Hs. destruct e as [X o|X o|X o| | | |]; try destruct Hs; destruct o; try destruct Hs; try exact Hs;
      by apply refused in Hp.
  - intros pre ev ((i & r & ->) & ch & email & acc & cred & q & j & t & k & Hch & Hcr & Hdis & Hid & Hj & Hacc & _ & _ & _ & Has) _.
    exists j, q. split; [done|]. rewrite Hacc. exists req, ch, email, acc, cred. auto 10.
Qed.
Lemma reject_saves id : avoids saving (ciba_reject id).
Proof.
  unfold ciba_reject. apply avoids_bind; [|by intros [?|?]]. intros i r. split; [intros []|]. cbn [mbind prog_bind prog_bind_go].
  apply avoids_bind. { destruct (default None _); [|exact I]. intros j t. split; [intros []|exact I]. }
  intros expired. destruct expired; [exact I|]. intros j won. split; [intros []|].
  apply (within_avoids [KeepHistory]); [reflexivity | confine].
Qed.

(** The tokens of a grant are for the account that was read. *)
Lemma issue_saves client_id a scope nonce t acr jkt alg res ad pre :
  front_read pre a t \/ refresh_read pre a t \/ t = None /\ request_consumed pre a ->
  preceded saving (save_good p) pre (issue_access_and_id p client_id a scope nonce t acr jkt alg res ad).
Proof.
  intros Hr. intros i tok. split; [intros []|]. intros j x. split; [|by intros k now]. intros _. simpl.
  assert (Hin : forall ev, ev ∈ pre -> ev ∈ pre ++ [Ev i (SysOp UuidV4) tok]) by (intros ev Hev; apply elem_of_app; by left).
  destruct Hr as [Hr|[(k & rt & r & ? & ?)|[-> (k & id & r & ? & ?)]]].
  - left. by eapply front_read_mono.
  - right. left. exists k, rt, r. auto.
  - right. right. split; [done|]. exists k, id, r. auto.
Qed.
Lemma refresh_read_mono pre pre' a t : refresh_read pre a t -> (forall ev, ev ∈ pre -> ev ∈ pre') -> refresh_read pre' a t.
Proof. intros (k & rt & r & ? & ?) Hs. exists k, rt, r. auto. Qed.
Lemma maybe_refresh_saves client_id a scope res acr t jkt pub pre :
  front_read pre a t -> preceded saving (save_good p) pre (maybe_issue_refresh client_id a scope res acr t jkt pub).
Proof.
  intros Hr. unfold maybe_issue_refresh. destruct (negb _); [exact I|]. destruct (match jkt with None => _ | Some _ => _ end); [exact I|].
  intros i tok. split; [intros []|]. intros j fam. split; [intros []|]. intros k x. split; [|exact I]. intros _. left. simpl.
  eapply front_read_mono; [exact Hr|]. intros ev Hev. rewrite !elem_of_app. auto.
Qed.
Lemma code_grant_saves client form jkt pre : preceded saving (save_good p) pre (authorization_code_grant p client form jkt).
Proof.
  unfold authorization_code_grant. apply preceded_check. intros code_val _. intros j taken. split; [intros []|].
  apply preceded_check. intros code Hcode%ok_or_Ok. subst taken. intros k t. split; [intros []|]. apply preceded_check. intros [] _.
  set (pre1 := (_ ++ [Ev k _ t])).
  assert (Hf : front_read pre1 (ac_account_id code) (Some (ac_auth_time code))).
  { right. right. exists j, code_val, code. split; [unfold pre1; rewrite !elem_of_app, !list_elem_of_singleton; auto | done]. }
  eapply (preceded_try _ _ _ (fun _ _ => True)); [apply issue_saves; by left | done|]. intros w tokens _.
  eapply (preceded_bind _ _ _ (fun _ _ => True)); [apply maybe_refresh_saves | done | ].
  { eapply front_read_mono; [exact Hf|]. intros ev Hev. apply elem_of_app. by left. }
  intros w2 rt _. intros l u. split; [intros []|]. exact I.
Qed.
Lemma refresh_grant_saves client form jkt pre : preceded saving (save_good p) pre (refresh_token_grant p client form jkt).
Proof.
  unfold refresh_token_grant. apply preceded_check. intros rt_val _. intros j got. split; [intros []|].
  apply preceded_check. intros r Hr%ok_or_Ok. subst got. apply preceded_check. intros [] _. apply preceded_check. intros [] _.
  destruct (rt_used r). { intros k u. split; [intros []|]. exact I. }
  apply preceded_check. intros scope _.
  assert (Hf : forall w, refresh_read ((pre ++ [Ev j (StoreOp (GetRefreshToken rt_val)) (Some r)]) ++ w) (rt_account_id r) (rt_auth_time r)).
  { intros w. exists j, rt_val, r. split; [rewrite !elem_of_app, !list_elem_of_singleton; auto | done]. }
  skip_within (@nil mutation). intros k won. split; [intros []|]. cbn [prog_bind prog_bind_go]. destruct won; [|exact I]. cbn [negb].
  rewrite <- app_assoc. eapply (preceded_try _ _ _ (fun _ _ => True)); [apply issue_saves; right; left; apply Hf | done|].
  intros w2 tokens _. rewrite <- app_assoc. destruct r0 as [new|]; [|exact I]. intros l u. split; [|exact I].
  intros _. right. apply Hf.
Qed.
Lemma ciba_grant_saves client form jkt pre : preceded saving (save_good p) pre (ciba_grant p client form jkt).
Proof.
  unfold ciba_grant. apply preceded_check. intros id _. intros i got. split; [intros []|]. apply preceded_check. intros found _.
  apply preceded_check. intros q _. apply preceded_check. intros [] _. skip_within (@nil mutation).
  destruct (br_expired _ q).
  { apply avoids_preceded, (within_avoids [RedeemRequest]); [reflexivity | confine]. }
  destruct (br_status q); [exact I| |apply avoids_preceded, (within_avoids [RedeemRequest]); [reflexivity | confine]].
  intros k taken. split; [intros []|]. apply preceded_check. intros taken' Ht. apply preceded_check. intros q' Hq%ok_or_Ok. subst taken'.
  unfold server_error in Ht. apply map_err_Ok in Ht. subst taken.
  eapply (preceded_try _ _ _ (fun _ _ => True)); [apply issue_saves; right; right | done | done].
  split; [done|]. exists k, id, q'. split; [apply elem_of_app; right; by apply list_elem_of_singleton | done].
Qed.
Lemma token_saves hs form : preceded saving (save_good p) [] (token p hs form).
Proof.
  unfold token. apply preceded_finish. apply preceded_check. intros gt _. apply preceded_check. intros grant _.
  skip_within [WritesIn "nonces"]. destruct (negb _); [exact I|]. skip_within [WritesIn "nonces"].
  eapply (preceded_bind _ _ _ (fun _ _ => True)); [|done|by intros ? [?|?] _].
  destruct grant; [apply code_grant_saves | apply refresh_grant_saves | apply ciba_grant_saves].
Qed.
End routes.

(** ** Every route *)

Section table.
Context `{Axum, Externals, AdminCodec, IatCodec}.

Definition vetted (D : event provE -> Prop) (Good : trace -> event provE -> Prop) (h : method * Handler) : Prop :=
  forall rq cap, preceded D Good [] (h.2 rq cap).

Lemma may_keeps_out pattern m : keeps_out (may pattern m) = true.
Proof.
  unfold may. destruct (list_find_first _ matrix) as [[k L]|] eqn:Hf; [|done].
  apply list_find_first_Some in Hf as [Hin _]. revert L Hin.
  assert (Hall : Forall (fun e => keeps_out e.2 = true) matrix) by (repeat constructor).
  rewrite Forall_forall in Hall. intros L Hin. exact (Hall _ Hin).
Qed.
Lemma answers_saves p (f : Request -> Response) rq : preceded saving (save_good p) [] (mret (f rq) : prog provE Response).
Proof. exact I. Qed.
Lemma with_arg_saves p {T} (x : Extractor T) f rq cap :
  (forall a, preceded saving (save_good p) [] (f rq a)) -> preceded saving (save_good p) [] (with_arg x f rq cap).
Proof. intros Hf. unfold with_arg. by destruct (extract T x rq cap). Qed.
Lemma with_args_saves p {T U} (x : Extractor T) (y : Extractor U) f rq cap :
  (forall a b, preceded saving (save_good p) [] (f rq a b)) -> preceded saving (save_good p) [] (with_args x y f rq cap).
Proof. intros Hf. unfold with_args. destruct (extract T x rq cap); [|done]. by destruct (extract U y rq cap). Qed.

Lemma inner_saves p :
  Forall (fun r => confined r r.1 -> Forall (fun h => forall rq cap, preceded saving (save_good p) [] (h.2 rq cap)) r.2) (inner_routes p).
Proof.
  repeat apply Forall_cons_2; try apply Forall_nil_2; intros Hc; unfold confined in Hc; cbn [fst snd] in Hc |- *;
    repeat (apply Forall_cons in Hc as [Hh Hc]; apply Forall_cons_2;
      [intros rq cap; specialize (Hh rq cap); cbn [fst snd] in Hh |- * | clear Hh]);
    try apply Forall_nil_2;
    first [ solve [eapply avoids_preceded, within_avoids; [|exact Hh]; vm_compute; reflexivity]
          | lazymatch goal with
            | |- context [authorize] => apply authorize_saves
            | |- context [authorize_resume] => apply with_arg_saves; intros a; apply resume_saves
            | |- context [token] => apply with_arg_saves; intros a; apply token_saves
            | |- context [ciba_reject] => apply with_arg_saves; intros a; apply avoids_preceded, reject_saves
            | |- context [login_passkey_verify] => apply with_args_saves; intros a b; apply login_saves
            | |- context [ciba_approve] => apply with_args_saves; intros a b; apply approve_saves
            end ].
Qed.
Lemma inner_vetted p : Forall (fun r => Forall (vetted touching (touch_good p)) r.2) (inner_routes p).
Proof.
  pose proof (inner_confined p) as Hc. pose proof (inner_saves p) as Hs. rewrite Forall_forall in Hc, Hs |- *.
  intros r Hr. specialize (Hs r Hr (Hc r Hr)). specialize (Hc r Hr). unfold confined in Hc. rewrite Forall_forall in Hc, Hs |- *.
  intros h Hh rq cap. apply touching_intro; [by apply Hs|].
  eapply within_outside; [apply may_keeps_out | by apply Hc].
Qed.
End table.
