(* ===== verification/Deployment.v ===== *)
(** * The server as it is deployed

    Any requests at the same time, in one process or in several, with the stores on the
    shared database: an account in a session, a code or a token is one whose passkey has
    signed. *)

From S2P Require Import Prelude Prog Json Model Decimal Calendar Firestore Externals Es256 WebAuthn Sys X509 Mds DocStore Nonce Ciba Dcr Claims Accounts AdminStore DcrStore Store FirestoreStore Provider AuthChecks Dpop ClientAuth RequestObject Grants Http FidoStore Fido I18n Fcm Cli Templates Passkey CibaEndpoints Login AdminWeb Authorize Endpoints Registration PasskeyFacts App AppFacts Records Provenance.

#[local] Open Scope Z_scope.

(** ** Handlers inside of the process *)

Definition web_event (ev : event appE) : option (event provE) :=
  match ev with
  | Ev i e x =>
      match e in appE X return X -> option (event provE) with
      | Web o => fun x => Some (Ev i o x)
      | Conformance _ => fun _ => None
      end x
  | EvEnv => None
  end.
Definition webs (tr : list (event appE)) : trace := omap web_event tr.
Definition on_web (D : event provE -> Prop) (ev : event appE) : Prop :=
  match web_event ev with Some e => D e | None => False end.
Definition on_web_good (Good : trace -> event provE -> Prop) (pre : list (event appE)) (ev : event appE) : Prop :=
  match web_event ev with Some e => Good (webs pre) e | None => True end.

Lemma webs_app tr1 tr2 : webs (tr1 ++ tr2) = webs tr1 ++ webs tr2.
Proof. apply omap_app. Qed.
Lemma webs_snoc tr ev e : web_event ev = Some e -> webs (tr ++ [ev]) = webs tr ++ [e].
Proof. intros He. rewrite webs_app. simpl. by rewrite He. Qed.

Lemma web_preceded {A} D Good pre (q : prog provE A) :
  preceded D Good (webs pre) q -> preceded (on_web D) (on_web_good Good) pre (web q).
Proof.
  revert pre. induction q as [a|X e k IH]; intros pre; [done|]. intros Hq i x. destruct (Hq i x) as [Hg Hk]. split; [exact Hg|].
  apply IH. by rewrite (webs_snoc pre _ (Ev i e x)).
Qed.
Lemma web_avoids {A} D (q : prog provE A) : avoids D q -> avoids (on_web D) (web q).
Proof. induction q as [a|X e k IH]; [done|]. intros Hq i x. destruct (Hq i x) as [Hn Hk]. split; [exact Hn | by apply IH]. Qed.
Lemma web_path {A} (q : prog provE A) tr a : thread_path (web q) tr (Ret a) -> thread_path q (webs tr) (Ret a).
Proof.
  revert tr. induction q as [b|X e k IH]; intros tr.
  - by intros [-> [= ->]].
  - intros [[_ ?]|(i & x & tr' & -> & Hp)]; [done|]. right. exists i, x, (webs tr'). split; [done | by apply IH].
Qed.

(** ** The stores on the database *)

Definition app_op X (e : appE X) : prog appE X :=
  match e with
  | Web o => web (on_database_op _ o)
  | Conformance o => trigger (Conformance o)
  end.
Definition deployed {A} (q : prog appE A) : prog appE A := interp app_op q.

(** What a handler has established before each of its operations, and what its operations on
    the database need: it is enough to go through the operations of a handler one by one. *)
Section lowering.
Context `{Externals} (Known : trace -> forall X, provE X -> Prop) (Good : trace -> event provE -> Prop).
Context (Known_op : forall pre pre' X (e : provE X), carried_all pre pre' -> Known pre X e -> preceded db_op Good pre' (on_database_op X e)).

Definition all_known (pre : trace) (ev : event provE) : Prop := match ev with Ev _ e _ => Known pre _ e | EvEnv => True end.
Lemma deployed_lowered {A} (q : prog appE A) pre pre' :
  preceded (fun _ => True) (on_web_good all_known) pre q -> carried_all (webs pre) (webs pre') ->
  preceded (on_web db_op) (on_web_good Good) pre' (deployed q).
Proof.
  revert pre pre'. induction q as [a|X e k IH]; intros pre pre' Hq Hc; [done|]. cbn [deployed interp].
  destruct e as [X o|X o].
  2:{ intros i x. split; [intros []|]. apply (IH x (pre ++ [Ev i (Conformance o) x])); [apply (Hq i x)|].
      rewrite !webs_app. simpl. by rewrite !app_nil_r. }
  assert (Ho : Known (webs pre) _ o) by (destruct (prov_answer X o) as [x]; by apply (proj1 (Hq 0%nat x))).
  eapply (preceded_bind _ _ _ (fun tr x => exists i, carried_all (webs pre ++ [Ev i o x]) (webs pre' ++ webs tr))).
  - by eapply web_preceded, Known_op.
  - intros tr x Hx. apply op_carried; [done | by apply web_path].
  - intros tr x [i Hx]. eapply (IH x (pre ++ [Ev i (Web o) x])); [apply (Hq i x)|].
    by rewrite (webs_snoc pre _ (Ev i o x)), webs_app.
Qed.
End lowering.

Section threads.
Context `{Externals} (p : Provider).

(** What the records need. *)
Definition save_known (pre : trace) X (e : provE X) : Prop :=
  save_ok p pre e /\ match e with SysOp (FsOp o) => harmless o = true | _ => True end.
Lemma save_known_op pre pre' X (e : provE X) :
  carried_all pre pre' -> save_known pre X e -> preceded db_op (db_op_ok p) pre' (on_database_op X e).
Proof. intros Hc [Hs He]. by eapply op_lowered. Qed.
(** A condition on some operations only. *)
Lemma touching_known {A} (D : event provE -> Prop) Good Known pre (q : prog appE A) :
  preceded (on_web D) (on_web_good Good) pre q -> (forall ev, D ev \/ ~ D ev) ->
  (forall pre j X (e : provE X) x, D (Ev j e x) -> Good pre (Ev j e x) -> Known pre X e) ->
  (forall pre j X (e : provE X) x, ~ D (Ev j e x) -> Known pre X e) ->
  preceded (fun _ => True) (on_web_good (all_known Known)) pre q.
Proof.
  intros Hq Hdec Hd Hn. revert pre Hq. induction q as [a|X e k IH]; intros pre Hq; [done|]. intros i x. destruct (Hq i x) as [Hg Hk].
  split; [|by apply IH]. intros _. destruct e as [X o|X o]; [|exact I]. simpl.
  destruct (Hdec (Ev i o x)) as [Hx|Hx]; [by eapply Hd, Hg | by eapply Hn].
Qed.

(** More events before a program. *)
Lemma front_read_sub pre pre' a t : front_read pre a t -> pre ⊆ pre' -> front_read pre' a t.
Proof. intros Hf Hs. by eapply front_read_mono; [exact Hf | apply Hs]. Qed.
Lemma save_ok_sub pre pre' X (o : provE X) : save_ok p pre o -> pre ⊆ pre' -> save_ok p pre' o.
Proof.
  intros Ho Hs. destruct o as [X o|X o|X o| | | |]; try done.
  - assert (Hl : forall a t, logged_in_by p pre a t -> logged_in_by p pre' a t).
    { intros a t (a0 & j & account & Hl & Hj & ->). exists a0, j, account. split; [|split; [by apply Hs | done]].
      eapply signed_login_mono; [exact Hl | apply Hs]. }
    destruct o; try done; simpl in *.
    + intros a Ha. destruct (Ho a Ha) as (t & ? & ?). eauto.
    + by eapply Hl.
    + by eapply front_read_sub.
    + destruct Ho as [?|[?|[? (j & id & r & ? & ?)]]]; [left; by eapply front_read_sub | right; left; by eapply refresh_read_mono; [|apply Hs] | right; right].
      split; [done|]. exists j, id, r. split; [by apply Hs | done].
    + destruct Ho as [?|?]; [left; by eapply front_read_sub | right; by eapply refresh_read_mono; [|apply Hs]].
  - destruct o; try done. destruct status; try done. destruct Ho as (j & q & ? & ?). exists j, q. split; [by apply Hs|].
    eapply signed_approval_mono; [eassumption | apply Hs].
Qed.
Lemma touch_good_sub pre pre' ev : touch_good p pre ev -> pre ⊆ pre' -> touch_good p pre' ev.
Proof. intros [Hs Ho] Hsub. split; [|done]. destruct ev; [by eapply save_ok_sub | done]. Qed.
End threads.

Section requests.
Context `{Axum, Externals, AdminCodec, IatCodec, !X509, !MdsCodec}.
Context (header_value_from_str : string -> bool).

(** From the handlers of the table to every request: for a condition that more events keep. *)
Section dispatch.
Context (p : Provider) (D : event provE -> Prop) (Good : trace -> event provE -> Prop).
Context (Good_sub : forall pre pre' ev, Good pre ev -> pre ⊆ pre' -> Good pre' ev).
Context (D_draw : forall i x, ~ D (Ev i (SysOp UuidV4) x)).
Context (inner : Forall (fun r => Forall (vetted D Good) r.2) (inner_routes p)).

Lemma preceded_sub {A} (q : prog provE A) pre pre' : preceded D Good pre q -> pre ⊆ pre' -> preceded D Good pre' q.
Proof.
  revert pre pre'. induction q as [a|X e k IH]; intros pre pre'; [done|]. intros Hq Hs i x. destruct (Hq i x) as [Hg Hk]. split.
  - intros Ht. by eapply Good_sub; [apply Hg|].
  - eapply IH; [exact Hk|]. set_solver.
Qed.
Lemma handle_vetted hs rq cap : Forall (vetted D Good) hs -> preceded D Good [] (handle hs rq cap).
Proof.
  intros Hv. rewrite Forall_forall in Hv. unfold handle.
  assert (Hm : forall m h, handler_of m hs = Some h -> preceded D Good [] (h rq cap)).
  { intros m h. unfold handler_of. destruct (list_find_first _ hs) as [[m' h']|] eqn:Hl; [|done]. intros [= <-].
    apply list_find_first_Some in Hl as [Hin _]. exact (Hv _ Hin rq cap). }
  destruct (method_of (rq_method rq)) as [m|].
  { destruct (handler_of m hs) as [h|] eqn:Hg; [by eapply Hm | exact I]. }
  destruct (bool_decide _); [|exact I]. destruct (handler_of GET hs) as [h|] eqn:Hg; [|exact I].
  eapply (preceded_bind _ _ _ (fun _ _ => True)); [by eapply Hm | done | done].
Qed.
(** Every route of the table, and those outside of the nested router. *)
Lemma route_vetted pattern hs : find_route pattern (web_routes p) = Some hs -> Forall (vetted D Good) hs.
Proof.
  unfold find_route. intros Hf. destruct (list_find_first _ _) as [r|] eqn:Hl; [|done]. injection Hf as <-.
  apply list_find_first_Some in Hl as [Hin _]. unfold web_routes in Hin. rewrite !elem_of_app in Hin. destruct Hin as [Hb|[Hi|Hm]].
  - unfold base_routes in Hb. destruct (str_is_empty (p_base_path p)); [by apply elem_of_nil in Hb|].
    rewrite !elem_of_cons in Hb. destruct Hb as [->|[->|Hb]]; [by repeat constructor..|by apply elem_of_nil in Hb].
  - apply list_elem_of_fmap in Hi as (r' & -> & Hin). pose proof inner as Hall. rewrite Forall_forall in Hall. exact (Hall r' Hin).
  - unfold magic_routes in Hm. rewrite !elem_of_cons in Hm. destruct Hm as [->|[->|Hm]]; [| |by apply elem_of_nil in Hm];
      (constructor; [|constructor]); intros rq cap; [|exact I]. cbn [snd]. unfold with_arg. by destruct (extract _ _ rq cap).
Qed.
Lemma conformance_apart {A} (q : prog fidoE A) : avoids (on_web D) (conformance q).
Proof. induction q as [a|X e k IH]; [done|]. intros i x. split; [intros []|apply IH]. Qed.

Lemma serve_vetted var st rq : preceded (on_web D) (on_web_good Good) [] (serve header_value_from_str var p st rq).
Proof.
  unfold serve. eapply (preceded_skip _ _ _ (fun _ _ => True)).
  { destruct (inbound_id _); [exact I|]. intros i x. split; [apply D_draw | exact I]. }
  { by intros ? ? ?. }
  intros tr rid _. eapply (preceded_bind _ _ _ (fun _ _ => True)); [|done|done]. unfold dispatch.
  destruct (match_route _ _) as [[pattern cap]|]; [|exact I].
  destruct (find_route pattern (web_routes p)) as [hs|] eqn:Hw.
  - apply web_preceded. eapply preceded_sub; [apply handle_vetted; by eapply route_vetted | set_solver].
  - destruct (find_route pattern (fido_routes var st)) as [h|]; [|exact I]. apply avoids_preceded, conformance_apart.
Qed.
End dispatch.

(** One request with the stores on the database. *)
Definition deployed_request (var : Env) (p : Provider) (st : FidoState) (rq : Request) : prog appE Traced :=
  deployed (serve header_value_from_str var p st rq).
Lemma request_sound var p st rq : preceded (on_web db_op) (on_web_good (db_op_ok p)) [] (deployed_request var p st rq).
Proof.
  refine (deployed_lowered (save_known p) (db_op_ok p) (save_known_op p) _ [] [] _ _); [|by intros ev ?%elem_of_nil].
  eapply touching_known; [|apply touching_dec| |].
  - apply serve_vetted; [apply touch_good_sub | intros i x [[]|[]] | apply inner_vetted].
  - by intros pre j X e x _ [? ?].
  - intros pre j X e x Hn. split; [apply (not_saving_ok p pre j X e x); intros Hs; apply Hn; by left|].
    destruct e as [Y [| | |Y' o]| | | | | |]; try exact I. destruct Hn. by right.
Qed.
End requests.

(** ** The pool *)

Definition thread_trace (i : nat) (tr : list (event appE)) : trace := webs (filter (of_thread i) tr).
Lemma thread_trace_app i tr1 tr2 : thread_trace i (tr1 ++ tr2) = thread_trace i tr1 ++ thread_trace i tr2.
Proof. unfold thread_trace. by rewrite filter_app, webs_app. Qed.
Lemma thread_trace_own i X (o : provE X) x : thread_trace i [Ev i (Web o) x] = [Ev i o x].
Proof. unfold thread_trace. by rewrite filter_cons_True. Qed.
Lemma thread_trace_sub i tr tr' : thread_trace i tr ⊆ thread_trace i (tr ++ tr').
Proof. rewrite thread_trace_app. set_solver. Qed.
Lemma thread_trace_elem i j X (o : provE X) x tr : Ev j o x ∈ thread_trace i tr -> Ev i (Web o) x ∈ tr /\ j = i.
Proof.
  unfold thread_trace, webs. intros Hin. apply list_elem_of_omap in Hin as (ev & Hev & He).
  apply list_elem_of_filter in Hev as [Hi Hin].
  destruct ev as [k Y e y|]; [|done]. simpl in Hi. subst k. destruct e as [Y o'|Y o']; [|done]. simpl in He.
  assert (Hev : Ev i (Web o') y = Ev i (Web o) x :> event appE).
  { exact (f_equal (fun e => match e with Some (Ev _ o x) => Ev i (Web o) x | _ => EvEnv end) He). }
  rewrite <- Hev. split; [done|]. by injection He.
Qed.

Section pool.
Context `{Externals} (p : Provider).

(** What the threads together have shown. *)
Definition login_known (tr : list (event appE)) (a : string) (t : Z) : Prop := exists i, signed_login p (thread_trace i tr) a t.
Definition approval_known (tr : list (event appE)) (id a : string) : Prop := exists i, signed_approval p (thread_trace i tr) id a.
Definition requested (tr : list (event appE)) (id a : string) : Prop :=
  exists j f x, Ev j (Web (SysOp (FsOp (SetDoc CIBA_COL id f)))) x ∈ tr /\ request_account f = a.

(** A record names an account whose passkey has signed. *)
Definition vouched (tr : list (event appE)) (c i : string) (f : Value) : Prop :=
  (c ∈ fronts -> forall a, account_of f = Some a -> exists t, time_of f = Some t /\ login_known tr a t) /\
  (c ∈ tokens -> forall a, account_of f = Some a ->
     (exists t, time_of f = Some t /\ login_known tr a t) \/ time_of f = None /\ exists id, approval_known tr id a) /\
  (c = CIBA_COL -> requested tr i (request_account f) /\ (request_status f = Approved -> approval_known tr i (request_account f))).
Definition reads_vouched (tr : list (event appE)) : Prop :=
  forall i c id f, doc_read (thread_trace i tr) c id f -> is_object f /\ (c ∈ records -> vouched tr c id f).

(** Every write of a thread is one that its own events allow. *)
Definition sound_trace (T : list (event appE)) : Prop :=
  forall tr1 i X (o : provE X) x tr2, T = tr1 ++ Ev i (Web o) x :: tr2 -> db_op_ok p (thread_trace i tr1) (Ev i o x).

(** The clock counts seconds in 64 bits; an identifier is drawn once. *)
Definition clock_fits (T : list (event appE)) : Prop := forall i t, Ev i (Web (SysOp NowSecs)) t ∈ T -> in_u64 t.
Definition drawn (ev : event appE) : option string :=
  match ev with
  | Ev _ e x => match e in appE X return X -> option string with
                | Web o => match o in provE X return X -> option string with
                           | SysOp s => match s in sysE X return X -> option string with UuidV4 => Some | _ => fun _ => None end
                           | _ => fun _ => None
                           end
                | Conformance _ => fun _ => None
                end x
  | EvEnv => None
  end.
Definition drawn_once (T : list (event appE)) : Prop := NoDup (omap drawn T).
Definition one_account (T : list (event appE)) : Prop :=
  forall id a a', requested T id a -> requested T id a' -> a = a'.

Lemma login_known_app tr tr' a t : login_known tr a t -> login_known (tr ++ tr') a t.
Proof. intros [i Hi]. exists i. eapply signed_login_mono; [exact Hi | apply thread_trace_sub]. Qed.
Lemma approval_known_app tr tr' id a : approval_known tr id a -> approval_known (tr ++ tr') id a.
Proof. intros [i Hi]. exists i. eapply signed_approval_mono; [exact Hi | apply thread_trace_sub]. Qed.
Lemma requested_app tr tr' id a : requested tr id a -> requested (tr ++ tr') id a.
Proof. intros (j & f & x & Hin & Ha). exists j, f, x. split; [apply elem_of_app; by left | done]. Qed.
Lemma vouched_app tr tr' c i f : vouched tr c i f -> vouched (tr ++ tr') c i f.
Proof.
  intros (Hf & Ht & Hr). split; [|split].
  - intros Hc a Ha. destruct (Hf Hc a Ha) as (t & ? & ?). exists t. split; [done | by apply login_known_app].
  - intros Hc a Ha. destruct (Ht Hc a Ha) as [(t & ? & ?)|(? & id & ?)]; [left; exists t | right; split; [done|]; exists id].
    + split; [done | by apply login_known_app].
    + by apply approval_known_app.
  - intros Hc. destruct (Hr Hc) as [Hq Hs]. split; [by apply requested_app|]. intros Ha. by apply approval_known_app, Hs.
Qed.

(** Two writes of a new request under one identifier are the same write. *)
Definition created_account (ev : event provE) : option string :=
  match ev with
  | Ev _ e _ => match e with SysOp s => match s with FsOp o => match o with SetDoc _ _ f => Some (request_account f) | _ => None end | _ => None end | _ => None end
  | EvEnv => None
  end.
Lemma created_at T id a : sound_trace T -> requested T id a ->
  exists i m j ev, thread_trace i T !! m = Some (Ev j (SysOp UuidV4) id) /\
    thread_trace i T !! (m + 2)%nat = Some ev /\ created_account ev = Some a.
Proof.
  intros HT (i & f & x & Hin & Ha). apply list_elem_of_split in Hin as (tr1 & tr2 & Heq).
  destruct (HT _ _ _ _ _ _ Heq) as [_ (_ & _ & Hr)]. destruct (Hr eq_refl) as (_ & pre0 & j & k & t & Hpre).
  exists i, (length pre0), j, (Ev i (SysOp (FsOp (SetDoc CIBA_COL id f))) x).
  assert (Htt : thread_trace i T = pre0 ++ [Ev j (SysOp UuidV4) id; Ev k (SysOp NowSecs) t] ++
                  Ev i (SysOp (FsOp (SetDoc CIBA_COL id f))) x :: thread_trace i tr2).
  { rewrite Heq. change (Ev i ?o x :: tr2) with ([Ev i o x] ++ tr2). rewrite !thread_trace_app, thread_trace_own, Hpre.
    by rewrite <- app_assoc. }
  rewrite Htt. split; [by rewrite lookup_app_r, Nat.sub_diag|]. split; [|simpl; by rewrite Ha].
  by rewrite lookup_app_r, Nat.add_comm, Nat.add_sub by lia.
Qed.
Lemma drawn_prefix T1 T2 T1' T2' ev ev' u k :
  drawn_once (T1 ++ ev :: T2) -> drawn ev = Some u -> drawn ev' = Some u ->
  T1 = T1' ++ k -> ev' :: T2' = k ++ ev :: T2 -> T1 = T1' /\ ev = ev'.
Proof.
  intros Hn Hu Hu' -> Hk. destruct k as [|e k]; simpl in Hk; injection Hk as He Hk; subst; [by rewrite app_nil_r|]. exfalso.
  unfold drawn_once in Hn. rewrite <- app_assoc, omap_app in Hn. simpl in Hn. rewrite Hu', omap_app in Hn. simpl in Hn. rewrite Hu in Hn.
  apply NoDup_app in Hn as (_ & _ & Hn). apply NoDup_cons in Hn as [Hn _]. apply Hn, elem_of_app. right. by left.
Qed.
Lemma drawn_place T T1 T2 T1' T2' ev ev' u :
  drawn_once T -> T = T1 ++ ev :: T2 -> T = T1' ++ ev' :: T2' -> drawn ev = Some u -> drawn ev' = Some u ->
  T1 = T1' /\ ev = ev'.
Proof.
  intros Hn H1 H2 Hu Hu'. pose proof H2 as Heq. rewrite H1 in Heq. apply app_eq_inv in Heq as [(k & Hk & Hr)|(k & Hk & Hr)].
  - eapply drawn_prefix; [rewrite H1 in Hn; exact Hn | exact Hu | exact Hu' | exact Hk | exact Hr].
  - edestruct (drawn_prefix T1' T2' T1 T2 ev' ev u k) as [-> ->]; [by rewrite H2 in Hn | done..].
Qed.
(** An event of a thread in the whole trace. *)
Lemma thread_place i T m j X (o : provE X) x : thread_trace i T !! m = Some (Ev j o x) ->
  exists T1 ev T2, T = T1 ++ ev :: T2 /\ of_thread i ev /\ web_event ev = Some (Ev j o x) /\ length (thread_trace i T1) = m.
Proof.
  revert m. induction T as [|ev T IH]; intros m; [done|]. change (ev :: T) with ([ev] ++ T). rewrite thread_trace_app.
  destruct (thread_trace i [ev]) as [|e l] eqn:Hev.
  { intros Hm. destruct (IH m Hm) as (T1 & ev' & T2 & -> & Hi & He & Hl). exists (ev :: T1), ev', T2. split; [done|].
    split; [done|]. split; [done|]. change (ev :: T1) with ([ev] ++ T1). by rewrite thread_trace_app, Hev. }
  unfold thread_trace in Hev. destruct (decide (of_thread i ev)) as [Hi|Hi]; [rewrite filter_cons_True in Hev by done | by rewrite filter_cons_False in Hev].
  simpl in Hev. destruct (web_event ev) as [e'|] eqn:He; [|done]. injection Hev as -> <-. destruct m as [|m]; simpl.
  - intros [= ->]. exists [], ev, T. done.
  - intros Hm. destruct (IH m Hm) as (T1 & ev' & T2 & -> & Hi' & He' & Hl). exists (ev :: T1), ev', T2. split; [done|].
    split; [done|]. split; [done|]. change (ev :: T1) with ([ev] ++ T1). rewrite thread_trace_app, length_app, Hl.
    unfold thread_trace. rewrite filter_cons_True by done. simpl. by rewrite He.
Qed.
Lemma web_event_drawn ev j u : web_event ev = Some (Ev j (SysOp UuidV4) u) -> drawn ev = Some u.
Proof.
  intros He. destruct ev as [k X [Y o|Y o] x|]; try done. simpl in He.
  exact (f_equal (fun e => match e with
    | Some (Ev _ o x) => match o in provE X return X -> option string with
                         | SysOp s => match s in sysE X return X -> option string with UuidV4 => Some | _ => fun _ => None end
                         | _ => fun _ => None
                         end x
    | _ => None end) He).
Qed.
Lemma drawn_one_account T : sound_trace T -> drawn_once T -> one_account T.
Proof.
  intros HT Hd id a a' Ha Ha'. destruct (created_at T id a HT Ha) as (i & m & j & ev & Hu & He & Hc).
  destruct (created_at T id a' HT Ha') as (i' & m' & j' & ev' & Hu' & He' & Hc').
  destruct (thread_place _ _ _ _ _ _ _ Hu) as (T1 & e & T2 & H1 & Hi & Hw & Hm).
  destruct (thread_place _ _ _ _ _ _ _ Hu') as (T1' & e' & T2' & H2 & Hi' & Hw' & Hm').
  destruct (drawn_place T T1 T2 T1' T2' e e' id Hd H1 H2) as [-> ->]; [by eapply web_event_drawn..|].
  assert (i = i') as -> by (by destruct e'; simpl in Hi, Hi'; subst). congruence.
Qed.

(** ** A write is vouched for *)

Section writes.
Context (tr : list (event appE)) (i : nat).
Context (Hreads : reads_vouched tr) (Hclock : clock_fits tr) (Hone : one_account tr).

Lemma login_time a t : signed_login p (thread_trace i tr) a t -> in_u64 t.
Proof.
  intros (uid & req & ch & ce & email & acc & cred & k & _ & _ & _ & _ & _ & _ & _ & Hk).
  apply thread_trace_elem in Hk as [Hk _]. by eapply Hclock.
Qed.
Lemma from_front_known a t : from_front (thread_trace i tr) a t -> exists u, t = Some u /\ login_known tr a u.
Proof.
  intros (c & id & g & Hg & Hc & Ha & Ht). destruct (Hreads _ _ _ _ Hg) as [_ Hv].
  destruct Hv as [Hf _]; [unfold records; set_solver|].
  destruct (Hf Hc a Ha) as (u & Hu & Hl). exists u. destruct Ht as [Ht|Ht]; [by rewrite <- Ht | congruence].
Qed.
Lemma front_written f c : c ∈ fronts -> front_record_ok p (thread_trace i tr) f ->
  forall a, account_of f = Some a -> exists t, time_of f = Some t /\ login_known tr a t.
Proof.
  intros Hc Hf a Ha. destruct (Hf a Ha) as [(t & Ht & Hl)|Hr].
  - exists t. split; [by eapply Ht, login_time | by exists i].
  - by apply from_front_known.
Qed.
Lemma token_written f c : c ∈ tokens -> token_record_ok (thread_trace i tr) f ->
  forall a, account_of f = Some a ->
    (exists t, time_of f = Some t /\ login_known tr a t) \/ time_of f = None /\ exists id, approval_known tr id a.
Proof.
  intros Hc Hf a Ha. destruct (Hf a Ha) as [Hr|[(c' & id & g & Hg & Hc' & Hga & Hgt)|[Hn (id & g & Hg & Hst & Hga)]]].
  - left. by apply from_front_known.
  - destruct (Hreads _ _ _ _ Hg) as [_ Hv]. destruct Hv as [_ [Ht _]]; [unfold records; set_solver|].
    rewrite <- Hgt. by apply Ht.
  - right. split; [done|]. exists id. destruct (Hreads _ _ _ _ Hg) as [_ Hv].
    destruct Hv as [_ [_ Hq]]; [by left|]. destruct (Hq eq_refl) as [_ Happ]. rewrite <- Hga. by apply Happ.
Qed.
Lemma request_rewritten id f : request_ok p (thread_trace i tr) id f false ->
  requested tr id (request_account f) /\ (request_status f = Approved -> approval_known tr id (request_account f)).
Proof.
  intros (g & Hg & Ha & Hs). destruct (Hreads _ _ _ _ Hg) as [_ Hv]. destruct Hv as [_ [_ Hq]]; [by left|].
  destruct (Hq eq_refl) as [Hreq _]. rewrite <- Ha. split; [done|]. intros Hst. destruct (Hs Hst) as (g' & Hg' & Happ).
  destruct (Hreads _ _ _ _ Hg') as [_ Hv']. destruct Hv' as [_ [_ Hq']]; [by left|]. destruct (Hq' eq_refl) as [Hreq' _].
  rewrite (Hone id _ _ Hreq Hreq'). by exists i.
Qed.
(** The document of a write, after it. *)
Lemma set_vouched c id f b X (o : fsE X) x :
  set_ok p (thread_trace i tr) c id f b -> (b = true -> exists y, Ev i (Web (SysOp (FsOp o))) x = Ev i (Web (SysOp (FsOp (SetDoc c id f)))) y) ->
  vouched (tr ++ [Ev i (Web (SysOp (FsOp o))) x]) c id f.
Proof.
  intros (Hf & Ht & Hr) Hev. split; [|split].
  - intros Hc a Ha. destruct (front_written f c Hc (Hf Hc) a Ha) as (t & ? & ?). exists t. split; [done | by apply login_known_app].
  - intros Hc a Ha. destruct (token_written f c Hc (Ht Hc) a Ha) as [(t & ? & ?)|(? & id' & ?)].
    + left. exists t. split; [done | by apply login_known_app].
    + right. split; [done|]. exists id'. by apply approval_known_app.
  - intros Hc. specialize (Hr Hc). destruct b.
    + destruct Hr as [Hst _]. rewrite Hst. split; [|done]. destruct (Hev eq_refl) as [y Hy]. rewrite Hy. subst c.
      exists i, f, y. split; [apply elem_of_app; right; by apply list_elem_of_singleton | done].
    + destruct (request_rewritten id f Hr) as [Hq Hs]. split; [by apply requested_app|]. intros Ha. by apply approval_known_app, Hs.
Qed.
End writes.

(** ** The database along a trace *)

Section database.
Context {B : FsBackend} `{!DocDb B}.

Definition docs_vouched (tr : list (event appE)) (d : fs_db) : Prop :=
  forall c i f v, c ∈ records -> doc_at d c i = Some (f, v) -> vouched tr c i f.
(** Nothing but documents that disappear, outside of the operations of the server. *)
Definition fades (d d' : fs_db) : Prop :=
  db_ok d -> db_ok d' /\ forall c i, c ∈ records -> doc_at d' c i = doc_at d c i \/ doc_at d' c i = None.

Lemma unchanged_vouched tr d d' : unchanged doc_at seen d d' -> docs_vouched tr d -> docs_vouched tr d'.
Proof. intros [Hd _] Hv c i f v Hc. rewrite Hd. by apply Hv. Qed.
Lemma fades_vouched tr d d' : db_ok d -> fades d d' -> docs_vouched tr d -> db_ok d' /\ docs_vouched tr d'.
Proof.
  intros Hok Hf Hv. destruct (Hf Hok) as [Hok' Hd]. split; [done|]. intros c i f v Hc Hi.
  destruct (Hd c i Hc) as [He|He]; rewrite He in Hi; [by eapply Hv | done].
Qed.
Lemma docs_vouched_app tr tr' d : docs_vouched tr d -> docs_vouched (tr ++ tr') d.
Proof. intros Hv c i f v Hc Hi. by eapply vouched_app, Hv. Qed.
Lemma only_vouched tr c i d d' :
  only doc_at seen c i d d' -> (c ∈ records -> forall f v, doc_at d' c i = Some (f, v) -> vouched tr c i f) ->
  docs_vouched tr d -> docs_vouched tr d'.
Proof.
  intros [Ho _] Hn Hv c' i' f v Hc Hi. destruct (decide ((c', i') = (c, i))) as [[= -> ->]|Hne]; [by eapply Hn|].
  rewrite (Ho c' i' Hne) in Hi. by eapply Hv.
Qed.
Lemma put_vouched tr c i f d d' :
  put doc_at seen c i f d d' -> (c ∈ records -> vouched tr c i f) -> docs_vouched tr d -> docs_vouched tr d'.
Proof.
  intros [Ho (v & _ & Hv)] Hf. eapply only_vouched; [exact Ho|]. intros Hc g w. rewrite Hv. intros [= <- <-]. by apply Hf.
Qed.
Lemma removed_vouched tr c i d d' : removed doc_at seen c i d d' -> docs_vouched tr d -> docs_vouched tr d'.
Proof. intros [Ho Hn]. eapply only_vouched; [exact Ho|]. intros Hc g w. by rewrite Hn. Qed.
Lemma plain_write_vouched tr (effect : fs_db -> fs_db -> Prop) d r d' :
  plain_write doc_at seen effect d r d' -> docs_vouched tr d ->
  (effect d d' -> docs_vouched tr d -> docs_vouched tr d') -> docs_vouched tr d'.
Proof. intros Hw Hv He. destruct r; simpl in Hw; [by apply He|]. destruct Hw as [?|?]; [by eapply unchanged_vouched | by apply He]. Qed.
Lemma conditional_vouched tr cond (effect : fs_db -> fs_db -> Prop) d r d' :
  conditional doc_at seen cond effect d r d' -> docs_vouched tr d ->
  (effect d d' -> docs_vouched tr d -> docs_vouched tr d') -> docs_vouched tr d'.
Proof.
  intros Hw Hv He. destruct r as [[]|]; simpl in Hw; [destruct Hw; by apply He | destruct Hw; by eapply unchanged_vouched|].
  destruct Hw as [?|[_ ?]]; [by eapply unchanged_vouched | by apply He].
Qed.

Lemma fs_step_vouched tr i X (o : fsE X) x d d' :
  reads_vouched tr -> clock_fits tr -> one_account tr -> op_ok p (thread_trace i tr) o ->
  doc_step doc_at seen o d x d' -> docs_vouched tr d -> docs_vouched (tr ++ [Ev i (Web (SysOp (FsOp o))) x]) d'.
Proof.
  intros Hr Hc Ho [_ Hok] Hs Hv0. pose proof (docs_vouched_app _ [Ev i (Web (SysOp (FsOp o))) x] _ Hv0) as Hv.
  destruct o; simpl in Hs, Hok; try (by eapply unchanged_vouched; [apply Hs|]); try (by destruct Hs; eapply unchanged_vouched).
  - eapply plain_write_vouched; [exact Hs | exact Hv|]. intros Hp. eapply put_vouched; [exact Hp|]. intros _.
    eapply set_vouched; [done..|exact Hok | by eexists].
  - eapply plain_write_vouched; [exact Hs | exact Hv|]. intros (f & w & f' & _ & _ & Hp). by eapply put_vouched.
  - eapply conditional_vouched; [exact Hs | exact Hv|]. intros Hp. eapply put_vouched; [exact Hp|]. intros _.
    by eapply set_vouched.
  - eapply conditional_vouched; [exact Hs | exact Hv|]. intros Hp. by eapply put_vouched.
  - eapply conditional_vouched; [exact Hs | exact Hv|]. intros Hp. by eapply removed_vouched.
  - eapply plain_write_vouched; [exact Hs | exact Hv|]. intros Hp. by eapply removed_vouched.
  - eapply plain_write_vouched; [exact Hs | exact Hv|]. intros (f' & Hp & Hover). eapply put_vouched; [exact Hp|].
    intros Hcol. destruct (Hok Hcol) as (-> & Hne & Hga & Hgt). specialize (Hover Hne).
    assert (Hsame : forall base, overlay fields base f' -> account_of f' = account_of base /\ time_of f' = time_of base).
    { intros base Hb. apply same_account_time. intros k [->| ->]; rewrite Hb; [by rewrite Hga | by rewrite Hgt]. }
    assert (Hcode : forall f, (forall a, account_of f = Some a -> exists t, time_of f = Some t /\ login_known tr a t) ->
              vouched (tr ++ [Ev i (Web (SysOp (FsOp (MergeDoc "authCodes" id fields)))) x]) "authCodes" id f).
    { intros f Hf. split; [|split]; [|intros Hz; by vm_compute in Hz; set_solver | intros Hz; by vm_compute in Hz].
      intros _ a Ha. destruct (Hf a Ha) as (t & ? & ?). exists t. split; [done | by apply login_known_app]. }
    apply Hcode. intros a. destruct (doc_at d "authCodes" id) as [[base w]|] eqn:Hbase; destruct (Hsame _ Hover) as [-> ->]; [|done].
    destruct (Hv0 "authCodes" id base w Hcol Hbase) as (Hf & _). apply Hf. right; right; by left.
Qed.

(** *** Reads *)

Lemma doc_read_app tr tr' c i f : doc_read (tr ++ tr') c i f -> doc_read tr c i f \/ doc_read tr' c i f.
Proof.
  intros (j & [Hj|(v & Hj)]); apply elem_of_app in Hj as [Hj|Hj]; [left|right|left|right]; exists j; eauto.
Qed.
Lemma reads_extended tr ev :
  reads_vouched tr ->
  (forall i c id f, doc_read (thread_trace i [ev]) c id f -> is_object f /\ (c ∈ records -> vouched tr c id f)) ->
  reads_vouched (tr ++ [ev]).
Proof.
  intros Hr Hev i c id f. rewrite thread_trace_app. intros [Hd|Hd]%doc_read_app; [apply Hr in Hd as [? Hv] | apply Hev in Hd as [? Hv]];
    (split; [done|]; intros Hc; by apply vouched_app, Hv).
Qed.
Lemma no_doc_read c i f : ~ doc_read [] c i f.
Proof. intros (j & [Hj|(v & Hj)]); by apply elem_of_nil in Hj. Qed.
(** The document of a read is the one of the database. *)
Definition read_matches (d : fs_db) (ev : event provE) : Prop :=
  match ev with
  | Ev _ e x =>
      match e in provE X return X -> Prop with
      | SysOp s =>
          match s in sysE X return X -> Prop with
          | FsOp o =>
              match o in fsE X return X -> Prop with
              | GetDoc c i => fun x => forall f, x = Ok (Some f) -> exists v, doc_at d c i = Some (f, v)
              | GetDocWithUpdateTime c i => fun x => forall f v, x = Ok (Some (f, v)) -> doc_at d c i = Some (f, v)
              | _ => fun _ => True
              end
          | _ => fun _ => True
          end
      | _ => fun _ => True
      end x
  | EvEnv => True
  end.
Lemma fs_reads_extended tr i X (o : fsE X) x d d' :
  reads_vouched tr -> db_ok d -> docs_vouched tr d -> doc_step doc_at seen o d x d' ->
  reads_vouched (tr ++ [Ev i (Web (SysOp (FsOp o))) x]).
Proof.
  intros Hr Hok Hv Hs. apply reads_extended; [done|]. intros j c id f Hd.
  assert (Hat : exists v, doc_at d c id = Some (f, v)).
  { destruct (decide (i = j)) as [->|Hne].
    2:{ unfold thread_trace in Hd. rewrite filter_cons_False in Hd by done. by apply no_doc_read in Hd. }
    rewrite thread_trace_own in Hd.
    assert (Hread : read_matches d (Ev j (SysOp (FsOp o)) x)).
    { destruct o; try exact I; destruct Hs as [_ Hs].
      - intros g Hg. specialize (Hs _ Hg). destruct (doc_at d col id0) as [[g' v]|]; [|done]. injection Hs as ->. by exists v.
      - intros g v Hg. symmetry. by apply Hs. }
    destruct Hd as (k & [Hk|(v & Hk)]); apply list_elem_of_singleton in Hk; rewrite <- Hk in Hread; [by apply Hread|].
    exists v. by apply Hread. }
  destruct Hat as [v Hat]. split; [by eapply doc_object | intros Hc; by eapply Hv].
Qed.
End database.
End pool.

(** ** The world of the server *)

Definition on_records {X} (e : appE X) : bool :=
  match e with Web o => match o with SysOp s => match s with FsOp _ => true | _ => false end | _ => false end | Conformance _ => false end.

(** What the server relies on: one database behind the operations of all threads, which
    nothing else writes the records of; documents past their expiry may disappear. *)
Class Behind {B : FsBackend} {DB : DocDb B} {S} (h : handler appE S) (env : S -> S -> Prop) (db : S -> fs_db) := {
  behind_fs X (o : fsE X) s x s' : h _ (Web (SysOp (FsOp o))) s = (x, s') -> fs_handle X o (db s) = (x, db s');
  behind_other X (e : appE X) s x s' : on_records e = false -> h _ e s = (x, s') -> fades (db s) (db s');
  behind_env s s' : env s s' -> fades (db s) (db s')
}.

Section world.
Context `{Externals} (p : Provider).
Context {B : FsBackend} `{!DocDb B} {S : Type} (h : handler appE S) (env : S -> S -> Prop) (db : S -> fs_db) `{!Behind h env db}.

Definition vouched_world (tr : list (event appE)) (s : S) : Prop :=
  db_ok (db s) /\ docs_vouched p tr (db s) /\ reads_vouched p tr.
Definition empty_records (s : S) : Prop := forall c i, c ∈ records -> doc_at (db s) c i = None.

Lemma quiet_extended tr s ev s' :
  (forall j, thread_trace j [ev] = [] \/ exists X (o : provE X) x, thread_trace j [ev] = [Ev j o x] /\ ~ db_op (Ev j o x)) ->
  fades (db s) (db s') -> vouched_world tr s -> vouched_world (tr ++ [ev]) s'.
Proof.
  intros Hq Hf (Hok & Hd & Hr). destruct (fades_vouched p tr _ _ Hok Hf Hd) as [Hok' Hd']. split; [done|].
  split; [by apply docs_vouched_app|]. apply reads_extended; [done|]. intros j c id f Hread.
  destruct (Hq j) as [Hn|(X & o & x & Hn & Hno)]; rewrite Hn in Hread; [by apply no_doc_read in Hread|].
  exfalso. apply Hno. destruct Hread as (k & [Hk|(v & Hk)]); apply list_elem_of_singleton in Hk; by rewrite <- Hk.
Qed.
Lemma step_vouched tr s i X (e : appE X) x s' :
  h _ e s = (x, s') -> clock_fits tr -> one_account tr ->
  (forall o : provE X, e = Web o -> db_op_ok p (thread_trace i tr) (Ev i o x)) ->
  vouched_world tr s -> vouched_world (tr ++ [Ev i e x]) s'.
Proof.
  intros Hh Hc Ho Hgood Hw. destruct (on_records e) eqn:He.
  - destruct e as [X o|X o]; [|done]. destruct o as [X o| | | | | |]; try done. destruct o as [| | |X o]; try done.
    specialize (Hgood _ eq_refl). simpl in Hgood. destruct Hw as (Hok & Hd & Hr).
    assert (Hn : DocStore.named o = true) by (apply Hgood; intros c id f Hread; by apply (Hr i c id f Hread)).
    destruct (doc_law X o _ x _ Hok Hn (behind_fs X o s x s' Hh)) as [Hok' Hs].
    split; [done|]. split; [by eapply fs_step_vouched | exact (fs_reads_extended p tr i X o x _ _ Hr Hok Hd Hs)].
  - apply (quiet_extended _ s); [|by eapply behind_other | done]. intros j. destruct (decide (i = j)) as [->|Hne].
    + destruct e as [X o|X o]; [right | left; unfold thread_trace; by rewrite filter_cons_True]. exists X, o, x. split; [by rewrite thread_trace_own|].
      destruct o as [X o| | | | | |]; try (intros []). destruct o; done || intros [].
    + left. unfold thread_trace. by rewrite filter_cons_False.
Qed.
Lemma world_vouched tr1 s tr2 s' :
  wexec h env s tr2 s' -> sound_trace p (tr1 ++ tr2) -> clock_fits (tr1 ++ tr2) -> one_account (tr1 ++ tr2) ->
  vouched_world tr1 s -> vouched_world (tr1 ++ tr2) s'.
Proof.
  intros Hw. revert tr1. induction Hw as [s|s i X e x s1 tr s2 Hh Hw IH|s s1 tr s2 He Hw IH]; intros tr1 HT Hc Ho Hv.
  - by rewrite app_nil_r.
  - assert (Happ : tr1 ++ Ev i e x :: tr = (tr1 ++ [Ev i e x]) ++ tr) by (by rewrite <- app_assoc). rewrite Happ in *.
    apply IH; [done..|]. eapply step_vouched; [exact Hh| | | |exact Hv].
    + intros j t Hin. eapply Hc. rewrite !elem_of_app. eauto.
    + intros id a a' Ha Ha'. eapply Ho; by do 2 apply requested_app.
    + intros o ->. eapply (HT tr1 i X o x tr). by rewrite Happ.
  - assert (Happ : tr1 ++ EvEnv :: tr = (tr1 ++ [EvEnv]) ++ tr) by (by rewrite <- app_assoc). rewrite Happ in *.
    apply IH; [done..|]. apply (quiet_extended _ s); [|by eapply behind_env | done]. intros j. by left.
Qed.
End world.

Lemma steps_thread {E S A} (h : handler E S) env (c c' : cfg E S A) tr i X (e : E X) x :
  steps h env c tr c' -> Ev i e x ∈ tr -> is_Some (c.1 !! i).
Proof.
  induction 1 as [c|c ev c1 tr c2 Hst _ IH]; [by intros ?%elem_of_nil|]. intros [He|Hin]%elem_of_cons.
  - destruct Hst as [j Y e' k ps s y s' Hj _|]; [|done]. simpl. injection He as <- _ _ _. eauto.
  - specialize (IH Hin). destruct Hst as [j Y e' k ps s y s' Hj _|]; [|done]. simpl in *.
    apply lookup_lt_is_Some. apply lookup_lt_is_Some in IH. by rewrite length_insert in IH.
Qed.
(** What every thread has established before an operation on the database. *)
Lemma pool_good (Good : trace -> event provE -> Prop) {S A} (h : handler appE S) env (ps : list (prog appE A)) s c' tr1 i X (o : provE X) x tr2 :
  Forall (preceded (on_web db_op) (on_web_good Good) []) ps -> steps h env (ps, s) (tr1 ++ Ev i (Web o) x :: tr2) c' ->
  db_op (Ev i o x) -> Good (thread_trace i tr1) (Ev i o x).
Proof.
  intros Hps Hst Ho.
  destruct (steps_thread _ _ _ _ _ i _ (Web o) x Hst) as [q Hq]; [apply elem_of_app; right; by left|].
  destruct (steps_thread_path _ _ _ _ _ i q Hst Hq) as (q' & _ & Hpath). simpl in Hq.
  rewrite filter_app, filter_cons_True in Hpath by done. rewrite Forall_forall in Hps.
  exact (preceded_path (on_web db_op) (on_web_good Good) [] q _ _ _ _ _
    (Hps q (list_elem_of_lookup_2 _ _ _ Hq)) Hpath eq_refl Ho).
Qed.
Lemma pool_sound `{Externals} p {S A} (h : handler appE S) env (ps : list (prog appE A)) s tr c' :
  Forall (preceded (on_web db_op) (on_web_good (db_op_ok p)) []) ps -> steps h env (ps, s) tr c' -> sound_trace p tr.
Proof.
  intros Hps Hst tr1 i X o x tr2 ->. destruct o as [Y [| | |Y' o]| | | | | |]; try exact I.
  by apply (pool_good (db_op_ok p) h env ps s c' tr1 i _ (SysOp (FsOp o)) x tr2).
Qed.

Section server.
Context `{Axum, Externals, AdminCodec, IatCodec, !X509, !MdsCodec}.
Context (header_value_from_str : string -> bool).
Context {B : FsBackend} `{!DocDb B} {S : Type} (h : handler appE S) (env : S -> S -> Prop) (db : S -> fs_db) `{!Behind h env db}.

Lemma server_sound var p st rqs s tr ps s' :
  steps h env (map (deployed_request header_value_from_str var p st) rqs, s) tr (ps, s') -> sound_trace p tr.
Proof.
  intros Hst. eapply pool_sound; [|exact Hst]. apply Forall_forall. intros q (rq & -> & _)%list_elem_of_fmap. apply request_sound.
Qed.
Lemma server_vouched p s tr s' :
  db_ok (db s) -> empty_records db s -> wexec h env s tr s' -> sound_trace p tr -> clock_fits tr -> drawn_once tr ->
  vouched_world p db tr s'.
Proof.
  intros Hok He Hw HT Hclk Hone.
  apply (world_vouched p h env db [] s tr s'); [done..|by eapply drawn_one_account|].
  split; [done|]. split; [intros c' i' f' v' Hc' Hd'; by rewrite He in Hd'|]. by intros j c' i' f' Hr%no_doc_read.
Qed.
(** The conditions on a trace hold of its beginning. *)
Lemma trace_prefix p tr1 tr2 : sound_trace p (tr1 ++ tr2) -> clock_fits (tr1 ++ tr2) -> drawn_once (tr1 ++ tr2) ->
  sound_trace p tr1 /\ clock_fits tr1 /\ drawn_once tr1.
Proof.
  intros HT Hc Hd. split; [|split].
  - intros pre i X o x post ->. eapply (HT pre i X o x (post ++ tr2)). by rewrite <- app_assoc.
  - intros i t Hin. apply (Hc i), elem_of_app. by left.
  - unfold drawn_once in *. rewrite omap_app in Hd. by apply NoDup_app in Hd as [? _].
Qed.

(** C1: the server on its database, started without records, for any requests at the same
    time and whatever the order of their operations: every session, finished login,
    authorization code, access token and refresh token that is ever in the database and
    names an account names one whose passkey has signed before, in one of the requests:
    the challenge of a login, the clock showing the very authentication time of the record;
    or, for a token without an authentication time, the approval of a back-channel
    request. *)
Theorem records_authentic var p st rqs s tr ps s' c i f v a :
  db_ok (db s) -> empty_records db s ->
  steps h env (map (deployed_request header_value_from_str var p st) rqs, s) tr (ps, s') -> clock_fits tr -> drawn_once tr ->
  c ∈ fronts ++ tokens -> doc_at (db s') c i = Some (f, v) -> account_of f = Some a ->
  (exists t, time_of f = Some t /\ login_known p tr a t) \/
  c ∈ tokens /\ time_of f = None /\ exists id, approval_known p tr id a.
Proof.
  intros Hok He Hst Hclk Hone Hc Hi Ha.
  destruct (server_vouched p s tr s') as (_ & Hv & _);
    [done | done | by apply steps_wexec in Hst | by eapply server_sound | done | done|].
  destruct (Hv c i f v) as (Hf & Ht & _); [unfold records; set_solver | done|].
  apply elem_of_app in Hc as [Hc|Hc]; [left; by apply Hf|]. destruct (Ht Hc a Ha) as [?|[? ?]]; auto.
Qed.
End server.

(** ** A process on a database *)

Section process.
Context `{Externals, Services} {B : FsBackend} `{!DocDb B} (net : string -> result string (result string string)).

Definition server_world : Type := world * fido_world.
Definition server_handler : handler appE server_world := fun X e w =>
  match e in appE X return X * server_world with
  | Web o => let '(x, w1) := prov_handler _ o w.1 in (x, (w1, w.2))
  | Conformance o => let '(x, w2) := fido_handler net _ o w.2 in (x, (w.1, w2))
  end.
Definition server_db (w : server_world) : fs_db := w_db w.1.
(** Other processes of the server are threads of the pool; besides them documents expire. *)
Definition server_env (w w' : server_world) : Prop := fades (server_db w) (server_db w').

Lemma fades_refl d : fades d d.
Proof. intros Hok. split; [done|]. intros c i _. by left. Qed.
#[export] Instance server_behind : Behind server_handler server_env server_db.
Proof.
  constructor.
  - intros X o [w1 w2] x w' Hh. simpl in Hh. destruct (fs_handle X o (w_db w1)) as [y d] eqn:He. injection Hh as <- <-. exact He.
  - intros X e [w1 w2] x w' Hr Hh. destruct e as [X o|X o]; simpl in Hh.
    + assert (Hd : w_db (prov_handler _ o w1).2 = w_db w1).
      { destruct o as [X o|X o|X o|t key ttl|t k1 k2|uri kid|to subject html]; simpl.
        - by destruct o.
        - by destruct (mem_op _ o _).
        - by destruct (mem_ciba_op _ _ o _).
        - by destruct (memory_claim _ _ _ _).
        - by destruct (check_and_record _ _ _ _).
        - done.
        - done. }
      destruct (prov_handler _ o w1) as [y w1']. injection Hh as <- <-. unfold server_db. simpl in *. rewrite Hd. apply fades_refl.
    + destruct (fido_handler net _ o w2) as [y w2']. injection Hh as <- <-. apply fades_refl.
  - done.
Qed.
End process.

(** ** A login and a token *)

From S2P Require Import DocTable AdminFacts ProviderFacts PasskeyWitnesses FidoWitnesses.

Section witness.
Definition code_params : AuthParams :=
  mkAuthParams (Some "rp") (Some "https://rp.example/cb") (Some "code") (Some "openid") None None None None None None None None None None.
#[local] Instance server_externals : Externals :=
  sample_externals_with [("get", PasskeyWitnesses.client_data "webauthn.get")] [("", code_params)].
#[local] Instance no_certificates : X509 := sample_x509 (fun s => s) [].
#[local] Existing Instance conformance_codec.
#[local] Existing Instance binary_codec.
#[local] Existing Instance console_codec.
#[local] Existing Instance sample_services.

(** The form of the token request names the code that the second identifier is. *)
#[local] Instance plain_requests : Axum := {|
  match_route patterns path := if list_any (fun q => bool_decide (q = path)) patterns then Some (path, Some "id") else None;
  extract T x rq cap :=
    match x in Extractor T return result Response T with
    | PathParam => Ok (default "" cap)
    | QueryMap => Ok {[ "uid" := "id" ]}
    | JsonAuthVerify => Ok PasskeyWitnesses.request
    | FormMap => Ok (<["grant_type" := "authorization_code"]> (<["code" := rq_body rq]> {[ "redirect_uri" := "https://rp.example/cb" ]}))
    | FormIatMint => Ok (mkIatMintForm "public" "rp.example" "" 24)
    | _ => Err (text_reply 400 "")
    end;
  cookie_jar hs := match header_get "cookie" hs with Some sid => {[ SID_COOKIE := sid ]} | None => ∅ end;
  method_not_allowed ms := Reply 405 [] NoBody;
  without_body r := r
|}.
Definition code_client : Client :=
  mkClient "rp" ["https://rp.example/cb"] "client_secret_basic" (Some (hash_token "s")) ["authorization_code"] [] false [] None false false None.
Definition code_provider : Provider :=
  mkProvider "https://op.te.st" "" sample_signer [] true (fun _ => MemoryNonce) {[ "rp" := code_client ]} []
    (register_grant AuthorizationCodeGrant ∅) (register_auth ClientSecretBasic ∅) {[ "query" := QueryMode ]} [].
Definition no_variables : Env := fun _ => None.
Definition traced : string * string := ("x-request-id", "r-1").
Definition flow : list Request :=
  [mkRequest "GET" "/authorize" None [traced] "";
   mkRequest "POST" "/login/{uid}/passkey/verify" None [traced] "";
   mkRequest "GET" "/authorize/resume" None [traced] "";
   mkRequest "POST" "/token" None [traced; ("authorization", "Basic rp:s")] "id11"].
Definition flow_world (t : Table) : server_world :=
  (@mkWorld table_backend (1010 * NS) 0 0 t MemoryStore_default MemoryCibaStore_default
     (fun _ => ∅) (fun _ => CibaRateLimiter_new (60 * NS) 5),
   mkFidoWorld (1010 * NS) 0 MemInner_default MdsState_default).
Definition flow_start : server_world := flow_world (known_tables Auth "id").
Definition pool_of (rqs : list Request) : list (prog appE Traced) :=
  map (deployed_request (fun _ => true) no_variables code_provider (FidoState_from_env no_variables)) rqs.
Definition flow_pool := pool_of flow.
Definition flow_handler := @server_handler server_externals sample_services table_backend revocations.
Definition flow_trace := turns_trace flow_handler 0 flow_pool flow_start.
Definition flow_end := turns_end flow_handler flow_pool flow_start.

(** The access token at the end. *)
Definition flow_token : Value := default Null (fst <$> table_at (server_db flow_end) "accessTokens" "id111").

Definition clock_answer (ev : event appE) : option Z :=
  match ev with
  | Ev _ e x => match e in appE X return X -> option Z with
                | Web o => match o in provE X return X -> option Z with
                           | SysOp s => match s in sysE X return X -> option Z with NowSecs => Some | _ => fun _ => None end
                           | _ => fun _ => None
                           end
                | Conformance _ => fun _ => None
                end x
  | EvEnv => None
  end.
Lemma clock_checked T : forallb (fun t => (0 <=? t) && (t <? 2 ^ 64)) (omap clock_answer T) = true -> clock_fits T.
Proof.
  intros Hb i t Hin. rewrite forallb_forall in Hb.
  assert (Ht : t ∈ omap clock_answer T) by (apply list_elem_of_omap; by exists (Ev i (Web (SysOp NowSecs)) t)).
  apply list_elem_of_In, Hb in Ht. unfold in_u64, u64_max. lia.
Qed.
Lemma flow_tables_ok : table_ok (known_tables Auth "id").
Proof. apply write_ok; [apply write_ok; [apply empty_table_ok|]|]; by eexists. Qed.
Lemma write_no_record c0 i0 f t c i : bool_decide (c0 ∈ records) = false -> c ∈ records ->
  table_at t c i = None -> table_at (write c0 i0 f t) c i = None.
Proof.
  intros Hb Hc Ht. apply bool_decide_eq_false in Hb. unfold table_at, write. cbn [tb_docs].
  rewrite lookup_insert_ne; [exact Ht | congruence].
Qed.
Lemma flow_records_empty : empty_records server_db flow_start.
Proof. intros c i Hc. by do 2 (apply write_no_record; [by vm_compute | done|]). Qed.
Lemma records_authentic_witness :
  (exists t, time_of flow_token = Some t /\ login_known code_provider flow_trace "acc" t) \/
  "accessTokens" ∈ tokens /\ time_of flow_token = None /\ exists id, approval_known code_provider flow_trace id "acc".
Proof.
  destruct (steps_turns flow_handler server_env [] flow_pool flow_start) as [ps Hps].
  refine (records_authentic (fun _ => true) flow_handler server_env server_db no_variables code_provider
    (FidoState_from_env no_variables) flow flow_start flow_trace ps flow_end "accessTokens" "id111" flow_token _ "acc"
    flow_tables_ok flow_records_empty Hps _ _ _ _ _).
  - apply clock_checked. vm_compute. reflexivity.
  - apply (bool_decide_unpack _). vm_compute. exact I.
  - apply (bool_decide_unpack _). vm_compute. exact I.
  - vm_compute. reflexivity.
  - vm_compute. reflexivity.
Defined.
End witness.
