(* ===== verification/ConsoleFacts.v ===== *)
(** * The console of the deployed server

    What only the console changes, changes in a request of an administrator whose passkey
    has signed: the gate of the console ([AdminWebFacts]) and the sessions of the deployed
    server ([Deployment]) together. *)

From S2P Require Import Prelude Prog Json Model Decimal Calendar Firestore Externals Es256 WebAuthn Sys X509 Mds DocStore Nonce Ciba Dcr Claims Accounts AdminStore AdminFacts DcrStore Store FirestoreStore Provider AuthChecks Dpop ClientAuth RequestObject Grants Http FidoStore Fido I18n Fcm Cli Templates Passkey CibaEndpoints Login AdminWeb Authorize Endpoints Registration PasskeyFacts AdminWebFacts App AppFacts Records Provenance Deployment.

#[local] Open Scope Z_scope.

(** The registry of administrators, initial access tokens and their display, and whatever
    deletes a client, an account or what belongs to it. *)
Definition console_only : list mutation :=
  [WritesIn "admins"; WritesIn "dcrTokens"; WritesIn "adminIatFlash"; DeletesIn "adminIatFlash"; DeletesIn "clients";
   DeletesIn "accounts"; DeletesIn "accountsByUuid"; DeletesIn "profiles"; DeletesIn "fcmTokens"].
Definition console_op {X} (o : fsE X) : bool := match fs_mutation o with Some k => bool_decide (k ∈ console_only) | None => false end.
Definition console_event (ev : event provE) : Prop :=
  match ev with Ev _ e _ => match e with SysOp s => match s with FsOp o => console_op o = true | _ => False end | _ => False end | EvEnv => False end.

Section console.
Context `{Externals, AdminCodec, IatCodec} (p : Provider).

Definition listed_in (d : option (Value * string)) (account : string) : bool :=
  listed account (match d with Some (f, _) => parse_entries f | None => [] end).
(** The thread has read a session and the registry, which lists the account of the session. *)
Definition admin_read (pre : trace) (a : string) : Prop :=
  (exists sid g, doc_read pre "sessions" sid g /\ field_string g "accountId" = a) /\
  exists j d, Ev j (SysOp (FsOp (GetDocWithUpdateTime REGISTRY_COL REGISTRY_ID))) (Ok d) ∈ pre /\ listed_in d a = true.

Definition gate_known (pre : trace) X (e : provE X) : Prop :=
  match e with SysOp s => match s with FsOp o => console_op o = true -> exists jar, administrator p jar pre | _ => True end | _ => True end.
Definition gate_good (pre : trace) (ev : event provE) : Prop :=
  match ev with
  | Ev _ e _ => match e with SysOp s => match s with FsOp o => console_op o = true -> exists a, admin_read pre a | _ => True end | _ => True end
  | EvEnv => True
  end.

Lemma administrator_read pre pre' jar : carried_all pre pre' -> administrator p jar pre -> exists a, admin_read pre' a.
Proof.
  intros Hc (_ & sid & se & i & j & doc & _ & Hs & Hr & Hl). destruct (Hc _ Hs se eq_refl) as (g & Hg & ->).
  exists (field_string g "accountId"). split; [by exists sid, g|]. exists j, doc. split; [exact (Hc _ Hr) | exact Hl].
Qed.

(** The stores keep to their records. *)
Ltac keeps_off :=
  repeat match goal with
    | |- True => exact I
    | |- _ /\ _ => split
    | |- ~ _ => done
    | |- forall _, _ => intros ?
    | |- _ => progress cbn
    | |- _ => progress unfold delete_if_some
    | |- context [match ?x with _ => _ end] => destruct x
    end.
Lemma fs_avoids_gate pre {A} (q : prog sysE A) : fs_avoids (fun X o => console_op o = true) q -> preceded db_op gate_good pre (sys q).
Proof.
  revert pre. induction q as [a|X e k IH]; intros pre; [done|]. intros [He Hk] i x. split; [|by apply IH].
  intros _. destruct e as [| | |X o]; try exact I. simpl. intros Ho. by destruct He.
Qed.
Lemma fs_keep_bind {A B} (q : prog sysE A) (f : A -> prog sysE B) :
  fs_avoids (fun X o => console_op o = true) q -> (forall a, fs_avoids (fun X o => console_op o = true) (f a)) ->
  fs_avoids (fun X o => console_op o = true) (q ≫= f).
Proof. intros Hq Hf. induction q as [a|X e k IH]; [apply Hf|]. destruct Hq as [He Hk]. split; [done|]. intros x. by apply IH. Qed.
Lemma revoke_loop_keeps n cur : fs_avoids (fun X o => console_op o = true) (fss_revoke_loop n cur).
Proof. revert cur. induction n as [|n IH]; intros [t|]; try exact I. split; [done|]. intros r. split; [done|]. intros u. apply IH. Qed.
Lemma store_keeps_off X (o : storeE X) : fs_avoids (fun X o => console_op o = true) (firestore_store_op X o).
Proof.
  destruct o; [keeps_off..|apply revoke_loop_keeps|keeps_off].
Qed.
Lemma sweep_rows_keep t n rows : fs_avoids (fun X o => console_op o = true) (fsc_sweep_rows t n rows).
Proof.
  revert n. induction rows as [|[id f] rows IH]; intros n; [exact I|]. simpl. destruct (bool_decide _); [|apply IH].
  split; [exact I|]. intros now. destruct (br_expired now _); [|apply IH]. split; [done|]. intros r.
  split; [done|]. intros r2. apply IH.
Qed.
Lemma live_rows_keep rows : fs_avoids (fun X o => console_op o = true) (fsc_live_rows rows).
Proof.
  induction rows as [|[id f] rows IH]; [exact I|]. simpl. destruct (bool_decide _); [|apply IH].
  split; [exact I|]. intros now. apply fs_keep_bind; [apply IH|]. intros l. exact I.
Qed.
Lemma ciba_keeps_off X (o : cibaE X) : fs_avoids (fun X o => console_op o = true) (firestore_ciba_op X o).
Proof.
  destruct o; [keeps_off|keeps_off|keeps_off|keeps_off|keeps_off| |keeps_off|keeps_off|].
  - split; [done|]. intros [rows|?]; [|exact I]. cbn [prog_bind prog_bind_go]. apply fs_keep_bind; [apply live_rows_keep|]. intros l. exact I.
  - split; [done|]. intros [rows|?]; [|exact I]. split; [exact I|]. intros t.
    cbn [prog_bind prog_bind_go]. apply fs_keep_bind; [apply sweep_rows_keep|]. intros n. exact I.
Qed.
Lemma gate_op pre pre' X (e : provE X) :
  carried_all pre pre' -> gate_known pre X e -> preceded db_op gate_good pre' (on_database_op X e).
Proof.
  intros Hc He. destruct e as [X o|X o|X o| | | |]; try (intros i x; split; [done | exact I]).
  - intros i x. split; [|exact I]. intros _. destruct o as [| | |X o]; try exact I. simpl. intros Ho.
    destruct (He Ho) as [jar Ha]. by eapply administrator_read.
  - apply fs_avoids_gate, store_keeps_off.
  - apply fs_avoids_gate, ciba_keeps_off.
Qed.

(** ** The routes *)

Definition through_gate (pre : trace) (ev : event provE) : Prop := exists jar, administrator p jar pre.
Lemma console_event_dec ev : console_event ev \/ ~ console_event ev.
Proof.
  destruct ev as [j X e x|]; [|right; intros []]. destruct e as [Y [| | |Y' o]| | | | | |]; try (right; by intros []).
  destruct (console_op o) eqn:Ho; [left; exact Ho | right; simpl; by rewrite Ho].
Qed.
Lemma console_behind_gate ev : console_event ev -> behind_gate ev.
Proof. destruct ev as [j X e x|]; [|done]. destruct e as [Y [| | |Y' o]| | | | | |]; try done. by destruct o. Qed.
Definition no_console (L : list mutation) : bool := forallb (fun k => bool_decide (k ∉ console_only)) L.
Lemma within_apart {A} L (q : prog provE A) : no_console L = true -> within L q -> avoids console_event q.
Proof.
  intros HL. induction q as [a|X e k IH]; [done|]. intros [[He _] Hk] i x. split; [|by apply IH].
  destruct e as [Y [| | |Y' o]| | | | | |]; try (by intros []). simpl in *. unfold console_op. unfold permits in He.
  destruct (fs_mutation o) as [m|]; [|done]. unfold no_console in HL. rewrite forallb_forall in HL.
  apply list_elem_of_In, HL, bool_decide_eq_true in He. by intros ?%bool_decide_eq_true.
Qed.
Lemma preceded_less {A} (D D' : event provE -> Prop) (Good Good' : trace -> event provE -> Prop) pre (q : prog provE A) :
  preceded D Good pre q -> (forall ev, D' ev -> D ev) -> (forall pre ev, Good pre ev -> Good' pre ev) -> preceded D' Good' pre q.
Proof.
  intros Hq Hd Hg. revert pre Hq. induction q as [a|X e k IH]; intros pre Hq; [done|]. intros i x. destruct (Hq i x) as [Hh Hk].
  split; [|by apply IH]. intros He. by apply Hg, Hh, Hd.
Qed.
Lemma gated_route jar (f : string -> prog provE (result Response Response)) :
  preceded console_event through_gate [] (finish (x ←? require_admin p jar; f x)).
Proof. eapply preceded_less; [apply gated | apply console_behind_gate|]. intros pre ev Ha. by exists jar. Qed.
End console.

Section routes.
Context `{Axum, Externals, AdminCodec, IatCodec}.

Lemma with_arg_gated p {T} (x : Extractor T) f rq cap :
  (forall a, preceded console_event (through_gate p) [] (f rq a)) -> preceded console_event (through_gate p) [] (with_arg x f rq cap).
Proof. intros Hf. unfold with_arg. by destruct (extract T x rq cap). Qed.
Lemma with_args_gated p {T U} (x : Extractor T) (y : Extractor U) f rq cap :
  (forall a b, preceded console_event (through_gate p) [] (f rq a b)) -> preceded console_event (through_gate p) [] (with_args x y f rq cap).
Proof. intros Hf. unfold with_args. destruct (extract T x rq cap); [|done]. by destruct (extract U y rq cap). Qed.

Lemma inner_gated p : Forall (fun r => confined r r.1 -> Forall (vetted console_event (through_gate p)) r.2) (inner_routes p).
Proof.
  repeat apply Forall_cons_2; try apply Forall_nil_2; intros Hc; unfold confined in Hc; cbn [fst snd] in Hc |- *;
    repeat (apply Forall_cons in Hc as [Hh Hc]; apply Forall_cons_2;
      [intros rq cap; specialize (Hh rq cap); cbn [fst snd] in Hh |- * | clear Hh]);
    try apply Forall_nil_2;
    first [ solve [eapply avoids_preceded, within_apart; [|exact Hh]; vm_compute; reflexivity]
          | lazymatch goal with
            | |- context [user_delete] => apply with_arg_gated; intros a; apply gated_route
            | |- context [user_grant_admin] => apply with_arg_gated; intros a; apply gated_route
            | |- context [user_revoke_admin] => apply with_arg_gated; intros a; apply gated_route
            | |- context [client_revoke] => apply with_arg_gated; intros a; apply gated_route
            | |- context [iat_mint_submit] => apply with_arg_gated; intros a; apply gated_route
            | |- context [iat_show_once] => apply with_arg_gated; intros a; apply gated_route
            end ].
Qed.
Lemma routes_gated p : Forall (fun r => Forall (vetted console_event (through_gate p)) r.2) (inner_routes p).
Proof.
  pose proof (inner_confined p) as Hc. pose proof (inner_gated p) as Hs. rewrite Forall_forall in Hc, Hs |- *.
  intros r Hr. exact (Hs r Hr (Hc r Hr)).
Qed.
End routes.

(** ** The deployed server *)

Section server.
Context `{Axum, Externals, AdminCodec, IatCodec, !X509, !MdsCodec}.
Context (header_value_from_str : string -> bool).
Context {B : FsBackend} `{!DocDb B} {S : Type} (h : handler appE S) (env : S -> S -> Prop) (db : S -> fs_db) `{!Behind h env db}.

Lemma request_gated var p st rq :
  preceded (on_web db_op) (on_web_good gate_good) [] (deployed_request header_value_from_str var p st rq).
Proof.
  refine (deployed_lowered (gate_known p) gate_good (gate_op p) _ [] [] _ _); [|by intros ev ?%elem_of_nil].
  eapply touching_known; [|apply console_event_dec| |].
  - apply serve_vetted; [|intros i x []|apply routes_gated].
    intros pre pre' ev [jar (Hf & sid & se & i & j & d & ? & ? & ? & ?)] Hs. exists jar. split; [done|].
    exists sid, se, i, j, d. auto.
  - intros pre j X e x _ Hg. destruct e as [Y [| | |Y' o]| | | | | |]; try exact I. by intros _.
  - intros pre j X e x Hn. destruct e as [Y [| | |Y' o]| | | | | |]; try exact I. intros Ho. by destruct Hn.
Qed.

(** C2: the server on its database, for any requests at the same time and whatever the
    order of their operations: the registry of administrators and initial access tokens
    are written, and clients and accounts are deleted, only in a request that has read
    the registry, and for an account that the registry lists and whose passkey has signed
    a login before, in one of the requests. *)
Theorem console_authentic var p st rqs s tr ps s' tr1 i X (o : fsE X) x tr2 :
  db_ok (db s) -> empty_records db s ->
  steps h env (map (deployed_request header_value_from_str var p st) rqs, s) tr (ps, s') -> clock_fits tr -> drawn_once tr ->
  tr = tr1 ++ Ev i (Web (SysOp (FsOp o))) x :: tr2 -> console_op o = true ->
  exists a j d, Ev j (SysOp (FsOp (GetDocWithUpdateTime REGISTRY_COL REGISTRY_ID))) (Ok d) ∈ thread_trace i tr1 /\
    listed_in d a = true /\ (a <> "" -> exists t, login_known p tr1 a t).
Proof.
  intros Hok He Hst Hclk Hone -> Ho.
  assert (Hgate : exists a, admin_read (thread_trace i tr1) a).
  { eapply (pool_good gate_good h env _ s (ps, s') tr1 i _ (SysOp (FsOp o)) x tr2); [|exact Hst|exact I|exact Ho].
    apply Forall_forall. intros q (rq & -> & _)%list_elem_of_fmap. apply request_gated. }
  destruct Hgate as (a & (sid & g & Hg & Ha) & j & d & Hd & Hl). exists a, j, d. split; [done|]. split; [done|]. intros Hne.
  pose proof (server_sound header_value_from_str h env var p st rqs s _ ps s' Hst) as HT.
  apply steps_wexec, wexec_app in Hst as (s1 & Hw & _).
  destruct (trace_prefix p tr1 _ HT Hclk Hone) as (HT1 & Hc1 & Hd1).
  pose proof (server_vouched h env db p s tr1 s1 Hok He Hw HT1 Hc1 Hd1) as Hv.
  destruct Hv as (_ & _ & Hr). destruct (Hr i "sessions" sid g Hg) as [_ Hv]. destruct Hv as [Hf _]; [unfold records; set_solver|].
  destruct (Hf ltac:(by left) a) as (t & _ & Ht); [by apply account_of_string|]. by exists t.
Qed.
End server.

(** ** A token minted at the console *)

From S2P Require Import DocTable ProviderFacts PasskeyWitnesses FidoWitnesses.

Section witness.
#[local] Existing Instance server_externals.
#[local] Existing Instance no_certificates.
#[local] Existing Instance conformance_codec.
#[local] Existing Instance binary_codec.
#[local] Existing Instance console_codec.
#[local] Existing Instance sample_services.
#[local] Existing Instance plain_requests.

Definition mint_flow : list Request :=
  [mkRequest "GET" "/authorize" None [traced] "";
   mkRequest "POST" "/login/{uid}/passkey/verify" None [traced] "";
   mkRequest "POST" "/admin/iats/new" None [traced; ("cookie", "id1")] ""].
Definition mint_start : server_world :=
  flow_world (write REGISTRY_COL REGISTRY_ID (entries_field [mkAdminEntry "acc" "root" 5]) (known_tables Auth "id")).
Definition mint_pool := pool_of mint_flow.
Definition mint_trace := turns_trace flow_handler 0 mint_pool mint_start.
Definition mint_end := turns_end flow_handler mint_pool mint_start.

Lemma mint_tables_ok : db_ok (server_db mint_start).
Proof. apply write_ok; [apply flow_tables_ok | by eexists]. Qed.
Lemma mint_records_empty : empty_records server_db mint_start.
Proof. intros c i Hc. by do 3 (apply write_no_record; [by vm_compute | done|]). Qed.

(** The write of the token is the operation after the first 24. *)
Lemma console_authentic_witness :
  exists a j d, Ev j (SysOp (FsOp (GetDocWithUpdateTime REGISTRY_COL REGISTRY_ID))) (Ok d) ∈ thread_trace 2 (take 24 mint_trace) /\
    listed_in d a = true /\ (a <> "" -> exists t, login_known code_provider (take 24 mint_trace) a t).
Proof.
  destruct (steps_turns flow_handler server_env [] mint_pool mint_start) as [ps Hps].
  eapply (console_authentic (fun _ => true) flow_handler server_env server_db no_variables code_provider
    (FidoState_from_env no_variables) mint_flow mint_start mint_trace ps mint_end (take 24 mint_trace) 2 _ _ _ (drop 25 mint_trace)
    mint_tables_ok mint_records_empty Hps).
  - apply clock_checked. vm_compute. reflexivity.
  - apply (bool_decide_unpack _). vm_compute. exact I.
  - etransitivity; [apply (split_at mint_trace 24); vm_compute; lia|].
    apply (f_equal (fun e => take 24 mint_trace ++ e :: drop 25 mint_trace)). vm_compute. reflexivity.
  - reflexivity.
Defined.
End witness.
